(* ===== verification/_CoqProject ===== *)
-Q . S2P
Prelude.v
Sockets.v
Binary64.v
Rounding.v
Types.v
Registry.v
Threads.v
ServerIO.v
Locking.v
Coordination.v
Interleave.v
FreqAssign.v
ClientHandler.v
Deadlock.v
Exit.v
Replies.v
Files.v
Startup.v
Tsg.v
TimingDriver.v
Dio.v
Dds.v
Receiver.v
Gc4016.v
Gc314.v
CardSetup.v
Collection.v
Exchange.v
ClrSearch.v
Pulses.v
Gps.v
Stamp.v
