(* ===== verification/Prelude.v ===== *)
(** * CVR-ROS: verification development (root file)

    ROS is the radar operating system of a SuperDARN site (src/ros6): a server
    that lets several control programs share the radars of the site, and one
    driver process per piece of hardware.  This library models the server, the
    generator of pulse sequences its clients link with, and the drivers of the
    timing card, the digital I/O card, the transmit synthesizers, the receivers
    (down to the chips of their cards) and the GPS clock.

    ** How the program works

    A control program connects to the server and is served by a thread of its
    own.  It registers a radar and channel, registers pulse sequences, asks for
    a clear frequency and declares itself ready.  When every active program is
    ready the server asks the drivers to prepare (pre-trigger), triggers the
    timing card, collects the data and hands them to the programs
    (post-trigger).  Programs that fall silent are cancelled by a timeout
    thread.  The drivers are servers of the server: they keep the sequences of
    every radar channel, merge those of the ready ones and load the cards.

    ** Files and what they model (paths below src/ros6)

    - Prelude: record update [r <| f := v |>], lists, the automation shared by
      all files, C arithmetic on words.
    - Sockets: [send_data] and [recv_data] of utils.c over an oracle of the
      system calls; the reason why the other files may speak of whole packets.
    - Binary64: the [double] and [float] arithmetic of the program.
    - Rounding: exactness and monotonicity of sums of [double]s.
    - Types: the structs of include/ and tsg/include/tsg.h, and [server], the
      global state of server/main.c; the error monad [SM] of the handlers with
      its faults (null, dangling, out of bounds, arithmetic, protocol).
    - Registry: server/client_handler.c, lines 31-274: the table of radar
      channels, arbitration by priority, creation of a program.
    - Threads: the list of client threads: the accept loop and
      [graceful_cleanup] of server/main.c, server/timeout_handler.c.
    - ServerIO: what the server sends to each driver: server/timing_handler.c,
      dds_handler.c, dio_handler.c, the protocol part of reciever_handler.c.
    - Locking, Deadlock: the order of the mutexes of server/main.c.
    - Coordination: server/coordination_handler.c, the trigger.
    - Interleave: the pre-trigger threads of the four drivers, interleaved.
    - FreqAssign: server/reciever_handler.c, the clear-frequency search and the
      assignment of a frequency.
    - ClientHandler: server/client_handler.c, the loop of a client thread, every
      command of its switch and the exit.
    - Exit, Replies: what an exit releases; what a client is answered.
    - Files: restrict.dat and the frequency table, with the functions of the C
      library that read them.
    - Startup: the initialisation of server/main.c and settings_handler.c.
    - Tsg: tsg/maketsg.c, the timing sequence generator.
    - TimingDriver: timing_tcp_driver/main.c and _decodestate.c.
    - Dio: dio_tcp_driver/main.c, _select_beam.c, _select_card.c,
      _get_status.c, _rxfe_commands.c.
    - Dds: ddsserver_tcp_driver/main.c, timing_sequence.c, ics660_init.c,
      dc60m_init.c and the small routines that command the card.
    - Receiver: gc316_tcp_driver/main.c, gc314SetFilters.c, gc314ChannelAbort.c
      and gc314WaitForData.c: the channels of the receiver cards, the collection
      of samples and the spectrum of a clear-frequency search.
    - Gc4016: gc314FS_driver.1.31/include/_set_GC4016_vals.c, _config_GC4016.c
      and _prog_conventions.c: the register values of a receiver channel and the
      writes that load the chips.
    - Gc314: gc314FS_driver.1.31/main.c, include/_DMA_collect.c,
      _DMA_transfer_sg.c, _set_RDA.c: the driver of a receiver card, its commands
      and the four threads that collect samples by DMA, as a transition system.
    - CardSetup: a pre-trigger from end to end: the commands of Receiver in the
      driver of a card (Gc314), the values of Gc4016 in the memory of its chips.
    - Collection: the collection of a trigger on a card from end to end: the
      set-up (CardSetup), the start of the helpers, their transfers and the answer
      to the client (Gc314).
    - Exchange: what a handler sees while it talks to one driver.
    - ClrSearch: a clear-frequency search from end to end: [receiver_clrfreq] of
      server/reciever_handler.c (FreqAssign) answered by the driver (Receiver).
    - Pulses: a pulse sequence from end to end: made by [TSGMake] (Tsg), sent by
      the timing handlers of the server (ServerIO), read and played by the driver
      (TimingDriver).
    - Gps: gps_tcp_driver: main.c, _get_event_time.c, _get_software_time.c,
      _get_compare_time.c, _refresh_state.c, _isr_handler.c.
    - Stamp: the time of a trigger from end to end: captured by the GPS card,
      read by its driver (Gps), stored by the coordination (Coordination).

    A definition has the name of the C function it translates; the parts of a
    long function have names of their own and are composed in its order.

    ** What the theorems show

    - Trigger: the server fires exactly when all active programs are ready
      ([coordination_waits], [coordination_fires]); the order in which the four
      pre-trigger threads run does not matter ([pretrigger_interleaving]).
    - Concurrency: every client thread respects one order of the mutexes
      ([client_lock_discipline]), hence no circular wait, except through a client
      that was cancelled inside a locked region ([no_circular_wait]): its clean-up
      handler keeps the mutexes it held, and such a circle exists
      ([cancelled_client_deadlocks]).
    - Clients: one answer per command ([one_reply]); a client that never
      registered reaches no driver until it leaves ([unregistered_isolated]),
      while one that lost its channel still does ([lost_channel_still_served]);
      an exit closes the socket, gives back the state and the slots, and sends
      the drivers what it must ([exit_releases]), but keeps [radarinfo] and the
      program itself; a timeout pass removes exactly the clients that are late,
      and the shutdown all of them ([timeout_pass], [cleanup_empties]), when the
      clients they cancel wait for a message.
    - Registry: the loops implement a finite map with the code's own choice of a
      slot for wildcards, the first free slot of the table or none
      ([register_refines], [register_wildcard_refused], [unregister_correct]);
      parameters are arbitrated by priority ([fill_parameters_correct]).
    - Start-up: which of the drivers get what from the configuration file, key by
      key ([startup_configures]).
    - Frequencies: the assigned frequency is a clear one of least smoothed
      power ([assign_frequency_correct]) among those considered
      (the lemma [band_considered]).
    - Sequences: what [TSGMake] writes is, tick by tick, the waveform of its
      parameters ([TSGMake_waveform]) with the transmitter always protected
      ([interlock]); the timing driver unpacks, merges, stamps and plays it
      ([ready_unpacks], [merge_superposes], [pretrigger_report],
      [card_gets_sequence]); the DDS driver turns the sequences of the ready
      clients into the samples and the tuning of its outputs
      ([ready_drops_delay], [pretrigger_transmits]).
    - Receivers: every ready channel is set up as its client asked before the
      triggers go on ([pretrigger_tunes]), and no card is ever set up while
      its trigger is on ([setup_untriggered]).  The spectrum the server keeps
      is the one the driver measured, with the frequencies it is labelled
      with ([search_labels]); when the driver refuses the search the server
      keeps powers of old samples ([refused_search_believed]).
    - Receiver cards: however the clients and the four collecting threads are
      interleaved, as long as nobody sets the samples of the channel or starts a
      collection while its thread runs, the thread programs consecutive blocks
      that cover its samples ([collection_writes]); when only one transfer is under
      way at a time the bridge moves exactly these blocks ([chains_started]), and
      stays in the buffers up to 2^18 samples and not beyond
      ([transfers_in_buffer]); woken in time, the thread ends after a bounded
      number of steps ([helper_ends]); and a client that waits is answered when
      all are joined ([wait_joins]).  Nothing in the code keeps two transfers
      apart, or a setting out of a collection: [shared_dma_channel] is an execution
      in which the samples of a channel are lost, [samples_changed_midway] one that
      reports success with samples missing, and [samples_zero_faults] a division
      by 0.  The registers computed for a channel fit the chip
      ([registers_encode]), follow the settings of the last update
      ([settings_followed], [pretrigger_sets_channels]) and are what the chips
      hold after the load ([chips_configured], [chips_hold_clients]).  Together,
      under the same conditions: a client that is answered 0 has had all its
      samples moved ([client_samples_moved]).
    - From end to end: the times the server keeps as those the transmitters are
      on are those of the pulse pattern of the client ([pulse_times]).  The
      program that fires a trigger is stamped with the calendar time of the
      event the GPS card captured, and only that program
      ([trigger_stamp_is_event]); an event that was not captured goes
      unnoticed ([missed_event_stamps_zero]).
    - GPS: the system clock is set exactly when the card is locked and the clock
      is off by a plausible amount ([clock_disciplined]); the compare registers
      read back what was set ([compare_roundtrip]).
    - Digital I/O: beams, transmitter status and front end
      ([pretrigger_beams], [tx_status_correct], [rxfe_settings_port]); no request
      whose radar and channel are in the tables indexes outside of them, and a
      ready request whose are not does ([dio_handle_safe]).
    - Bytes and files: framing of the sockets and round trips of the text files.
    - The theorems and examples without a claim, at the end of a file, show what
      the code does where it does not do what it means to.

    ** How it is modelled

    - Integers are [Z] with the wrap-around written out where the code relies
      on it; [int] and [long] have 32 bits, as on the targets (QNX and 32-bit
      Linux).  Where both exist the [__QNX__] branches are the model.
    - Memory: blocks the server [malloc]s are keys of finite maps; [free]
      removes the key, and a later use is a fault.  [malloc] succeeds, as the
      code assumes, except in Tsg where the code tests it.
    - Sockets are inboxes of typed packets and a trace of what is sent; a packet
      of another type than the one expected is the fault [Desync].
    - Threads: a handler is a function on the state; the ones the server joins
      at once are calls, and Interleave shows that the four it runs together may
      be read so too.  Locks are events of the trace.  Cancelling a client and
      joining it is a call of its exit, which is what happens to a client that
      waits for a message; a client cancelled while it holds mutexes is a part of
      its trace followed by an exit (Deadlock).  The threads of a receiver
      card share its state without locks: Gc314 is a step relation, a step of a
      thread being one access to the card, and its theorems hold for every
      schedule.
    - What the environment decides (the time, the ini file, mappings,
      uninitialised locals) is the record [Env]; libraries are parameters
      ([qsort], iniparser, the functions of [math.h], the transform of FFTW, the
      answers of the cards and the samples in their buffers).
    - Fuel: the walks over the list of threads take the number of its items,
      the line readers the length of the file, the machine of [TSGMake] the
      number of ticks of its sequence and the interrupt thread the number of
      words; each has a theorem that this is enough.  Executions of Gc314 have
      no fuel: [max_steps] bounds the steps of a thread.  The receiver driver tries
      a collection ten times, as the code does ([max_retries]).

    ** Not modelled

    The set-up of sockets, signals, shared memory and PCI devices, and of the
    boards before their first command (images, clocks); the registers of the
    timing and transmit cards beyond the commands and bytes given to them; the
    status and log threads, which only print; IMAGING mode; the calibration and
    bench programs (rxfe_build_table among them), which use the same port
    commands outside the radar's operation; copies of modelled routines in older
    drivers (gc314_tcp_driver, ics660_drv); FFTW and iniparser, which are
    third-party.  In the receiver driver, the branches for a site without cards
    and the file of raw samples.  Signals, device interrupts and the scheduler
    are reached only through the theorems that hold for every interleaving. *)

From stdpp Require Import base list gmap strings.
From Stdlib Require Import ZArith Lia.

Open Scope Z_scope.

(** ** Functional record update

    [r <| f := v |>] is the record [r] with field [f] replaced: the model of
    the C assignment [r->f = v] on a record value. *)

Class Eta (R : Type) := eta : R → R.

Class Setter {R T : Type} (proj : R → T) := set_field : (T → T) → R → R.

Arguments set_field {R T} proj {_} f r.

Ltac derive_setter :=
  match goal with
  | |- @Setter ?R ?T ?proj =>
      let e := constr:(_ : Eta R) in
      let e := eval hnf in e in
      let e' := eval pattern proj in e in
      match e' with
      | ?k _ =>
          let t := eval cbv beta in
            (fun f : T → T => k (fun r : R => f (proj r))) in
          exact t
      end
  end.

#[export] Hint Extern 0 (Setter _) => derive_setter : typeclass_instances.

Declare Scope cvr_scope.
Delimit Scope cvr_scope with cvr.

Notation "r <| p ::= f |>" := (set_field p f r)
  (at level 1, p at level 10, left associativity) : cvr_scope.
Notation "r <| p := v |>" := (set_field p (fun _ => v) r)
  (at level 1, p at level 10, left associativity) : cvr_scope.

(** ** C integer arithmetic

    A C [int] is a [Z] in range; [i32], [u32], ... are the conversions to the
    width (wrap-around), [quot] and [rem] truncate towards zero as C does. *)

Definition u8 (z : Z) : Z := z mod 2 ^ 8.

Definition u32 (z : Z) : Z := z mod 2 ^ 32.

Definition i16 (z : Z) : Z := (z + 2 ^ 15) mod 2 ^ 16 - 2 ^ 15.

Definition i32 (z : Z) : Z := (z + 2 ^ 31) mod 2 ^ 32 - 2 ^ 31.

Definition int_min : Z := - 2 ^ 31.

Definition int_max : Z := 2 ^ 31 - 1.

Definition is_int (z : Z) : Prop := int_min ≤ z ≤ int_max.

#[export] Instance is_int_dec z : Decision (is_int z).
Proof. unfold is_int. apply _. Defined.

Notation "x &c y" := (Z.land x y) (at level 54, left associativity) : cvr_scope.
Notation "x |c y" := (Z.lor x y) (at level 56, left associativity) : cvr_scope.
Notation "x <<c n" := (Z.shiftl x n) (at level 52, left associativity) : cvr_scope.
Notation "x >>c n" := (Z.shiftr x n) (at level 52, left associativity) : cvr_scope.
Notation "x /c y" := (Z.quot x y) (at level 40, left associativity) : cvr_scope.
Notation "x %c y" := (Z.rem x y) (at level 40, left associativity) : cvr_scope.

Open Scope cvr_scope.

(** The C test [(x & m) == m]. *)
Definition bits_set (x m : Z) : bool := (x &c m) =? m.

(** The C test [x & m] used as a condition. *)
Definition bits_any (x m : Z) : bool := negb ((x &c m) =? 0).

(** ** Faults and the state-and-fault monad

    A [fault] is an execution the C standard gives no meaning to (or a place
    where the process dies).  [M S A] is a computation on a state [S] that
    returns an [A] or faults. *)

Inductive fault :=
  | NullDeref      (** a null or dangling pointer is dereferenced *)
  | OutOfBounds    (** an access outside an array or allocated block *)
  | BadArith       (** a signed operation overflows, or a division by zero *)
  | Desync         (** a peer sent something other than the protocol's next item *)
  | Exits          (** the process ends itself with [exit(EXIT_FAILURE)] *)
  | Uninit         (** an uninitialised variable is read *)
  | OutOfFuel.     (** the fuel of a loop ran out (excluded by theorems) *)

Inductive result (A : Type) :=
  | Ok (a : A)
  | Fault (f : fault).

Arguments Ok {A} a.
Arguments Fault {A} f.

Definition M (S A : Type) : Type := S → result (A * S).

#[export] Instance m_ret S : MRet (M S) := fun A a s => Ok (a, s).

#[export] Instance m_bind S : MBind (M S) := fun A B f m s =>
  match m s with
  | Ok (a, s') => f a s'
  | Fault e => Fault e
  end.

Definition fail {S A} (f : fault) : M S A := fun _ => Fault f.

Definition get_st {S} : M S S := fun s => Ok (s, s).

Definition gets {S A} (f : S → A) : M S A := fun s => Ok (f s, s).

Definition modify {S} (f : S → S) : M S unit := fun s => Ok (tt, f s).

(** [deref f o]: the value of [o], or the fault [f]. *)
Definition deref {S A} (f : fault) (o : option A) : M S A := fun s =>
  match o with
  | Some a => Ok (a, s)
  | None => Fault f
  end.

(** A [for] loop whose body may fault, over an explicit list of indices. *)
Fixpoint for_each {S I} (l : list I) (body : I → M S unit) : M S unit :=
  match l with
  | [] => mret tt
  | i :: l' => body i ≫= fun _ => for_each l' body
  end.

(** The outcome of one iteration of a loop that may [break]. *)
Inductive iter (A : Type) :=
  | Next (a : A)
  | Break (a : A).

Arguments Next {A} a.
Arguments Break {A} a.

(** A [for] loop over the indices [l] that updates the loop variables [A] and
    may leave the loop. *)
Fixpoint for_break {S I A} (l : list I) (body : I → A → M S (iter A)) (acc : A) : M S A :=
  match l with
  | [] => mret acc
  | i :: l' => body i acc ≫= fun r =>
      match r with
      | Next acc' => for_break l' body acc'
      | Break acc' => mret acc'
      end
  end.

(** A [for] loop over the indices [l] that updates the loop variables [A]. *)
Fixpoint for_fold {S I A} (l : list I) (body : I → A → M S A) (acc : A) : M S A :=
  match l with
  | [] => mret acc
  | i :: l' => body i acc ≫= fun acc' => for_fold l' body acc'
  end.

(** Checked signed arithmetic: the result if it is an [int], else a fault; a
    division or remainder by zero faults. *)
Definition int_op {S} (z : Z) : M S Z := fun s =>
  if bool_decide (is_int z) then Ok (z, s) else Fault BadArith.

Definition int_div {S} (a b : Z) : M S Z :=
  if b =? 0 then fail BadArith else int_op (a /c b).

Definition int_rem {S} (a b : Z) : M S Z :=
  if b =? 0 then fail BadArith else int_op (a %c b).

Definition when {S} (b : bool) (m : M S unit) : M S unit :=
  if b then m else mret tt.

(** ** C arrays: lists indexed by [Z], with bounds checks. *)

Definition zget {A} (l : list A) (i : Z) : option A :=
  if decide (0 ≤ i) then l !! Z.to_nat i else None.

Definition zset {A} (l : list A) (i : Z) (v : A) : option (list A) :=
  if decide (0 ≤ i < Z.of_nat (length l)) then Some (<[Z.to_nat i := v]> l)
  else None.

Definition zlen {A} (l : list A) : Z := Z.of_nat (length l).

(** Two-dimensional arrays: lists of rows. *)
Definition look2 {A} (l : list (list A)) (r c : Z) : option A :=
  row ← zget l r; zget row c.

Definition zset2 {A} (l : list (list A)) (r c : Z) (v : A) : option (list (list A)) :=
  row ← zget l r; row ← zset row c v; zset l r row.

Definition get2 {S A} (f : S → list (list A)) (r c : Z) : M S A :=
  l ← gets f; row ← deref OutOfBounds (zget l r); deref OutOfBounds (zget row c).

(** ** Weakest preconditions of the monad *)

Definition wp {S A} (m : M S A) (Q : A → S → Prop) (s : S) : Prop :=
  match m s with
  | Ok (a, s') => Q a s'
  | Fault _ => False
  end.

(** The number of elements that satisfy a test. *)
Fixpoint countb {A} (f : A → bool) (l : list A) : Z :=
  match l with
  | [] => 0
  | x :: l => (if f x then 1 else 0) + countb f l
  end.

(** [ends Q r]: a run that does not exhaust its fuel; [Q] holds of its outcome
    when it is not a fault. *)
Definition ends {S A} (Q : A → S → Prop) (r : result (A * S)) : Prop :=
  match r with
  | Ok (a, s') => Q a s'
  | Fault e => e ≠ OutOfFuel
  end.

Create HintDb cvr.

(** ** Theorems *)

Lemma countb_nonneg {A} (f : A → bool) l : 0 ≤ countb f l.
Proof. induction l as [|x l IH]; simpl; [done|]. destruct (f x); lia. Qed.

Lemma countb_zero {A} (f : A → bool) l : (countb f l =? 0) = negb (existsb f l).
Proof.
  induction l as [|x l IH]; simpl; [done|]. pose proof (countb_nonneg f l).
  destruct (f x); simpl; [|done]. apply Z.eqb_neq. lia.
Qed.

Lemma countb_and {A} (f g : A → bool) l :
  countb (fun x => f x && g x) l ≤ countb f l ∧
  (countb (fun x => f x && g x) l =? countb f l) = forallb (fun x => implb (f x) (g x)) l.
Proof.
  induction l as [|x l [IH1 IH2]]; simpl; [done|].
  destruct (f x), (g x); simpl; rewrite <- ?IH2.
  - split; [lia|]. apply eq_true_iff_eq. rewrite !Z.eqb_eq. lia.
  - split; [lia|]. apply Z.eqb_neq. lia.
  - done.
  - done.
Qed.

Lemma i32_id z : is_int z → i32 z = z.
Proof.
  unfold is_int, int_min, int_max, i32. intros.
  rewrite Z.mod_small; lia.
Qed.

Lemma i32_range z : is_int (i32 z).
Proof.
  unfold is_int, int_min, int_max, i32.
  pose proof (Z.mod_pos_bound (z + 2 ^ 31) (2 ^ 32)). lia.
Qed.

Lemma u8_id z : 0 ≤ z < 256 → u8 z = z.
Proof. intros. apply Z.mod_small. lia. Qed.

Lemma u8_range z : 0 ≤ u8 z < 256.
Proof. apply Z.mod_pos_bound. lia. Qed.

Lemma u32_id z : 0 ≤ z < 2 ^ 32 → u32 z = z.
Proof. intros. apply Z.mod_small. lia. Qed.

Lemma u32_range z : 0 ≤ u32 z < 2 ^ 32.
Proof. apply Z.mod_pos_bound. lia. Qed.

#[export] Hint Resolve i32_id i32_range u8_id u8_range u32_id u32_range : cvr.

Lemma zlen_replicate {A} n (x : A) : 0 ≤ n → zlen (replicate (Z.to_nat n) x) = n.
Proof. intros Hn. unfold zlen. rewrite length_replicate. lia. Qed.

Lemma zget_nat {A} (l : list A) (n : nat) : zget l (Z.of_nat n) = l !! n.
Proof. unfold zget. rewrite decide_True by lia. by rewrite Nat2Z.id. Qed.

Lemma zget_Some_range {A} (l : list A) i x :
  zget l i = Some x → 0 ≤ i < zlen l.
Proof.
  unfold zget, zlen. case_decide; [|done]. intros E%lookup_lt_Some. lia.
Qed.

Lemma zget_range {A} (l : list A) i :
  0 ≤ i < zlen l → ∃ x, zget l i = Some x.
Proof.
  unfold zget, zlen. intros. rewrite decide_True by lia.
  apply lookup_lt_is_Some. lia.
Qed.

Lemma zset_Some {A} (l : list A) i v :
  0 ≤ i < zlen l → zset l i v = Some (<[Z.to_nat i := v]> l).
Proof. unfold zset, zlen. intros. by rewrite decide_True. Qed.

Lemma zset_inv {A} (l l' : list A) i v :
  zset l i v = Some l' → 0 ≤ i < zlen l ∧ l' = <[Z.to_nat i := v]> l.
Proof. unfold zset, zlen. case_decide; naive_solver. Qed.

Lemma zlen_zset {A} (l l' : list A) i v :
  zset l i v = Some l' → zlen l' = zlen l.
Proof. intros [_ ->]%zset_inv. unfold zlen. by rewrite length_insert. Qed.

Lemma zget_zset_eq {A} (l l' : list A) i v :
  zset l i v = Some l' → zget l' i = Some v.
Proof.
  intros [Hi ->]%zset_inv. unfold zget, zlen in *. rewrite decide_True by lia.
  apply list_lookup_insert_eq. lia.
Qed.

Lemma zget_zset_ne {A} (l l' : list A) i j v :
  zset l i v = Some l' → i ≠ j → zget l' j = zget l j.
Proof.
  intros [Hi ->]%zset_inv Hne. unfold zget. case_decide; [|done].
  apply list_lookup_insert_ne. lia.
Qed.

Lemma zget_cons {A} (x : A) l i :
  zget (x :: l) i = if decide (i = 0) then Some x else zget l (i - 1).
Proof.
  unfold zget. destruct (decide (i = 0)) as [->|Hi]; [done|].
  destruct (decide (0 ≤ i)), (decide (0 ≤ i - 1)); try done; try lia.
  by replace (Z.to_nat i) with (S (Z.to_nat (i - 1))) by lia.
Qed.

Lemma zlen_cons {A} (x : A) l : zlen (x :: l) = zlen l + 1.
Proof. unfold zlen. simpl. lia. Qed.

Lemma zlen_app {A} (l1 l2 : list A) : zlen (l1 ++ l2) = zlen l1 + zlen l2.
Proof. unfold zlen. rewrite length_app. lia. Qed.

Lemma zlen_nonneg {A} (l : list A) : 0 ≤ zlen l.
Proof. unfold zlen. lia. Qed.

Lemma zget_app_r {A} (l1 l2 : list A) i :
  0 ≤ i → zget (l1 ++ l2) (zlen l1 + i) = zget l2 i.
Proof.
  intros Hi. unfold zget, zlen. rewrite !decide_True by lia.
  rewrite lookup_app_r by lia. f_equal. lia.
Qed.

Lemma zget_mid {A} (l1 l2 : list A) x : zget (l1 ++ x :: l2) (zlen l1) = Some x.
Proof. rewrite <- (Z.add_0_r (zlen l1)), zget_app_r by lia. done. Qed.

Lemma zset_mid {A} (l1 l2 : list A) x y :
  zset (l1 ++ x :: l2) (zlen l1) y = Some (l1 ++ y :: l2)%list.
Proof.
  rewrite zset_Some by (rewrite zlen_app, zlen_cons; pose proof (zlen_nonneg l1);
    pose proof (zlen_nonneg l2); lia).
  unfold zlen. rewrite Nat2Z.id. f_equal.
  by rewrite insert_app_r_alt, Nat.sub_diag by lia.
Qed.

Lemma zget_map {A B} (f : A → B) l i : zget (map f l) i = f <$> zget l i.
Proof. unfold zget. case_decide; [|done]. apply list_lookup_fmap. Qed.

Lemma seqZ_cons' a n : 0 < n → seqZ a n = a :: seqZ (a + 1) (n - 1).
Proof. intros. rewrite seqZ_cons by lia. f_equal; f_equal; lia. Qed.

(** Weakest-precondition rules; [wp_step] applies them. *)

Lemma wp_ret {S A} (a : A) Q (s : S) : Q a s → wp (mret a) Q s.
Proof. done. Qed.

Lemma wp_bind {S A B} (m : M S A) (f : A → M S B) Q s :
  wp m (fun a => wp (f a) Q) s → wp (m ≫= f) Q s.
Proof. unfold wp, mbind, m_bind. by destruct (m s) as [[a s']|e]. Qed.

Lemma wp_mono {S A} (m : M S A) (Q Q' : A → S → Prop) s :
  wp m Q s → (∀ a s', Q a s' → Q' a s') → wp m Q' s.
Proof. unfold wp. destruct (m s) as [[a s']|e]; naive_solver. Qed.

Lemma wp_get {S} Q (s : S) : Q s s → wp get_st Q s.
Proof. done. Qed.

Lemma wp_gets {S A} (f : S → A) Q s : Q (f s) s → wp (gets f) Q s.
Proof. done. Qed.

Lemma wp_modify {S} (f : S → S) Q s : Q tt (f s) → wp (modify f) Q s.
Proof. done. Qed.

Lemma wp_deref {S A} f (o : option A) a Q (s : S) :
  o = Some a → Q a s → wp (deref f o) Q s.
Proof. intros ->. done. Qed.

Lemma wp_when {S} (b : bool) (m : M S unit) Q s :
  (b = true → wp m Q s) → (b = false → Q tt s) → wp (when b m) Q s.
Proof. destruct b; naive_solver. Qed.

Lemma wp_run {S A} (m : M S A) Q s :
  wp m Q s ↔ ∃ a s', m s = Ok (a, s') ∧ Q a s'.
Proof. unfold wp. destruct (m s) as [[a s']|e]; naive_solver. Qed.

(** The loop rule: an invariant indexed by the iterations still to do. *)
Lemma wp_for_each {S I} (Inv : list I → S → Prop) (l : list I)
    (body : I → M S unit) Q s :
  Inv l s →
  (∀ i l' s', Inv (i :: l') s' → wp (body i) (fun _ => Inv l') s') →
  (∀ s', Inv [] s' → Q tt s') →
  wp (for_each l body) Q s.
Proof.
  intros HI Hbody HQ. revert s HI.
  induction l as [|i l IH]; intros s HI; simpl; [by apply HQ|].
  apply wp_bind. eapply wp_mono; [by apply Hbody|]. intros [] s1 HI1. by apply IH.
Qed.

Lemma wp_for_fold {S I A} (Inv : list I → A → S → Prop) (l : list I)
    (body : I → A → M S A) acc Q s :
  Inv l acc s →
  (∀ i l' a s', Inv (i :: l') a s' → wp (body i a) (Inv l') s') →
  (∀ a s', Inv [] a s' → Q a s') →
  wp (for_fold l body acc) Q s.
Proof.
  intros HI Hbody HQ. revert acc s HI.
  induction l as [|i l IH]; intros acc s HI; simpl; [by apply HQ|].
  apply wp_bind. eapply wp_mono; [by apply Hbody|]. intros a s1 HI1. by apply IH.
Qed.

Lemma wp_for_break {S I A} (Inv : list I → A → S → Prop) (l : list I)
    (body : I → A → M S (iter A)) acc Q s :
  Inv l acc s →
  (∀ i l' a s', Inv (i :: l') a s' →
     wp (body i a) (fun r s'' => match r with
       | Next a' => Inv l' a' s'' | Break a' => Q a' s'' end) s') →
  (∀ a s', Inv [] a s' → Q a s') →
  wp (for_break l body acc) Q s.
Proof.
  intros HI Hbody HQ. revert acc s HI.
  induction l as [|i l IH]; intros acc s HI; simpl; [by apply HQ|].
  apply wp_bind. eapply wp_mono; [by apply Hbody|].
  intros [a|a] s1 HI1; [by apply IH|done].
Qed.

Lemma ends_bind {S A B} (m : M S A) (f : A → M S B) Q s :
  ends (fun a s' => ends Q (f a s')) (m s) → ends Q ((m ≫= f) s).
Proof. unfold ends, mbind, m_bind. by destruct (m s) as [[a s']|e]. Qed.

Lemma ends_mono {S A} (Q Q' : A → S → Prop) r :
  ends Q r → (∀ a s', Q a s' → Q' a s') → ends Q' r.
Proof. destruct r as [[a s']|e]; simpl; auto. Qed.

(** Running a bind: the equations proofs by computation rewrite with. *)
Lemma bind_ok {S A B} (m : M S A) (f : A → M S B) s a s' :
  m s = Ok (a, s') → (m ≫= f) s = f a s'.
Proof. intros E. unfold mbind, m_bind. by rewrite E. Qed.

Lemma bind_fault {S A B} (m : M S A) (f : A → M S B) s e :
  m s = Fault e → (m ≫= f) s = Fault e.
Proof. intros E. unfold mbind, m_bind. by rewrite E. Qed.

Lemma bind_assoc {S A B C} (m : M S A) (f : A → M S B) (g : B → M S C) s :
  ((m ≫= f) ≫= g) s = (m ≫= fun a => f a ≫= g) s.
Proof. unfold mbind, m_bind. by destruct (m s) as [[a s']|e]. Qed.

(** One step of a run: the equations of the primitives under a bind, applied by
    [mrun]. *)
Lemma ret_then {S A B} (a : A) (k : A → M S B) s : (mret a ≫= k) s = k a s.
Proof. done. Qed.

Lemma modify_then {S B} (f : S → S) (k : unit → M S B) s :
  (modify f ≫= k) s = k tt (f s).
Proof. done. Qed.

Lemma gets_then {S A B} (f : S → A) (k : A → M S B) s :
  (gets f ≫= k) s = k (f s) s.
Proof. done. Qed.

Lemma get_st_then {S B} (k : S → M S B) s : (get_st ≫= k) s = k s s.
Proof. done. Qed.

Lemma deref_then {S A B} e (a : A) (k : A → M S B) s :
  (deref e (Some a) ≫= k) s = k a s.
Proof. done. Qed.

Lemma when_true {S} (m : M S unit) : when true m = m.
Proof. done. Qed.

Lemma when_false {S} (m : M S unit) : when false m = mret tt.
Proof. done. Qed.

Ltac mrun_step :=
  first [ rewrite bind_assoc | rewrite ret_then | rewrite modify_then
        | rewrite gets_then | rewrite get_st_then | rewrite deref_then
        | rewrite when_true | rewrite when_false ].

Ltac mrun := repeat (mrun_step; cbn beta iota).

Lemma for_fold_app {S I A} (l1 l2 : list I) (body : I → A → M S A) acc s :
  for_fold (l1 ++ l2) body acc s = (for_fold l1 body acc ≫= for_fold l2 body) s.
Proof.
  revert acc s. induction l1 as [|i l1 IH]; intros acc s; simpl; [done|].
  rewrite bind_assoc. unfold mbind, m_bind. destruct (body i acc s) as [[a s']|e]; [apply IH|done].
Qed.

(** A loop that appends an element per index and leaves the state alone. *)
Lemma for_fold_map {S I B} (l : list I) (body : I → list B → M S (list B)) (f : I → B) s acc :
  (∀ i a, i ∈ l → body i a s = Ok ((a ++ [f i])%list, s)) →
  for_fold l body acc s = Ok ((acc ++ map f l)%list, s).
Proof.
  revert acc. induction l as [|i l IH]; intros acc H.
  - simpl. by rewrite app_nil_r.
  - cbn [for_fold]. rewrite (bind_ok _ _ _ _ _ (H i acc (list_elem_of_here _ _))).
    rewrite IH by (intros j a Hj; apply H; by right). simpl. by rewrite <- app_assoc.
Qed.

Lemma bind_ext {S A B} (m : M S A) (f g : A → M S B) s :
  (∀ a s', f a s' = g a s') → (m ≫= f) s = (m ≫= g) s.
Proof. intros E. unfold mbind, m_bind. by destruct (m s) as [[a s']|e]. Qed.

Lemma bind_inv {S A B} (m : M S A) (f : A → M S B) s b s'' :
  (m ≫= f) s = Ok (b, s'') → ∃ a s', m s = Ok (a, s') ∧ f a s' = Ok (b, s'').
Proof. unfold mbind, m_bind. destruct (m s) as [[a s']|e]; naive_solver. Qed.

Ltac wp_step :=
  lazymatch goal with
  | |- wp (_ ≫= _) _ _ => apply wp_bind
  | |- wp (mret _) _ _ => apply wp_ret
  | |- wp get_st _ _ => apply wp_get
  | |- wp (gets _) _ _ => apply wp_gets
  | |- wp (modify _) _ _ => apply wp_modify
  | |- wp (deref _ _) _ _ => eapply wp_deref
  | |- wp (when _ _) _ _ => apply wp_when; intros
  end.

(** Case analysis of a finite range by evaluation. *)
Lemma forallb_seqZ (f : Z → bool) a n :
  forallb f (seqZ a n) = true → ∀ x, a ≤ x < a + n → f x = true.
Proof.
  rewrite forallb_forall. intros H x Hx. apply H.
  apply list_elem_of_In, elem_of_seqZ. lia.
Qed.

Lemma bits_any_true x i :
  0 ≤ i → bits_any x (2 ^ i) = Z.testbit x i.
Proof.
  intros Hi. unfold bits_any.
  destruct (Z.testbit x i) eqn:E; destruct (Z.eqb_spec (x &c 2 ^ i) 0) as [H|H]; try done.
  - exfalso. apply (f_equal (fun z => Z.testbit z i)) in H.
    rewrite Z.land_spec, E, Z.pow2_bits_true, Z.bits_0 in H by lia. done.
  - exfalso. apply H. apply Z.bits_inj'. intros j Hj.
    rewrite Z.land_spec, Z.pow2_bits_eqb, Z.bits_0 by lia.
    destruct (Z.eqb_spec i j) as [->|]; [by rewrite E|]. apply andb_false_r.
Qed.

Lemma bits_set_testbit x i :
  0 ≤ i → bits_set x (2 ^ i) = Z.testbit x i.
Proof.
  intros Hi. unfold bits_set.
  assert ((x &c 2 ^ i) = if Z.testbit x i then 2 ^ i else 0) as ->.
  { apply Z.bits_inj'. intros j Hj.
    rewrite Z.land_spec, Z.pow2_bits_eqb by lia.
    destruct (Z.eqb_spec i j) as [->|Hne].
    - destruct (Z.testbit x j); [by rewrite Z.pow2_bits_true|by rewrite Z.bits_0].
    - rewrite andb_false_r. destruct (Z.testbit x i);
        [by rewrite Z.pow2_bits_false by lia|by rewrite Z.bits_0]. }
  destruct (Z.testbit x i); [apply Z.eqb_refl|].
  apply Z.eqb_neq. pose proof (Z.pow_pos_nonneg 2 i). lia.
Qed.

(** ** Two-dimensional arrays *)

Lemma get2_run {S A} (f : S → list (list A)) r c v s :
  look2 (f s) r c = Some v → get2 f r c s = Ok (v, s).
Proof.
  unfold look2, get2. intros H. mrun. destruct (zget (f s) r) as [row|]; [|done].
  simpl in H. mrun. by rewrite H.
Qed.

Lemma look2_dims {A} (l : list (list A)) n m r c :
  zlen l = n → Forall (fun row => zlen row = m) l → 0 ≤ r < n → 0 ≤ c < m →
  ∃ v, look2 l r c = Some v.
Proof.
  intros Hn Hm Hr Hc. destruct (zget_range l r) as [row E]; [lia|].
  assert (zlen row = m) as Hrow.
  { rewrite Forall_forall in Hm. apply Hm. unfold zget in E. case_decide; [|done].
    by eapply list_elem_of_lookup_2. }
  destruct (zget_range row c) as [v Ev]; [lia|]. exists v. unfold look2. by rewrite E.
Qed.

(** The update of an entry that exists. *)
Lemma zset2_some {A} (l : list (list A)) r c v x :
  look2 l r c = Some x → ∃ l', zset2 l r c v = Some l' ∧
    zlen l' = zlen l ∧
    (∀ m, Forall (fun row => zlen row = m) l → Forall (fun row => zlen row = m) l') ∧
    ∀ r' c', look2 l' r' c' = if bool_decide (r' = r ∧ c' = c) then Some v else look2 l r' c'.
Proof.
  unfold look2, zset2. destruct (zget l r) as [row|] eqn:Er; [|done]. cbn [mbind option_bind].
  intros Ec. pose proof (zget_Some_range _ _ _ Er) as Hr. pose proof (zget_Some_range _ _ _ Ec) as Hc.
  destruct (zset row c v) as [row'|] eqn:Erow; [|by rewrite zset_Some in Erow].
  cbn [mbind option_bind]. destruct (zset l r row') as [l'|] eqn:El; [|by rewrite zset_Some in El].
  exists l'. split; [done|]. split; [by eapply zlen_zset|]. split.
  - intros m Hm. apply zset_inv in El as [_ ->]. apply Forall_insert; [done|].
    rewrite (zlen_zset _ _ _ _ Erow). rewrite Forall_forall in Hm. apply Hm.
    unfold zget in Er. case_decide; [|done]. by eapply list_elem_of_lookup_2.
  - intros r' c'. destruct (decide (r' = r)) as [->|Hne].
    + rewrite (zget_zset_eq _ _ _ _ El). cbn [mbind option_bind].
      destruct (decide (c' = c)) as [->|Hc'].
      * rewrite bool_decide_true by done. by eapply zget_zset_eq.
      * rewrite bool_decide_false by naive_solver. rewrite (zget_zset_ne _ _ _ _ _ Erow) by done.
        by rewrite Er.
    + rewrite bool_decide_false by naive_solver. by rewrite (zget_zset_ne _ _ _ _ _ El) by done.
Qed.
