(* ===== verification/Sockets.v ===== *)
(** * Sockets: the transfer loops (utils.c)

    [send_data] and [recv_data] loop until the kernel has taken or delivered the
    whole buffer.  What each system call returns is an oracle, a list of counts;
    the theorems hold for every oracle that behaves as the calls are documented
    to (-1, 0, or a count between 1 and the length asked for).  They are what
    lets the rest of the development speak of whole packets: however the stream
    is cut into pieces, a receiver that asks for the lengths the sender sent
    reads the sender's messages. *)

From Stdlib Require Import ZArith Lia Init.Byte.
From stdpp Require Import base list.
From S2P Require Import Prelude.
Open Scope Z_scope.

(** How a call of the loop ends. *)
Inductive transfer :=
  | Returned (ret : Z) (data : list byte) (calls : list Z)
      (** the return value, the bytes moved, the counts left of the oracle *)
  | Waiting (data : list byte).   (** still inside a system call *)

(** The bytes [data] moved before the rest of the loop. *)
Definition moved (data : list byte) (r : transfer) : transfer :=
  match r with
  | Returned ret data' calls => Returned ret (data ++ data') calls
  | Waiting data' => Waiting (data ++ data')
  end.

(** [send_data(fd,buf,buflen)] with [buflen] the length of [buf]: [ccs] is what
    the successive calls of [send] return. *)
Fixpoint send_loop (ccs : list Z) (buf : list byte) (total : Z) : transfer :=
  if 0 <? zlen buf then
    match ccs with
    | [] => Waiting []
    | cc :: ccs =>
        if cc =? -1 then Returned cc [] ccs
        else if cc =? 0 then Returned (-1) [] ccs
        else moved (take (Z.to_nat cc) buf)
               (send_loop ccs (drop (Z.to_nat cc) buf) (i32 (total + cc)))
    end
  else Returned total [] ccs.

Definition send_data (ccs : list Z) (buf : list byte) : transfer := send_loop ccs buf 0.

(** [recv_data(fd,buf,buflen)]: each call of [recv] delivers the next [cc] bytes
    of the stream. *)
Fixpoint recv_loop (ccs : list Z) (stream : list byte) (buflen : Z) (total : Z) : transfer :=
  if 0 <? buflen then
    match ccs with
    | [] => Waiting []
    | cc :: ccs =>
        if cc =? -1 then Returned cc [] ccs
        else if cc =? 0 then Returned (-1) [] ccs
        else moved (take (Z.to_nat cc) stream)
               (recv_loop ccs (drop (Z.to_nat cc) stream) (buflen - cc) (i32 (total + cc)))
    end
  else Returned total [] ccs.

Definition recv_data (ccs : list Z) (stream : list byte) (buflen : Z) : transfer :=
  recv_loop ccs stream buflen 0.

(** ** The documented behaviour of [send] and [recv] *)

(** Calls that transfer: counts between 1 and what is left of the buffer, until
    nothing is left. *)
Inductive transfers : list Z → Z → Prop :=
  | transfers_done : transfers [] 0
  | transfers_call cc ccs n : 1 ≤ cc ≤ n → transfers ccs (n - cc) → transfers (cc :: ccs) n.

(** What the calls may return at all while [n] bytes are left. *)
Fixpoint documented (ccs : list Z) (n : Z) : Prop :=
  match ccs with
  | [] => True
  | cc :: ccs => n = 0 ∨ cc = -1 ∨ cc = 0 ∨ (1 ≤ cc ≤ n ∧ documented ccs (n - cc))
  end.

(** The bytes a sequence of [send_data] calls puts on the stream, one oracle per
    message; a message of which nothing is returned stops the sequence. *)
Fixpoint send_all (calls : list (list Z)) (msgs : list (list byte)) : list byte :=
  match calls, msgs with
  | ccs :: calls, m :: msgs =>
      match send_data ccs m with
      | Returned ret data _ => if ret =? -1 then data else data ++ send_all calls msgs
      | Waiting data => data
      end
  | _, _ => []
  end.

(** The messages a sequence of [recv_data] calls of the given lengths reads. *)
Fixpoint recv_all (calls : list (list Z)) (stream : list byte) (lens : list Z)
    : option (list (list byte)) :=
  match calls, lens with
  | ccs :: calls, n :: lens =>
      match recv_data ccs stream n with
      | Returned ret data _ =>
          if ret =? n then cons data <$> recv_all calls (drop (Z.to_nat n) stream) lens
          else None
      | Waiting _ => None
      end
  | [], [] => Some []
  | _, _ => None
  end.

(** ** Lemmas *)

Lemma transfers_nonneg ccs n : transfers ccs n → 0 ≤ n.
Proof. induction 1; lia. Qed.

Lemma zlen_drop (l : list byte) n : 0 ≤ n ≤ zlen l → zlen (drop (Z.to_nat n) l) = zlen l - n.
Proof. unfold zlen. intros. rewrite length_drop. lia. Qed.

Lemma send_loop_done ccs n : transfers ccs n → ∀ buf rest total,
  zlen buf = n → is_int (total + n) → is_int total →
  send_loop (ccs ++ rest) buf total = Returned (total + n) buf rest.
Proof.
  induction 1 as [|cc ccs n Hcc Hr IH]; intros buf rest total Hn Hi Ht.
  - destruct buf; [|unfold zlen in Hn; simpl in Hn; lia]. simpl.
    destruct rest; simpl; by rewrite Z.add_0_r.
  - cbn [app send_loop]. rewrite Hn, (proj2 (Z.ltb_lt 0 n)) by lia.
    rewrite (proj2 (Z.eqb_neq cc (-1))), (proj2 (Z.eqb_neq cc 0)) by lia.
    pose proof (transfers_nonneg _ _ Hr).
    assert (is_int (total + cc)) by (unfold is_int, int_min, int_max in *; lia).
    rewrite i32_id by done.
    rewrite IH; [|rewrite zlen_drop; lia|by replace (total + cc + (n - cc)) with (total + n) by lia|done].
    simpl. rewrite take_drop. f_equal. lia.
Qed.

Lemma recv_loop_done ccs n : transfers ccs n → ∀ stream rest total,
  n ≤ zlen stream → is_int (total + n) → is_int total →
  recv_loop (ccs ++ rest) stream n total = Returned (total + n) (take (Z.to_nat n) stream) rest.
Proof.
  induction 1 as [|cc ccs n Hcc Hr IH]; intros stream rest total Hn Hi Ht.
  - simpl. destruct rest; simpl; by rewrite Z.add_0_r.
  - cbn [app recv_loop]. rewrite (proj2 (Z.ltb_lt 0 n)) by lia.
    rewrite (proj2 (Z.eqb_neq cc (-1))), (proj2 (Z.eqb_neq cc 0)) by lia.
    pose proof (transfers_nonneg _ _ Hr).
    assert (is_int (total + cc)) by (unfold is_int, int_min, int_max in *; lia).
    rewrite i32_id by done.
    rewrite IH; [|rewrite zlen_drop by lia; lia|by replace (total + cc + (n - cc)) with (total + n) by lia|done].
    simpl. f_equal; [lia|].
    rewrite take_take_drop. f_equal. lia.
Qed.

Lemma recv_all_done rcalls msgs :
  Forall2 (fun ccs m => transfers ccs (zlen m) ∧ zlen m ≤ int_max) rcalls msgs → ∀ more,
  recv_all rcalls (concat msgs ++ more) (map zlen msgs) = Some msgs.
Proof.
  induction 1 as [|ccs m rcalls msgs [Hm Hi] _ IH]; intros more; [done|]. simpl.
  unfold recv_data. rewrite <- (app_nil_r ccs), <- app_assoc.
  pose proof (zlen_nonneg m).
  rewrite (recv_loop_done _ _ Hm); unfold is_int, int_min, int_max in *; try lia.
  2: { rewrite zlen_app. pose proof (zlen_nonneg (concat msgs ++ more)). lia. }
  simpl. rewrite Z.eqb_refl.
  unfold zlen. rewrite Nat2Z.id, take_app_length, drop_app_length. by rewrite IH.
Qed.

Lemma send_all_done scalls msgs :
  Forall2 (fun ccs m => transfers ccs (zlen m) ∧ zlen m ≤ int_max) scalls msgs →
  send_all scalls msgs = concat msgs.
Proof.
  induction 1 as [|ccs m scalls msgs [Hm Hi] _ IH]; [done|]. simpl.
  unfold send_data. rewrite <- (app_nil_r ccs). pose proof (zlen_nonneg m).
  rewrite (send_loop_done _ _ Hm); unfold is_int, int_min, int_max in *; try lia.
  cbn match. rewrite (proj2 (Z.eqb_neq (0 + zlen m) (-1))) by lia. simpl. by rewrite IH.
Qed.

Lemma send_loop_total ccs : ∀ buf total,
  documented ccs (zlen buf) → zlen buf ≤ zlen ccs →
  0 ≤ total → total + zlen buf ≤ int_max →
  ∃ rest, send_loop ccs buf total = Returned (total + zlen buf) buf rest ∨
    ∃ m, 0 ≤ m < zlen buf ∧ send_loop ccs buf total = Returned (-1) (take (Z.to_nat m) buf) rest.
Proof.
  induction ccs as [| cc ccs IH]; intros buf total Hd Hlen Ht Hi.
  - destruct buf; [|unfold zlen in Hlen; simpl in Hlen; lia]. exists []. left. simpl. f_equal. unfold zlen. simpl. lia.
  - destruct (decide (zlen buf = 0)) as [Hz|Hz].
    { destruct buf; [|unfold zlen in Hz; simpl in Hz; lia]. exists (cc :: ccs). left. simpl. f_equal. unfold zlen. simpl. lia. }
    pose proof (zlen_nonneg buf) as Hnn. cbn [send_loop]. rewrite (proj2 (Z.ltb_lt 0 (zlen buf))) by lia.
    destruct Hd as [?|[->|[->|[Hcc Hd]]]]; [lia| | |].
    + exists ccs. right. exists 0. split; [lia|done].
    + exists ccs. right. exists 0. split; [lia|done].
    + rewrite (proj2 (Z.eqb_neq cc (-1))), (proj2 (Z.eqb_neq cc 0)) by lia.
      rewrite i32_id by (unfold is_int, int_min, int_max in *; lia).
      rewrite zlen_cons in Hlen. pose proof (zlen_drop buf cc ltac:(lia)) as Hdr.
      destruct (IH (drop (Z.to_nat cc) buf) (total + cc)) as (rest & [E|(m & Hm & E)]);
        rewrite ?Hdr; try lia; [done| |]; exists rest; rewrite E; simpl.
      * left. rewrite take_drop, Hdr. f_equal. lia.
      * right. exists (cc + m). split; [lia|]. rewrite take_take_drop. do 2 f_equal. lia.
Qed.

(** ** Properties *)

(** C38: framing: however the kernel cuts the sends of a sequence of messages
    and the receives of their lengths into pieces, the receiver reads exactly
    the messages the sender sent, in order and with the same boundaries, and
    whatever follows them stays on the stream. *)
Theorem framing_roundtrip scalls rcalls msgs more :
  Forall2 (fun ccs m => transfers ccs (zlen m) ∧ zlen m ≤ int_max) scalls msgs →
  Forall2 (fun ccs m => transfers ccs (zlen m) ∧ zlen m ≤ int_max) rcalls msgs →
  recv_all rcalls (send_all scalls msgs ++ more) (map zlen msgs) = Some msgs ∧
  drop (length (concat msgs)) (send_all scalls msgs ++ more) = more.
Proof.
  intros Hs Hr. rewrite (send_all_done _ _ Hs). split; [by apply recv_all_done|apply drop_app_length].
Qed.

(** [send_data] returns after at most as many system calls as there are
    bytes, whatever the kernel answers: with the length and the whole buffer
    sent, or with -1 and a proper prefix of it. *)
Theorem send_data_terminates ccs buf :
  documented ccs (zlen buf) → zlen buf ≤ zlen ccs → zlen buf ≤ int_max →
  ∃ rest, send_data ccs buf = Returned (zlen buf) buf rest ∨
    ∃ m, 0 ≤ m < zlen buf ∧ send_data ccs buf = Returned (-1) (take (Z.to_nat m) buf) rest.
Proof. intros Hd Hl Hi. apply (send_loop_total ccs buf 0); [done|done|lia|done]. Qed.

(** ** Witnesses *)

Lemma framing_roundtrip_witness :
  recv_all [[1; 2]; [2]] (send_all [[3]; [1; 1]] [[x01; x02; x03]; [x04; x05]] ++ [x06]) [3; 2] =
    Some [[x01; x02; x03]; [x04; x05]] ∧
  drop 5 (send_all [[3]; [1; 1]] [[x01; x02; x03]; [x04; x05]] ++ [x06]) = [x06].
Proof.
  refine (framing_roundtrip [[3]; [1; 1]] [[1; 2]; [2]] [[x01; x02; x03]; [x04; x05]] [x06] _ _).
  - constructor; [|constructor; [|constructor]]; (split; [|vm_compute; discriminate]);
      repeat (apply transfers_call; [vm_compute; split; discriminate|]); constructor.
  - constructor; [|constructor; [|constructor]]; (split; [|vm_compute; discriminate]);
      repeat (apply transfers_call; [vm_compute; split; discriminate|]); constructor.
Defined.

Lemma send_data_terminates_witness :
  ∃ rest, send_data [1; 0; 5] [x01; x02; x03] = Returned 3 [x01; x02; x03] rest ∨
    ∃ m, 0 ≤ m < 3 ∧ send_data [1; 0; 5] [x01; x02; x03] = Returned (-1) (take (Z.to_nat m) [x01; x02; x03]) rest.
Proof.
  refine (send_data_terminates [1; 0; 5] [x01; x02; x03] _ _ _).
  - right. right. right. split; [split; vm_compute; discriminate|]. right. right. left. done.
  - reflexivity.
  - vm_compute. discriminate.
Defined.
