(* ===== verification/Binary64.v ===== *)
(** * Binary64: the C [double] and [float] arithmetic of the program

    Numbers are the Standard Library's [spec_float] (IEEE 754 without NaN
    payloads); the operations round to nearest even, as the target does.
    The comparison is shown to be a total preorder on the numbers that are not
    NaN, through a key in the lexicographic order. *)

From Stdlib Require Import SpecFloat.
From S2P Require Import Prelude.
From stdpp Require Import base list.
From Stdlib Require Import ZArith Lia.
Open Scope Z_scope.

(** A C [double] (and a C [float], whose values are a subset). *)
Definition double : Type := spec_float.

Definition dzero : double := S754_zero false.

(** [d_of_int n]: the conversion of an integer to [double]. *)
Definition d_of_int (n : Z) : double := binary_normalize 53 1024 n 0 false.

(** [f_of_int n]: the conversion of an integer to [float]. *)
Definition f_of_int (n : Z) : double := binary_normalize 24 128 n 0 false.

Definition dadd : double → double → double := SFadd 53 1024.

Definition dsub : double → double → double := SFsub 53 1024.

Definition ddiv : double → double → double := SFdiv 53 1024.

Definition dmul : double → double → double := SFmul 53 1024.

Definition fmul : double → double → double := SFmul 24 128.

Definition fadd : double → double → double := SFadd 24 128.

Definition fsub : double → double → double := SFsub 24 128.

Definition fdiv : double → double → double := SFdiv 24 128.

(** [d_lit m n]: the literal [m]E-[n]; both numbers are exact for [m] below
    2^53 and [n] up to 22, so that the quotient is the literal's rounding. *)
Definition d_lit (m n : Z) : double := ddiv (d_of_int m) (d_of_int (10 ^ n)).

(** [double] to [float] (rounds) and [float] to [double] (exact): the value is
    brought to the canonical mantissa of the width. *)
Definition renormalize (prec emax : Z) (x : double) : double :=
  match x with
  | S754_finite s m e => binary_normalize prec emax (cond_Zopp s (Zpos m)) e s
  | _ => x
  end.

Definition to_float : double → double := renormalize 24 128.

Definition of_float : double → double := renormalize 53 1024.

(** [d_floor]: the largest integer not above a finite number. *)
Definition d_floor (x : double) : option Z :=
  match x with
  | S754_zero _ => Some 0
  | S754_finite s m e => Some (Z.shiftl (cond_Zopp s (Zpos m)) e)
  | _ => None
  end.

(** [d_ceil]: the smallest integer not below a finite number. *)
Definition d_ceil (x : double) : option Z :=
  match d_floor (SFopp x) with
  | Some z => Some (- z)
  | None => None
  end.

(** The library's [ceil]; an infinity or NaN is its own. *)
Definition d_ceiling (x : double) : double :=
  match d_ceil x with Some z => d_of_int z | None => x end.

(** The truncating conversion to an integer; NaN and the infinities have none. *)
Definition d_trunc (x : double) : option Z :=
  match x with
  | S754_finite true _ _ => d_ceil x
  | _ => d_floor x
  end.

(** The conversion of a [double] to [int]; out of range the target's
    instruction gives the smallest [int]. *)
Definition d_to_int (x : double) : Z :=
  match d_trunc x with
  | Some z => if bool_decide (is_int z) then z else int_min
  | None => int_min
  end.

(** [x < y], [x <= y] and [x == y] of C: all false when one side is NaN. *)
Definition dltb : double → double → bool := SFltb.

Definition dleb : double → double → bool := SFleb.

Definition deqb : double → double → bool := SFeqb.

Definition is_nan (x : double) : bool :=
  match x with S754_nan => true | _ => false end.

(** ** The order of the numbers that are not NaN *)

Definition key (x : double) : Z * Z * Z :=
  match x with
  | S754_infinity true => (-2, 0, 0)
  | S754_finite true m e => (-1, - e, Zneg m)
  | S754_zero _ | S754_nan => (0, 0, 0)
  | S754_finite false m e => (1, e, Zpos m)
  | S754_infinity false => (2, 0, 0)
  end.

Definition lex3 (a b : Z * Z * Z) : comparison :=
  match a, b with
  | (a1, a2, a3), (b1, b2, b3) =>
      match a1 ?= b1 with
      | Eq => match a2 ?= b2 with Eq => a3 ?= b3 | c => c end
      | c => c
      end
  end.

Definition lex3_le (a b : Z * Z * Z) : Prop :=
  match a, b with
  | (a1, a2, a3), (b1, b2, b3) =>
      a1 < b1 ∨ (a1 = b1 ∧ (a2 < b2 ∨ (a2 = b2 ∧ a3 ≤ b3)))
  end.

(** ** Theorems *)

Lemma lex3_spec a b :
  match lex3 a b with
  | Eq => a = b
  | Lt => lex3_le a b ∧ ¬ lex3_le b a
  | Gt => lex3_le b a ∧ ¬ lex3_le a b
  end.
Proof.
  destruct a as [[a1 a2] a3], b as [[b1 b2] b3]; simpl.
  destruct (Z.compare_spec a1 b1) as [->| |]; [|lia|lia].
  destruct (Z.compare_spec a2 b2) as [->| |]; [|lia|lia].
  destruct (Z.compare_spec a3 b3) as [->| |]; [done|lia|lia].
Qed.

Lemma lex3_le_trans a b c : lex3_le a b → lex3_le b c → lex3_le a c.
Proof. destruct a as [[]], b as [[]], c as [[]]; simpl. lia. Qed.

Lemma lex3_le_total a b : lex3_le a b ∨ lex3_le b a.
Proof. destruct a as [[]], b as [[]]; simpl. lia. Qed.

Lemma compare_key x y :
  is_nan x = false → is_nan y = false →
  SFcompare x y = Some (lex3 (key x) (key y)).
Proof.
  destruct x as [[]|[]| |[] m e], y as [[]|[]| |[] n f]; try done; intros _ _; simpl.
  rewrite (Z.compare_opp e f), (Z.compare_antisym e f).
  by destruct (e ?= f).
Qed.

Lemma dleb_key x y :
  is_nan x = false → is_nan y = false →
  dleb x y = true ↔ lex3_le (key x) (key y).
Proof.
  intros Hx Hy. unfold dleb, SFleb. rewrite compare_key by done.
  pose proof (lex3_spec (key x) (key y)) as H.
  destruct (lex3 (key x) (key y)); [|naive_solver|naive_solver].
  rewrite H. split; [|done]. intros _.
  destruct (lex3_le_total (key y) (key y)); done.
Qed.

Lemma dltb_key x y :
  is_nan x = false → is_nan y = false →
  dltb x y = negb (dleb y x).
Proof.
  intros Hx Hy. destruct (dleb y x) eqn:E.
  - apply dleb_key in E; [|done..]. unfold dltb, SFltb. rewrite compare_key by done.
    pose proof (lex3_spec (key x) (key y)). destruct (lex3 _ _); naive_solver.
  - apply not_true_iff_false in E. rewrite dleb_key in E by done.
    unfold dltb, SFltb. rewrite compare_key by done.
    pose proof (lex3_spec (key x) (key y)) as H. destruct (lex3 _ _); [|done|tauto].
    rewrite H in E. destruct (lex3_le_total (key y) (key y)); done.
Qed.

(** On numbers [dleb] is total and transitive, and a NaN is never below. *)
Lemma dleb_total x y :
  is_nan x = false → is_nan y = false → dleb x y = true ∨ dleb y x = true.
Proof. intros. rewrite !dleb_key by done. apply lex3_le_total. Qed.

Lemma dleb_not_nan x y : dleb x y = true → is_nan x = false ∧ is_nan y = false.
Proof. by destruct x as [[]|[]| |[]], y as [[]|[]| |[]]. Qed.

Lemma dleb_trans x y z : dleb x y = true → dleb y z = true → dleb x z = true.
Proof.
  intros H1 H2. destruct (dleb_not_nan _ _ H1), (dleb_not_nan _ _ H2).
  rewrite dleb_key in * by done. eauto using lex3_le_trans.
Qed.

Lemma dleb_refl x : is_nan x = false → dleb x x = true.
Proof. intros. by destruct (dleb_total x x). Qed.

Lemma deqb_dleb x y : deqb x y = dleb x y && dleb y x.
Proof.
  destruct (is_nan x) eqn:Hx; [by destruct x|].
  destruct (is_nan y) eqn:Hy; [destruct y; try done; by destruct x as [[]|[]| |[]]|].
  assert (dleb y x = negb (dltb x y)) as -> by (by rewrite dltb_key, negb_involutive).
  unfold deqb, dleb, dltb, SFeqb, SFleb, SFltb.
  by destruct (SFcompare x y) as [[]|] eqn:E; rewrite compare_key in E.
Qed.

#[export] Hint Resolve dleb_trans dleb_refl : cvr.
