(* ===== verification/Rounding.v ===== *)
(** * Rounding: exact and monotone sums of [double]s

    What the drivers' loops over [double] counters rely on: integers below 2^53
    are converted, added, subtracted and truncated exactly, a positive sum never
    falls below an integer bound its first operand has reached, and adding a
    fraction of at most a half before the truncation changes nothing. *)

From Stdlib Require Import SpecFloat ZArith Lia.
From stdpp Require Import base list.
From S2P Require Import Prelude Binary64.
Open Scope Z_scope.

(** ** The right shift of a significand *)

Lemma Zdigits2_log2 m : 0 < m → Zdigits2 m = Z.log2 m + 1.
Proof.
  destruct m as [|m|]; try done. intros _. simpl. induction m as [m IH|m IH|]; simpl.
  - rewrite Pos2Z.inj_succ, IH. destruct m; simpl; lia.
  - rewrite Pos2Z.inj_succ, IH. destruct m; simpl; lia.
  - done.
Qed.

Lemma shr_1_m r : 0 ≤ shr_m r → shr_m (shr_1 r) = shr_m r / 2.
Proof.
  destruct r as [[|[p|p|]|p] a b]; simpl; intros H; try done.
  - apply (Z.div_unique _ _ _ 1); lia.
  - apply (Z.div_unique _ _ _ 0); lia.
Qed.

Lemma iter_pos_comm {A} (f : A → A) p x :
  SpecFloat.iter_pos f p (f x) = f (SpecFloat.iter_pos f p x).
Proof. revert x. induction p as [p IH|p IH|]; intros x; simpl; by rewrite ?IH. Qed.

Lemma iter_pos_S {A} (f : A → A) p x :
  SpecFloat.iter_pos f (Pos.succ p) x = f (SpecFloat.iter_pos f p x).
Proof.
  revert x. induction p as [p IH|p IH|]; intros x; simpl; by rewrite ?IH, ?iter_pos_comm.
Qed.

Lemma iter_shr_m p r :
  0 ≤ shr_m r → shr_m (SpecFloat.iter_pos shr_1 p r) = shr_m r / 2 ^ Z.pos p.
Proof.
  intros H. induction p as [|p IH] using Pos.peano_ind; [by apply shr_1_m|].
  rewrite iter_pos_S, shr_1_m by (rewrite IH; apply Z.div_pos; [done|apply Z.pow_pos_nonneg; lia]).
  rewrite IH, Z.div_div, Pos2Z.inj_succ, Z.pow_succ_r by (try apply Z.pow_nonzero; lia).
  by rewrite (Z.mul_comm 2).
Qed.

Lemma iter_shr_exact p q :
  0 < q → SpecFloat.iter_pos shr_1 p (Build_shr_record (q * 2 ^ Z.pos p) false false) =
    Build_shr_record q false false.
Proof.
  revert q. induction p as [|p IH] using Pos.peano_ind; intros q Hq.
  - destruct q as [|q|q]; try lia. by rewrite Z.mul_comm.
  - rewrite iter_pos_S, Pos2Z.inj_succ, Z.pow_succ_r by lia.
    rewrite Z.mul_assoc, IH by lia. destruct q as [|q|q]; try lia. by rewrite Z.mul_comm.
Qed.

(** The exponent of the result of [shr_fexp] and its significand. *)
Lemma shr_fexp_floor m e l mrs e' :
  0 ≤ m → shr_fexp 53 1024 m e l = (mrs, e') →
  e' = Z.max e (fexp 53 1024 (Zdigits2 m + e)) ∧ shr_m mrs = m / 2 ^ (e' - e).
Proof.
  intros Hm. unfold shr_fexp, shr. set (f := fexp 53 1024 (Zdigits2 m + e)).
  assert (shr_m (shr_record_of_loc m l) = m) as El by (by destruct l as [|[]]).
  destruct (f - e) as [|p|p] eqn:E; intros [= <- <-].
  - split; [lia|]. by rewrite El, Z.sub_diag, Z.div_1_r.
  - split; [lia|]. rewrite iter_shr_m by lia. rewrite El. do 2 f_equal. lia.
  - split; [lia|]. by rewrite El, Z.sub_diag, Z.div_1_r.
Qed.

(** [reaches B m e]: the number [m * 2^e] is at least the integer [B]. *)
Definition reaches (B m e : Z) : Prop := B * 2 ^ Z.max 0 (- e) ≤ m * 2 ^ Z.max 0 e.

(** Shifting the significand right to the precision keeps an integer bound. *)
Lemma shr_reaches B m e l mrs e' :
  0 < m → B ≤ 2 ^ 53 → reaches B m e → shr_fexp 53 1024 m e l = (mrs, e') →
  reaches B (shr_m mrs) e' ∧ 0 ≤ shr_m mrs.
Proof.
  intros Hm HB HR E. destruct (shr_fexp_floor m e l mrs e') as [He' Hm']; [lia|done|].
  split; [|rewrite Hm'; apply Z.div_pos; [lia|apply Z.pow_pos_nonneg; lia]].
  rewrite Hm'. destruct (Z.eq_dec e' e) as [->|Hne].
  { by rewrite Z.sub_diag, Z.div_1_r. }
  rewrite Zdigits2_log2 in He' by done. unfold fexp, emin in He'.
  destruct (Z.log2_spec m Hm) as [Hlog _]. unfold reaches in *.
  destruct (Z.le_gt_cases e' 0) as [Hle|Hgt].
  - replace (Z.max 0 (- e)) with (- e) in HR by lia. replace (Z.max 0 e) with 0 in HR by lia.
    replace (Z.max 0 (- e')) with (- e') by lia. replace (Z.max 0 e') with 0 by lia.
    rewrite Z.mul_1_r in *. apply Z.div_le_lower_bound; [apply Z.pow_pos_nonneg; lia|].
    replace (2 ^ (e' - e) * (B * 2 ^ (- e'))) with (B * 2 ^ (- e)); [done|].
    replace (- e) with ((e' - e) + (- e')) by lia. rewrite Z.pow_add_r by lia. lia.
  - replace (Z.max 0 (- e')) with 0 by lia. replace (Z.max 0 e') with e' by lia.
    rewrite Z.mul_1_r. assert (2 ^ 52 ≤ m / 2 ^ (e' - e)) as H52.
    { apply Z.div_le_lower_bound; [apply Z.pow_pos_nonneg; lia|].
      rewrite <- Z.pow_add_r by lia. by replace (e' - e + 52) with (Z.log2 m) by lia. }
    assert (2 ^ 1 ≤ 2 ^ e') by (apply Z.pow_le_mono_r; lia). nia.
Qed.

Lemma round_ne_ge m l : m ≤ round_nearest_even m l.
Proof. destruct l as [|[]]; simpl; try lia. destruct (Z.even m); lia. Qed.

(** A canonical positive number that has reached [B], or infinity. *)
Definition at_least (B : Z) (x : double) : Prop :=
  x = S754_infinity false ∨
  ∃ m e, x = S754_finite false m e ∧ Z.pos m < 2 ^ 53 ∧ reaches B (Z.pos m) e.

Lemma pow2_pos k : 0 < 2 ^ Z.max 0 k.
Proof. apply Z.pow_pos_nonneg; lia. Qed.

(** ** Sums of positive numbers *)

(** The two alignments of [binary_round] and [SFadd]. *)
Lemma shl_align_val m e e' m1 e1 :
  shl_align m e e' = (m1, e1) →
  e1 = Z.min e e' ∧ Z.pos m1 = Z.pos m * 2 ^ (e - e1) ∧ e1 ≤ e.
Proof.
  unfold shl_align. destruct (e' - e) as [|p|p] eqn:E; intros [= <- <-].
  - split_and!; try lia. rewrite Z.sub_diag. lia.
  - split_and!; try lia. rewrite Z.sub_diag. lia.
  - split_and!; try lia. replace (e - e') with (Z.pos p) by lia.
    clear. induction p as [|p IH] using Pos.peano_ind; [simpl; lia|].
    rewrite Pos.iter_succ, Pos2Z.inj_succ, Z.pow_succ_r by lia.
    change (Z.pos (Pos.iter xO m p)~0) with (2 * Z.pos (Pos.iter xO m p)). lia.
Qed.

Lemma digits_shift m k : 0 < m → 0 ≤ k → Zdigits2 (m * 2 ^ k) = Zdigits2 m + k.
Proof.
  intros Hm Hk. pose proof (Z.pow_pos_nonneg 2 k).
  rewrite !Zdigits2_log2 by nia. rewrite Z.log2_mul_pow2 by lia. lia.
Qed.

Lemma reaches_shift B m e e1 :
  e1 ≤ e → reaches B m e ↔ reaches B (m * 2 ^ (e - e1)) e1.
Proof.
  intros He. unfold reaches. set (k := e - e1).
  assert (m * 2 ^ k * 2 ^ Z.max 0 e1 * 2 ^ Z.max 0 (- e) =
          m * 2 ^ Z.max 0 e * 2 ^ Z.max 0 (- e1)) as E.
  { rewrite <- !Z.mul_assoc, <- !Z.pow_add_r by lia. do 2 f_equal. lia. }
  pose proof (pow2_pos (- e)). pose proof (pow2_pos (- e1)).
  split; intros H'.
  - apply (Z.mul_le_mono_pos_r _ _ (2 ^ Z.max 0 (- e))); [done|]. nia.
  - apply (Z.mul_le_mono_pos_r _ _ (2 ^ Z.max 0 (- e1))); [done|]. nia.
Qed.

Lemma reaches_mono B m m' e : m ≤ m' → reaches B m e → reaches B m' e.
Proof.
  unfold reaches. intros Hm H. etransitivity; [exact H|].
  apply Z.mul_le_mono_nonneg_r; [|done]. pose proof (pow2_pos e). lia.
Qed.

Lemma reaches_pos B m e : 0 < B → reaches B m e → 0 < m.
Proof.
  unfold reaches. intros HB H. pose proof (Z.mul_pos_pos _ _ HB (pow2_pos (- e))).
  apply (Z.mul_pos_cancel_r m (2 ^ Z.max 0 e)); [apply pow2_pos|lia].
Qed.

Lemma binary_round_at_least B m e :
  B ≤ 2 ^ 53 → 0 < B → reaches B (Z.pos m) e → at_least B (binary_round 53 1024 false m e).
Proof.
  intros HB HB0 HR. unfold binary_round.
  destruct (shl_align m e _) as [m1 e1] eqn:E1. apply shl_align_val in E1 as (_ & Em & He).
  rewrite (reaches_shift _ _ _ e1), <- Em in HR by done. unfold binary_round_aux.
  destruct (shr_fexp 53 1024 (Z.pos m1) e1 loc_Exact) as [r e2] eqn:E2.
  destruct (shr_reaches B (Z.pos m1) e1 loc_Exact r e2) as [HR2 Hr]; [done..|].
  set (m2 := round_nearest_even _ _). pose proof (round_ne_ge (shr_m r) (loc_of_shr_record r)) as Hge.
  fold m2 in Hge. assert (reaches B m2 e2) as HRm by (exact (reaches_mono _ _ _ _ Hge HR2)).
  assert (0 < m2) as Hm2 by (exact (reaches_pos _ _ _ HB0 HRm)).
  destruct (shr_fexp 53 1024 m2 e2 loc_Exact) as [r' e3] eqn:E3.
  destruct (shr_reaches B m2 e2 loc_Exact r' e3) as [HR3 _]; [done..|].
  destruct (shr_fexp_floor m2 e2 loc_Exact r' e3) as [He3 Hm3]; [lia|done|].
  assert (0 < shr_m r') as Hpos by (exact (reaches_pos _ _ _ HB0 HR3)).
  destruct (shr_m r') as [|m3|] eqn:Em3; try lia.
  destruct (e3 <=? 1024 - 53); [|by left]. right. exists m3, e3. split; [done|]. split; [|done].
  rewrite Hm3. rewrite Zdigits2_log2 in He3 by done. unfold fexp, emin in He3.
  destruct (Z.log2_spec m2 Hm2) as [_ Hlog]. apply Z.div_lt_upper_bound; [apply Z.pow_pos_nonneg; lia|].
  rewrite <- Z.pow_add_r by lia. eapply Z.lt_le_trans; [exact Hlog|]. apply Z.pow_le_mono_r; lia.
Qed.

Lemma dadd_at_least B x m e :
  0 < B ≤ 2 ^ 53 → at_least B x → at_least B (dadd x (S754_finite false m e)).
Proof.
  intros HB [->|(mx & ex & -> & Hmx & HR)]; [by left|].
  unfold dadd. cbn [SFadd cond_Zopp]. set (ez := Z.min ex e).
  destruct (shl_align mx ex ez) as [m1 e1] eqn:E1. destruct (shl_align m e ez) as [m2 e2] eqn:E2.
  apply shl_align_val in E1 as (-> & Em1 & _). cbn [fst].
  replace (Z.min ex ez) with ez in Em1 by lia.
  apply (binary_round_at_least B (m1 + m2) ez); [lia|lia|].
  rewrite (reaches_shift _ _ _ ez), <- Em1 in HR by lia.
  eapply reaches_mono; [|exact HR]. lia.
Qed.

(** A bound that is reached is exceeded by [dltb]'s comparison of canonical
    numbers: [k] is the significand of the bound [B] on the exponent [-45]. *)
Lemma at_least_gt B (k : positive) x :
  at_least B x → 2 ^ 53 ≤ B * 2 ^ 46 → Z.pos k < B * 2 ^ 45 →
  dltb (S754_finite false k (-45)) x = true.
Proof.
  intros [->|(m & e & -> & Hm & HR)] HB Hlt; [done|]. unfold reaches in HR.
  assert (-45 ≤ e) as He.
  { destruct (Z.le_gt_cases (-45) e) as [|H]; [done|]. exfalso.
    replace (Z.max 0 (- e)) with (- e) in HR by lia. replace (Z.max 0 e) with 0 in HR by lia.
    assert (2 ^ 46 ≤ 2 ^ (- e)) by (apply Z.pow_le_mono_r; lia). nia. }
  unfold dltb, SFltb, SFcompare. destruct (Z.compare_spec (-45) e) as [<-|H|H]; [|done|lia].
  change (2 ^ Z.max 0 (- -45)) with (2 ^ 45) in HR. change (2 ^ Z.max 0 (-45)) with 1 in HR.
  change (Pos.compare_cont Eq k m) with (k ?= m)%positive.
  by rewrite (proj2 (Pos.compare_lt_iff k m)) by lia.
Qed.

(** ** Exact integers *)

(** [x] is the non-negative integer [n]. *)
Definition represents (x : double) (n : Z) : Prop :=
  (n = 0 ∧ x = S754_zero false) ∨
  (0 < n ∧ ∃ m e, x = S754_finite false m e ∧ e ≤ 0 ∧ Z.pos m = n * 2 ^ (- e)).

Lemma shr_fexp_exact q k e :
  0 < q → 0 ≤ k → fexp 53 1024 (Zdigits2 (q * 2 ^ k) + e) = e + k →
  shr_fexp 53 1024 (q * 2 ^ k) e loc_Exact = (Build_shr_record q false false, e + k).
Proof.
  intros Hq Hk E. unfold shr_fexp, shr, shr_record_of_loc. rewrite E. replace (e + k - e) with k by lia.
  destruct k as [|p|p]; [|by rewrite iter_shr_exact|lia].
  by rewrite Z.pow_0_r, Z.mul_1_r, Z.add_0_r.
Qed.

Lemma binary_round_exact m e n :
  e ≤ 0 → Z.pos m = n * 2 ^ (- e) → 0 < n < 2 ^ 53 →
  represents (binary_round 53 1024 false m e) n.
Proof.
  intros He Em Hn. set (f := Z.log2 n + 1 - 53).
  assert (-52 ≤ f ≤ 0) as Hf.
  { pose proof (Z.log2_nonneg n). assert (Z.log2 n < 53) by (apply Z.log2_lt_pow2; lia). lia. }
  assert (∀ j, j ≤ 0 → fexp 53 1024 (Zdigits2 (n * 2 ^ (- j)) + j) = f) as Ef.
  { intros j Hj. rewrite digits_shift, Zdigits2_log2 by lia. unfold fexp, emin. lia. }
  unfold binary_round. change (Z.pos (digits2_pos m)) with (Zdigits2 (Z.pos m)).
  rewrite Em, Ef by done. destruct (shl_align m e f) as [m1 e1] eqn:E1.
  apply shl_align_val in E1 as (He1 & Em1 & Hle).
  assert (Z.pos m1 = (n * 2 ^ (- f)) * 2 ^ (f - e1)) as E.
  { rewrite Em1, Em, <- !Z.mul_assoc, <- !Z.pow_add_r by lia. do 2 f_equal. lia. }
  assert (0 < n * 2 ^ (- f)) as Hpos by (pose proof (Z.pow_pos_nonneg 2 (- f)); nia).
  unfold binary_round_aux. rewrite E, shr_fexp_exact; [|done|lia|].
  2: { rewrite <- Z.mul_assoc, <- Z.pow_add_r by lia.
       replace (- f + (f - e1)) with (- e1) by lia. rewrite Ef by lia. lia. }
  cbn [shr_m loc_of_shr_record round_nearest_even]. replace (e1 + (f - e1)) with f by lia.
  pose proof (shr_fexp_exact (n * 2 ^ (- f)) 0 f Hpos ltac:(lia)) as H.
  rewrite Z.pow_0_r, Z.mul_1_r, Z.add_0_r in H. rewrite H by (by rewrite Ef by lia).
  cbn [shr_m]. destruct (n * 2 ^ (- f)) as [|m3|] eqn:E3; try lia.
  destruct (Z.leb_spec f (1024 - 53)); [|lia]. right. split; [lia|].
  exists m3, f. split; [done|]. split; [lia|done].
Qed.

Lemma d_of_int_represents n : 0 ≤ n < 2 ^ 53 → represents (d_of_int n) n.
Proof.
  intros Hn. unfold d_of_int. destruct n as [|n|n]; [by left| |lia].
  apply binary_round_exact; [done|simpl; lia|lia].
Qed.

Lemma dadd_represents x y a b :
  represents x a → represents y b → a + b < 2 ^ 53 → represents (dadd x y) (a + b).
Proof.
  intros [[-> ->]|(Ha & m & e & -> & He & Em)] [[-> ->]|(Hb & m' & e' & -> & He' & Em')] Hlt;
    rewrite ?Z.add_0_r, ?Z.add_0_l.
  - by left.
  - right. split; [done|]. by exists m', e'.
  - right. split; [done|]. by exists m, e.
  - unfold dadd. cbn [SFadd cond_Zopp]. set (ez := Z.min e e').
    destruct (shl_align m e ez) as [m1 e1] eqn:E1. destruct (shl_align m' e' ez) as [m2 e2] eqn:E2.
    apply shl_align_val in E1 as (-> & Em1 & _). apply shl_align_val in E2 as (-> & Em2 & _).
    cbn [fst]. replace (Z.min e ez) with ez in Em1 by lia. replace (Z.min e' ez) with ez in Em2 by lia.
    apply (binary_round_exact (m1 + m2) ez); [lia| |lia].
    rewrite Pos2Z.inj_add, Em1, Em2, Em, Em', <- !Z.mul_assoc, <- !Z.pow_add_r by lia.
    replace (- e + (e - ez)) with (- ez) by lia. replace (- e' + (e' - ez)) with (- ez) by lia. lia.
Qed.

Lemma d_to_int_represents x n : represents x n → n ≤ int_max → d_to_int x = n.
Proof.
  intros H Hn. unfold d_to_int. assert (d_trunc x = Some n) as ->.
  { destruct H as [[-> ->]|(Hp & m & e & -> & He & Em)]; [done|]. simpl. f_equal.
    rewrite Z.shiftl_div_pow2 by lia. rewrite Em. apply Z.div_mul, Z.pow_nonzero; lia. }
  rewrite bool_decide_true; [done|]. unfold is_int, int_min. destruct H as [[-> _]|[? _]]; lia.
Qed.

Lemma dsub_represents x y a b :
  represents x a → represents y b → b ≤ a < 2 ^ 53 → represents (dsub x y) (a - b).
Proof.
  intros [[-> ->]|(Ha & m & e & -> & He & Em)] [[-> ->]|(Hb & m' & e' & -> & He' & Em')] Hlt;
    rewrite ?Z.sub_0_r.
  - by left.
  - lia.
  - right. split; [done|]. by exists m, e.
  - unfold dsub. cbn [SFsub cond_Zopp]. set (ez := Z.min e e').
    destruct (shl_align m e ez) as [m1 e1] eqn:E1. destruct (shl_align m' e' ez) as [m2 e2] eqn:E2.
    apply shl_align_val in E1 as (-> & Em1 & _). apply shl_align_val in E2 as (-> & Em2 & _).
    cbn [fst]. replace (Z.min e ez) with ez in Em1 by lia. replace (Z.min e' ez) with ez in Em2 by lia.
    assert (Z.pos m1 - Z.pos m2 = (a - b) * 2 ^ (- ez)) as E.
    { rewrite Em1, Em2, Em, Em', <- !Z.mul_assoc, <- !Z.pow_add_r by lia.
      replace (- e + (e - ez)) with (- ez) by lia. replace (- e' + (e' - ez)) with (- ez) by lia. lia. }
    rewrite E. destruct (Z.eq_dec a b) as [->|Hne].
    + rewrite Z.sub_diag, Z.mul_0_l. by left.
    + assert (0 < (a - b) * 2 ^ (- ez)) by (pose proof (Z.pow_pos_nonneg 2 (- ez)); nia).
      destruct ((a - b) * 2 ^ (- ez)) as [|d|d] eqn:Ed; try lia.
      apply (binary_round_exact d ez); [lia|done|lia].
Qed.

(** ** Truncation of a sum with a fraction *)

Lemma round_ne_le m l : round_nearest_even m l ≤ m + 1.
Proof. destruct l as [|[]]; simpl; try lia. destruct (Z.even m); lia. Qed.

(** [x] is a non-negative number below [n + 1]. *)
Definition below (n : Z) (x : double) : Prop :=
  x = S754_zero false ∨
  ∃ m e, x = S754_finite false m e ∧ e ≤ 0 ∧ Z.pos m < (n + 1) * 2 ^ (- e).

(** A number at most half above [n] is not rounded up to [n + 1]. *)
Lemma binary_round_below m e n :
  e ≤ 0 → 0 ≤ n < 2 ^ 49 → 2 * Z.pos m ≤ (2 * n + 1) * 2 ^ (- e) →
  below n (binary_round 53 1024 false m e).
Proof.
  intros He Hn Hm. unfold binary_round. change (Z.pos (digits2_pos m)) with (Zdigits2 (Z.pos m)).
  set (f := fexp 53 1024 (Zdigits2 (Z.pos m) + e)).
  assert (f ≤ -3) as Hf.
  { unfold f. rewrite Zdigits2_log2 by done. unfold fexp, emin.
    assert (Z.log2 (Z.pos m) < 50 - e); [|lia]. apply Z.log2_lt_pow2; [done|].
    replace (50 - e) with (50 + - e) by lia. rewrite Z.pow_add_r by lia.
    pose proof (Z.pow_pos_nonneg 2 (- e)). nia. }
  destruct (shl_align m e f) as [m1 e1] eqn:E1. apply shl_align_val in E1 as (He1 & Em1 & Hle).
  unfold binary_round_aux. destruct (shr_fexp 53 1024 (Z.pos m1) e1 loc_Exact) as [r e2] eqn:E2.
  destruct (shr_fexp_floor (Z.pos m1) e1 loc_Exact r e2) as [He2 Hr]; [lia|done|].
  rewrite Em1, digits_shift in He2 by lia.
  replace (Zdigits2 (Z.pos m) + (e - e1) + e1) with (Zdigits2 (Z.pos m) + e) in He2 by lia.
  fold f in He2. replace (Z.max e1 f) with f in He2 by lia. subst e2.
  set (m2 := round_nearest_even _ _).
  pose proof (round_ne_le (shr_m r) (loc_of_shr_record r)) as Hle2. fold m2 in Hle2.
  pose proof (round_ne_ge (shr_m r) (loc_of_shr_record r)) as Hge2. fold m2 in Hge2.
  assert (2 * shr_m r ≤ (2 * n + 1) * 2 ^ (- f)) as Hr2.
  { rewrite Hr. set (k := f - e1). assert (0 < 2 ^ k) by (apply Z.pow_pos_nonneg; lia).
    pose proof (Z.mul_div_le (Z.pos m1) (2 ^ k)) as Hd.
    apply (Z.mul_le_mono_pos_r _ _ (2 ^ k)); [done|].
    assert ((2 * n + 1) * 2 ^ (- f) * 2 ^ k = (2 * n + 1) * 2 ^ (- e) * 2 ^ (e - e1)) as ->.
    { rewrite <- !Z.mul_assoc, <- !Z.pow_add_r by lia. do 2 f_equal. lia. }
    assert (0 < 2 ^ (e - e1)) by (apply Z.pow_pos_nonneg; lia). nia. }
  assert (0 ≤ shr_m r) as Hr0 by (rewrite Hr; apply Z.div_pos; [lia|apply Z.pow_pos_nonneg; lia]).
  destruct (shr_fexp 53 1024 m2 f loc_Exact) as [r' e3] eqn:E3.
  destruct (shr_fexp_floor m2 f loc_Exact r' e3) as [He3 Hm3]; [lia|done|].
  assert (0 < 2 ^ (e3 - f)) as Hk by (apply Z.pow_pos_nonneg; lia).
  destruct (shr_m r') as [|m3|m3] eqn:Em3; [by left| |].
  2: { pose proof (Z.div_pos m2 (2 ^ (e3 - f))). lia. }
  assert (2 ^ 3 ≤ 2 ^ (- f)) as H8 by (apply Z.pow_le_mono_r; lia).
  assert (m2 < (n + 1) * 2 ^ (- f)) as Hm2 by lia.
  assert (e3 ≤ 0) as He3'.
  { rewrite He3. destruct (Z.eq_dec m2 0) as [->|Hne].
    - change (Zdigits2 0) with 0. unfold fexp, emin. lia.
    - rewrite Zdigits2_log2 by lia. unfold fexp, emin.
      assert (Z.log2 m2 < 50 - f); [|lia]. apply Z.log2_lt_pow2; [lia|].
      replace (50 - f) with (50 + - f) by lia. rewrite Z.pow_add_r by lia. nia. }
  destruct (Z.leb_spec e3 (1024 - 53)); [|lia]. right. exists m3, e3. split; [done|]. split; [done|].
  apply (Z.mul_lt_mono_pos_r (2 ^ (e3 - f))); [done|].
  replace ((n + 1) * 2 ^ (- e3) * 2 ^ (e3 - f)) with ((n + 1) * 2 ^ (- f)).
  - pose proof (Z.mul_div_le m2 (2 ^ (e3 - f)) Hk). lia.
  - rewrite <- Z.mul_assoc, <- Z.pow_add_r by lia. do 2 f_equal. lia.
Qed.

Lemma dadd_fraction_bounds x n k ex :
  represents x n → n < 2 ^ 31 → ex ≤ 0 → 2 * Z.pos k ≤ 2 ^ (- ex) →
  below n (dadd x (S754_finite false k ex)) ∧
  (n = 0 ∨ at_least n (dadd x (S754_finite false k ex))).
Proof.
  intros [[-> ->]|(Hp & m & e & -> & He & Em)] Hn Hex Hk.
  - split; [|by left]. right. exists k, ex. split; [done|]. split; [done|].
    pose proof (Z.pow_pos_nonneg 2 (- ex)). lia.
  - unfold dadd. cbn [SFadd cond_Zopp]. set (ez := Z.min e ex).
    destruct (shl_align m e ez) as [m1 e1] eqn:E1. destruct (shl_align k ex ez) as [m2 e2] eqn:E2.
    apply shl_align_val in E1 as (-> & Em1 & _). apply shl_align_val in E2 as (-> & Em2 & _).
    cbn [fst]. replace (Z.min e ez) with ez in Em1 by lia. replace (Z.min ex ez) with ez in Em2 by lia.
    assert (2 ^ (- ez) = 2 ^ (- ex) * 2 ^ (ex - ez)) as Ez
      by (rewrite <- Z.pow_add_r by lia; f_equal; lia).
    assert (0 < 2 ^ (ex - ez)) by (apply Z.pow_pos_nonneg; lia).
    assert (Z.pos m1 = n * 2 ^ (- ez)) as Em1'.
    { rewrite Em1, Em, <- Z.mul_assoc, <- Z.pow_add_r by lia. do 2 f_equal. lia. }
    change (binary_normalize 53 1024 (Z.pos m1 + Z.pos m2) ez false) with
      (binary_round 53 1024 false (m1 + m2) ez).
    split; [|right].
    + apply (binary_round_below (m1 + m2) ez); [lia|lia|]. rewrite Pos2Z.inj_add. nia.
    + apply binary_round_at_least; [lia|done|]. unfold reaches.
      rewrite Z.max_r, Z.max_l, Z.pow_0_r, Pos2Z.inj_add by lia. lia.
Qed.

(** Adding a fraction [k * 2^ex] of at most a half to a non-negative integer and
    truncating gives the integer back. *)
Lemma dadd_fraction x n k ex :
  represents x n → n < 2 ^ 31 → ex ≤ 0 → 2 * Z.pos k ≤ 2 ^ (- ex) →
  d_to_int (dadd x (S754_finite false k ex)) = n.
Proof.
  intros Hx Hn Hex Hk. assert (0 ≤ n) as Hn0 by (destruct Hx as [[-> _]|[? _]]; lia).
  destruct (dadd_fraction_bounds x n k ex Hx Hn Hex Hk) as [Hb Hl].
  destruct Hb as [E|(m & e & E & He & Hm)]; rewrite E in *.
  - destruct Hl as [->|[?|(? & ? & ? & _)]]; done.
  - assert (n * 2 ^ (- e) ≤ Z.pos m) as Hm'.
    { destruct Hl as [->|[?|(m' & e' & [= <- <-] & _ & HR)]]; [lia|done|].
      unfold reaches in HR. rewrite Z.max_r, Z.max_l, Z.pow_0_r in HR by lia. lia. }
    unfold d_to_int. assert (d_trunc (S754_finite false m e) = Some n) as ->.
    { simpl. f_equal. rewrite Z.shiftl_div_pow2 by lia. symmetry.
      apply (Z.div_unique _ _ _ (Z.pos m - n * 2 ^ (- e))); lia. }
    rewrite bool_decide_true; [done|]. unfold is_int, int_min, int_max. lia.
Qed.
