(* ===== verification/Types.v ===== *)
(** * Types: the data structures and the global state of the server

    The structs of include/control_program.h, include/global_server_variables.h
    and tsg/include/tsg.h as records (one field per member, in the order of the
    header), the packets the server exchanges on its sockets, and [server], the
    record of the global variables of server/main.c.  Pointers to the
    [malloc]ed [ControlProgram]s and [Thread_List_Item]s are keys of a finite
    map, [None] is the null pointer and a key that is not in the map is a
    dangling pointer. *)

From Stdlib Require Import ZArith Lia Ascii String.
From stdpp Require Import base list gmap strings.
From S2P Require Import Prelude Binary64.
Open Scope Z_scope.
Open Scope cvr_scope.

(** ** Constants of site.h and global_server_variables.h *)

Definition MAX_RADARS : Z := 2.

Definition MAX_CHANNELS : Z := 4.

Definition MAX_TRANSMITTERS : Z := 16.

Definition MAX_SEQS : Z := 4.

Definition Max_Control_THREADS : Z := 30.

Definition IF_ENABLED : Z := 0.
Definition IF_FREQ : Z := 71000.
Definition FULL_CLR_FREQ_START : Z := 8000.

Definition FULL_CLR_FREQ_END : Z := 20000.

Definition MAX_CLR_WAIT : Z := 0.

(** ** Message types of control_program.h and global_server_variables.h *)

Definition PING : ascii := "="%char.
Definition OKAY : ascii := "^"%char.
Definition QUIT : ascii := "."%char.
Definition SET_RADAR_CHAN : ascii := "R"%char.
Definition SET_INACTIVE : ascii := "a"%char.
Definition SET_ACTIVE : ascii := "A"%char.
Definition GET_SITE_SETTINGS : ascii := "s"%char.
Definition QUERY_INI_SETTING : ascii := "i"%char.
Definition SET_SITE_IFMODE : ascii := "I"%char.
Definition GET_PARAMETERS : ascii := "c"%char.
Definition SET_PARAMETERS : ascii := "C"%char.
Definition REGISTER_SEQ : ascii := "+"%char.
Definition REQUEST_ASSIGNED_FREQ : ascii := ">"%char.
Definition REQUEST_CLEAR_FREQ_SEARCH : ascii := "<"%char.
Definition LINK_RADAR_CHAN : ascii := "L"%char.
Definition SET_READY_FLAG : ascii := "1"%char.
Definition GET_DATA : ascii := "d"%char.

Definition TIMING_REGISTER_SEQ : ascii := "+"%char.
Definition DDS_REGISTER_SEQ : ascii := "+"%char.
Definition CtrlProg_READY : ascii := "1"%char.
Definition CtrlProg_END : ascii := "@"%char.
Definition TIMING_WAIT : ascii := "W"%char.
Definition PRETRIGGER : ascii := "3"%char.
Definition TIMING_TRIGGER : ascii := "4"%char.
Definition TIMING_GPS_TRIGGER : ascii := "G"%char.
Definition POSTTRIGGER : ascii := "5"%char.
Definition RECV_GET_DATA : ascii := "d"%char.
Definition RECV_CLRFREQ : ascii := "C"%char.
Definition DIO_CLRFREQ : ascii := "C"%char.
Definition DIO_RXFE_RESET : ascii := "r"%char.
Definition DIO_GET_TX_STATUS : ascii := "S"%char.
Definition RXFE_SETTINGS : ascii := "R"%char.
Definition GPS_GET_EVENT_TIME : ascii := "e"%char.
Definition GPS_SET_TRIGGER_RATE : ascii := "R"%char.

(** ** Structs *)

Record timeval := mk_timeval { tv_sec : Z; tv_usec : Z }.

Record TRTimes := mk_TRTimes {
  tr_length : Z;
  start_usec : option (list Z);
  duration_usec : option (list Z)
}.

Record SeqPRM := mk_SeqPRM {
  sq_index : Z; sq_len : Z; sq_step : Z; sq_samples : Z; sq_smdelay : Z
}.

Record DataPRM := mk_DataPRM {
  event_secs : Z;
  event_nsecs : Z;
  samples : Z;
  shm_memory : Z;
  data_status : Z;
  frame_header : Z;
  bufnum : Z
}.

Record RadarPRM := mk_RadarPRM { ri_site : Z; ri_radar : Z; ri_channel : Z }.

Record RXFESettings := mk_RXFESettings {
  rx_ifmode : Z; amp1 : Z; amp2 : Z; amp3 : Z; att1 : Z; att2 : Z; att3 : Z; att4 : Z
}.

Record SiteSettings := mk_SiteSettings {
  site_name : string;
  num_radars : Z;
  ifmode : Z;
  rf_settings : RXFESettings;
  if_settings : RXFESettings
}.

Record ControlPRM := mk_ControlPRM {
  radar : Z;
  channel : Z;
  local : Z;
  priority : Z;
  current_pulseseq_index : Z;
  tbeam : Z;
  tbeamcode : Z;
  tbeamazm : double;
  tbeamwidth : double;
  tfreq : Z;
  trise : Z;
  number_of_samples : Z;
  buffer_index : Z;
  baseband_samplerate : double;
  filter_bandwidth : Z;
  match_filter : Z;
  rfreq : Z;
  rbeam : Z;
  rbeamcode : Z;
  rbeamazm : double;
  rbeamwidth : double;
  prm_status : Z;
  name : string;
  description : string
}.

Record CLRFreqPRM := mk_CLRFreqPRM {
  clr_start : Z;
  clr_end : Z;
  clr_filter_bandwidth : double;
  pwr_threshold : double;
  nave : Z
}.

Record TSGprm := mk_TSGprm {
  nrang : Z; frang : Z; rsep : Z; smsep : Z; lagfr : Z; txpl : Z; mppul : Z;
  mpinc : Z; mlag : Z; nbaud : Z; tsg_samples : Z; smdelay : Z; stdelay : Z;
  gort : Z; rtoxmin : Z; pad : Z;
  pat : option (list Z);
  code : option (list Z)
}.

Record TSGbuf := mk_TSGbuf {
  seq_index : Z;
  seq_len : Z;
  seq_step : Z;
  seq_code : list Z;
  seq_rep : list Z
}.

(** One frequency of a clear-frequency search.  The member [freq] is a [double]
    that only ever holds integers of [int] range, which it holds exactly. *)
Record t_fft_index := mk_fft {
  pwr : double; apwr : double; freq : Z; detrend : double; index : Z
}.

Record ControlState := mk_ControlState {
  cancelled : Z;
  socket : Z;
  ready : Z;
  processing : Z;
  linked : Z;
  best_assigned_freq : Z;
  best_assigned_noise : double;
  current_assigned_freq : Z;
  current_assigned_noise : double;
  gpssecond : Z;
  gpsnsecond : Z;
  freq_change_needed : Z;
  tx_sideband : Z;
  rx_sideband : Z;
  fft_N : Z;
  pulseseqs : list (option TSGbuf);
  linked_program : option Z;
  thread : option Z;
  fft_array : option (list t_fft_index)
}.

(** The four sub-structures are allocated with the program and never shared, so
    they are stored in it; [None] is the null pointer [controlprogram_exit]
    leaves behind. *)
Record ControlProgram := mk_ControlProgram {
  state : option ControlState;
  data : option DataPRM;
  clrfreqsearch : CLRFreqPRM;
  parameters : option ControlPRM;
  radarinfo : RadarPRM;       (** a block of its own, that nobody assigns again or frees *)
  main_mem : option Z;
  main_address : Z;
  back_mem : option Z;
  back_address : Z;
  active : Z
}.

Record Thread_List_Item := mk_Thread_List_Item {
  prev : option Z;
  next : option Z;
  thread_id : Z;
  timeout : timeval;
  last_seen : timeval;
  thread_data : option Z
}.

Record ClrPwr := mk_ClrPwr { clr_freq : Z; clr_pwr : double }.

Record BlackList := mk_BlackList { bl_start : Z; bl_end : Z; bl_program : option Z }.

Record tx_status := mk_tx_status {
  LOWPWR : list Z; AGC : list Z; tx_stat : list Z
}.

(** [signal], the positions and the drifts are C floats. *)
Record GPSStatus := mk_GPSStatus {
  gs_hardware : Z; gs_antenna : Z; gs_lock : Z; gps_lock : Z; phase_lock : Z;
  reference_lock : Z; sv : list Z; signal : list double;
  lat : double; lon : double; alt : double; mlat : double; mlon : double; malt : double;
  poscnt : Z; gs_second : Z; gs_nsecond : Z; syssecond : Z; sysnsecond : Z;
  lastsetsec : Z; lastsetnsec : Z; nextcomparesec : Z; nextcomparensec : Z;
  drift : double; mdrift : double; tcpupdate : Z; tcpconnected : Z;
  timecompareupdate : Z; timecompareupdateerror : Z;
  lasttriggersecond : Z; lasttriggernsecond : Z; lasttcpmsg : Z;
  intervalmode : Z; scheduledintervalmode : Z; oneshot : Z;
  settimecomparetime : double; triggermode : Z; ratesynthrate : Z
}.

(** ** Sockets, locks, packets and the trace of the run *)

Inductive sock := SDio | STiming | SDds | SRecv | SGps | SClient (fd : Z).

#[export] Instance sock_eq_dec : EqDecision sock.
Proof. solve_decision. Defined.

Definition sock_code (k : sock) : Z + Z :=
  match k with
  | SDio => inl 0 | STiming => inl 1 | SDds => inl 2 | SRecv => inl 3
  | SGps => inl 4 | SClient fd => inr fd
  end.

Definition sock_decode (c : Z + Z) : option sock :=
  match c with
  | inl 0 => Some SDio | inl 1 => Some STiming | inl 2 => Some SDds
  | inl 3 => Some SRecv | inl 4 => Some SGps | inl _ => None
  | inr fd => Some (SClient fd)
  end.

#[export] Instance sock_countable : Countable sock.
Proof. refine (inj_countable sock_code sock_decode _). by intros []. Defined.

Inductive lock_id :=
  | clr_lock | exit_lock | controlprogram_list_lock | coord_lock
  | settings_lock
  | dio_comm_lock | timing_comm_lock | dds_comm_lock | recv_comm_lock.

#[export] Instance lock_eq_dec : EqDecision lock_id.
Proof. solve_decision. Defined.

(** What one [send_data] or [recv_data] call transfers. *)
Inductive packet :=
  | PDriver (type : ascii) (status : Z)   (** struct DriverMsg *)
  | PRos (type : ascii) (status : Z)      (** struct ROSMsg *)
  | PParams (p : ControlPRM)
  | PInt (z : Z)
  | PChar (c : ascii)
  | PFloat (x : double)
  | PSeqHeader (len step index : Z)       (** struct TSGbuf *)
  | PBytes (l : list Z)
  | PWords (l : option (list Z))          (** an array of 32-bit words, or a null pointer *)
  | PDoubles (l : list double)
  | PSamples (mem : option Z) (n : Z)     (** [n] words of the sample memory *)
  | PData (d : DataPRM)
  | PSeq (q : SeqPRM)
  | PClr (c : CLRFreqPRM)
  | PTx (t : tx_status)
  | PRxfe (r : RXFESettings)
  | PSite (s : SiteSettings)
  | PText (s : string)
  | PGps (g : GPSStatus).

Inductive event :=
  | EvLock (l : lock_id)
  | EvUnlock (l : lock_id)
  | EvSend (k : sock) (p : packet)
  | EvRecv (k : sock) (p : packet)
  | EvClose (k : sock)
  | EvMunmap (addr len : Z)
  | EvSleep (usec : Z)
  | EvCancel (t : Z).   (** pthread_cancel and pthread_join of a client thread *)

(** ** The global variables of server/main.c *)

Record server := mk_server {
  heap : gmap Z ControlProgram;
  radar_channels : list (option Z);
  controlprogram_threads : option Z;
  thread_items : gmap Z Thread_List_Item;
  trigger_state : Z;
  trigger_type : Z;
  ready_state : Z;
  ready_count : Z;
  txstatus : list tx_status;
  txread : list Z;
  site_settings : SiteSettings;
  bad_transmit_times : TRTimes;
  blacklist : option (list BlackList);
  blacklist_count : Z;
  latest_clr_fft : list (list ClrPwr);
  latest_full_clr_time : timeval;
  verbose : Z;
  error_count : Z;
  collection_count : Z;
  inbox : gmap sock (list packet);
  trace : list event
}.

#[export] Instance eta_TRTimes : Eta TRTimes := fun r =>
  mk_TRTimes (tr_length r) (start_usec r) (duration_usec r).
#[export] Instance eta_GPSStatus : Eta GPSStatus := fun r =>
  mk_GPSStatus (gs_hardware r) (gs_antenna r) (gs_lock r) (gps_lock r) (phase_lock r)
    (reference_lock r) (sv r) (signal r) (lat r) (lon r) (alt r) (mlat r) (mlon r)
    (malt r) (poscnt r) (gs_second r) (gs_nsecond r) (syssecond r) (sysnsecond r)
    (lastsetsec r) (lastsetnsec r) (nextcomparesec r) (nextcomparensec r) (drift r)
    (mdrift r) (tcpupdate r) (tcpconnected r) (timecompareupdate r)
    (timecompareupdateerror r) (lasttriggersecond r) (lasttriggernsecond r)
    (lasttcpmsg r) (intervalmode r) (scheduledintervalmode r) (oneshot r)
    (settimecomparetime r) (triggermode r) (ratesynthrate r).
#[export] Instance eta_DataPRM : Eta DataPRM := fun r =>
  mk_DataPRM (event_secs r) (event_nsecs r) (samples r) (shm_memory r)
    (data_status r) (frame_header r) (bufnum r).
#[export] Instance eta_RadarPRM : Eta RadarPRM := fun r =>
  mk_RadarPRM (ri_site r) (ri_radar r) (ri_channel r).
#[export] Instance eta_RXFESettings : Eta RXFESettings := fun r =>
  mk_RXFESettings (rx_ifmode r) (amp1 r) (amp2 r) (amp3 r) (att1 r) (att2 r)
    (att3 r) (att4 r).
#[export] Instance eta_SiteSettings : Eta SiteSettings := fun r =>
  mk_SiteSettings (site_name r) (num_radars r) (ifmode r) (rf_settings r)
    (if_settings r).
#[export] Instance eta_ControlPRM : Eta ControlPRM := fun r =>
  mk_ControlPRM (radar r) (channel r) (local r) (priority r)
    (current_pulseseq_index r) (tbeam r) (tbeamcode r) (tbeamazm r)
    (tbeamwidth r) (tfreq r) (trise r) (number_of_samples r) (buffer_index r)
    (baseband_samplerate r) (filter_bandwidth r) (match_filter r) (rfreq r)
    (rbeam r) (rbeamcode r) (rbeamazm r) (rbeamwidth r) (prm_status r) (name r)
    (description r).
#[export] Instance eta_TSGprm : Eta TSGprm := fun r =>
  mk_TSGprm (nrang r) (frang r) (rsep r) (smsep r) (lagfr r) (txpl r) (mppul r)
    (mpinc r) (mlag r) (nbaud r) (tsg_samples r) (smdelay r) (stdelay r) (gort r)
    (rtoxmin r) (pad r) (pat r) (code r).
#[export] Instance eta_TSGbuf : Eta TSGbuf := fun r =>
  mk_TSGbuf (seq_index r) (seq_len r) (seq_step r) (seq_code r) (seq_rep r).
#[export] Instance eta_CLRFreqPRM : Eta CLRFreqPRM := fun r =>
  mk_CLRFreqPRM (clr_start r) (clr_end r) (clr_filter_bandwidth r)
    (pwr_threshold r) (nave r).
#[export] Instance eta_fft : Eta t_fft_index := fun r =>
  mk_fft (pwr r) (apwr r) (freq r) (detrend r) (index r).
#[export] Instance eta_ControlState : Eta ControlState := fun r =>
  mk_ControlState (cancelled r) (socket r) (ready r) (processing r) (linked r)
    (best_assigned_freq r) (best_assigned_noise r) (current_assigned_freq r)
    (current_assigned_noise r) (gpssecond r) (gpsnsecond r)
    (freq_change_needed r) (tx_sideband r) (rx_sideband r) (fft_N r)
    (pulseseqs r) (linked_program r) (thread r) (fft_array r).
#[export] Instance eta_ControlProgram : Eta ControlProgram := fun r =>
  mk_ControlProgram (state r) (data r) (clrfreqsearch r) (parameters r)
    (radarinfo r) (main_mem r) (main_address r) (back_mem r) (back_address r)
    (active r).
#[export] Instance eta_Thread_List_Item : Eta Thread_List_Item := fun r =>
  mk_Thread_List_Item (prev r) (next r) (thread_id r) (timeout r) (last_seen r)
    (thread_data r).
#[export] Instance eta_ClrPwr : Eta ClrPwr := fun r =>
  mk_ClrPwr (clr_freq r) (clr_pwr r).
#[export] Instance eta_server : Eta server := fun r =>
  mk_server (heap r) (radar_channels r) (controlprogram_threads r)
    (thread_items r) (trigger_state r) (trigger_type r) (ready_state r)
    (ready_count r) (txstatus r) (txread r) (site_settings r)
    (bad_transmit_times r) (blacklist r) (blacklist_count r) (latest_clr_fft r)
    (latest_full_clr_time r) (verbose r) (error_count r) (collection_count r)
    (inbox r) (trace r).

(** The static initial values of the global variables (server/main.c, 26-75):
    zero, or null, unless an initialiser says otherwise. *)
Definition rxfe0 : RXFESettings := mk_RXFESettings 0 0 0 0 0 0 0 0.

Definition tx_status0 : tx_status :=
  mk_tx_status (replicate 16 0) (replicate 16 0) (replicate 16 0).

Definition server0 : server := mk_server ∅ (replicate 8 None) None ∅ 0 0 0 0
  [tx_status0; tx_status0] [0; 0] (mk_SiteSettings EmptyString 0 0 rxfe0 rxfe0)
  (mk_TRTimes 0 None None) None 0 [[]; []] (mk_timeval 0 0) 0 0 0 ∅ [].

(** All-zero blocks, for examples. *)
Definition prm0 : ControlPRM := mk_ControlPRM 0 0 0 0 0 0 0 dzero dzero 0 0 0 0
  dzero 0 0 0 0 0 dzero dzero 0 EmptyString EmptyString.

Definition state0 : ControlState := mk_ControlState 0 0 0 0 0 0 dzero 0 dzero 0 0
  0 0 0 0 [None; None; None; None] None None None.

Definition data0 : DataPRM := mk_DataPRM 0 0 0 0 0 0 0.

Definition clr0 : CLRFreqPRM := mk_CLRFreqPRM 0 0 dzero dzero 0.

Definition cp0 : ControlProgram := mk_ControlProgram (Some state0) (Some data0) clr0
  (Some prm0) (mk_RadarPRM (-1) (-1) (-1)) None 0 None 0 1.

(** ** Primitive operations of the handlers *)

Abbreviation SM := (M server).

Definition emit (e : event) : SM unit := modify (fun s => s <| trace ::= fun t => (t ++ [e])%list |>).

Definition lock (l : lock_id) : SM unit := emit (EvLock l).

Definition unlock (l : lock_id) : SM unit := emit (EvUnlock l).

Definition send (k : sock) (p : packet) : SM unit := emit (EvSend k p).

(** [recv k]: the next packet of the peer's stream. *)
Definition recv (k : sock) : SM packet := fun s =>
  match inbox s !! k with
  | Some (p :: rest) =>
      Ok (p, s <| inbox ::= <[k := rest]> |>
               <| trace ::= fun t => (t ++ [EvRecv k p])%list |>)
  | _ => Fault Desync
  end.

Definition recv_driver (k : sock) : SM (ascii * Z) :=
  recv k ≫= fun p => match p with PDriver t z => mret (t, z) | _ => fail Desync end.

Definition recv_ros (k : sock) : SM (ascii * Z) :=
  recv k ≫= fun p => match p with PRos t z => mret (t, z) | _ => fail Desync end.

Definition recv_int (k : sock) : SM Z :=
  recv k ≫= fun p => match p with PInt z => mret z | _ => fail Desync end.

(** Reading and writing through a [ControlProgram] pointer. *)
Definition get_cp (a : Z) : SM ControlProgram := fun s =>
  match heap s !! a with
  | Some cp => Ok (cp, s)
  | None => Fault NullDeref
  end.

Definition set_cp (a : Z) (cp : ControlProgram) : SM unit :=
  modify (fun s => s <| heap ::= <[a := cp]> |>).

Definition get_params (a : Z) : SM ControlPRM :=
  get_cp a ≫= fun cp => deref NullDeref (parameters cp).

Definition get_state (a : Z) : SM ControlState :=
  get_cp a ≫= fun cp => deref NullDeref (state cp).

(** [upd_state a f]: assignments to members of [a->state]. *)
Definition upd_state (a : Z) (f : ControlState → ControlState) : SM unit :=
  get_cp a ≫= fun cp => deref NullDeref (state cp) ≫= fun st =>
  set_cp a (cp <| state := Some (f st) |>).

(** [upd_params a f]: assignments to members of [a->parameters]. *)
Definition upd_params (a : Z) (f : ControlPRM → ControlPRM) : SM unit :=
  get_cp a ≫= fun cp => deref NullDeref (parameters cp) ≫= fun p =>
  set_cp a (cp <| parameters := Some (f p) |>).

(** [upd_data a f]: assignments to members of [a->data]. *)
Definition upd_data (a : Z) (f : DataPRM → DataPRM) : SM unit :=
  get_cp a ≫= fun cp => deref NullDeref (data cp) ≫= fun d =>
  set_cp a (cp <| data := Some (f d) |>).

(** [upd_radarinfo a f]: assignments to members of [a->radarinfo]. *)
Definition upd_radarinfo (a : Z) (f : RadarPRM → RadarPRM) : SM unit :=
  get_cp a ≫= fun cp => set_cp a (cp <| radarinfo ::= f |>).

(** A region executed between [pthread_mutex_lock] and [pthread_mutex_unlock]. *)
Definition locked {A} (l : lock_id) (m : SM A) : SM A :=
  lock l ≫= fun _ => m ≫= fun a => unlock l ≫= fun _ => mret a.

(** The heap with [f] applied to the parameters (to the state) of [a]. *)
Definition on_params (f : ControlPRM → ControlPRM) (cp : ControlProgram) : ControlProgram :=
  cp <| parameters ::= fmap f |>.

Definition on_state (f : ControlState → ControlState) (cp : ControlProgram) : ControlProgram :=
  cp <| state ::= fmap f |>.

(** ** Theorems: running the primitives *)

Lemma insert_alter_eq {A} (h : gmap Z A) a x f :
  h !! a = Some x → <[a := f x]> h = alter f a h.
Proof.
  intros E. apply map_eq. intros j. destruct (decide (a = j)) as [->|].
  - by rewrite lookup_insert_eq, lookup_alter_eq, E.
  - by rewrite lookup_insert_ne, lookup_alter_ne.
Qed.

Lemma get_cp_run a cp s : heap s !! a = Some cp → get_cp a s = Ok (cp, s).
Proof. intros E. unfold get_cp. by rewrite E. Qed.

Lemma get_params_run a cp p s :
  heap s !! a = Some cp → parameters cp = Some p → get_params a s = Ok (p, s).
Proof.
  intros E Ep. unfold get_params. rewrite (bind_ok _ _ _ _ _ (get_cp_run _ _ _ E)).
  unfold deref. by rewrite Ep.
Qed.

Lemma upd_params_run a f cp p s :
  heap s !! a = Some cp → parameters cp = Some p →
  upd_params a f s = Ok (tt, s <| heap ::= alter (on_params f) a |>).
Proof.
  intros E Ep. unfold upd_params. rewrite (bind_ok _ _ _ _ _ (get_cp_run _ _ _ E)).
  unfold mbind, m_bind, deref. rewrite Ep. unfold set_cp, modify, set_field. simpl.
  do 3 f_equal. rewrite <- (insert_alter_eq _ _ _ _ E). unfold on_params, set_field.
  simpl. by rewrite Ep.
Qed.

Lemma upd_state_run a f cp st s :
  heap s !! a = Some cp → state cp = Some st →
  upd_state a f s = Ok (tt, s <| heap ::= alter (on_state f) a |>).
Proof.
  intros E Ep. unfold upd_state. rewrite (bind_ok _ _ _ _ _ (get_cp_run _ _ _ E)).
  unfold mbind, m_bind, deref. rewrite Ep. unfold set_cp, modify, set_field. simpl.
  do 3 f_equal. rewrite <- (insert_alter_eq _ _ _ _ E). unfold on_state, set_field.
  simpl. by rewrite Ep.
Qed.

Lemma alter_on_params f g (h : gmap Z ControlProgram) a :
  alter (on_params f) a (alter (on_params g) a h) = alter (on_params (f ∘ g)) a h.
Proof.
  rewrite alter_alter_eq. apply alter_ext. intros [] _.
  unfold on_params, set_field; simpl. f_equal. by destruct parameters0.
Qed.

Lemma alter_on_state f g (h : gmap Z ControlProgram) a :
  alter (on_state f) a (alter (on_state g) a h) = alter (on_state (f ∘ g)) a h.
Proof.
  rewrite alter_alter_eq. apply alter_ext. intros [st ? ? ? ? ? ? ? ? ?] _.
  unfold on_state, set_field; simpl. f_equal. by destruct st.
Qed.

Lemma upd_params_then {A} a f g (k : SM A) cp p s :
  heap s !! a = Some cp → parameters cp = Some p →
  (upd_params a f;; upd_params a g;; k) s = k (s <| heap ::= alter (on_params (g ∘ f)) a |>).
Proof.
  intros E Ep. erewrite (bind_ok (upd_params a f)) by (by eapply upd_params_run).
  erewrite (bind_ok (upd_params a g)).
  2: { eapply upd_params_run; unfold set_field; simpl; [by rewrite lookup_alter_eq, E|].
       simpl. by rewrite Ep. }
  f_equal. unfold set_field at 1 3. simpl. by rewrite alter_on_params.
Qed.

Lemma heap_upd_ext (f g : gmap Z ControlProgram → gmap Z ControlProgram) s :
  f (heap s) = g (heap s) → s <| heap ::= f |> = s <| heap ::= g |>.
Proof. unfold set_field; simpl. by intros ->. Qed.

Lemma items_upd_upd f g s :
  s <| thread_items ::= f |> <| thread_items ::= g |> = s <| thread_items ::= fun m => g (f m) |>.
Proof. done. Qed.

Lemma head_upd_items v f s :
  s <| controlprogram_threads := v |> <| thread_items ::= f |> =
  s <| thread_items ::= f |> <| controlprogram_threads := v |>.
Proof. done. Qed.

Lemma items_upd_ext (f g : gmap Z Thread_List_Item → gmap Z Thread_List_Item) s :
  f (thread_items s) = g (thread_items s) → s <| thread_items ::= f |> = s <| thread_items ::= g |>.
Proof. unfold set_field; simpl. by intros ->. Qed.

Lemma head_get v s : controlprogram_threads (s <| controlprogram_threads := v |>) = v.
Proof. done. Qed.
