(* ===== verification/Registry.v ===== *)
(** * Registry: the radar/channel table (server/client_handler.c, 31-274)

    Which control program owns which of the [MAX_RADARS * MAX_CHANNELS] slots,
    the parameters a program is told it runs with
    ([controlprogram_fill_parameters]), and the creation of a program
    ([control_init]).  The table is specified as a finite map from
    (radar, channel) to programs and the C loops are shown to refine it. *)

From Stdlib Require Import ZArith Lia Ascii String.
From stdpp Require Import base list gmap strings.
From S2P Require Import Prelude Binary64 Types.
Open Scope Z_scope.
Open Scope cvr_scope.

(** The loop range [for(i=0;i<MAX_RADARS*MAX_CHANNELS;i++)]. *)
Definition slots : list Z := seqZ 0 (MAX_RADARS * MAX_CHANNELS).

(** The radar and the channel of slot [i]. *)
Definition slot_radar (i : Z) : Z := i /c MAX_CHANNELS + 1.

Definition slot_channel (i : Z) : Z := i %c MAX_CHANNELS + 1.

(** [radar_channels[i]] read and written. *)
Definition get_slot (i : Z) : SM (option Z) :=
  gets radar_channels ≫= fun l => deref OutOfBounds (zget l i).

Definition set_slot (i : Z) (v : option Z) : SM unit :=
  gets radar_channels ≫= fun l => deref OutOfBounds (zset l i v) ≫= fun l' =>
  modify (fun s => s <| radar_channels := l' |>).

Definition unregister_body (a i status : Z) : SM Z :=
  v ← get_slot i;
  if decide (v = Some a) then
    set_slot i None;;
    upd_params a (fun p => p <| radar := 0 |>);;
    upd_params a (fun p => p <| channel := 0 |>);;
    mret (status + 1)
  else mret status.

Definition unregister_radar_channel (control_program : option Z) : SM Z :=
  match control_program with
  | None => mret 0
  | Some a =>
      for_fold slots (unregister_body a) 0
  end.

Definition find_registered_controlprogram_by_radar_channel (radar channel : Z)
    : SM (option Z) :=
  for_break slots (fun i control_program =>
    if (radar =? slot_radar i) && (channel =? slot_channel i)
    then v ← get_slot i; mret (Break v)
    else mret (Next control_program)) None.

(** [best[r-1]] of [controlprogram_fill_parameters]: the priorities of
    include/priority.h make the guard of the search true. *)
Definition TX_BEAM_PRIORITY : Z := 1.
Definition RX_BEAM_PRIORITY : Z := 1.
Definition TX_FREQ_PRIORITY : Z := 0.
Definition RX_FREQ_PRIORITY : Z := 0.
Definition TIME_SEQ_PRIORITY : Z := 0.

Definition best_body (r c : Z) (acc : Z * option Z) : SM (Z * option Z) :=
  let '(prio, best) := acc in
  cp ← find_registered_controlprogram_by_radar_channel r c;
  match cp with
  | None => mret (prio, best)
  | Some a =>
      p ← get_cp a;
      if negb (active p =? 0) then
        match parameters p with
        | None => mret (prio, best)
        | Some prm =>
            if priority prm <? prio then mret (priority prm, Some a)
            else mret (prio, best)
        end
      else mret (prio, best)
  end.

Definition best_of_radar (r : Z) : SM (option Z) :=
  res ← for_fold (seqZ 1 MAX_CHANNELS) (best_body r) (99, None);
  mret (snd res).

(** The parameters of the best program, needed by the [*_PRIORITY] fields:
    [best[r]->parameters->...]. *)
Definition best_parameters (best : list (option Z)) (r : Z) : SM ControlPRM :=
  b ← deref OutOfBounds (zget best r);
  a ← deref NullDeref b;
  get_params a.

(** [controlprogram_fill_parameters]: [junk] is the uninitialised local
    structure it fills in and returns by value. *)
Definition controlprogram_fill_parameters (junk : ControlPRM)
    (control_program : option Z) : SM ControlPRM :=
  best ← (if bits_any (TX_BEAM_PRIORITY |c RX_BEAM_PRIORITY |c TX_FREQ_PRIORITY
                       |c RX_FREQ_PRIORITY |c TIME_SEQ_PRIORITY) (-1)
          then b1 ← best_of_radar 1; b2 ← best_of_radar 2; mret [b1; b2]
          else mret [None; None]);
  match control_program with
  | None => mret junk
  | Some a =>
      cp ← get_cp a;
      match parameters cp with
      | None => mret junk
      | Some own =>
          let cpr := junk <| radar := ri_radar (radarinfo cp) |>
                          <| channel := ri_channel (radarinfo cp) |> in
          let r := radar cpr - 1 in
          let cpr := cpr
            <| current_pulseseq_index := current_pulseseq_index own |>
            <| priority := priority own |> in
          tb ← (if TX_BEAM_PRIORITY =? 0 then mret own else best_parameters best r);
          let cpr := cpr <| tbeam := tbeam tb |> <| tbeamcode := tbeamcode tb |>
                         <| tbeamwidth := tbeamwidth tb |>
                         <| tbeamazm := tbeamazm tb |> in
          tf ← (if TX_FREQ_PRIORITY =? 0 then mret own else best_parameters best r);
          let cpr := cpr <| tfreq := tfreq tf |> <| trise := trise tf |> in
          rb ← (if RX_BEAM_PRIORITY =? 0 then mret own else best_parameters best r);
          let cpr := cpr <| rbeam := rbeam rb |> <| rbeamcode := rbeamcode rb |>
                         <| rbeamwidth := rbeamwidth rb |>
                         <| rbeamazm := rbeamazm rb |> in
          rf ← (if RX_FREQ_PRIORITY =? 0 then mret own else best_parameters best r);
          let cpr := cpr <| rfreq := rfreq rf |>
                         <| number_of_samples := number_of_samples rf |> in
          mret (cpr <| buffer_index := buffer_index own |>
                    <| baseband_samplerate := baseband_samplerate own |>
                    <| filter_bandwidth := filter_bandwidth own |>
                    <| match_filter := match_filter own |>
                    <| prm_status := prm_status own |>)
      end
  end.

Definition controlprogram_link_parameters (p : ControlPRM) : ControlPRM := p.

Definition controlprogram_verify_parameters (p : ControlPRM) : ControlPRM := p.

Definition register_body (control_program : option Z) (i : Z) (acc : Z * Z * Z)
    : SM (iter (Z * Z * Z)) :=
  let '(rad, chan, status) := acc in
  let r := slot_radar i in
  let c := slot_channel i in
  v ← get_slot i;
  match v with
  | Some _ => mret (Next (rad, chan, status))
  | None =>
      let rad := if rad <=? 0 then r else rad in
      let chan := if chan <=? 0 then c else chan in
      if (rad =? r) && (chan =? c) then
        a ← deref NullDeref control_program;
        upd_params a (fun p => p <| radar := rad |>);;
        upd_params a (fun p => p <| channel := chan |>);;
        upd_radarinfo a (fun ri => ri <| ri_radar := rad |>);;
        upd_radarinfo a (fun ri => ri <| ri_channel := chan |>);;
        set_slot i control_program;;
        mret (Break (rad, chan, 1))
      else mret (Next (rad, chan, status))
  end.

Definition register_radar_channel (control_program : option Z) (radar0 channel0 : Z)
    : SM Z :=
  match control_program with
  | Some _ => unregister_radar_channel control_program
  | None => mret 0
  end;;
  res ← for_break slots (register_body control_program) (radar0, channel0, -1);
  mret (snd res).

(** [control_init]: [junk] is the contents of the five blocks [malloc] returns;
    the members the function does not assign keep it. *)
Definition control_init_cp (junk : ControlProgram) (jst : ControlState)
    (jprm : ControlPRM) (jdata : DataPRM) : ControlProgram :=
  let prm := jprm
    <| name := "Generic Control Program Name - 80"%string |>
    <| description := "Generic  Control Program  Description - 120"%string |>
    <| radar := -1 |> <| channel := -1 |> <| current_pulseseq_index := -1 |>
    <| priority := 50 |> <| tbeam := -1 |> <| tbeamcode := u32 (-1) |>
    <| tbeamwidth := f_of_int (-1) |> <| tbeamazm := f_of_int (-1) |>
    <| tfreq := -1 |> <| trise := 10 |> <| rbeam := -1 |>
    <| rbeamcode := u32 (-1) |> <| rbeamwidth := f_of_int (-1) |>
    <| rbeamazm := f_of_int (-1) |> <| rfreq := -1 |>
    <| number_of_samples := -1 |> <| buffer_index := -1 |>
    <| baseband_samplerate := f_of_int (-1) |> <| filter_bandwidth := -1 |>
    <| match_filter := -1 |> <| prm_status := -1 |> in
  let st := jst
    <| cancelled := 0 |> <| ready := 0 |> <| linked := 0 |> <| processing := 0 |>
    <| best_assigned_freq := 0 |> <| current_assigned_freq := 0 |>
    <| freq_change_needed := 0 |> <| thread := None |> <| fft_array := None |>
    <| pulseseqs := [None; None; None; None] |> in
  junk <| active := 1 |>
       <| clrfreqsearch ::= fun c => c <| clr_start := 0 |> <| clr_end := 0 |> |>
       <| parameters := Some prm |> <| state := Some st |>
       <| radarinfo := mk_RadarPRM (-1) (-1) (-1) |> <| data := Some jdata |>
       <| main_mem := None |> <| back_mem := None |>
       <| main_address := 0 |> <| back_address := 0 |>.

Definition control_init (junk : ControlProgram) (jst : ControlState)
    (jprm : ControlPRM) (jdata : DataPRM) : SM Z := fun s =>
  let a := fresh (dom (heap s)) in
  Ok (a, s <| heap ::= <[a := control_init_cp junk jst jprm jdata]> |>).

(** ** Specification: the table as a partial map from (radar, channel) *)

Definition valid_slot (r c : Z) : bool :=
  (1 <=? r) && (r <=? MAX_RADARS) && (1 <=? c) && (c <=? MAX_CHANNELS).

Definition slot_of (r c : Z) : Z := (r - 1) * MAX_CHANNELS + (c - 1).

(** The program that owns radar [r], channel [c]. *)
Definition owner (l : list (option Z)) (r c : Z) : option Z :=
  if valid_slot r c then zget l (slot_of r c) ≫= id else None.

(** The table without program [a], and how many slots [a] had. *)
Definition spec_unregister (l : list (option Z)) (a : Z) : list (option Z) :=
  map (fun v => if decide (v = Some a) then None else v) l.

Definition slot_count (l : list (option Z)) (a : Z) : Z :=
  zlen (filter (fun v => v = Some a) l).

Fixpoint first_free (k : Z) (l : list (option Z)) : option Z :=
  match l with
  | [] => None
  | None :: _ => Some k
  | Some _ :: l' => first_free (k + 1) l'
  end.

(** The slot a request gets: a coordinate that is not positive is taken from
    the first free slot, and the slot the two name must exist and be free. *)
Definition spec_target (l : list (option Z)) (rad chan : Z) : option (Z * Z * Z) :=
  i0 ← first_free 0 l;
  let r := if rad <=? 0 then slot_radar i0 else rad in
  let c := if chan <=? 0 then slot_channel i0 else chan in
  if valid_slot r c && bool_decide (zget l (slot_of r c) = Some None)
  then Some (slot_of r c, r, c) else None.

(** A registered program exists, has its parameters and its [radarinfo] names
    the slot it is in. *)
Definition slot_wf (h : gmap Z ControlProgram) (i a : Z) : Prop :=
  ∃ cp, h !! a = Some cp ∧ is_Some (parameters cp) ∧
        ri_radar (radarinfo cp) = slot_radar i ∧
        ri_channel (radarinfo cp) = slot_channel i.

Definition registry_wf (s : server) : Prop :=
  zlen (radar_channels s) = MAX_RADARS * MAX_CHANNELS ∧
  ∀ i a, zget (radar_channels s) i = Some (Some a) → slot_wf (heap s) i a.

(** The scan of [register_radar_channel] over the slots from [k] on. *)
Fixpoint scan (k : Z) (l : list (option Z)) (rad chan : Z) : option (Z * Z * Z) :=
  match l with
  | [] => None
  | Some _ :: l' => scan (k + 1) l' rad chan
  | None :: l' =>
      let rad := if rad <=? 0 then slot_radar k else rad in
      let chan := if chan <=? 0 then slot_channel k else chan in
      if (rad =? slot_radar k) && (chan =? slot_channel k) then Some (k, rad, chan)
      else scan (k + 1) l' rad chan
  end.

(** Channel [c] of radar [r] competes for the radar's beam with priority [p]. *)
Definition eligible (s : server) (r c a p : Z) : Prop :=
  owner (radar_channels s) r c = Some a ∧
  ∃ cp prm, heap s !! a = Some cp ∧ active cp ≠ 0 ∧
    parameters cp = Some prm ∧ priority prm = p ∧ p < 99.

(** The winner among the channels below [k]: the lowest priority value, the
    lowest channel among equals; [prio] is its priority, 99 without a winner. *)
Definition best_below (s : server) (r k prio : Z) (best : option Z) : Prop :=
  match best with
  | None => prio = 99 ∧ ∀ c a p, c < k → ¬ eligible s r c a p
  | Some b => ∃ c, c < k ∧ eligible s r c b prio ∧
      ∀ c' a' p', c' < k → eligible s r c' a' p' → prio < p' ∨ (prio = p' ∧ c ≤ c')
  end.

Definition is_best (s : server) (r : Z) (best : option Z) : Prop :=
  ∃ prio, best_below s r (MAX_CHANNELS + 1) prio best.

(** What [controlprogram_fill_parameters] reports: the slot from [radarinfo],
    the beams of the winner, everything else the program's own; the members
    [local], [name] and [description] are never assigned. *)
Definition spec_filled (junk own beam : ControlPRM) (ri : RadarPRM) : ControlPRM :=
  own <| radar := ri_radar ri |> <| channel := ri_channel ri |>
      <| tbeam := tbeam beam |> <| tbeamcode := tbeamcode beam |>
      <| tbeamazm := tbeamazm beam |> <| tbeamwidth := tbeamwidth beam |>
      <| rbeam := rbeam beam |> <| rbeamcode := rbeamcode beam |>
      <| rbeamazm := rbeamazm beam |> <| rbeamwidth := rbeamwidth beam |>
      <| local := local junk |> <| name := name junk |>
      <| description := description junk |>.

(** The parameters after [parameters->radar=0; parameters->channel=0]. *)
Definition zero_slot (p : ControlPRM) : ControlPRM :=
  p <| radar := 0 |> <| channel := 0 |>.

Definition heap_unregister (l : list (option Z)) (a : Z) (h : gmap Z ControlProgram)
    : gmap Z ControlProgram :=
  if slot_count l a =? 0 then h else alter (on_params zero_slot) a h.

(** The heap after the assignments of a successful registration. *)
Definition set_coords (r c : Z) (cp : ControlProgram) : ControlProgram :=
  cp <| parameters ::= fmap (fun p => p <| radar := r |> <| channel := c |>) |>
     <| radarinfo ::= fun ri => ri <| ri_radar := r |> <| ri_channel := c |> |>.

Definition has_params (s : server) (a : Z) : Prop :=
  ∃ cp p, heap s !! a = Some cp ∧ parameters cp = Some p.

(** ** Lemmas on slots *)

Lemma slot_of_coords i :
  0 ≤ i < 8 → valid_slot (slot_radar i) (slot_channel i) = true ∧
              slot_of (slot_radar i) (slot_channel i) = i.
Proof.
  intros Hi. pose proof (forallb_seqZ (fun i =>
    valid_slot (slot_radar i) (slot_channel i) &&
    (slot_of (slot_radar i) (slot_channel i) =? i)) 0 8 eq_refl i ltac:(lia)) as H.
  simpl in H. apply andb_true_iff in H as [? ?%Z.eqb_eq]. done.
Qed.

Lemma valid_slot_spec r c :
  valid_slot r c = true ↔ 1 ≤ r ≤ 2 ∧ 1 ≤ c ≤ 4.
Proof.
  unfold valid_slot, MAX_RADARS, MAX_CHANNELS.
  rewrite !andb_true_iff, !Z.leb_le. lia.
Qed.

Lemma slot_eq r c i :
  0 ≤ i < 8 →
  (r =? slot_radar i) && (c =? slot_channel i) = valid_slot r c && (i =? slot_of r c).
Proof.
  intros Hi. destruct (slot_of_coords i Hi) as [Hv Hs]. apply eq_true_iff_eq.
  rewrite !andb_true_iff, !Z.eqb_eq. split.
  - by intros [-> ->].
  - intros [Hc E]. apply valid_slot_spec in Hc, Hv.
    unfold slot_of, MAX_CHANNELS in *. lia.
Qed.

Lemma scan_explicit l : ∀ k r c,
  0 ≤ k → k + zlen l = 8 → 0 < r → 0 < c →
  scan k l r c =
    if valid_slot r c && bool_decide (zget l (slot_of r c - k) = Some None)
    then Some (slot_of r c, r, c) else None.
Proof.
  induction l as [|v l IH]; intros k r c Hk Hlen Hr Hc; cbn [scan].
  - rewrite bool_decide_false; [by rewrite andb_false_r|].
    unfold zget. by case_decide.
  - rewrite zlen_cons in Hlen. pose proof (zlen_nonneg l).
    rewrite (proj2 (Z.leb_gt r 0)), (proj2 (Z.leb_gt c 0)) by lia.
    rewrite slot_eq by lia. rewrite zget_cons.
    destruct (decide (slot_of r c - k = 0)) as [E|E].
    + replace k with (slot_of r c) by lia. rewrite Z.eqb_refl, andb_true_r.
      destruct v.
      * rewrite IH by lia. rewrite (bool_decide_false (Some (Some _) = _)) by done.
        replace (slot_of r c - (slot_of r c + 1)) with (-1) by lia.
        done.
      * destruct (valid_slot r c) eqn:V; [done|]. rewrite IH by lia. by rewrite V.
    + rewrite (proj2 (Z.eqb_neq k (slot_of r c))) by lia. rewrite andb_false_r.
      replace (slot_of r c - k - 1) with (slot_of r c - (k + 1)) by lia.
      by destruct v; rewrite IH by lia.
Qed.

Lemma slot_radar_pos i : 0 ≤ i → 0 < slot_radar i ∧ 0 < slot_channel i.
Proof.
  intros. unfold slot_radar, slot_channel, MAX_CHANNELS.
  pose proof (Z.quot_pos i 4). pose proof (Z.rem_nonneg i 4). lia.
Qed.

Lemma first_free_spec l : ∀ k i,
  first_free k l = Some i →
  k ≤ i < k + zlen l ∧ zget l (i - k) = Some None ∧
  ∀ j, k ≤ j < i → zget l (j - k) ≠ Some None.
Proof.
  induction l as [|[v|] l IH]; intros k i; [done| |]; simpl; rewrite zlen_cons.
  - intros (H1 & H2 & H3)%IH. pose proof (zlen_nonneg l).
    split; [lia|]. rewrite !zget_cons, decide_False by lia.
    replace (i - k - 1) with (i - (k + 1)) by lia. split; [done|].
    intros j Hj. rewrite zget_cons. case_decide; [done|].
    replace (j - k - 1) with (j - (k + 1)) by lia. apply H3. lia.
  - intros [= <-]. pose proof (zlen_nonneg l). rewrite Z.sub_diag.
    split_and!; [lia..|done|]. intros; lia.
Qed.

(** Positive coordinates stay as they are, so the scan can skip to the first
    free slot. *)
Lemma scan_first_free l : ∀ k rad chan,
  0 ≤ k → k + zlen l = 8 →
  scan k l rad chan =
    i0 ← first_free k l;
    let r := if rad <=? 0 then slot_radar i0 else rad in
    let c := if chan <=? 0 then slot_channel i0 else chan in
    if valid_slot r c && bool_decide (zget l (slot_of r c - k) = Some None)
    then Some (slot_of r c, r, c) else None.
Proof.
  induction l as [|[v|] l IH]; intros k rad chan Hk Hlen; [done| |];
    rewrite zlen_cons in Hlen; pose proof (zlen_nonneg l); cbn [scan first_free].
  - rewrite IH by lia. destruct (first_free (k + 1) l) as [i0|] eqn:E; [|done].
    cbn [mbind option_bind]. set (r := if rad <=? 0 then _ else _). set (c := if chan <=? 0 then _ else _).
    rewrite zget_cons. case_decide as D.
    + rewrite (bool_decide_false (Some (Some v) = Some None)) by done.
      replace (slot_of r c - (k + 1)) with (-1) by lia. done.
    + by replace (slot_of r c - k - 1) with (slot_of r c - (k + 1)) by lia.
  - destruct (slot_radar_pos k Hk) as [Hr Hc].
    set (r := if rad <=? 0 then _ else _). set (c := if chan <=? 0 then _ else _).
    assert (0 < r) by (unfold r; destruct (Z.leb_spec rad 0); lia).
    assert (0 < c) by (unfold c; destruct (Z.leb_spec chan 0); lia).
    pose proof (scan_explicit (None :: l) k r c) as HE. cbn [scan] in HE.
    rewrite (proj2 (Z.leb_gt r 0)), (proj2 (Z.leb_gt c 0)) in HE by lia.
    apply HE; try lia. rewrite zlen_cons. lia.
Qed.

Lemma scan_spec l rad chan :
  zlen l = 8 → scan 0 l rad chan = spec_target l rad chan.
Proof.
  intros Hl. rewrite scan_first_free by lia. unfold spec_target.
  destruct (first_free 0 l) as [i0|]; [|done]. cbn [mbind option_bind]. by rewrite Z.sub_0_r.
Qed.

(** ** The C loops computed *)

Lemma get_slot_run l1 v l2 s :
  radar_channels s = (l1 ++ v :: l2)%list → get_slot (zlen l1) s = Ok (v, s).
Proof.
  intros E. unfold get_slot, mbind, m_bind, gets, deref. by rewrite E, zget_mid.
Qed.

Lemma set_slot_run l1 v l2 w s :
  radar_channels s = (l1 ++ v :: l2)%list →
  set_slot (zlen l1) w s = Ok (tt, s <| radar_channels := (l1 ++ w :: l2)%list |>).
Proof.
  intros E. unfold set_slot, mbind, m_bind, gets, deref. by rewrite E, zset_mid.
Qed.

Lemma slot_count_cons v l a :
  slot_count (v :: l) a = (if decide (v = Some a) then 1 else 0) + slot_count l a.
Proof.
  unfold slot_count. rewrite filter_cons. case_decide; rewrite ?zlen_cons; lia.
Qed.

Lemma slot_count_nonneg l a : 0 ≤ slot_count l a.
Proof. apply zlen_nonneg. Qed.

Lemma heap_unregister_alter l a h :
  heap_unregister l a (alter (on_params zero_slot) a h) = alter (on_params zero_slot) a h.
Proof.
  unfold heap_unregister. case_match; [done|]. by rewrite alter_on_params.
Qed.

Lemma unregister_body_hit a n l1 l2 s :
  radar_channels s = (l1 ++ Some a :: l2)%list → has_params s a →
  unregister_body a (zlen l1) n s =
    Ok (n + 1, s <| radar_channels := (l1 ++ None :: l2)%list |>
                 <| heap ::= alter (on_params zero_slot) a |>).
Proof.
  intros El (cp & p & Ecp & Ep). unfold unregister_body.
  rewrite (bind_ok _ _ _ _ _ (get_slot_run _ _ _ _ El)), decide_True by done.
  rewrite (bind_ok _ _ _ _ _ (set_slot_run _ _ _ _ _ El)).
  by erewrite upd_params_then.
Qed.

Lemma unregister_body_miss a n l1 v l2 s :
  radar_channels s = (l1 ++ v :: l2)%list → v ≠ Some a →
  unregister_body a (zlen l1) n s = Ok (n, s).
Proof.
  intros El Hv. unfold unregister_body.
  by rewrite (bind_ok _ _ _ _ _ (get_slot_run _ _ _ _ El)), decide_False by done.
Qed.

Lemma unregister_loop a l2 : ∀ l1 n s,
  radar_channels s = (l1 ++ l2)%list →
  (slot_count l2 a ≠ 0 → has_params s a) →
  for_fold (seqZ (zlen l1) (zlen l2)) (unregister_body a) n s =
    Ok (n + slot_count l2 a,
        s <| radar_channels := (l1 ++ spec_unregister l2 a)%list |>
          <| heap := heap_unregister l2 a (heap s) |>).
Proof.
  induction l2 as [|v l2 IH]; intros l1 n s El Hp.
  { rewrite Z.add_0_r. destruct s; simpl in *. by subst. }
  rewrite zlen_cons. pose proof (zlen_nonneg l2). rewrite seqZ_cons' by lia.
  rewrite Z.add_simpl_r, slot_count_cons in *. cbn [for_fold].
  pose proof (slot_count_nonneg l2 a).
  unfold spec_unregister. cbn [map]. fold (spec_unregister l2 a).
  rewrite (cons_middle _ l1 (spec_unregister l2 a)), app_assoc.
  replace (zlen l1 + 1) with (zlen (l1 ++ [if decide (v = Some a) then None else v]))
    by (by rewrite zlen_app).
  destruct (decide (v = Some a)) as [->|Hv].
  - assert (has_params s a) as Hpa by (apply Hp; lia).
    rewrite (bind_ok _ _ _ _ _ (unregister_body_hit _ _ _ _ _ El Hpa)).
    destruct Hpa as (cp & p & Ecp & Ep). rewrite IH.
    + f_equal. f_equal; [lia|]. unfold set_field; simpl. f_equal.
      rewrite heap_unregister_alter. unfold heap_unregister.
      rewrite slot_count_cons, decide_True, (proj2 (Z.eqb_neq _ 0)) by (done || lia). done.
    + unfold set_field; simpl. by rewrite <- app_assoc.
    + intros _. exists (on_params zero_slot cp), (zero_slot p). unfold set_field; simpl.
      rewrite lookup_alter_eq, Ecp. split; [done|]. simpl. by rewrite Ep.
  - rewrite (bind_ok _ _ _ _ _ (unregister_body_miss _ _ _ _ _ _ El Hv)).
    rewrite IH; [|by rewrite <- app_assoc|intros; apply Hp; lia].
    f_equal. f_equal. unfold set_field; simpl. f_equal.
    unfold heap_unregister. by rewrite slot_count_cons, decide_False by done.
Qed.

(** [unregister_radar_channel] computes the specification, on any table of
    eight slots. *)
Lemma unregister_run s a :
  zlen (radar_channels s) = 8 →
  (slot_count (radar_channels s) a ≠ 0 → has_params s a) →
  unregister_radar_channel (Some a) s =
    Ok (slot_count (radar_channels s) a,
        s <| radar_channels ::= fun l => spec_unregister l a |>
          <| heap := heap_unregister (radar_channels s) a (heap s) |>).
Proof.
  intros Hl Hp. unfold unregister_radar_channel, slots.
  pose proof (unregister_loop a (radar_channels s) [] 0 s eq_refl Hp) as E.
  rewrite Hl in E. exact E.
Qed.

Lemma find_run s r c :
  zlen (radar_channels s) = 8 →
  find_registered_controlprogram_by_radar_channel r c s =
    Ok (owner (radar_channels s) r c, s).
Proof.
  intros Hl. unfold find_registered_controlprogram_by_radar_channel, slots.
  assert (∀ l2 l1, radar_channels s = (l1 ++ l2)%list →
    (slot_of r c < zlen l1 → valid_slot r c = true → slot_of r c < 0) →
    for_break (seqZ (zlen l1) (zlen l2)) (fun i control_program =>
      if (r =? slot_radar i) && (c =? slot_channel i)
      then v ← get_slot i; mret (Break v)
      else mret (Next control_program)) None s =
    Ok (owner (radar_channels s) r c, s)) as H.
  2: { specialize (H (radar_channels s) [] eq_refl). rewrite Hl in H.
       apply H. unfold zlen; simpl; lia. }
  induction l2 as [|v l2 IH]; intros l1 El Hlt.
  - simpl. unfold mret, m_ret. rewrite app_nil_r in El. subst l1.
    unfold owner. destruct (valid_slot r c) eqn:V; [|done].
    destruct (zget (radar_channels s) (slot_of r c)) eqn:Ez; [|done].
    apply zget_Some_range in Ez. specialize (Hlt ltac:(lia) eq_refl). lia.
  - rewrite zlen_cons. pose proof (zlen_nonneg l2). pose proof (zlen_nonneg l1).
    rewrite seqZ_cons' by lia. rewrite Z.add_simpl_r. cbn [for_break].
    rewrite slot_eq by (rewrite El, zlen_app, zlen_cons in Hl; lia).
    destruct (valid_slot r c && (zlen l1 =? slot_of r c)) eqn:C.
    + apply andb_true_iff in C as [V E%Z.eqb_eq].
      unfold mbind, m_bind. rewrite (get_slot_run _ _ _ _ El). unfold mret, m_ret.
      unfold owner. rewrite V, <- E, El, zget_mid. done.
    + unfold mbind, m_bind, mret, m_ret. rewrite cons_middle, app_assoc in El.
      replace (zlen l1 + 1) with (zlen (l1 ++ [v])) by (by rewrite zlen_app).
      apply IH; [done|]. rewrite zlen_app. change (zlen [v]) with 1. intros Hs V.
      rewrite V in C. simpl in C. apply Z.eqb_neq in C. apply Hlt; [lia|done].
Qed.

Lemma upd_radarinfo_run a f cp s :
  heap s !! a = Some cp →
  upd_radarinfo a f s = Ok (tt, s <| heap ::= alter (fun cp => cp <| radarinfo ::= f |>) a |>).
Proof.
  intros E. unfold upd_radarinfo. rewrite (bind_ok _ _ _ _ _ (get_cp_run _ _ _ E)).
  unfold set_cp, modify, set_field. simpl. do 3 f_equal. by rewrite <- (insert_alter_eq _ _ _ _ E).
Qed.

(** The state after the registration of [a] at slot [k]. *)
Lemma register_body_hit a l1 l2 rad chan r c st s :
  radar_channels s = (l1 ++ None :: l2)%list → has_params s a →
  r = (if rad <=? 0 then slot_radar (zlen l1) else rad) →
  c = (if chan <=? 0 then slot_channel (zlen l1) else chan) →
  (r =? slot_radar (zlen l1)) && (c =? slot_channel (zlen l1)) = true →
  register_body (Some a) (zlen l1) (rad, chan, st) s =
    Ok (Break (r, c, 1), s <| heap ::= alter (set_coords r c) a |>
                           <| radar_channels := (l1 ++ Some a :: l2)%list |>).
Proof.
  intros El (cp & p & Ecp & Ep) -> -> Hrc. unfold register_body.
  rewrite (bind_ok _ _ _ _ _ (get_slot_run _ _ _ _ El)), Hrc.
  set (r := if rad <=? 0 then _ else _). set (c := if chan <=? 0 then _ else _).
  unfold deref, mbind at 1, m_bind at 1.
  erewrite upd_params_then by done.
  erewrite (bind_ok (upd_radarinfo _ _)).
  2: { eapply upd_radarinfo_run. unfold set_field; simpl. by rewrite lookup_alter_eq, Ecp. }
  erewrite (bind_ok (upd_radarinfo _ _)).
  2: { eapply upd_radarinfo_run. unfold set_field; simpl. by rewrite !lookup_alter_eq, Ecp. }
  erewrite (bind_ok (set_slot _ _)) by (by eapply set_slot_run).
  apply (f_equal (fun s' => Ok (Break (r, c, 1),
    s' <| radar_channels := (l1 ++ Some a :: l2)%list |>))).
  set (f1 := on_params _). set (f2 := fun cp => cp <| radarinfo ::= _ |>).
  set (f3 := fun cp => cp <| radarinfo ::= _ |>).
  apply (heap_upd_ext (fun h => alter f2 a (alter f3 a (alter f1 a h))) (alter (set_coords r c) a) s).
  rewrite !alter_alter_eq. apply alter_ext. intros [? ? ? pr ? ? ? ? ? ?] _.
  unfold set_coords, f1, f2, f3, on_params, set_field. simpl. by destruct pr.
Qed.

Lemma register_loop a l2 : ∀ l1 rad chan s,
  radar_channels s = (l1 ++ l2)%list → has_params s a → ∃ rad' chan',
  for_break (seqZ (zlen l1) (zlen l2)) (register_body (Some a)) (rad, chan, -1) s =
  match scan (zlen l1) l2 rad chan with
  | None => Ok (rad', chan', -1, s)
  | Some (k, r, c) =>
      Ok (r, c, 1, s <| heap ::= alter (set_coords r c) a |>
                     <| radar_channels ::= fun l => <[Z.to_nat k := Some a]> l |>)
  end.
Proof.
  induction l2 as [|v l2 IH]; intros l1 rad chan s El Hp.
  { by exists rad, chan. }
  rewrite zlen_cons. pose proof (zlen_nonneg l2). rewrite seqZ_cons' by lia.
  rewrite Z.add_simpl_r. cbn [for_break scan].
  assert (radar_channels s = ((l1 ++ [v]) ++ l2)%list) as El' by (by rewrite <- app_assoc).
  replace (zlen l1 + 1) with (zlen (l1 ++ [v])) by (by rewrite zlen_app).
  destruct v as [b|].
  - assert (register_body (Some a) (zlen l1) (rad, chan, -1) s = Ok (Next (rad, chan, -1), s)) as E1.
    { unfold register_body. by rewrite (bind_ok _ _ _ _ _ (get_slot_run _ _ _ _ El)). }
    rewrite (bind_ok _ _ _ _ _ E1). by apply IH.
  - destruct (_ && _) eqn:C.
    + exists 0, 0. rewrite (bind_ok _ _ _ _ _ (register_body_hit _ _ _ _ _ _ _ _ _ El Hp eq_refl eq_refl C)).
      unfold mret, m_ret. do 2 f_equal. unfold set_field; simpl. f_equal.
      rewrite El. unfold zlen. by rewrite Nat2Z.id, insert_app_r_alt, Nat.sub_diag by lia.
    + set (r := if rad <=? 0 then _ else _) in *. set (c := if chan <=? 0 then _ else _) in *.
      assert (register_body (Some a) (zlen l1) (rad, chan, -1) s = Ok (Next (r, c, -1), s)) as E1.
      { unfold register_body. rewrite (bind_ok _ _ _ _ _ (get_slot_run _ _ _ _ El)).
        fold r c. by rewrite C. }
      rewrite (bind_ok _ _ _ _ _ E1). by apply IH.
Qed.

Lemma owner_wf s r c a :
  registry_wf s → owner (radar_channels s) r c = Some a →
  valid_slot r c = true ∧ slot_wf (heap s) (slot_of r c) a.
Proof.
  intros [Hl Hw]. unfold owner. destruct (valid_slot r c) eqn:V; [|done].
  destruct (zget _ _) as [[b|]|] eqn:E; try done. simpl. intros [= ->]. auto.
Qed.

Lemma eligible_fun s r c a p a' p' :
  eligible s r c a p → eligible s r c a' p' → a' = a ∧ p' = p.
Proof.
  intros (Ho & cp & prm & ? & ? & ? & ? & ?) (Ho' & cp' & prm' & ? & ? & ? & ? & ?).
  by simplify_eq.
Qed.

Lemma best_below_miss s r c prio best :
  best_below s r c prio best →
  (∀ a p, eligible s r c a p → prio ≤ p) →
  best_below s r (c + 1) prio best.
Proof.
  intros Hb Hmiss. destruct best as [b|]; simpl in *.
  - destruct Hb as (c0 & Hc0 & He & Hmin). exists c0. split_and!; [lia|done|].
    intros c' a' p' Hc' He'. destruct (decide (c' = c)) as [->|].
    + apply Hmiss in He'. lia.
    + apply (Hmin c' a'); [lia|done].
  - destruct Hb as [-> Hnone]. split; [done|]. intros c' a' p' Hc' He'.
    destruct (decide (c' = c)) as [->|]; [|apply (Hnone c' a' p'); [lia|done]].
    pose proof (Hmiss _ _ He'). destruct He' as (_ & ? & ? & _ & _ & _ & _ & ?). lia.
Qed.

Lemma best_below_hit s r c prio best a p :
  best_below s r c prio best → eligible s r c a p → p < prio →
  best_below s r (c + 1) p (Some a).
Proof.
  intros Hb He Hlt. exists c. split_and!; [lia|done|]. intros c' a' p' Hc' He'.
  destruct (decide (c' = c)) as [->|].
  { destruct (eligible_fun _ _ _ _ _ _ _ He He') as [-> ->]. lia. }
  destruct best as [b|]; simpl in Hb.
  - destruct Hb as (c0 & Hc0 & He0 & Hmin). destruct (Hmin c' a' p' ltac:(lia) He'); lia.
  - destruct Hb as [-> Hnone]. exfalso. apply (Hnone c' a' p'); [lia|done].
Qed.

Lemma best_step s r c prio best :
  registry_wf s → prio ≤ 99 → best_below s r c prio best →
  ∃ prio' best', best_body r c (prio, best) s = Ok ((prio', best'), s) ∧
    prio' ≤ 99 ∧ best_below s r (c + 1) prio' best'.
Proof.
  intros Hwf Hp Hb. unfold best_body.
  rewrite (bind_ok _ _ _ _ _ (find_run s r c (proj1 Hwf))).
  destruct (owner (radar_channels s) r c) as [a|] eqn:Ho.
  2: { exists prio, best. split_and!; [done..|]. apply best_below_miss; [done|].
       intros a p [Ho' _]. congruence. }
  destruct (owner_wf _ _ _ _ Hwf Ho) as (_ & cp & Ecp & [prm Eprm] & _).
  rewrite (bind_ok _ _ _ _ _ (get_cp_run _ _ _ Ecp)).
  destruct (Z.eqb_spec (active cp) 0) as [Ha|Ha]; cbn [negb].
  { exists prio, best. split_and!; [done..|]. apply best_below_miss; [done|].
    intros a' p (Ho' & cp' & ? & ? & ? & _). simplify_eq. }
  rewrite Eprm. destruct (Z.ltb_spec (priority prm) prio).
  - exists (priority prm), (Some a). split_and!; [done|lia|].
    apply (best_below_hit _ _ _ prio best); [done| |done].
    split; [done|]. exists cp, prm. split_and!; try done. lia.
  - exists prio, best. split_and!; [done..|]. apply best_below_miss; [done|].
    intros a' p (Ho' & cp' & prm' & ? & ? & ? & ? & ?). simplify_eq. lia.
Qed.

Lemma best_of_radar_run s r :
  registry_wf s → (∀ c a, owner (radar_channels s) r c = Some a → 1 ≤ c) →
  ∃ best, best_of_radar r s = Ok (best, s) ∧ is_best s r best.
Proof.
  intros Hwf H1.
  assert (best_below s r 1 99 None) as B1.
  { split; [done|]. intros c a p Hc [Ho _]. apply H1 in Ho. lia. }
  unfold best_of_radar. change (seqZ 1 MAX_CHANNELS) with [1; 2; 3; 4]. cbn [for_fold].
  destruct (best_step s r 1 _ _ Hwf (Z.le_refl 99) B1) as (p1 & b1 & E1 & ? & B2).
  destruct (best_step s r 2 _ _ Hwf ltac:(done) B2) as (p2 & b2 & E2 & ? & B3).
  destruct (best_step s r 3 _ _ Hwf ltac:(done) B3) as (p3 & b3 & E3 & ? & B4).
  destruct (best_step s r 4 _ _ Hwf ltac:(done) B4) as (p4 & b4 & E4 & ? & B5).
  exists b4. split; [|by exists p4].
  unfold mbind, m_bind. by rewrite E1, E2, E3, E4.
Qed.

Lemma owner_range l r c a :
  owner l r c = Some a → 1 ≤ r ≤ 2 ∧ 1 ≤ c ≤ 4.
Proof.
  unfold owner. destruct (valid_slot r c) eqn:V; [|done]. by apply valid_slot_spec in V.
Qed.

Lemma is_best_fun s r b b' : is_best s r b → is_best s r b' → b' = b.
Proof.
  unfold MAX_CHANNELS. intros [p Hb] [p' Hb'].
  destruct b as [b|], b' as [b'|]; simpl in *; try done.
  - destruct Hb as (c & Hc & He & Hmin), Hb' as (c' & Hc' & He' & Hmin').
    pose proof (Hmin _ _ _ Hc' He'). pose proof (Hmin' _ _ _ Hc He).
    assert (c' = c) as -> by lia.
    f_equal. apply (eligible_fun _ _ _ _ _ _ _ He He').
  - destruct Hb' as [_ Hn], Hb as (c & Hc & He & _). by destruct (Hn c b p).
  - destruct Hb as [_ Hn], Hb' as (c & Hc & He & _). by destruct (Hn c b' p').
Qed.

Lemma fill_best_run s :
  registry_wf s → ∃ b1 b2, is_best s 1 b1 ∧ is_best s 2 b2 ∧
  (b1 ← best_of_radar 1; b2 ← best_of_radar 2; mret [b1; b2]) s = Ok ([b1; b2], s).
Proof.
  intros Hwf.
  destruct (best_of_radar_run s 1 Hwf) as (b1 & E1 & ?); [intros c a ?%owner_range; lia|].
  destruct (best_of_radar_run s 2 Hwf) as (b2 & E2 & ?); [intros c a ?%owner_range; lia|].
  exists b1, b2. split_and!; [done..|]. unfold mbind, m_bind. by rewrite E1, E2.
Qed.

(** ** Properties *)

Lemma spec_unregister_zget l a i :
  zget (spec_unregister l a) i =
    (fun v => if decide (v = Some a) then None else v) <$> zget l i.
Proof. apply zget_map. Qed.

Lemma slot_count_pos l a : slot_count l a ≠ 0 → ∃ i, zget l i = Some (Some a).
Proof.
  induction l as [|v l IH]; [done|]. rewrite slot_count_cons. case_decide as D.
  - intros _. exists 0. by subst.
  - intros [i Hi]%IH. exists (i + 1). rewrite zget_cons.
    pose proof (zget_Some_range _ _ _ Hi). rewrite decide_False by lia.
    by rewrite Z.add_simpl_r.
Qed.

Lemma registry_wf_params s a :
  registry_wf s → slot_count (radar_channels s) a ≠ 0 → has_params s a.
Proof.
  intros [_ Hw] [i Hi]%slot_count_pos.
  destruct (Hw _ _ Hi) as (cp & Ecp & [p Ep] & _). by exists cp, p.
Qed.

Lemma on_params_radarinfo f cp : radarinfo (on_params f cp) = radarinfo cp.
Proof. done. Qed.

Lemma unregister_wf s a :
  registry_wf s →
  registry_wf (s <| radar_channels ::= fun l => spec_unregister l a |>
                 <| heap := heap_unregister (radar_channels s) a (heap s) |>).
Proof.
  intros [Hl Hw]. unfold registry_wf, set_field; simpl. split.
  { unfold spec_unregister, zlen. by rewrite length_map. }
  intros i b. rewrite spec_unregister_zget, fmap_Some.
  intros (v & Hv & E). case_decide; [done|]. subst v.
  destruct (Hw _ _ Hv) as (cp & Ecp & Hp & Hr & Hc). unfold heap_unregister.
  case_match; [by exists cp|]. exists cp.
  rewrite lookup_alter_ne by congruence. done.
Qed.

Lemma slot_of_valid r c :
  valid_slot r c = true →
  0 ≤ slot_of r c < 8 ∧ slot_radar (slot_of r c) = r ∧ slot_channel (slot_of r c) = c.
Proof.
  intros V. pose proof V as Hr%valid_slot_spec. unfold slot_of, MAX_CHANNELS in *.
  split; [lia|]. pose proof (slot_eq r c ((r - 1) * 4 + (c - 1)) ltac:(lia)) as E.
  rewrite V in E. unfold slot_of, MAX_CHANNELS in E. rewrite Z.eqb_refl in E.
  apply andb_true_iff in E as [E1%Z.eqb_eq E2%Z.eqb_eq]. done.
Qed.

Lemma spec_target_inv l rad chan k r c :
  spec_target l rad chan = Some (k, r, c) →
  k = slot_of r c ∧ valid_slot r c = true ∧ zget l k = Some None.
Proof.
  unfold spec_target. destruct (first_free 0 l); [|done]. cbn [mbind option_bind].
  set (r0 := if rad <=? 0 then _ else _). set (c0 := if chan <=? 0 then _ else _).
  destruct (valid_slot r0 c0) eqn:V; [|done]. simpl. case_bool_decide as D; [|done].
  by intros [= <- <- <-].
Qed.

Lemma registry_wf_set s a r c :
  registry_wf s → has_params s a → valid_slot r c = true →
  (∀ i, zget (radar_channels s) i ≠ Some (Some a)) →
  registry_wf (s <| heap ::= alter (set_coords r c) a |>
                 <| radar_channels ::= fun l => <[Z.to_nat (slot_of r c) := Some a]> l |>).
Proof.
  intros [Hl Hw] (cp & p & Ecp & Ep) V Hna. unfold registry_wf, set_field; simpl. split.
  { unfold zlen. by rewrite length_insert. }
  intros i b. destruct (slot_of_valid _ _ V) as (Hk & Hr & Hc).
  pose proof (zset_Some (radar_channels s) (slot_of r c) (Some a)) as E.
  rewrite Hl in E. specialize (E Hk).
  destruct (decide (i = slot_of r c)) as [->|Hne].
  - rewrite (zget_zset_eq _ _ _ _ E). intros [= <-].
    exists (set_coords r c cp). rewrite lookup_alter_eq, Ecp. split; [done|].
    split_and!; [|done..]. simpl. rewrite Ep. by eexists.
  - rewrite (zget_zset_ne _ _ _ _ _ E) by done. intros Hi.
    destruct (Hw _ _ Hi) as (cp' & ? & ? & ? & ?). exists cp'.
    rewrite lookup_alter_ne; [done|]. intros <-. by apply (Hna i).
Qed.

(** Both phases of a registration, computed. *)
Lemma register_run s a rad chan :
  registry_wf s → has_params s a →
  let l := spec_unregister (radar_channels s) a in
  let s1 := s <| radar_channels := l |>
              <| heap := heap_unregister (radar_channels s) a (heap s) |> in
  register_radar_channel (Some a) rad chan s =
    match spec_target l rad chan with
    | None => Ok (-1, s1)
    | Some (k, r, c) =>
        Ok (1, s1 <| heap ::= alter (set_coords r c) a |>
                  <| radar_channels ::= fun l => <[Z.to_nat k := Some a]> l |>)
    end.
Proof.
  intros Hwf Hp l s1. unfold register_radar_channel.
  erewrite bind_ok by (apply unregister_run; [apply Hwf|by intros ?%registry_wf_params]).
  change (s <| radar_channels ::= _ |> <| heap := _ |>) with s1.
  destruct (register_loop a (radar_channels s1) [] rad chan s1 eq_refl) as (r' & c' & E).
  { destruct Hp as (cp & p & Ecp & Ep). unfold has_params, s1, set_field; simpl.
    unfold heap_unregister. case_match; [by exists cp, p|].
    exists (on_params zero_slot cp), (zero_slot p). rewrite lookup_alter_eq, Ecp.
    split; [done|]. simpl. by rewrite Ep. }
  assert (zlen (radar_channels s1) = 8) as Hl by (apply unregister_wf; done).
  rewrite Hl in E. change (zlen []) with 0 in E. rewrite scan_spec in E by done.
  unfold slots. change (MAX_RADARS * MAX_CHANNELS) with 8.
  unfold mbind, m_bind. rewrite E. change (radar_channels s1) with l.
  by destruct (spec_target l rad chan) as [[[k r] c]|].
Qed.

Lemma unregister_no_slot l a i : zget (spec_unregister l a) i ≠ Some (Some a).
Proof.
  rewrite spec_unregister_zget. destruct (zget l i) as [v|]; [|done]. simpl.
  case_decide; congruence.
Qed.

(** The parameters and the [radarinfo] of program [a] name radar [r], channel [c]. *)
Definition named_for (s : server) (a r c : Z) : Prop :=
  ∃ cp p, heap s !! a = Some cp ∧ parameters cp = Some p ∧ radar p = r ∧ channel p = c ∧
    ri_radar (radarinfo cp) = r ∧ ri_channel (radarinfo cp) = c.

(** C35: [register_radar_channel] refines the specification of the table: the
    program first loses the slots it had; then a coordinate of the request that is
    not positive is replaced by that of the first free slot of the table, and when
    the slot the two name exists and is free the program owns exactly that slot,
    its parameters and radarinfo name it, and the call returns 1; otherwise the
    call returns -1 and only the old slots are lost, even when another slot would
    fit the request ([register_wildcard_refused]).  Well-formedness of the table is
    preserved on both branches. *)
Theorem register_refines s a rad chan :
  registry_wf s → has_params s a →
  let l := spec_unregister (radar_channels s) a in
  ∃ st s', register_radar_channel (Some a) rad chan s = Ok (st, s') ∧
    registry_wf s' ∧
    match spec_target l rad chan with
    | None => st = -1 ∧ radar_channels s' = l
    | Some (k, r, c) =>
        st = 1 ∧ radar_channels s' = <[Z.to_nat k := Some a]> l ∧
        find_registered_controlprogram_by_radar_channel r c s' = Ok (Some a, s') ∧
        named_for s' a r c
    end.
Proof.
  intros Hwf Hp l. rewrite register_run by done. fold l.
  pose proof (unregister_wf s a Hwf) as Hwf1.
  destruct (spec_target l rad chan) as [[[k r] c]|] eqn:T; [|by eexists _, _].
  apply spec_target_inv in T as (-> & V & Hfree). eexists _, _. split; [done|].
  assert (has_params (s <| radar_channels := l |>
    <| heap := heap_unregister (radar_channels s) a (heap s) |>) a) as Hp1.
  { destruct Hp as (cp & p & Ecp & Ep). unfold has_params, heap_unregister, set_field; simpl.
    case_match; [by exists cp, p|]. rewrite lookup_alter_eq, Ecp. eexists _, (zero_slot p).
    split; [done|]. simpl. by rewrite Ep. }
  assert (registry_wf (s <| radar_channels := l |>
    <| heap := heap_unregister (radar_channels s) a (heap s) |>
    <| heap ::= alter (set_coords r c) a |>
    <| radar_channels ::= fun l => <[Z.to_nat (slot_of r c) := Some a]> l |>)) as Hwf2
    by (apply registry_wf_set; [done..|apply unregister_no_slot]).
  assert (named_for (s <| radar_channels := l |>
    <| heap := heap_unregister (radar_channels s) a (heap s) |>
    <| heap ::= alter (set_coords r c) a |>
    <| radar_channels ::= fun l => <[Z.to_nat (slot_of r c) := Some a]> l |>) a r c) as Hnamed.
  { destruct Hp1 as (cp & p & Ecp & Ep). revert Ecp. unfold named_for, set_field; simpl. intros Ecp.
    rewrite lookup_alter_eq, Ecp. eexists _, _. split; [done|]. simpl. rewrite Ep. by split_and!. }
  split_and!; [done..| |done]. rewrite find_run by apply Hwf2. f_equal. f_equal.
  unfold owner. rewrite V. unfold set_field; simpl.
  destruct (slot_of_valid _ _ V) as (Hk & _).
  erewrite zget_zset_eq; [done|]. apply zset_Some. destruct Hwf1 as [Hl _].
  unfold set_field in Hl; simpl in Hl. unfold l. rewrite Hl. done.
Qed.

(** A server with one program, registered as radar 1, channel 2. *)
Definition example_server : server :=
  server0 <| heap := {[ 7 := cp0 <| radarinfo := mk_RadarPRM 0 1 2 |> ]} |>
          <| radar_channels := [None; Some 7; None; None; None; None; None; None] |>.

Lemma example_server_wf : registry_wf example_server.
Proof.
  split; [done|]. intros i a E. pose proof (zget_Some_range _ _ _ E) as Hi.
  unfold zlen in Hi; simpl in Hi.
  assert (i = 0 ∨ i = 1 ∨ i = 2 ∨ i = 3 ∨ i = 4 ∨ i = 5 ∨ i = 6 ∨ i = 7) as Hd by lia.
  destruct_or! Hd; subst; try done. injection E as <-.
  eexists. split; [reflexivity|]. by split_and!; [eexists|..].
Defined.

(** Registering the program again with automatic coordinates moves it to the
    first free slot. *)
Lemma register_refines_witness :
  ∃ st s', register_radar_channel (Some 7) 0 0 example_server = Ok (st, s') ∧
    registry_wf s' ∧
    match spec_target (spec_unregister (radar_channels example_server) 7) 0 0 with
    | None => st = -1 ∧ radar_channels s' = spec_unregister (radar_channels example_server) 7
    | Some (k, r, c) =>
        st = 1 ∧
        radar_channels s' =
          <[Z.to_nat k := Some 7]> (spec_unregister (radar_channels example_server) 7) ∧
        find_registered_controlprogram_by_radar_channel r c s' = Ok (Some 7, s') ∧
        named_for s' 7 r c
    end.
Proof.
  apply (register_refines example_server 7 0 0).
  - apply example_server_wf.
  - eexists _, _. by split.
Defined.

(** Channel 3 of any radar: the first free slot is of radar 1, whose channel 3 is
    taken, so the request is refused although channel 3 of radar 2 is free. *)
Definition crowded_server : server :=
  server0 <| heap := {[ 7 := cp0; 9 := cp0 <| radarinfo := mk_RadarPRM 0 1 3 |> ]} |>
          <| radar_channels := [None; None; Some 9; None; None; None; None; None] |>.

Example register_wildcard_refused :
  (match register_radar_channel (Some 7) 0 3 crowded_server with
   | Ok (st, s') => Some (st, owner (radar_channels s') 2 3, radar_channels s')
   | Fault _ => None
   end) = Some (-1, None, radar_channels crowded_server).
Proof. vm_compute. reflexivity. Qed.

Lemma slot_count_zero l a : slot_count l a = 0 → ∀ i, zget l i ≠ Some (Some a).
Proof.
  induction l as [|v l IH]; intros E i.
  { unfold zget. by case_decide. }
  rewrite slot_count_cons in E. pose proof (slot_count_nonneg l a).
  rewrite zget_cons. case_decide as D; case_decide; [lia|lia|congruence|].
  apply IH. lia.
Qed.

Lemma slot_count_unique l a :
  (∀ i j, zget l i = Some (Some a) → zget l j = Some (Some a) → i = j) →
  slot_count l a ≤ 1.
Proof.
  induction l as [|v l IH]; intros Hu; [done|]. rewrite slot_count_cons.
  destruct (decide (v = Some a)) as [->|Hv].
  - destruct (decide (slot_count l a = 0)) as [->|[i Hi]%slot_count_pos]; [done|].
    pose proof (zget_Some_range _ _ _ Hi). exfalso.
    assert (0 = i + 1); [|lia]. apply Hu; rewrite zget_cons; [done|].
    rewrite decide_False by lia. by rewrite Z.add_simpl_r.
  - apply IH. intros i j Hi Hj.
    pose proof (zget_Some_range _ _ _ Hi). pose proof (zget_Some_range _ _ _ Hj).
    assert (i + 1 = j + 1); [|lia].
    apply Hu; rewrite zget_cons, decide_False by lia; by rewrite Z.add_simpl_r.
Qed.

Lemma registry_wf_inj s a :
  registry_wf s → ∀ i j, zget (radar_channels s) i = Some (Some a) →
  zget (radar_channels s) j = Some (Some a) → i = j.
Proof.
  intros [Hl Hw] i j Hi Hj.
  pose proof (zget_Some_range _ _ _ Hi). pose proof (zget_Some_range _ _ _ Hj).
  rewrite Hl in *. unfold MAX_RADARS, MAX_CHANNELS in *.
  destruct (Hw _ _ Hi) as (cp & E1 & _ & R1 & C1), (Hw _ _ Hj) as (cp' & E2 & _ & R2 & C2).
  destruct (slot_of_coords i) as [_ <-]; [lia|]. destruct (slot_of_coords j) as [_ <-]; [lia|].
  congruence.
Qed.

(** On a well-formed table [unregister_radar_channel] never faults: it
    frees every slot the program has and no other, and returns 1 when the
    program was registered and 0 when it was not. *)
Theorem unregister_correct s a :
  registry_wf s →
  ∃ n s', unregister_radar_channel (Some a) s = Ok (n, s') ∧
    registry_wf s' ∧
    (n = 0 ∨ n = 1) ∧
    (n = 0 → ∀ i, zget (radar_channels s) i ≠ Some (Some a)) ∧
    (∀ i, zget (radar_channels s') i ≠ Some (Some a)) ∧
    (∀ i b, b ≠ a → zget (radar_channels s') i = Some (Some b) ↔
                    zget (radar_channels s) i = Some (Some b)).
Proof.
  intros Hwf. eexists _, _.
  split; [apply unregister_run; [apply Hwf|by apply registry_wf_params]|].
  split; [by apply unregister_wf|]. unfold set_field; simpl.
  split; [|split; [|split; [apply unregister_no_slot|]]].
  - pose proof (slot_count_nonneg (radar_channels s) a).
    pose proof (slot_count_unique (radar_channels s) a (registry_wf_inj s a Hwf)). lia.
  - intros E i Hi. by pose proof (slot_count_zero _ _ E i).
  - intros i b Hb. rewrite spec_unregister_zget.
    destruct (zget _ i) as [v|]; simpl; [case_decide; naive_solver|done].
Qed.

Lemma unregister_correct_witness :
  ∃ n s', unregister_radar_channel (Some 7) example_server = Ok (n, s') ∧
    registry_wf s' ∧
    (n = 0 ∨ n = 1) ∧
    (n = 0 → ∀ i, zget (radar_channels example_server) i ≠ Some (Some 7)) ∧
    (∀ i, zget (radar_channels s') i ≠ Some (Some 7)) ∧
    (∀ i b, b ≠ 7 → zget (radar_channels s') i = Some (Some b) ↔
                    zget (radar_channels example_server) i = Some (Some b)).
Proof. apply (unregister_correct example_server 7). apply example_server_wf. Defined.

Lemma is_best_params s r b :
  is_best s r (Some b) → ∃ cp prm, heap s !! b = Some cp ∧ parameters cp = Some prm.
Proof. intros (p & c & _ & (_ & cp & prm & ? & _ & ? & _) & _). by exists cp, prm. Qed.

(** [controlprogram_fill_parameters] reports a program's own slot,
    sequence, frequencies and filter settings with the beam directions of the
    best program of its radar: the active program of lowest priority value,
    the lowest channel among equals.  Only priorities below 99 compete, and
    without a winner the call dereferences a null pointer. *)
Theorem fill_parameters_correct s junk a cp own :
  registry_wf s → heap s !! a = Some cp → parameters cp = Some own →
  1 ≤ ri_radar (radarinfo cp) ≤ MAX_RADARS →
  ∃ best, is_best s (ri_radar (radarinfo cp)) best ∧
    (∀ best', is_best s (ri_radar (radarinfo cp)) best' → best' = best) ∧
    match best with
    | None => controlprogram_fill_parameters junk (Some a) s = Fault NullDeref
    | Some b => ∃ bcp beam, heap s !! b = Some bcp ∧ parameters bcp = Some beam ∧
        controlprogram_fill_parameters junk (Some a) s =
          Ok (spec_filled junk own beam (radarinfo cp), s)
    end.
Proof.
  intros Hwf Ecp Eown Hr. unfold MAX_RADARS in Hr.
  destruct (fill_best_run s Hwf) as (b1 & b2 & H1 & H2 & E).
  set (r := ri_radar (radarinfo cp)) in *.
  exists (if r =? 1 then b1 else b2).
  assert (is_best s r (if r =? 1 then b1 else b2)) as Hb.
  { destruct (Z.eqb_spec r 1) as [->|]; [done|]. by replace r with 2 by lia. }
  split; [done|]. split; [intros b' Hb'; by eapply is_best_fun|].
  assert (zget [b1; b2] (r - 1) = Some (if r =? 1 then b1 else b2)) as Ez.
  { destruct (Z.eqb_spec r 1) as [->|]; [done|]. by replace r with 2 by lia. }
  unfold controlprogram_fill_parameters.
  change (bits_any _ _) with true. cbn match.
  rewrite (bind_ok _ _ _ _ _ E), (bind_ok _ _ _ _ _ (get_cp_run _ _ _ Ecp)), Eown.
  change (TX_BEAM_PRIORITY =? 0) with false. change (TX_FREQ_PRIORITY =? 0) with true.
  change (RX_BEAM_PRIORITY =? 0) with false. change (RX_FREQ_PRIORITY =? 0) with true.
  cbn match. unfold best_parameters.
  change (radar (junk <| radar := _ |> <| channel := _ |>)) with r. rewrite Ez.
  destruct (if r =? 1 then b1 else b2) as [b|]; [|done].
  destruct (is_best_params _ _ _ Hb) as (bcp & beam & Eb & Ebeam). exists bcp, beam.
  split_and!; [done..|]. unfold deref, mbind, m_bind.
  rewrite (get_params_run _ _ _ _ Eb Ebeam). unfold mret, m_ret. cbn beta iota.
  rewrite (get_params_run _ _ _ _ Eb Ebeam). by destruct own.
Qed.

Lemma fill_parameters_correct_witness :
  ∃ best, is_best example_server 1 best ∧
    (∀ best', is_best example_server 1 best' → best' = best) ∧
    match best with
    | None => controlprogram_fill_parameters prm0 (Some 7) example_server = Fault NullDeref
    | Some b => ∃ bcp beam, heap example_server !! b = Some bcp ∧ parameters bcp = Some beam ∧
        controlprogram_fill_parameters prm0 (Some 7) example_server =
          Ok (spec_filled prm0 prm0 beam (mk_RadarPRM 0 1 2), example_server)
    end.
Proof.
  refine (fill_parameters_correct example_server prm0 7
    (cp0 <| radarinfo := mk_RadarPRM 0 1 2 |>) prm0 example_server_wf eq_refl eq_refl _).
  split; [done|]. vm_compute. discriminate.
Defined.
