(* ===== verification/Threads.v ===== *)
(** * Threads: the list of client threads (server/main.c, server/timeout_handler.c)

    The doubly linked list headed by [controlprogram_threads]: insertion by the
    accept loop of [main], removal by [timeout_handler] and [graceful_cleanup].
    What cancelling and joining a client thread does (its cleanup handler) is
    an interface, [ClientExit], that ClientHandler.v implements. *)

From Stdlib Require Import ZArith Lia.
From stdpp Require Import base list gmap.
From S2P Require Import Prelude Binary64 Types Registry.
Open Scope Z_scope.
Open Scope cvr_scope.

(** Members of a list item read and written through a pointer. *)
Definition get_item (x : Z) : SM Thread_List_Item := fun s =>
  match thread_items s !! x with
  | Some it => Ok (it, s)
  | None => Fault NullDeref
  end.

Definition upd_item (x : Z) (f : Thread_List_Item → Thread_List_Item) : SM unit :=
  _ ← get_item x; modify (fun s => s <| thread_items ::= alter f x |>).

Definition free_item (x : Z) : SM unit :=
  _ ← get_item x; modify (fun s => s <| thread_items ::= delete x |>).

(** [malloc(sizeof(struct Thread_List_Item))]: a block at a fresh address. *)
Definition malloc_item (junk : Thread_List_Item) : SM Z := fun s =>
  let x := fresh (dom (thread_items s)) in
  Ok (x, s <| thread_items ::= <[x := junk]> |>).

(** The insertion of the accept loop, and the assignments to the new item. *)
Definition thread_insert (junk : Thread_List_Item) (id : Z) (now limit : timeval)
    (control_program : Z) : SM Z :=
  head ← gets controlprogram_threads;
  match head with
  | None =>
      x ← malloc_item junk;
      upd_item x (fun it => it <| next := None |>);;
      upd_item x (fun it => it <| prev := None |>);;
      modify (fun s => s <| controlprogram_threads := Some x |>)
  | Some h =>
      x ← malloc_item junk;
      upd_item x (fun it => it <| next := None |>);;
      upd_item x (fun it => it <| prev := None |>);;
      upd_item h (fun it => it <| next := Some x |>);;
      upd_item x (fun it => it <| prev := Some h |>);;
      modify (fun s => s <| controlprogram_threads := Some x |>)
  end;;
  head ← gets controlprogram_threads;
  x ← deref NullDeref head;
  upd_item x (fun it => it <| thread_id := id |>);;
  upd_item x (fun it => it <| last_seen := now |>);;
  upd_item x (fun it => it <| timeout := limit |>);;
  upd_item x (fun it => it <| thread_data := Some control_program |>);;
  mret x.

(** [while(thread_list!=NULL){ thread_list=thread_list->prev; num_threads++; }] *)
Fixpoint thread_count (fuel : nat) (thread_list : option Z) (num_threads : Z) : SM Z :=
  match thread_list with
  | None => mret num_threads
  | Some x =>
      match fuel with
      | O => fail OutOfFuel
      | S fuel => it ← get_item x; thread_count fuel (prev it) (num_threads + 1)
      end
  end.

Definition walk_fuel (s : server) : nat := size (thread_items s).

(** One round of the accept loop of [main]: a connection on [newsockfd] served
    by a new thread [id]; returns [num_threads]. *)
Definition main_accept (junk : ControlProgram) (jst : ControlState) (jprm : ControlPRM)
    (jdata : DataPRM) (jitem : Thread_List_Item)
    (newsockfd id : Z) (current_time default_timeout : timeval) : SM Z :=
  lock controlprogram_list_lock;;
  control_program ← control_init junk jst jprm jdata;
  upd_state control_program (fun st => st <| socket := newsockfd |>);;
  x ← thread_insert jitem id current_time default_timeout control_program;
  upd_state control_program (fun st => st <| thread := Some x |>);;
  fuel ← gets walk_fuel;
  n ← thread_count fuel (Some x) 0;
  unlock controlprogram_list_lock;;
  mret n.

(** The unlinking of [thread_item], shared by the two removal loops: returns
    the new [thread_list]. *)
Definition thread_unlink (thread_item : Z) : SM (option Z) :=
  it ← get_item thread_item;
  let thread_next := next it in
  let thread_list := prev it in
  match thread_next with
  | Some n => upd_item n (fun i => i <| prev := thread_list |>)
  | None => modify (fun s => s <| controlprogram_threads := thread_list |>)
  end;;
  match thread_list with
  | Some p => it' ← get_item thread_item; upd_item p (fun i => i <| next := next it' |>)
  | None => mret tt
  end;;
  mret thread_list.

(** ** The removal loops, over what a cancelled client thread does *)

Section Removal.
  Context (cancel_join : Z → SM unit).

(** [elapsed > timeout]: both sides are [unsigned long] (32 bits). *)
Definition expired (now : timeval) (it : Thread_List_Item) : bool :=
  u32 (tv_sec (timeout it)) <? u32 (tv_sec now - tv_sec (last_seen it)).

(** The cancellation of an over-run client: its thread is cancelled and joined
    with the exit lock released, unless it is already leaving.  [cancel_join] is
    [pthread_cancel], the clean-up handler of the client and [pthread_join] in one:
    the client is one that waits for a message, as a silent client does.  A client
    that waits for a mutex is not woken by [pthread_cancel], and one that was
    cancelled inside a locked region keeps its mutexes; the join then need not
    return (Deadlock, [cancelled_client_deadlocks]). *)
Definition timeout_cancel (it : Thread_List_Item) : SM unit :=
  match thread_data it with
  | None => mret tt
  | Some c =>
      cp ← get_cp c;
      match state cp with
      | None => mret tt
      | Some st =>
          when (cancelled st =? 0)
            (unlock exit_lock;; emit (EvCancel (thread_id it));; cancel_join c;;
             lock exit_lock)
      end
  end.

(** [free(thread_item->data); thread_item->data=NULL; free(thread_item);] *)
Definition timeout_free (thread_item : Z) : SM unit :=
  it ← get_item thread_item;
  match thread_data it with
  | Some c => modify (fun s => s <| heap ::= delete c |>)
  | None => mret tt
  end;;
  upd_item thread_item (fun i => i <| thread_data := None |>);;
  free_item thread_item.

Fixpoint timeout_loop (fuel : nat) (now : timeval) (thread_list : option Z) : SM unit :=
  match thread_list with
  | None => mret tt
  | Some x =>
      match fuel with
      | O => fail OutOfFuel
      | S fuel =>
          it ← get_item x;
          if expired now it then
            timeout_cancel it;;
            thread_list ← thread_unlink x;
            timeout_free x;;
            timeout_loop fuel now thread_list
          else timeout_loop fuel now (prev it)
      end
  end.

(** One pass of [timeout_handler] (the body of its endless loop). *)
Definition timeout_handler (now : timeval) : SM unit :=
  lock exit_lock;;
  fuel ← gets walk_fuel;
  head ← gets controlprogram_threads;
  timeout_loop fuel now head;;
  unlock exit_lock.

Fixpoint cleanup_loop (fuel : nat) (thread_list : option Z) : SM unit :=
  match thread_list with
  | None => mret tt
  | Some x =>
      match fuel with
      | O => fail OutOfFuel
      | S fuel =>
          it ← get_item x;
          emit (EvCancel (thread_id it));;
          match thread_data it with
          | Some c => cancel_join c
          | None => mret tt
          end;;
          lock controlprogram_list_lock;;
          thread_list ← thread_unlink x;
          free_item x;;
          unlock controlprogram_list_lock;;
          cleanup_loop fuel thread_list
      end
  end.

(** [graceful_cleanup]: the client threads, then the driver connections. *)
Definition graceful_cleanup : SM unit :=
  fuel ← gets walk_fuel;
  head ← gets controlprogram_threads;
  cleanup_loop fuel head;;
  emit (EvClose SDio);; emit (EvClose STiming);; emit (EvClose SRecv);;
  emit (EvClose SDds);; emit (EvClose SGps).

End Removal.

(** ** Specification: the list, newest thread first *)

Fixpoint dll (m : gmap Z Thread_List_Item) (nxt : option Z) (l : list Z)
    (hd : option Z) : Prop :=
  match l with
  | [] => hd = None
  | x :: l' => hd = Some x ∧ ∃ it, m !! x = Some it ∧ next it = nxt ∧
                 dll m (Some x) l' (prev it)
  end.

(** The list in memory is [l]: linked both ways, without repetition, and every
    allocated item is on it. *)
Definition threads_are (s : server) (l : list Z) : Prop :=
  dll (thread_items s) None l (controlprogram_threads s) ∧ NoDup l ∧
  dom (thread_items s) = list_to_set l.

(** From a well-formed list, [m] leaves the thread list alone and does not run
    out of fuel. *)
Definition list_frame {A} (m : SM A) : Prop := ∀ s l, threads_are s l →
  ends (fun _ s' => thread_items s' = thread_items s ∧
                    controlprogram_threads s' = controlprogram_threads s) (m s).

(** What the removal loops need of a cancelled client: its cleanup handler does
    not touch the thread list. *)
Class ClientExit (cancel_join : Z → SM unit) : Prop := {
  exit_frame : ∀ c, list_frame (cancel_join c)
}.

(** The item [thread_insert] builds. *)
Definition new_item (junk : Thread_List_Item) (h : option Z) (id : Z)
    (now limit : timeval) (cp : Z) : Thread_List_Item :=
  mk_Thread_List_Item h None id limit now (Some cp).

(** The list after [thread_insert] at address [x]. *)
Definition items_insert (x : Z) (it : Thread_List_Item) (h : option Z)
    (m : gmap Z Thread_List_Item) : gmap Z Thread_List_Item :=
  <[x := it]> (match h with Some h => alter (fun i => i <| next := Some x |>) h m | None => m end).

(** The list after [thread_unlink] of an item with the given neighbours. *)
Definition items_unlink (n p : option Z) (m : gmap Z Thread_List_Item)
    : gmap Z Thread_List_Item :=
  let m := match n with Some n => alter (fun i => i <| prev := p |>) n m | None => m end in
  match p with Some p => alter (fun i => i <| next := n |>) p m | None => m end.

(** The members of an item that are not links. *)
Definition item_info (it : Thread_List_Item) : Z * timeval * timeval * option Z :=
  (thread_id it, timeout it, last_seen it, thread_data it).

Definition info_of (s : server) (x : Z) : option (Z * timeval * timeval * option Z) :=
  item_info <$> thread_items s !! x.

(** The items of [l] a timeout pass at time [now] keeps. *)
Definition kept (s : server) (now : timeval) (x : Z) : bool :=
  match thread_items s !! x with
  | Some it => negb (expired now it)
  | None => false
  end.

(** ** Running the list primitives *)

Lemma get_item_run x it s : thread_items s !! x = Some it → get_item x s = Ok (it, s).
Proof. intros E. unfold get_item. by rewrite E. Qed.

Lemma upd_item_run x f s :
  is_Some (thread_items s !! x) →
  upd_item x f s = Ok (tt, s <| thread_items ::= alter f x |>).
Proof.
  intros [it E]. unfold upd_item. by rewrite (bind_ok _ _ _ _ _ (get_item_run _ _ _ E)).
Qed.

Lemma free_item_run x s :
  is_Some (thread_items s !! x) →
  free_item x s = Ok (tt, s <| thread_items ::= delete x |>).
Proof.
  intros [it E]. unfold free_item. by rewrite (bind_ok _ _ _ _ _ (get_item_run _ _ _ E)).
Qed.

Lemma upd_item_then {A} x f (k : SM A) s :
  is_Some (thread_items s !! x) →
  (upd_item x f;; k) s = k (s <| thread_items ::= alter f x |>).
Proof. intros Hx. by rewrite (bind_ok _ _ _ _ _ (upd_item_run x f s Hx)). Qed.

Lemma live_upd (F : gmap Z Thread_List_Item → gmap Z Thread_List_Item) y s :
  is_Some (F (thread_items s) !! y) → is_Some (thread_items (s <| thread_items ::= F |>) !! y).
Proof. done. Qed.

Lemma live_head (F : gmap Z Thread_List_Item → gmap Z Thread_List_Item) v y s :
  is_Some (F (thread_items s) !! y) →
  is_Some (thread_items (s <| thread_items ::= F |> <| controlprogram_threads := v |>) !! y).
Proof. done. Qed.

(** [item_steps] runs assignments to list items, keeping one pending update of
    the list; [item_live] proves that an assigned item is allocated. *)
Ltac item_live :=
  first [eassumption | apply live_upd | apply live_head]; cbn beta;
  rewrite ?lookup_alter_is_Some, ?lookup_insert_is_Some'; eauto 3.

Ltac item_steps :=
  repeat (rewrite ?bind_assoc, upd_item_then by item_live;
          rewrite ?head_upd_items, ?items_upd_upd; cbn beta).

Lemma alter_at {A} (m : gmap Z A) x f a : m !! x = Some a → alter f x m = <[x := f a]> m.
Proof.
  intros E. apply map_eq. intros j. destruct (decide (x = j)) as [->|].
  - by rewrite lookup_alter_eq, lookup_insert_eq, E.
  - by rewrite lookup_alter_ne, lookup_insert_ne.
Qed.

Ltac by_lookup x h :=
  apply map_eq; intros j; destruct (decide (x = j)) as [<-|]; [|destruct (decide (h = j)) as [<-|]];
  repeat first
    [ rewrite lookup_alter_eq | rewrite lookup_insert_eq
    | rewrite lookup_alter_ne by done | rewrite lookup_insert_ne by done ]; try done.

Lemma malloc_item_run junk s :
  malloc_item junk s =
    Ok (fresh (dom (thread_items s)),
        s <| thread_items ::= <[fresh (dom (thread_items s)) := junk]> |>).
Proof. done. Qed.

Lemma thread_insert_run s junk id now limit cp :
  (∀ h, controlprogram_threads s = Some h → is_Some (thread_items s !! h)) →
  let x := fresh (dom (thread_items s)) in
  let h := controlprogram_threads s in
  thread_insert junk id now limit cp s =
    Ok (x, s <| thread_items ::= items_insert x (new_item junk h id now limit cp) h |>
             <| controlprogram_threads := Some x |>).
Proof.
  intros Hh x h. assert (thread_items s !! x = None) as Hx by (apply not_elem_of_dom, is_fresh).
  unfold thread_insert, h.
  destruct (controlprogram_threads s) as [h0|] eqn:Eh; rewrite (bind_ok _ _ s _ s eq_refl), Eh; cbn beta iota.
  - specialize (Hh h0 eq_refl). assert (x ≠ h0) as Hne by (intros <-; by rewrite Hx in Hh; destruct Hh).
    rewrite bind_assoc, (bind_ok _ _ _ _ _ (malloc_item_run junk s)). fold x. item_steps.
    rewrite modify_then, gets_then, head_get, deref_then. item_steps.
    apply (f_equal (fun s' => Ok (x, s' <| controlprogram_threads := Some x |>))).
    apply items_upd_ext. unfold items_insert. by_lookup x h0.
  - rewrite bind_assoc, (bind_ok _ _ _ _ _ (malloc_item_run junk s)). fold x. item_steps.
    rewrite modify_then, gets_then, head_get, deref_then. item_steps.
    apply (f_equal (fun s' => Ok (x, s' <| controlprogram_threads := Some x |>))).
    apply items_upd_ext. unfold items_insert. by_lookup x x.
Qed.

(** ** Lists in memory *)

Lemma dll_mono m m' l : ∀ nxt hd,
  (∀ x, x ∈ l → m' !! x = m !! x) → dll m nxt l hd → dll m' nxt l hd.
Proof.
  induction l as [|x l IH]; intros nxt hd Hm; [done|]. simpl.
  intros [-> (it & E & Hn & Hd)]. split; [done|]. exists it.
  rewrite Hm by left. split_and!; [done..|]. apply IH; [|done].
  intros y Hy. apply Hm. by right.
Qed.

Lemma dll_live m l x : ∀ nxt hd, dll m nxt l hd → x ∈ l → is_Some (m !! x).
Proof.
  induction l as [|y l IH]; intros nxt hd; simpl; [by rewrite elem_of_nil|].
  intros [-> (it & E & Hn & Hd)] [->|Hx]%elem_of_cons; eauto.
Qed.

Lemma dll_head m l nxt hd : dll m nxt l hd → hd = head l.
Proof. destruct l; naive_solver. Qed.

Lemma dll_next m l nxt nxt' hd :
  NoDup l → dll m nxt l hd →
  dll (match hd with Some h => alter (fun i => i <| next := nxt' |>) h m | None => m end)
    nxt' l hd.
Proof.
  destruct l as [|x l]; [by intros _ ->|]. simpl.
  intros [Hx Hnd]%NoDup_cons [-> (it & E & Hn & Hd)]. split; [done|].
  exists (it <| next := nxt' |>). rewrite lookup_alter_eq, E. split_and!; [done..|].
  eapply dll_mono; [|exact Hd]. intros y Hy. apply lookup_alter_ne. congruence.
Qed.

(** The neighbours of an item in the middle of the list. *)
Lemma dll_split m l1 x l2 : ∀ nxt hd,
  dll m nxt (l1 ++ x :: l2) hd → ∃ it, m !! x = Some it ∧ prev it = head l2 ∧
    next it = match last l1 with Some y => Some y | None => nxt end.
Proof.
  induction l1 as [|y l1 IH]; intros nxt hd; simpl.
  - intros [-> (it & E & Hn & Hd)]. exists it. split_and!; [done| |done].
    by eapply dll_head.
  - intros [-> (it & E & Hn & Hd)]. destruct (IH _ _ Hd) as (it' & E' & Hp & Hn').
    exists it'. split_and!; [done..|]. rewrite last_cons. by destruct (last l1).
Qed.

Lemma items_unlink_lookup n p m x :
  n ≠ Some x → p ≠ Some x → items_unlink n p m !! x = m !! x.
Proof.
  intros Hn Hp. unfold items_unlink.
  destruct p as [p|]; [rewrite lookup_alter_ne by congruence|];
    (destruct n as [n|]; [rewrite lookup_alter_ne by congruence|]); done.
Qed.

Lemma dll_unlink m l1 x l2 it : ∀ nxt hd,
  NoDup (l1 ++ x :: l2) → (∀ y, nxt = Some y → y ∉ l1 ++ x :: l2) →
  dll m nxt (l1 ++ x :: l2) hd → m !! x = Some it →
  dll (items_unlink (next it) (prev it) m) nxt (l1 ++ l2)
    (match l1 with [] => prev it | _ => hd end).
Proof.
  induction l1 as [|y l1 IH]; intros nxt hd Hnd Hfr Hd Ex; simpl in *.
  - destruct Hd as [-> (it' & E & <- & Hd)].
    replace it' with it in * by congruence. clear it' E.
    apply NoDup_cons in Hnd as [Hx Hnd].
    set (m1 := match next it with Some n => alter (fun i => i <| prev := prev it |>) n m | None => m end).
    apply (dll_next m1 l2 (Some x)); [done|]. eapply dll_mono; [|exact Hd].
    intros z Hz. unfold m1. destruct (next it) as [n|]; [|done].
    apply lookup_alter_ne. intros <-. apply (Hfr n eq_refl). by right.
  - destruct Hd as [-> (ity & E & Hn & Hd)]. apply NoDup_cons in Hnd as [Hy Hnd].
    destruct (dll_split _ _ _ _ _ _ Hd) as (it' & E' & Hp & Hnx).
    replace it' with it in * by congruence. clear it' E'. split; [done|]. set (ity' := if decide (l1 = []) then ity <| prev := prev it |> else ity).
    assert (prev it ≠ Some y) as Hpy.
    { rewrite Hp. destruct l2; [done|]. simpl. intros [= ->]. apply Hy.
      rewrite elem_of_app, !elem_of_cons. auto. }
    exists ity'. split_and!.
    + unfold ity', items_unlink. destruct (decide (l1 = [])) as [->|Hl1].
      * simpl in Hnx. rewrite Hnx.
        destruct (prev it) as [p|]; [rewrite lookup_alter_ne by congruence|];
          by rewrite lookup_alter_eq, E.
      * fold (items_unlink (next it) (prev it) m). rewrite items_unlink_lookup; try done.
        rewrite Hnx. destruct (last l1) as [z|] eqn:El; [|by apply last_None in El].
        intros [= ->]. apply Hy. apply last_Some_elem_of in El. apply elem_of_app. by left.
    + unfold ity'. by case_decide.
    + assert (prev ity' = match l1 with [] => prev it | _ => prev ity end) as ->.
      { unfold ity'. by destruct l1; case_decide. }
      apply IH; [done| |done|done]. intros z [= <-]. done.
Qed.

Lemma threads_are_live s l x : threads_are s l → x ∈ l → is_Some (thread_items s !! x).
Proof. intros (Hd & _ & _). by eapply dll_live. Qed.

Lemma threads_are_dead s l x : threads_are s l → x ∉ l → thread_items s !! x = None.
Proof.
  intros (_ & _ & Hdom) Hx. apply not_elem_of_dom. rewrite Hdom.
  by rewrite elem_of_list_to_set.
Qed.

Lemma threads_are_frame s s' l :
  thread_items s' = thread_items s → controlprogram_threads s' = controlprogram_threads s →
  threads_are s l → threads_are s' l.
Proof. unfold threads_are. by intros -> ->. Qed.

Lemma threads_are_size s l : threads_are s l → size (thread_items s) = length l.
Proof.
  intros (_ & Hnd & Hdom). rewrite <- size_dom, Hdom. by apply size_list_to_set.
Qed.

(** Insertion puts the new item in front. *)
Lemma thread_insert_are s l junk id now limit cp :
  threads_are s l → ∃ x s',
  thread_insert junk id now limit cp s = Ok (x, s') ∧ (x ∉ l) ∧
  s' = s <| thread_items := thread_items s' |> <| controlprogram_threads := Some x |> ∧
  threads_are s' (x :: l) ∧
  thread_items s' !! x = Some (new_item junk (head l) id now limit cp) ∧
  ∀ y, y ∈ l → thread_data <$> thread_items s' !! y = thread_data <$> thread_items s !! y.
Proof.
  intros Hl. pose proof Hl as (Hd & Hnd & Hdom).
  rewrite thread_insert_run.
  2: { intros h Eh. rewrite Eh in Hd. eapply threads_are_live; [done|].
       apply dll_head in Hd. destruct l; [done|]. injection Hd as <-. by left. }
  set (x := fresh (dom (thread_items s))).
  assert (x ∉ l) as Hx.
  { intros Hx%(threads_are_live _ _ _ Hl). apply elem_of_dom in Hx. by apply is_fresh in Hx. }
  rewrite (dll_head _ _ _ _ Hd). eexists x, _. split; [done|]. split; [done|].
  split; [done|]. simpl thread_items. unfold items_insert.
  assert (∀ m it, dll m (Some x) l (head l) →
    dll (<[x := (it <| next := None |> <| prev := head l |>)]> m) None (x :: l) (Some x)) as Hins.
  { intros m it Hm. split; [done|]. eexists. rewrite lookup_insert_eq.
    split_and!; [done..|]. eapply dll_mono; [|exact Hm].
    intros y Hy. apply lookup_insert_ne. congruence. }
  split_and!.
  - split; [|split].
    + apply (Hins _ (new_item junk (head l) id now limit cp)).
      rewrite (dll_head _ _ _ _ Hd) in Hd. by apply (dll_next _ _ None (Some x)) in Hd.
    + by constructor.
    + simpl thread_items. unfold set_field; simpl thread_items.
      rewrite dom_insert_L. destruct (head l) as [h|]; rewrite ?dom_alter_L, Hdom; done.
  - unfold set_field; simpl thread_items. by rewrite lookup_insert_eq.
  - intros y Hy. unfold set_field; simpl thread_items.
    rewrite lookup_insert_ne by congruence. destruct (head l) as [h|]; [|done].
    destruct (decide (h = y)) as [->|]; [|by rewrite lookup_alter_ne].
    rewrite lookup_alter_eq. by destruct (thread_items s !! y).
Qed.

(** Unlinking and freeing an item takes it out of the list. *)
Lemma thread_unlink_run s l1 x l2 :
  threads_are s (l1 ++ x :: l2) → ∃ it,
  thread_items s !! x = Some it ∧ prev it = head l2 ∧
  thread_unlink x s = Ok (head l2, s
    <| thread_items ::= items_unlink (next it) (prev it) |>
    <| controlprogram_threads ::= fun h => match l1 with [] => head l2 | _ => h end |>).
Proof.
  intros Hl. pose proof Hl as (Hd & Hnd & _).
  destruct (dll_split _ _ _ _ _ _ Hd) as (it & E & Hp & Hn). exists it.
  split_and!; [done..|]. unfold thread_unlink.
  assert (∀ y, next it = Some y → is_Some (thread_items s !! y) ∧ y ≠ x) as Hnl.
  { intros y Ey. rewrite Ey in Hn. destruct (last l1) as [z|] eqn:El; [|done].
    injection Hn as ->. apply last_Some_elem_of in El. split.
    - eapply threads_are_live; [done|]. apply elem_of_app. by left.
    - intros ->. apply NoDup_app in Hnd as (_ & Hdis & _).
      apply (Hdis _ El). apply elem_of_cons. by left. }
  assert (∀ y, head l2 = Some y → is_Some (thread_items s !! y)) as Hpl.
  { intros y Ey. destruct l2; [done|]. injection Ey as ->.
    eapply threads_are_live; [done|]. apply elem_of_app. right.
    apply elem_of_cons; right; apply elem_of_cons; by left. }
  rewrite (bind_ok _ _ _ _ _ (get_item_run _ _ _ E)), Hp. unfold items_unlink.
  destruct (next it) as [n|] eqn:En.
  - destruct (Hnl n eq_refl) as [Ln Nn].
    assert (∃ y l1', l1 = y :: l1') as (y & l1' & ->).
    { destruct l1 as [|y l1']; [done|]. eauto. }
    rewrite upd_item_then by done.
    destruct (head l2) as [p|] eqn:Eh; [|done].
    rewrite bind_assoc. erewrite (bind_ok (get_item x)).
    2: { apply get_item_run. unfold set_field; simpl. rewrite lookup_alter_ne by done. done. }
    rewrite upd_item_then by (apply live_upd; rewrite lookup_alter_is_Some; auto).
    by rewrite En.
  - assert (l1 = []) as ->.
    { destruct l1 as [|y l1]; [done|]. rewrite last_cons in Hn. by destruct (last l1). }
    rewrite modify_then. destruct (head l2) as [p|] eqn:Eh; [|done].
    rewrite bind_assoc. erewrite (bind_ok (get_item x)) by (by apply get_item_run).
    rewrite upd_item_then by auto. by rewrite En.
Qed.

Lemma items_unlink_info n p m y :
  item_info <$> items_unlink n p m !! y = item_info <$> m !! y.
Proof.
  unfold items_unlink.
  assert (∀ (f : Thread_List_Item → Thread_List_Item) z m,
    (∀ i, item_info (f i) = item_info i) →
    item_info <$> (alter f z m : gmap Z Thread_List_Item) !! y = item_info <$> m !! y) as H.
  { intros f z m' Hf. destruct (decide (z = y)) as [->|]; [|by rewrite lookup_alter_ne].
    rewrite lookup_alter_eq. destruct (m' !! y); [|done]. simpl. by rewrite Hf. }
  destruct p; rewrite ?H by done; destruct n; by rewrite ?H.
Qed.

(** A removal, from the lookup of the item to its [free]. *)
Lemma unlinked_are s l1 x l2 it m' :
  threads_are s (l1 ++ x :: l2) → thread_items s !! x = Some it →
  m' = delete x (items_unlink (next it) (prev it) (thread_items s)) →
  ∀ s', thread_items s' = m' →
  controlprogram_threads s' = match l1 with [] => head l2 | _ => controlprogram_threads s end →
  threads_are s' (l1 ++ l2) ∧ ∀ y, y ≠ x → info_of s' y = info_of s y.
Proof.
  intros Hl E -> s' Es Eh. pose proof Hl as (Hd & Hnd & Hdom).
  destruct (dll_split _ _ _ _ _ _ Hd) as (it' & E' & Hp & _).
  replace it' with it in * by congruence. clear it' E'.
  pose proof Hnd as (Hnd1 & Hdis & [Hx2 Hnd2]%NoDup_cons)%NoDup_app.
  assert (x ∉ l1 ++ l2) as Hx.
  { rewrite elem_of_app. intros [H|]; [|done]. apply (Hdis _ H). apply elem_of_cons. by left. }
  unfold threads_are, info_of. rewrite Es, Eh. split; [split; [|split]|].
  - rewrite <- Hp. eapply dll_mono; [|by apply (dll_unlink (thread_items s) l1 x l2 it None (controlprogram_threads s))].
    intros y Hy. apply lookup_delete_ne. congruence.
  - apply NoDup_app. split_and!; [done| |done]. intros y Hy Hy2. apply (Hdis _ Hy).
    apply elem_of_cons. by right.
  - rewrite dom_delete_L. unfold items_unlink.
    assert (dom (thread_items s) ∖ {[x]} = list_to_set (l1 ++ l2)) as <-.
    { rewrite Hdom. clear -Hx. apply set_eq. intros y.
      rewrite elem_of_difference, !elem_of_list_to_set, elem_of_singleton,
        !elem_of_app, elem_of_cons. rewrite elem_of_app in Hx. naive_solver. }
    f_equal. destruct (prev it), (next it); by rewrite ?dom_alter_L.
  - intros y Hy. rewrite lookup_delete_ne by done. apply items_unlink_info.
Qed.

Lemma thread_count_run s l : ∀ fuel nxt hd n,
  dll (thread_items s) nxt l hd → (length l ≤ fuel)%nat →
  thread_count fuel hd n s = Ok (n + zlen l, s).
Proof.
  induction l as [|x l IH]; intros fuel nxt hd n; simpl.
  - intros -> _. unfold zlen. simpl. rewrite Z.add_0_r. by destruct fuel.
  - intros [-> (it & E & _ & Hd)] Hf. destruct fuel as [|fuel]; [lia|]. simpl.
    rewrite (bind_ok _ _ _ _ _ (get_item_run _ _ _ E)).
    erewrite IH by (done || lia). rewrite zlen_cons. do 2 f_equal. lia.
Qed.

(** ** The removal loops *)

Lemma frame_bind {A B} (m : SM A) (f : A → SM B) :
  list_frame m → (∀ a, list_frame (f a)) → list_frame (m ≫= f).
Proof.
  intros Hm Hf s l Hl. apply ends_bind. eapply ends_mono; [by eapply Hm|]. intros a s1 [E1 E2].
  eapply ends_mono; [eapply Hf, threads_are_frame; [done..|exact Hl]|]. intros b s2 [-> ->]. done.
Qed.

Lemma frame_ret {A} (a : A) : list_frame (mret a).
Proof. done. Qed.

Lemma frame_emit e : list_frame (emit e).
Proof. done. Qed.

Lemma emit_ends e s :
  ends (fun _ s' => thread_items s' = thread_items s ∧
                    controlprogram_threads s' = controlprogram_threads s) (emit e s).
Proof. done. Qed.

Lemma frame_get_cp a : list_frame (get_cp a).
Proof. intros s l _. unfold get_cp. destruct (heap s !! a); [done|discriminate]. Qed.

Lemma frame_fail {A} e : e ≠ OutOfFuel → list_frame (fail e : SM A).
Proof. by intros ? s l _. Qed.

Lemma frame_gets {A} (f : server → A) : list_frame (gets f).
Proof. done. Qed.

Lemma frame_deref {A} e (o : option A) : e ≠ OutOfFuel → list_frame (deref e o : SM A).
Proof. intros He s l _. unfold deref. by destruct o. Qed.

Lemma frame_modify f :
  (∀ s, thread_items (f s) = thread_items s ∧ controlprogram_threads (f s) = controlprogram_threads s) →
  list_frame (modify f).
Proof. intros Hf s l _. apply Hf. Qed.

Lemma frame_recv k : list_frame (recv k).
Proof. intros s l _. unfold recv. by destruct (inbox s !! k) as [[|p rest]|]. Qed.

Lemma frame_for_each {I} (l : list I) (body : I → SM unit) :
  (∀ i, list_frame (body i)) → list_frame (for_each l body).
Proof.
  intros Hb. induction l as [|i l IH]; simpl; [apply frame_ret|].
  apply frame_bind; [done|]. by intros _.
Qed.

Lemma frame_for_fold {I A} (l : list I) (body : I → A → SM A) :
  (∀ i a, list_frame (body i a)) → ∀ acc, list_frame (for_fold l body acc).
Proof.
  intros Hb. induction l as [|i l IH]; intros acc; simpl; [apply frame_ret|].
  apply frame_bind; [done|]. by intros a.
Qed.

Lemma frame_get_item x : list_frame (get_item x).
Proof. intros s l _. unfold get_item. destruct (thread_items s !! x); [done|discriminate]. Qed.

(** [frames] proves [list_frame] of a handler by its structure, and leaves the
    goals of the handlers it calls. *)
Ltac frames :=
  repeat first
    [ match goal with |- forall _, _ => intros ? end
    | assumption
    | lazymatch goal with
      | |- list_frame (mbind _ _) => apply frame_bind
      | |- list_frame (recv _) => apply frame_recv
      | |- list_frame (mret _) => apply frame_ret
      | |- list_frame (fail _) => apply frame_fail; discriminate
      | |- list_frame (gets _) => apply frame_gets
      | |- list_frame (deref _ _) => apply frame_deref; discriminate
      | |- list_frame (get_cp _) => apply frame_get_cp
      | |- list_frame (get_item _) => apply frame_get_item
      | |- list_frame (emit _) => apply frame_emit
      | |- list_frame (for_each _ _) => apply frame_for_each
      | |- list_frame (for_fold _ _ _) => apply frame_for_fold
      | |- list_frame (modify _) => apply frame_modify; intros ?; split; reflexivity
      | |- list_frame (match ?x with _ => _ end) => destruct x
      end
    | progress unfold when, locked, lock, unlock, send, recv_driver, recv_ros,
        recv_int, get_params, get_state, upd_state, upd_params, upd_data, upd_radarinfo, set_cp ].

#[export] Hint Resolve frame_bind frame_ret frame_emit frame_get_cp frame_gets frame_recv : cvr.

Section RemovalProofs.
  Context (cancel_join : Z → SM unit) `{!ClientExit cancel_join}.

Lemma frame_cancel c : list_frame (cancel_join c).
Proof. apply exit_frame. Qed.

Lemma frame_timeout_cancel it : list_frame (timeout_cancel cancel_join it).
Proof.
  unfold timeout_cancel. destruct (thread_data it) as [c|]; [|apply frame_ret].
  apply frame_bind; [apply frame_get_cp|]. intros cp.
  destruct (state cp) as [st|]; [|apply frame_ret]. destruct (cancelled st =? 0).
  - repeat (apply frame_bind; [|intros []]); try apply frame_emit. apply frame_cancel.
  - apply frame_ret.
Qed.

(** The free at the end of a removal. *)
Lemma timeout_free_run x it s :
  thread_items s !! x = Some it → ∃ s', timeout_free x s = Ok (tt, s') ∧
    thread_items s' = delete x (thread_items s) ∧
    controlprogram_threads s' = controlprogram_threads s.
Proof.
  intros E. unfold timeout_free. rewrite (bind_ok _ _ _ _ _ (get_item_run _ _ _ E)).
  assert (∀ s1, thread_items s1 = thread_items s →
    controlprogram_threads s1 = controlprogram_threads s → ∃ s',
    (upd_item x (fun i => i <| thread_data := None |>);; free_item x) s1 = Ok (tt, s') ∧
    thread_items s' = delete x (thread_items s) ∧
    controlprogram_threads s' = controlprogram_threads s) as H.
  { intros s1 Es1 Eh1. rewrite upd_item_then by (rewrite Es1; eauto).
    rewrite free_item_run by (apply live_upd; rewrite lookup_alter_is_Some, Es1; eauto).
    eexists. split; [done|]. simpl. split; [|done]. by rewrite delete_alter_eq, Es1. }
  destruct (thread_data it) as [c|]; [rewrite modify_then|rewrite ret_then]; by apply H.
Qed.

(** One removal of a timeout pass. *)
Lemma timeout_remove_run s l1 x l2 :
  threads_are s (l1 ++ x :: l2) → ∃ s',
  (thread_list ← thread_unlink x; timeout_free x;; mret thread_list) s = Ok (head l2, s') ∧
  threads_are s' (l1 ++ l2) ∧ ∀ y, y ≠ x → info_of s' y = info_of s y.
Proof.
  intros Hl. destruct (thread_unlink_run _ _ _ _ Hl) as (it & E & Hp & Er).
  rewrite (bind_ok _ _ _ _ _ Er). set (s1 := s <| thread_items ::= _ |> <| controlprogram_threads ::= _ |>).
  assert (is_Some (thread_items s1 !! x)) as [it1 E1].
  { pose proof (items_unlink_info (next it) (prev it) (thread_items s) x) as Hi.
    change (thread_items s1) with (items_unlink (next it) (prev it) (thread_items s)).
    rewrite E in Hi. by destruct (items_unlink _ _ _ !! x). }
  destruct (timeout_free_run x it1 s1 E1) as (s' & Ef & Es' & Eh').
  rewrite (bind_ok _ _ _ _ _ Ef). exists s'. split; [done|].
  eapply unlinked_are; [exact Hl|exact E|reflexivity|exact Es'|exact Eh'].
Qed.

Lemma kept_info s s' now x : info_of s' x = info_of s x → kept s' now x = kept s now x.
Proof.
  unfold info_of, kept, expired. destruct (thread_items s !! x), (thread_items s' !! x);
    simpl; try done. by intros [= _ -> -> _].
Qed.

Lemma filter_kept_ext s s' now (l : list Z) :
  (∀ y, y ∈ l → info_of s' y = info_of s y) →
  filter (fun y => kept s' now y = true) l = filter (fun y => kept s now y = true) l.
Proof.
  intros H. induction l as [|y l IH]; [done|].
  rewrite !filter_cons, IH by (intros; apply H; by right).
  rewrite (kept_info s s') by (apply H; by left). done.
Qed.

Lemma timeout_loop_spec now l : ∀ l1 fuel s,
  threads_are s (l1 ++ l) → (length l ≤ fuel)%nat →
  ends (fun _ s' => threads_are s' (l1 ++ filter (fun x => kept s now x = true) l))
    (timeout_loop cancel_join fuel now (head l) s).
Proof.
  induction l as [|x l IH]; intros l1 fuel s Hl Hf; [by destruct fuel|].
  destruct fuel as [|fuel]; simpl in Hf; [lia|]. cbn [timeout_loop head].
  destruct (dll_split _ _ _ _ _ _ (proj1 Hl)) as (it & E & Hp & _).
  rewrite (bind_ok _ _ _ _ _ (get_item_run _ _ _ E)).
  assert (kept s now x = negb (expired now it)) as Hk by (unfold kept; by rewrite E).
  destruct (expired now it) eqn:Ex; cbn match.
  - rewrite filter_cons_False by (by rewrite Hk).
    apply ends_bind. eapply ends_mono; [by eapply frame_timeout_cancel|]. intros [] s1 [Ei Eh].
    apply (threads_are_frame s s1) in Hl; [|done..].
    destruct (timeout_remove_run _ _ _ _ Hl) as (s2 & Er & Hl2 & Hi).
    apply bind_inv in Er as (tl & s1' & Eu & Er).
    apply bind_inv in Er as ([] & s2' & Ef & Er). injection Er as -> ->.
    rewrite (bind_ok _ _ _ _ _ Eu), (bind_ok _ _ _ _ _ Ef).
    specialize (IH l1 fuel s2 Hl2 ltac:(lia)).
    rewrite (filter_kept_ext s1 s2) in IH.
    2: { intros y Hy. apply Hi. intros ->. destruct Hl as (_ & Hnd & _).
         apply NoDup_app in Hnd as (_ & _ & [? _]%NoDup_cons). done. }
    by rewrite (filter_kept_ext s s1) in IH by (intros; unfold info_of; by rewrite Ei).
  - rewrite filter_cons_True by (by rewrite Hk). rewrite Hp.
    specialize (IH (l1 ++ [x])%list fuel s). rewrite <- !app_assoc in IH.
    apply IH; [done|lia].
Qed.

Lemma cleanup_remove_run s x l2 :
  threads_are s (x :: l2) → ∃ s',
  (thread_list ← thread_unlink x; free_item x;; mret thread_list) s = Ok (head l2, s') ∧
  threads_are s' l2.
Proof.
  intros Hl. destruct (thread_unlink_run s [] x l2 Hl) as (it & E & Hp & Er).
  rewrite (bind_ok _ _ _ _ _ Er). set (s1 := s <| thread_items ::= _ |> <| controlprogram_threads ::= _ |>).
  assert (is_Some (thread_items s1 !! x)) as Hs.
  { pose proof (items_unlink_info (next it) (prev it) (thread_items s) x) as Hi.
    change (thread_items s1) with (items_unlink (next it) (prev it) (thread_items s)).
    rewrite E in Hi. by destruct (items_unlink _ _ _ !! x). }
  rewrite (bind_ok _ _ _ _ _ (free_item_run x s1 Hs)). eexists. split; [done|].
  by eapply (unlinked_are s [] x l2 it); [exact Hl|exact E|reflexivity|reflexivity|].
Qed.

Lemma cleanup_loop_spec l : ∀ fuel s,
  threads_are s l → (length l ≤ fuel)%nat →
  ends (fun _ s' => threads_are s' []) (cleanup_loop cancel_join fuel (head l) s).
Proof.
  induction l as [|x l IH]; intros fuel s Hl Hf; [by destruct fuel|].
  destruct fuel as [|fuel]; simpl in Hf; [lia|]. cbn [cleanup_loop head].
  destruct (dll_split _ [] _ _ _ _ (proj1 Hl)) as (it & E & Hp & _).
  rewrite (bind_ok _ _ _ _ _ (get_item_run _ _ _ E)).
  apply ends_bind. eapply ends_mono; [apply emit_ends|]. intros _ s1 [Ei1 Eh1].
  apply ends_bind. eapply ends_mono.
  { instantiate (1 := fun _ s2 => thread_items s2 = thread_items s1 ∧
      controlprogram_threads s2 = controlprogram_threads s1).
    apply (threads_are_frame s s1) in Hl; [|done..].
    destruct (thread_data it); [by eapply frame_cancel|by eapply frame_ret]. }
  intros _ s2 [Ei2 Eh2]. apply ends_bind. eapply ends_mono; [apply emit_ends|].
  intros _ s3 [Ei3 Eh3]. apply (threads_are_frame s s3) in Hl; [|congruence..].
  destruct (cleanup_remove_run _ _ _ Hl) as (s4 & Er & Hl4).
  apply bind_inv in Er as (tl & s3' & Eu & Er).
  apply bind_inv in Er as ([] & s4' & Ef & Er). injection Er as -> ->.
  rewrite (bind_ok _ _ _ _ _ Eu), (bind_ok _ _ _ _ _ Ef).
  apply ends_bind. eapply ends_mono; [apply emit_ends|]. intros _ s5 [Ei5 Eh5].
  apply IH; [by eapply threads_are_frame|lia].
Qed.

Lemma timeout_handler_are now l s :
  threads_are s l →
  ends (fun _ s' => threads_are s' (filter (fun x => kept s now x = true) l))
    (timeout_handler cancel_join now s).
Proof.
  intros Hl. unfold timeout_handler. apply ends_bind.
  eapply ends_mono; [apply emit_ends|]. intros _ s1 [Ei Eh].
  apply (threads_are_frame s s1) in Hl; [|done..].
  rewrite !gets_then. apply ends_bind.
  rewrite (dll_head _ _ _ _ (proj1 Hl)).
  eapply ends_mono; [apply (timeout_loop_spec now l []); [done|]|].
  { unfold walk_fuel. by rewrite (threads_are_size _ _ Hl). }
  intros ? s2 Hl2. simpl in Hl2.
  rewrite (filter_kept_ext s s1) in Hl2 by (intros; unfold info_of; by rewrite Ei).
  eapply ends_mono; [apply emit_ends|]. intros _ s3 [Ei3 Eh3].
  by eapply threads_are_frame.
Qed.

Lemma list_closes s l : threads_are s l →
  ends (fun _ s' => thread_items s' = thread_items s ∧
                    controlprogram_threads s' = controlprogram_threads s)
    ((emit (EvClose SDio);; emit (EvClose STiming);; emit (EvClose SRecv);;
      emit (EvClose SDds);; emit (EvClose SGps)) s).
Proof. intros _. by split. Qed.

Lemma graceful_cleanup_are l s :
  threads_are s l →
  ends (fun _ s' => threads_are s' []) (graceful_cleanup cancel_join s).
Proof.
  intros Hl. unfold graceful_cleanup. rewrite !gets_then. apply ends_bind.
  rewrite (dll_head _ _ _ _ (proj1 Hl)).
  eapply ends_mono; [apply (cleanup_loop_spec l); [done|]|].
  { unfold walk_fuel. by rewrite (threads_are_size _ _ Hl). }
  intros ? s1 Hl1.
  eapply ends_mono; [exact (list_closes s1 _ Hl1)|].
  intros ? s2 [Ei Eh]. by eapply threads_are_frame.
Qed.

End RemovalProofs.

(** ** Properties *)

Lemma control_init_run junk jst jprm jdata s :
  control_init junk jst jprm jdata s =
    Ok (fresh (dom (heap s)), s <| heap ::= <[fresh (dom (heap s)) :=
      control_init_cp junk jst jprm jdata]> |>).
Proof. done. Qed.

Lemma thread_count_all s x l :
  threads_are s (x :: l) → thread_count (walk_fuel s) (Some x) 0 s = Ok (zlen l + 1, s).
Proof.
  intros [Hd Hr]. rewrite <- zlen_cons with (x := x), <- (Z.add_0_l (zlen (x :: l))).
  pose proof (dll_head _ _ _ _ Hd) as Eh. simpl in Eh.
  eapply thread_count_run; [rewrite <- Eh; exact Hd|].
  unfold walk_fuel. by rewrite (threads_are_size _ _ (conj Hd Hr)).
Qed.

(** A connection accepted by [main] gets a control program of its own and a
    new item at the head of the thread list, linked to each other, and the
    number of threads [main] counts is the length of the list. *)
Theorem main_accept_correct s l junk jst jprm jdata jitem fd id now limit :
  threads_are s l → ∃ a x s',
  main_accept junk jst jprm jdata jitem fd id now limit s = Ok (zlen l + 1, s') ∧
  heap s !! a = None ∧ (x ∉ l) ∧ threads_are s' (x :: l) ∧
  info_of s' x = Some (id, limit, now, Some a) ∧
  (∃ cp st, heap s' !! a = Some cp ∧ state cp = Some st ∧ active cp = 1 ∧
     socket st = fd ∧ thread st = Some x ∧ ready st = 0 ∧ processing st = 0) ∧
  (∀ b, b ≠ a → heap s' !! b = heap s !! b) ∧
  radar_channels s' = radar_channels s.
Proof.
  intros Hl. unfold main_accept, lock, emit. rewrite modify_then.
  set (s1 := s <| trace ::= _ |>).
  rewrite (bind_ok _ _ _ _ _ (control_init_run _ _ _ _ s1)).
  set (cpi := control_init_cp junk jst jprm jdata).
  set (f := on_state (fun st => st <| socket := fd |>)).
  assert (heap s !! fresh (dom (heap s1)) = None) as Ha
    by (apply not_elem_of_dom, (is_fresh (dom (heap s)))).
  generalize dependent (fresh (dom (heap s1))). intros a Ha.
  set (s2 := s1 <| heap ::= _ |>).
  assert (heap s2 = <[a := cpi]> (heap s)) as Eh2 by reflexivity.
  assert (heap s2 !! a = Some cpi) as E2 by (rewrite Eh2; apply lookup_insert_eq).
  rewrite (bind_ok _ _ _ _ _ (upd_state_run _ _ _ _ _ E2 eq_refl)). fold f.
  set (s3 := s2 <| heap ::= _ |>).
  assert (heap s3 = alter f a (heap s2)) as Eh3 by reflexivity.
  assert (threads_are s3 l) as Hl3 by exact Hl.
  destruct (thread_insert_are s3 l jitem id now limit a Hl3)
    as (x & s4 & E4 & Hx & Es4 & Hl4 & Hi4 & _).
  rewrite (bind_ok _ _ _ _ _ E4).
  assert (heap s4 = heap s3) as Eh4 by (by rewrite Es4).
  assert (heap s4 !! a = Some (f cpi)) as E4'.
  { rewrite Eh4, Eh3, lookup_alter_eq, E2. reflexivity. }
  rewrite (bind_ok _ _ _ _ _ (upd_state_run _ _ _ _ _ E4' eq_refl)), gets_then.
  set (s5 := s4 <| heap ::= _ |>).
  assert (threads_are s5 (x :: l)) as Hl5 by exact Hl4.
  pose proof (thread_count_all s5 x l Hl5) as En.
  rewrite (bind_ok _ _ _ _ _ En). unfold unlock, emit. rewrite modify_then.
  exists a, x. eexists. split; [reflexivity|].
  set (g := on_state (fun st => st <| thread := Some x |>)) in *.
  assert (heap s5 = alter g a (heap s4)) as Eh5 by reflexivity.
  set (s6 := s5 <| trace ::= _ |>). assert (heap s6 = heap s5) as Eh6 by reflexivity.
  split; [done|]. split; [done|]. split; [done|]. split.
  { unfold info_of. change (thread_items s6) with (thread_items s4). by rewrite Hi4. }
  rewrite Eh6, Eh5. split; [|split].
  - rewrite lookup_alter_eq, E4'. eexists _, _. do 6 (split; [reflexivity|]). reflexivity.
  - intros b Hb. rewrite lookup_alter_ne, Eh4, Eh3, lookup_alter_ne, Eh2 by done.
    by apply lookup_insert_ne.
  - change (radar_channels s6) with (radar_channels s4). by rewrite Es4.
Qed.

Lemma server0_threads : threads_are server0 [].
Proof. split; [reflexivity|]. split; [constructor|]. vm_compute. reflexivity. Qed.

(** The first client of a server. *)
Lemma main_accept_correct_witness : ∃ a x s',
  main_accept cp0 state0 prm0 data0 (mk_Thread_List_Item None None 0 (mk_timeval 0 0)
    (mk_timeval 0 0) None) 9 100 (mk_timeval 50 0) (mk_timeval 60 0) server0 = Ok (zlen (@nil Z) + 1, s') ∧
  heap server0 !! a = None ∧ (x ∉ (@nil Z)) ∧ threads_are s' [x] ∧
  info_of s' x = Some (100, mk_timeval 60 0, mk_timeval 50 0, Some a) ∧
  (∃ cp st, heap s' !! a = Some cp ∧ state cp = Some st ∧ active cp = 1 ∧
     socket st = 9 ∧ thread st = Some x ∧ ready st = 0 ∧ processing st = 0) ∧
  (∀ b, b ≠ a → heap s' !! b = heap server0 !! b) ∧
  radar_channels s' = radar_channels server0.
Proof. exact (main_accept_correct server0 [] _ _ _ _ _ _ _ _ _ server0_threads). Defined.
