(* ===== verification/ServerIO.v ===== *)
(** * ServerIO: the server's side of the driver protocols

    The handlers of server/timing_handler.c, server/dds_handler.c,
    server/dio_handler.c and the protocol part of server/reciever_handler.c:
    each takes the lock of its connection, sends a request, receives the reply
    and releases the lock.  Handlers that the server runs at the same time are
    written as lists of atomic steps, so that their interleavings can be
    studied. *)

From Stdlib Require Import ZArith Lia Ascii String.
From stdpp Require Import base list gmap strings pretty.
From S2P Require Import Prelude Binary64 Types.
Open Scope Z_scope.
Open Scope cvr_scope.

(** [recv_data(sock,&msg,sizeof(struct DriverMsg))] with the message unused. *)
Definition recv_msg (k : sock) : SM unit := _ ← recv_driver k; mret tt.

(** A thread as the list of its atomic steps, and its execution. *)
Definition run_steps (l : list (SM unit)) : SM unit := for_each l id.

(** [arg->state->pulseseqs[arg->parameters->current_pulseseq_index]] *)
Definition current_seq (a : Z) : SM (option TSGbuf) :=
  st ← get_state a;
  p ← get_params a;
  deref OutOfBounds (zget (pulseseqs st) (current_pulseseq_index p)).

(** The common body of the four [*_ready_controlprogram] handlers. *)
Definition driver_ready (l : lock_id) (k : sock) (arg : option Z) : SM unit :=
  locked l
    (match arg with
     | None => mret tt
     | Some a =>
         seq ← current_seq a;
         match seq with
         | None => mret tt
         | Some _ =>
             send k (PDriver CtrlProg_READY 1);;
             p ← get_params a;
             send k (PParams p);;
             recv_msg k
         end
     end).

(** A request without arguments and its acknowledgement, as atomic steps. *)
Definition driver_request (l : lock_id) (k : sock) (type : ascii) : list (SM unit) :=
  [lock l; send k (PDriver type 1); recv_msg k; unlock l].

(** ** server/timing_handler.c *)

Definition timing_ready_controlprogram (arg : option Z) : SM unit :=
  driver_ready timing_comm_lock STiming arg.

Definition timing_end_controlprogram : SM unit :=
  locked timing_comm_lock (send STiming (PDriver CtrlProg_END 1)).

(** The common body of [timing_register_seq] and [dds_register_seq]. *)
Definition driver_register_seq (l : lock_id) (k : sock) (type : ascii) (a : Z) : SM unit :=
  locked l
    (send k (PDriver type 1);;
     p ← get_params a;
     send k (PParams p);;
     let index := current_pulseseq_index p in
     send k (PInt index);;
     st ← get_state a;
     o ← deref OutOfBounds (zget (pulseseqs st) index);
     b ← deref NullDeref o;
     send k (PSeqHeader (seq_len b) (seq_step b) (seq_index b));;
     send k (PBytes (seq_rep b));;
     send k (PBytes (seq_code b));;
     recv_msg k).

Definition timing_register_seq (control_program : Z) : SM unit :=
  driver_register_seq timing_comm_lock STiming TIMING_REGISTER_SEQ control_program.

(** [recv_data] of an array of 32-bit words into [buf], of which [length] are
    read: nothing is transferred when [length] is 0. *)
Definition recv_words (k : sock) (length : Z) (buf : option (list Z)) : SM (option (list Z)) :=
  if length =? 0 then mret buf
  else p ← recv k;
       match p, buf with
       | PWords (Some l), Some _ => mret (Some l)
       | PWords (Some l), None => fail NullDeref
       | _, _ => fail Desync
       end.

(** The refresh of the bad transmit times, one step per statement. *)
Definition timing_pretrigger : list (SM unit) :=
  [ lock timing_comm_lock;
    send STiming (PDriver PRETRIGGER 1);
    modify (fun s => s <| bad_transmit_times ::= fun b =>
      b <| start_usec := None |> <| duration_usec := None |> |>);
    (n ← recv_int STiming;
     modify (fun s => s <| bad_transmit_times ::= fun b => b <| tr_length := n |> |>));
    modify (fun s => s <| bad_transmit_times ::= fun b =>
      if 0 <? tr_length b then
        b <| start_usec := Some (replicate (Z.to_nat (tr_length b)) 0) |>
          <| duration_usec := Some (replicate (Z.to_nat (tr_length b)) 0) |>
      else b <| start_usec := None |> <| duration_usec := None |> |>);
    (b ← gets bad_transmit_times;
     w ← recv_words STiming (tr_length b) (start_usec b);
     modify (fun s => s <| bad_transmit_times ::= fun b => b <| start_usec := w |> |>));
    (b ← gets bad_transmit_times;
     w ← recv_words STiming (tr_length b) (duration_usec b);
     modify (fun s => s <| bad_transmit_times ::= fun b => b <| duration_usec := w |> |>));
    recv_msg STiming;
    unlock timing_comm_lock ].

(** [type0] is the uninitialised [msg.type], sent when no case matches. *)
Definition timing_trigger (type0 : ascii) (trigger_type : Z) : SM unit :=
  locked timing_comm_lock
    (let type :=
       if trigger_type =? 0 then TIMING_TRIGGER
       else if trigger_type =? 1 then TIMING_TRIGGER
       else if trigger_type =? 2 then TIMING_GPS_TRIGGER
       else type0 in
     send STiming (PDriver type 1);; recv_msg STiming).

Definition timing_wait : SM unit :=
  locked timing_comm_lock (send STiming (PDriver TIMING_WAIT 1);; recv_msg STiming).

Definition timing_posttrigger : SM unit :=
  run_steps (driver_request timing_comm_lock STiming POSTTRIGGER).

(** ** server/dds_handler.c *)

Definition dds_register_seq (control_program : Z) : SM unit :=
  driver_register_seq dds_comm_lock SDds DDS_REGISTER_SEQ control_program.

(** The common body of the three [*_rxfe_settings] handlers. *)
Definition driver_rxfe_settings (l : lock_id) (k : sock) (arg : option SiteSettings) : SM unit :=
  locked l
    (match arg with
     | None => mret tt
     | Some site =>
         send k (PDriver RXFE_SETTINGS 1);;
         send k (PInt (ifmode site));;
         send k (PRxfe (rf_settings site));;
         send k (PRxfe (if_settings site));;
         recv_msg k
     end).

Definition dds_rxfe_settings (arg : option SiteSettings) : SM unit :=
  driver_rxfe_settings dds_comm_lock SDds arg.

Definition dds_ready_controlprogram (arg : option Z) : SM unit :=
  driver_ready dds_comm_lock SDds arg.

Definition dds_end_controlprogram : SM unit :=
  locked dds_comm_lock (send SDds (PDriver CtrlProg_END 1)).

Definition dds_pretrigger : list (SM unit) :=
  driver_request dds_comm_lock SDds PRETRIGGER.

Definition dds_posttrigger : SM unit := locked dds_comm_lock (mret tt).

(** ** server/dio_handler.c *)

Definition DIO_ready_controlprogram (arg : option Z) : SM unit :=
  driver_ready dio_comm_lock SDio arg.

Definition DIO_pretrigger : list (SM unit) :=
  driver_request dio_comm_lock SDio PRETRIGGER.

Definition DIO_transmitter_status (rad : Z) : SM unit :=
  locked dio_comm_lock
    (send SDio (PDriver DIO_GET_TX_STATUS 1);;
     send SDio (PInt rad);;
     p ← recv SDio;
     match p with
     | PTx t =>
         l ← gets txstatus;
         l' ← deref OutOfBounds (zset l (rad - 1) t);
         modify (fun s => s <| txstatus := l' |>)
     | _ => fail Desync
     end;;
     recv_msg SDio).

Definition DIO_clrfreq (arg : option Z) : SM unit :=
  locked dio_comm_lock
    (match arg with
     | None => mret tt
     | Some a =>
         cp ← get_cp a;
         match parameters cp with
         | None => mret tt
         | Some p =>
             send SDio (PDriver DIO_CLRFREQ 1);; send SDio (PParams p);; recv_msg SDio
         end
     end).

Definition DIO_rxfe_reset : SM unit :=
  run_steps (driver_request dio_comm_lock SDio DIO_RXFE_RESET).

Definition dio_rxfe_settings (arg : option SiteSettings) : SM unit :=
  driver_rxfe_settings dio_comm_lock SDio arg.

(** ** server/reciever_handler.c, the protocol part *)

Definition receiver_rxfe_settings (arg : option SiteSettings) : SM unit :=
  driver_rxfe_settings recv_comm_lock SRecv arg.

Definition receiver_end_controlprogram (arg : option Z) : SM unit :=
  locked recv_comm_lock
    (match arg with
     | None => mret tt
     | Some a =>
         seq ← current_seq a;
         match seq with
         | None => mret tt
         | Some _ =>
             send SRecv (PDriver CtrlProg_END 1);;
             p ← get_params a;
             send SRecv (PParams p)
         end
     end).

Definition receiver_ready_controlprogram (arg : option Z) : SM unit :=
  driver_ready recv_comm_lock SRecv arg.

Definition receiver_pretrigger : list (SM unit) :=
  driver_request recv_comm_lock SRecv PRETRIGGER.

Definition receiver_posttrigger : SM unit :=
  run_steps (driver_request recv_comm_lock SRecv POSTTRIGGER).

Section GetData.
  (** The operating system's mappings: of a shared-memory device of a size, and
      of a range of physical memory; what the other threads of the server do
      while the handler waits for the trigger. *)
  Context (mmap_shm : string → Z → Z) (mmap_phys : Z → Z → Z) (others : SM unit).

Definition ULONG_MAX : Z := 2 ^ 32 - 1.

(** [upd_cp a f]: assignments to members of [*a] itself. *)
Definition upd_cp (a : Z) (f : ControlProgram → ControlProgram) : SM unit :=
  cp ← get_cp a; set_cp a (f cp).

(** [if(arg->main!=NULL) munmap(arg->main,...)] *)
Definition munmap_if (o : option Z) (len : Z) : SM unit :=
  match o with Some m => emit (EvMunmap m len) | None => mret tt end.

(** The two shared-memory device names. *)
Definition shm_name (which : string) (r c b : Z) : string :=
  String.append "/receiver_" (String.append which (String.append "_"
    (String.append (pretty r) (String.append "_" (String.append (pretty c)
    (String.append "_" (pretty b))))))).

(** The wait for the trigger: [error_flag] is -101 when the program is still
    ready after the other threads had their ten seconds. *)
Definition wait_not_ready (a : Z) : SM Z :=
  st ← get_state a;
  if ready st =? 0 then mret 0
  else others;; st ← get_state a; mret (if ready st =? 0 then 0 else -101).

Definition receive_frame (a : Z) : SM unit :=
  shm ← recv_int SRecv; upd_data a (fun d => d <| shm_memory := shm |>);;
  fh ← recv_int SRecv; upd_data a (fun d => d <| frame_header := fh |>);;
  bn ← recv_int SRecv; upd_data a (fun d => d <| bufnum := bn |>);;
  n ← recv_int SRecv; upd_data a (fun d => d <| samples := n |>);;
  ma ← recv_int SRecv; upd_cp a (fun cp => cp <| main_address := ma |>);;
  ba ← recv_int SRecv; upd_cp a (fun cp => cp <| back_address := ba |>);;
  p ← get_params a;
  let r := radar p - 1 in
  let c := channel p - 1 in
  let size := 4 * n in
  if negb (shm =? 0) then
    upd_cp a (fun cp => cp <| main_mem := Some (mmap_shm (shm_name "main" r c bn) size) |>);;
    upd_cp a (fun cp => cp <| back_mem := Some (mmap_shm (shm_name "back" r c bn) size) |>)
  else
    upd_cp a (fun cp => cp <| main_mem := Some (mmap_phys (ma + 4 * fh) size) |>);;
    upd_cp a (fun cp => cp <| back_mem := Some (mmap_phys (ba + 4 * fh) size) |>).

Definition receiver_controlprogram_get_data (arg : option Z) : SM unit :=
  count ← gets collection_count;
  when (count =? ULONG_MAX)
    (modify (fun s => s <| error_count := 0 |> <| collection_count := 0 |>));;
  match arg with
  | None => mret tt
  | Some a =>
      cp ← get_cp a;
      match state cp with
      | None => mret tt
      | Some _ =>
          error_flag ← wait_not_ready a;
          locked recv_comm_lock
            (modify (fun s => s <| collection_count ::= Z.add 1 |>);;
             (if error_flag =? 0 then
                p ← get_params a;
                upd_data a (fun d => d <| samples := number_of_samples p |>);;
                cp ← get_cp a;
                munmap_if (main_mem cp) (4 * number_of_samples p);;
                munmap_if (back_mem cp) (4 * number_of_samples p);;
                send SRecv (PDriver RECV_GET_DATA 1);;
                send SRecv (PParams p);;
                status ← recv_int SRecv;
                upd_data a (fun d => d <| data_status := status |>)
              else
                upd_data a (fun d => d <| data_status := error_flag |>);;
                upd_data a (fun d => d <| samples := 0 |>));;
             cp ← get_cp a;
             d ← deref NullDeref (data cp);
             (if data_status d =? 0 then receive_frame a
              else
                modify (fun s => s <| error_count ::= Z.add 1 |>);;
                upd_data a (fun d => d <| samples := 0 |>);;
                upd_cp a (fun cp => cp <| main_mem := None |> <| back_mem := None |>));;
             when (error_flag =? 0) (recv_msg SRecv))
      end
  end.

End GetData.
