(* ===== verification/Locking.v ===== *)
(** * Locking: the lock order of the server

    The mutexes of server/main.c are acquired in increasing rank and released
    in the opposite order.  [check_locks] decides this on a trace; [locks_ok]
    states it of a handler, for any set of locks its caller may hold, and is
    closed under the ways the code composes handlers. *)

From Stdlib Require Import ZArith Lia.
From stdpp Require Import base list gmap.
From S2P Require Import Prelude Types ServerIO.
Open Scope Z_scope.

Definition rank (l : lock_id) : Z :=
  match l with
  | clr_lock => 0
  | exit_lock => 1
  | controlprogram_list_lock => 2
  | coord_lock => 3
  | settings_lock | dio_comm_lock | timing_comm_lock | dds_comm_lock | recv_comm_lock => 4
  end.

(** The locks held after a trace, [None] when the trace breaks the discipline. *)
Fixpoint check_locks (held : list lock_id) (tr : list event) : option (list lock_id) :=
  match tr with
  | [] => Some held
  | EvLock l :: tr =>
      if forallb (fun h => rank h <? rank l) held then check_locks (l :: held) tr else None
  | EvUnlock l :: tr =>
      match held with
      | h :: held => if decide (h = l) then check_locks held tr else None
      | [] => None
      end
  | _ :: tr => check_locks held tr
  end.

(** [m] keeps the discipline when its caller holds only locks of rank below
    [r], and returns with the same locks held. *)
Definition locks_ok {A} (r : Z) (m : SM A) : Prop := ∀ s a s',
  m s = Ok (a, s') → ∃ tr, trace s' = (trace s ++ tr)%list ∧
    ∀ held, Forall (fun h => rank h < r) held → check_locks held tr = Some held.

(** ** Closure lemmas *)

Lemma check_locks_app tr1 tr2 : ∀ held,
  check_locks held (tr1 ++ tr2) =
    match check_locks held tr1 with Some h => check_locks h tr2 | None => None end.
Proof.
  induction tr1 as [|e tr1 IH]; intros held; [done|].
  destruct e; simpl; try apply IH.
  - by destruct (forallb _ held).
  - destruct held; [done|]. by case_decide.
Qed.

Lemma locks_weaken {A} r r' (m : SM A) : r' ≤ r → locks_ok r m → locks_ok r' m.
Proof.
  intros Hr Hm s a s' E. destruct (Hm _ _ _ E) as (tr & Et & Hc). exists tr.
  split; [done|]. intros held Hh. apply Hc. eapply Forall_impl; [done|]. simpl. lia.
Qed.

(** A computation that leaves the trace alone. *)
Definition silent {A} (m : SM A) : Prop := ∀ s a s', m s = Ok (a, s') → trace s' = trace s.

Lemma locks_silent {A} r (m : SM A) : silent m → locks_ok r m.
Proof. intros Hm s a s' ->%Hm. exists []. by rewrite app_nil_r. Qed.

Lemma locks_bind {A B} r (m : SM A) (f : A → SM B) :
  locks_ok r m → (∀ a, locks_ok r (f a)) → locks_ok r (m ≫= f).
Proof.
  intros Hm Hf s b s'' (a & s' & E1 & E2)%bind_inv.
  destruct (Hm _ _ _ E1) as (tr1 & T1 & C1), (Hf _ _ _ _ E2) as (tr2 & T2 & C2).
  exists (tr1 ++ tr2)%list. rewrite T2, T1, app_assoc. split; [done|]. intros held Hh.
  rewrite check_locks_app, C1 by done. by apply C2.
Qed.

Lemma locks_locked {A} l r (m : SM A) :
  r ≤ rank l → locks_ok (rank l + 1) m → locks_ok r (locked l m).
Proof.
  intros Hr Hm s a s' E. unfold locked, lock, unlock, emit in E.
  rewrite modify_then in E. apply bind_inv in E as (b & s1 & E1 & E2).
  rewrite modify_then in E2. injection E2 as <- <-.
  destruct (Hm _ _ _ E1) as (tr & Et & Hc).
  exists (EvLock l :: tr ++ [EvUnlock l])%list. split.
  { change (trace s1 ++ [EvUnlock l] = trace s ++ EvLock l :: tr ++ [EvUnlock l])%list.
    rewrite Et. change (trace (s <| trace ::= _ |>)%cvr) with (trace s ++ [EvLock l])%list.
    by rewrite <- !app_assoc. }
  intros held Hh. simpl. rewrite (proj2 (forallb_forall _ held)).
  2: { intros h Hin. apply Z.ltb_lt. apply list_elem_of_In in Hin.
       rewrite Forall_forall in Hh. specialize (Hh _ Hin). lia. }
  rewrite check_locks_app, Hc; [simpl; by rewrite decide_True|].
  constructor; [lia|]. eapply Forall_impl; [done|]. simpl. lia.
Qed.

Lemma locks_send r k p : locks_ok r (send k p).
Proof. intros s a s' [= <- <-]. exists [EvSend k p]. done. Qed.

Lemma locks_event r e :
  match e with EvLock _ | EvUnlock _ => False | _ => True end → locks_ok r (emit e).
Proof. intros He s a s' [= <- <-]. exists [e]. split; [done|]. by destruct e. Qed.

Lemma locks_recv r k : locks_ok r (recv k).
Proof.
  intros s a s'. unfold recv. destruct (inbox s !! k) as [[|p rest]|]; try done.
  intros [= <- <-]. exists [EvRecv k p]. done.
Qed.

Lemma locks_ret {A} r (a : A) : locks_ok r (mret a : SM A).
Proof. apply locks_silent. by intros s b s' [= <- <-]. Qed.

Lemma locks_fail {A} r e : locks_ok r (fail e : SM A).
Proof. by intros s a s'. Qed.

Lemma locks_gets {A} r (f : server → A) : locks_ok r (gets f).
Proof. apply locks_silent. by intros s b s' [= <- <-]. Qed.

Lemma locks_deref {A} r e (o : option A) : locks_ok r (deref e o : SM A).
Proof. apply locks_silent. intros s b s'. unfold deref. destruct o; naive_solver. Qed.

Lemma locks_modify r f : (∀ s, trace (f s) = trace s) → locks_ok r (modify f).
Proof. intros H. apply locks_silent. by intros s b s' [= <- <-]. Qed.

Lemma locks_when r b (m : SM unit) : locks_ok r m → locks_ok r (when b m).
Proof. intros. destruct b; [done|]. apply locks_ret. Qed.

Lemma locks_if {A} r (b : bool) (m1 m2 : SM A) :
  locks_ok r m1 → locks_ok r m2 → locks_ok r (if b then m1 else m2).
Proof. by destruct b. Qed.

Lemma locks_for_each {I} r (l : list I) (body : I → SM unit) :
  (∀ i, locks_ok r (body i)) → locks_ok r (for_each l body).
Proof.
  intros Hb. induction l as [|i l IH]; simpl; [apply locks_ret|].
  apply locks_bind; [done|]. by intros _.
Qed.

Lemma locks_for_fold {I A} r (l : list I) (body : I → A → SM A) :
  (∀ i a, locks_ok r (body i a)) → ∀ acc, locks_ok r (for_fold l body acc).
Proof.
  intros Hb. induction l as [|i l IH]; intros acc; simpl; [apply locks_ret|].
  apply locks_bind; [done|]. by intros a.
Qed.

Lemma locks_for_break {I A} r (l : list I) (body : I → A → SM (iter A)) :
  (∀ i a, locks_ok r (body i a)) → ∀ acc, locks_ok r (for_break l body acc).
Proof.
  intros Hb. induction l as [|i l IH]; intros acc; simpl; [apply locks_ret|].
  apply locks_bind; [done|]. intros [a|a]; [apply IH|apply locks_ret].
Qed.

Lemma locks_get_cp r a : locks_ok r (get_cp a).
Proof.
  apply locks_silent. intros s b s'. unfold get_cp. destruct (heap s !! a); naive_solver.
Qed.

#[export] Hint Resolve locks_send locks_recv locks_ret locks_fail locks_gets locks_deref
  locks_get_cp locks_event : cvr.

(** [locks] proves [locks_ok] of a handler by its structure, and leaves the
    goals of the handlers it calls. *)
Ltac locks :=
  repeat first
    [ match goal with |- forall _, _ => intros ? end
    | assumption
    | lazymatch goal with
      | |- locks_ok _ (mbind _ _) => apply locks_bind
      | |- locks_ok _ (send _ _) => apply locks_send
      | |- locks_ok _ (recv _) => apply locks_recv
      | |- locks_ok _ (mret _) => apply locks_ret
      | |- locks_ok _ (fail _) => apply locks_fail
      | |- locks_ok _ (gets _) => apply locks_gets
      | |- locks_ok _ (deref _ _) => apply locks_deref
      | |- locks_ok _ (get_cp _) => apply locks_get_cp
      | |- locks_ok _ (emit _) => apply locks_event; exact I
      | |- locks_ok _ (locked _ _) => apply locks_locked; [simpl; lia|]
      | |- locks_ok _ (when _ _) => apply locks_when
      | |- locks_ok _ (for_each _ _) => apply locks_for_each
      | |- locks_ok _ (for_fold _ _ _) => apply locks_for_fold
      | |- locks_ok _ (for_break _ _ _) => apply locks_for_break
      | |- locks_ok _ (modify _) => apply locks_modify; reflexivity
      | |- locks_ok _ (match ?x with _ => _ end) => destruct x
      end
    | progress unfold recv_msg, recv_driver, recv_ros, recv_int, get_params, get_state,
        upd_state, upd_params, upd_data, upd_radarinfo, set_cp, upd_cp, current_seq ].

(** ** The driver handlers *)

Lemma locks_driver_ready r l k arg :
  r ≤ rank l → locks_ok r (driver_ready l k arg).
Proof. intros. unfold driver_ready. locks. Qed.

Lemma locks_driver_register_seq r l k t a :
  r ≤ rank l → locks_ok r (driver_register_seq l k t a).
Proof. intros. unfold driver_register_seq. locks. Qed.

Lemma locks_driver_rxfe_settings r l k arg :
  r ≤ rank l → locks_ok r (driver_rxfe_settings l k arg).
Proof. intros. unfold driver_rxfe_settings. locks. Qed.

Lemma locks_ext {A} r (m m' : SM A) : (∀ s, m s = m' s) → locks_ok r m' → locks_ok r m.
Proof. intros E Hm s a s'. rewrite E. apply Hm. Qed.

Lemma run_steps_locked l steps s :
  run_steps (lock l :: steps ++ [unlock l]) s = locked l (run_steps steps) s.
Proof.
  unfold run_steps, locked. simpl. apply bind_ext. intros _ s1. clear s. revert s1.
  induction steps as [|m steps IH]; intros s1; simpl; [done|].
  rewrite bind_assoc. apply bind_ext. intros _ s2. apply IH.
Qed.

(** A thread whose steps run between a lock and its release. *)
Lemma locks_steps l r steps :
  r ≤ rank l → Forall (locks_ok (rank l + 1)) steps →
  locks_ok r (run_steps (lock l :: steps ++ [unlock l])).
Proof.
  intros Hr Hs. apply (locks_ext _ _ (locked l (run_steps steps))).
  { apply run_steps_locked. }
  apply locks_locked; [done|]. unfold run_steps.
  induction Hs as [|m steps Hm Hs IH]; simpl; locks.
Qed.

Lemma locks_request r l k t :
  r ≤ rank l → locks_ok r (run_steps (driver_request l k t)).
Proof.
  intros. apply (locks_steps l r [send k (PDriver t 1); recv_msg k]); [done|].
  repeat constructor; locks.
Qed.

Lemma locks_timing_pretrigger r : r ≤ 4 → locks_ok r (run_steps timing_pretrigger).
Proof.
  intros. unfold timing_pretrigger.
  match goal with |- locks_ok _ (run_steps [_; ?a; ?b; ?c; ?d; ?e; ?f; ?g; _]) =>
    apply (locks_steps timing_comm_lock r [a; b; c; d; e; f; g]) end; [done|].
  repeat constructor; unfold recv_words; locks.
Qed.

Lemma locks_get_data shm phys others r arg :
  (∀ r', r' ≤ 3 → locks_ok r' others) → r ≤ 3 →
  locks_ok r (receiver_controlprogram_get_data shm phys others arg).
Proof.
  intros Ho Hr. unfold receiver_controlprogram_get_data, wait_not_ready, receive_frame, munmap_if.
  locks. apply Ho. lia.
Qed.

Lemma locks_timing_trigger r t0 t : r ≤ 4 → locks_ok r (timing_trigger t0 t).
Proof. intros. unfold timing_trigger. locks. Qed.

Lemma locks_timing_wait r : r ≤ 4 → locks_ok r timing_wait.
Proof. intros. unfold timing_wait. locks. Qed.

Lemma locks_end_controlprogram r : r ≤ 4 →
  locks_ok r timing_end_controlprogram ∧ locks_ok r dds_end_controlprogram ∧
  ∀ arg, locks_ok r (receiver_end_controlprogram arg).
Proof.
  intros. unfold timing_end_controlprogram, dds_end_controlprogram, receiver_end_controlprogram.
  split_and!; locks.
Qed.

Lemma locks_transmitter_status r rad : r ≤ 4 → locks_ok r (DIO_transmitter_status rad).
Proof. intros. unfold DIO_transmitter_status. locks. Qed.

Lemma locks_clrfreq r arg : r ≤ 4 → locks_ok r (DIO_clrfreq arg).
Proof. intros. unfold DIO_clrfreq. locks. Qed.
