(* ===== verification/Coordination.v ===== *)
(** * Coordination: the trigger state machine (server/coordination_handler.c)

    [coordination_handler] marks its program ready, counts the programs that
    are active and ready, and when every active program is ready runs one
    trigger: pre-trigger of the four drivers, trigger, GPS time stamp,
    transmitter status, post-trigger, and the hand-over of the ready programs
    to processing.  The theorems say when it fires, what it sends, and what it
    leaves behind. *)

From Stdlib Require Import ZArith Lia Ascii String.
From stdpp Require Import base list gmap strings.
From S2P Require Import Prelude Binary64 Types Threads ServerIO Locking.
Open Scope Z_scope.
Open Scope cvr_scope.

(** A walk over the thread list, newest first: [body] gets the [data] member. *)
Fixpoint walk_programs {A} (fuel : nat) (thread_list : option Z)
    (body : option Z → A → SM A) (acc : A) : SM A :=
  match thread_list with
  | None => mret acc
  | Some x =>
      match fuel with
      | O => fail OutOfFuel
      | S fuel =>
          it ← get_item x;
          acc ← body (thread_data it) acc;
          it ← get_item x;
          walk_programs fuel (prev it) body acc
      end
  end.

(** The counters (numcontrolprograms, numready, numprocessing). *)
Definition count_body (data : option Z) (acc : Z * Z * Z) : SM (Z * Z * Z) :=
  let '(numcontrolprograms, numready, numprocessing) := acc in
  match data with
  | None => mret acc
  | Some c =>
      cprog ← get_cp c;
      if active cprog =? 1 then
        st ← deref NullDeref (state cprog);
        mret (numcontrolprograms + 1,
              if ready st =? 1 then numready + 1 else numready,
              if processing st =? 1 then numprocessing + 1 else numprocessing)
      else mret acc
  end.

(** The hand-over of a ready program to processing. *)
Definition handover_body (data : option Z) (acc : unit) : SM unit :=
  match data with
  | None => mret tt
  | Some c =>
      cprog ← get_cp c;
      match state cprog with
      | None => mret tt
      | Some st =>
          if ready st =? 1 then
            upd_state c (fun st => st <| ready := 0 |>);;
            upd_state c (fun st => st <| processing := 1 |>)
          else mret tt
      end
  end.

Definition set_txread (i v : Z) : SM unit :=
  l ← gets txread; l' ← deref OutOfBounds (zset l i v);
  modify (fun s => s <| txread := l' |>).

(** The ready state from the counters; when no branch applies it is kept. *)
Definition ready_state_of (numcontrolprograms numready old : Z) : Z :=
  if numready =? 0 then 0
  else if negb (numready =? numcontrolprograms) && (0 <? numready) then 1
  else if (numready =? numcontrolprograms) && (0 <? numready) then 2
  else old.

(** The parallel pre-trigger threads, in the order they are created. *)
Definition pretrigger_threads : list (list (SM unit)) :=
  [receiver_pretrigger; dds_pretrigger; DIO_pretrigger; timing_pretrigger].

(** Pre-trigger, trigger and the event time of the GPS; [type0] is the
    uninitialised message type of [timing_trigger]. *)
Definition trigger_pre (type0 : ascii) (trigger_type : Z) : SM (Z * Z) :=
  for_each pretrigger_threads run_steps;;
  emit (EvSleep 1000);;
  timing_trigger type0 trigger_type;;
  send SGps (PDriver GPS_GET_EVENT_TIME 1);;
  gpssec ← recv_int SGps;
  gpsnsec ← recv_int SGps;
  recv_msg SGps;;
  mret (gpssec, gpsnsec).

(** The time stamp and the transmitter status of an active program. *)
Definition trigger_stamp (control_program : Z) (time : Z * Z) : SM unit :=
  cp ← get_cp control_program;
  if active cp =? 1 then
    upd_state control_program (fun st =>
      st <| gpssecond := fst time |> <| gpsnsecond := snd time |>);;
    p ← get_params control_program;
    l ← gets txread;
    t ← deref OutOfBounds (zget l (radar p - 1));
    if negb (t =? 0) then
      DIO_transmitter_status (radar p);;
      set_txread (radar p - 1) 0
    else mret tt
  else mret tt.

(** One trigger: case 2 of the switch. *)
Definition trigger_sequence (type0 : ascii) (trigger_type : Z) (control_program : Z) : SM unit :=
  time ← trigger_pre type0 trigger_type;
  trigger_stamp control_program time;;
  receiver_posttrigger;;
  timing_posttrigger;;
  fuel ← gets walk_fuel;
  head ← gets controlprogram_threads;
  walk_programs fuel head handover_body tt.

(** The marking of an active program, which counts it in [ready_count]. *)
Definition mark_program (control_program : Z) (cp : ControlProgram) (rc : Z) : SM Z :=
  if active cp =? 1 then
    upd_state control_program (fun st => st <| ready := 1 |> <| processing := 0 |>);;
    p ← get_params control_program;
    set_txread (radar p - 1) 1;;
    mret (rc + 1)
  else mret rc.

Definition coordination_body (type0 : ascii) (control_program : Z) : SM unit :=
  rs ← gets ready_state;
  ttype ← gets trigger_type;
  ts ← gets trigger_state;
  rc ← gets ready_count;
  cp ← get_cp control_program;
  rc ← mark_program control_program cp rc;
  rs ← (if ts <? 2 then
          fuel ← gets walk_fuel;
          head ← gets controlprogram_threads;
          counts ← walk_programs fuel head count_body (0, 0, 0);
          let '(num, numready, numprocessing) := counts in
          mret (ready_state_of num numready rs)
        else mret rs);
  out ← (if rs =? 2 then
           trigger_sequence type0 ttype control_program;; mret (0, 0, 0)
         else mret (rs, ts, rc));
  let '(rs, ts, rc) := out in
  modify (fun s => s <| ready_state := rs |> <| trigger_state := ts |> <| ready_count := rc |>).

Definition coordination_handler (type0 : ascii) (control_program : Z) : SM unit :=
  locked coord_lock (coordination_body type0 control_program).

(** ** Specification *)

(** [c] exists, and has its state when it is active. *)
Definition live_state (h : gmap Z ControlProgram) (c : Z) : Prop :=
  ∃ cp, h !! c = Some cp ∧ (active cp = 1 → is_Some (state cp)).

(** [cs] are the programs of the threads of [l], in order. *)
Definition programs_are (s : server) (l : list Z) (cs : list Z) : Prop :=
  Forall2 (fun x c => thread_data <$> thread_items s !! x = Some (Some c) ∧
    live_state (heap s) c) l cs.

Definition is_active (h : gmap Z ControlProgram) (c : Z) : bool :=
  match h !! c with Some cp => active cp =? 1 | None => false end.

Definition is_ready (h : gmap Z ControlProgram) (c : Z) : bool :=
  match h !! c with
  | Some cp => match state cp with Some st => ready st =? 1 | None => false end
  | None => false
  end.

(** Every active program is ready, and there is one. *)
Definition all_ready (h : gmap Z ControlProgram) (cs : list Z) : bool :=
  forallb (fun c => implb (is_active h c) (is_ready h c)) cs &&
  existsb (is_active h) cs.

Definition any_ready (h : gmap Z ControlProgram) (cs : list Z) : bool :=
  existsb (fun c => is_active h c && is_ready h c) cs.

(** The effect of the readiness mark on the heap. *)
Definition mark_ready (a : Z) (h : gmap Z ControlProgram) : gmap Z ControlProgram :=
  if is_active h a then
    alter (on_state (fun st => st <| ready := 1 |> <| processing := 0 |>)) a h
  else h.

(** The handler can mark its program: it exists and, when active, has its state
    and parameters that name a radar. *)
Definition can_mark (s : server) (a : Z) : Prop :=
  ∃ cp, heap s !! a = Some cp ∧
    (active cp = 1 → is_Some (state cp) ∧
       ∃ p, parameters cp = Some p ∧ 1 ≤ radar p ≤ zlen (txread s)).

(** The server after the mark. *)
Definition marked (s : server) (a : Z) : server :=
  match heap s !! a with
  | Some cp =>
      if active cp =? 1 then
        s <| heap := mark_ready a (heap s) |>
          <| txread ::= fun l => match parameters cp with
               | Some p => <[Z.to_nat (radar p - 1) := 1]> l | None => l end |>
      else s
  | None => s
  end.

(** The requests of a trace: the messages sent, in order. *)
Definition sends (tr : list event) : list (sock * packet) :=
  omap (fun e => match e with EvSend k p => Some (k, p) | _ => None end) tr.

(** What driver traffic cannot change. *)
Definition core (s : server) : server :=
  s <| inbox := ∅ |> <| trace := [] |> <| txstatus := [] |>
    <| bad_transmit_times := mk_TRTimes 0 None None |>.

(** [io L m]: whenever [m] returns it has sent exactly [L] and changed at most
    the inboxes, the trace, [txstatus] and [bad_transmit_times]. *)
Definition io {A} (L : list (sock * packet)) (m : SM A) : Prop := ∀ s a s',
  m s = Ok (a, s') → core s' = core s ∧
  ∃ tr, trace s' = (trace s ++ tr)%list ∧ sends tr = L.

(** The hand-over as a function on the heap. *)
Definition handover (h : gmap Z ControlProgram) (c : Z) : gmap Z ControlProgram :=
  if is_ready h c then
    alter (on_state (fun st => st <| ready := 0 |> <| processing := 1 |>)) c h
  else h.

Definition num_active (h : gmap Z ControlProgram) (cs : list Z) : Z :=
  countb (is_active h) cs.

Definition num_ready (h : gmap Z ControlProgram) (cs : list Z) : Z :=
  countb (fun c => is_active h c && is_ready h c) cs.

(** The time stamp of the trigger on the program that fired it. *)
Definition stamp (sec nsec : Z) (st : ControlState) : ControlState :=
  st <| gpssecond := sec |> <| gpsnsecond := nsec |>.

Definition stamped (a sec nsec : Z) (h : gmap Z ControlProgram) : gmap Z ControlProgram :=
  if is_active h a then alter (on_state (stamp sec nsec)) a h else h.

(** The requests of one trigger: pre-trigger of the four drivers, the trigger
    itself, the GPS time stamp, the transmitter status of the radar of an active
    program, and the two post-triggers. *)
Definition trigger_type_char (type0 : ascii) (trigger_type : Z) : ascii :=
  if trigger_type =? 0 then TIMING_TRIGGER
  else if trigger_type =? 1 then TIMING_TRIGGER
  else if trigger_type =? 2 then TIMING_GPS_TRIGGER
  else type0.

Definition pre_requests (type0 : ascii) (trigger_type : Z) : list (sock * packet) :=
  [(SRecv, PDriver PRETRIGGER 1); (SDds, PDriver PRETRIGGER 1);
   (SDio, PDriver PRETRIGGER 1); (STiming, PDriver PRETRIGGER 1);
   (STiming, PDriver (trigger_type_char type0 trigger_type) 1);
   (SGps, PDriver GPS_GET_EVENT_TIME 1)].

Definition tx_requests (h : gmap Z ControlProgram) (a : Z) : list (sock * packet) :=
  match h !! a ≫= parameters with
  | Some p => if is_active h a
              then [(SDio, PDriver DIO_GET_TX_STATUS 1); (SDio, PInt (radar p))] else []
  | None => []
  end.

Definition post_requests : list (sock * packet) :=
  [(SRecv, PDriver POSTTRIGGER 1); (STiming, PDriver POSTTRIGGER 1)].

(** ** Walks *)

Lemma walk_programs_run {A} (P : list Z → A → server → Prop)
    (body : option Z → A → SM A) (m : gmap Z Thread_List_Item) :
  (∀ c cs acc s, P (c :: cs) acc s → thread_items s = m → ∃ acc' s',
     body (Some c) acc s = Ok (acc', s') ∧ thread_items s' = m ∧ P cs acc' s') →
  ∀ l cs fuel nxt hd acc s,
  thread_items s = m → dll m nxt l hd →
  Forall2 (fun x c => thread_data <$> m !! x = Some (Some c)) l cs →
  (length l ≤ fuel)%nat → P cs acc s →
  ∃ acc' s', walk_programs fuel hd body acc s = Ok (acc', s') ∧
    thread_items s' = m ∧ P [] acc' s'.
Proof.
  intros Hb. induction l as [|x l IH]; intros cs fuel nxt hd acc s Em Hd Hc Hf HP.
  - simpl in Hd. subst hd. inversion Hc; subst. exists acc, s. by destruct fuel.
  - inversion Hc as [|? c ? cs' Hx Hc']; subst. destruct Hd as [-> (it & E & _ & Hd)].
    destruct fuel as [|fuel]; simpl in Hf; [lia|]. cbn [walk_programs].
    rewrite (bind_ok _ _ _ _ _ (get_item_run _ _ _ E)).
    rewrite E in Hx. injection Hx as Hx. rewrite Hx.
    destruct (Hb c cs' acc s HP eq_refl) as (acc1 & s1 & E1 & Em1 & HP1).
    rewrite (bind_ok _ _ _ _ _ E1). rewrite <- Em1 in E.
    rewrite (bind_ok _ _ _ _ _ (get_item_run _ _ _ E)).
    eapply IH; try done. lia.
Qed.

Lemma programs_are_data s l cs :
  programs_are s l cs → Forall2 (fun x c => thread_data <$> thread_items s !! x = Some (Some c)) l cs.
Proof. intros H. eapply Forall2_impl; [exact H|]. by intros x c [? _]. Qed.

Lemma programs_are_live s l cs : programs_are s l cs → Forall (live_state (heap s)) cs.
Proof. intros H. by induction H as [|x c l cs [_ ?] _ IH]; constructor. Qed.

Lemma counts_run s l cs :
  threads_are s l →
  Forall2 (fun x c => thread_data <$> thread_items s !! x = Some (Some c)) l cs →
  Forall (live_state (heap s)) cs → ∃ np,
  walk_programs (walk_fuel s) (controlprogram_threads s) count_body (0, 0, 0) s =
    Ok ((num_active (heap s) cs, num_ready (heap s) cs, np), s).
Proof.
  intros Hl Hd Hlive.
  destruct (walk_programs_run (fun cs' '(n, nr, np) s' => s' = s ∧ Forall (live_state (heap s)) cs' ∧
      n + num_active (heap s) cs' = num_active (heap s) cs ∧
      nr + num_ready (heap s) cs' = num_ready (heap s) cs) count_body (thread_items s))
    with (l := l) (cs := cs) (fuel := walk_fuel s) (nxt := @None Z)
         (hd := controlprogram_threads s) (acc := (0, 0, 0)) (s := s)
    as ([[n nr] np] & s' & E & _ & -> & _ & En & Enr); try done.
  - intros c cs' [[n nr] np] s0 (-> & Hlv & En & Enr) _.
    inversion Hlv as [|? ? (cp & Ecp & Est) Hlv']; subst.
    unfold count_body. rewrite (bind_ok _ _ _ _ _ (get_cp_run _ _ _ Ecp)).
    unfold num_active, num_ready in *. cbn [countb] in En, Enr.
    assert (is_active (heap s) c = (active cp =? 1)) as Ha by (unfold is_active; by rewrite Ecp).
    rewrite Ha in *. destruct (Z.eqb_spec (active cp) 1) as [Ea|Ea]; cbn [andb] in *.
    + destruct (Est Ea) as [st Est']. rewrite Est', deref_then.
      assert (is_ready (heap s) c = (ready st =? 1)) as Hr
        by (unfold is_ready; by rewrite Ecp, Est').
      rewrite Hr in *. destruct (ready st =? 1); eexists (_, _, _), s;
        (split; [reflexivity|]); (split; [done|]); split_and!; try done; lia.
    + exists (n, nr, np), s. split; [done|]. split; [done|]. split_and!; try done; lia.
  - apply Hl.
  - unfold walk_fuel. by rewrite (threads_are_size _ _ Hl).
  - exists np. rewrite E. unfold num_active, num_ready in *. cbn [countb] in *.
    do 4 f_equal; lia.
Qed.

Lemma ready_state_of_spec h cs old :
  ready_state_of (num_active h cs) (num_ready h cs) old =
    if all_ready h cs then 2 else if any_ready h cs then 1 else 0.
Proof.
  unfold ready_state_of, num_active, num_ready, all_ready, any_ready.
  destruct (countb_and (is_active h) (is_ready h) cs) as [Hle Heq].
  pose proof (countb_nonneg (fun c => is_active h c && is_ready h c) cs) as Hnn.
  pose proof (countb_zero (is_active h) cs) as Hz.
  pose proof (countb_zero (fun c => is_active h c && is_ready h c) cs) as Hz'.
  rewrite Heq, Hz'.
  destruct (existsb (fun c => is_active h c && is_ready h c) cs) eqn:Ee; simpl.
  - apply Z.eqb_neq in Hz'. rewrite (proj2 (Z.ltb_lt 0 _)) by lia. rewrite !andb_true_r.
    assert (existsb (is_active h) cs = true) as ->.
    { destruct (existsb (is_active h) cs); [done|]. apply Z.eqb_eq in Hz. lia. }
    by destruct (forallb _ cs).
  - apply Z.eqb_eq in Hz'. destruct (forallb _ cs); [|done]. simpl.
    apply Z.eqb_eq in Heq. rewrite Heq in Hz'. rewrite Hz' in Hz. simpl in Hz.
    by destruct (existsb (is_active h) cs).
Qed.

(** ** The readiness mark *)

Lemma set_txread_run i v s :
  0 ≤ i < zlen (txread s) →
  set_txread i v s = Ok (tt, s <| txread ::= <[Z.to_nat i := v]> |>).
Proof.
  intros Hi. unfold set_txread. rewrite gets_then, (zset_Some _ _ _ Hi), deref_then. done.
Qed.

Lemma mark_program_run s a cp rc :
  can_mark s a → heap s !! a = Some cp →
  mark_program a cp rc s =
    Ok (if is_active (heap s) a then rc + 1 else rc, marked s a).
Proof.
  intros (cp' & Ecp & Ha) Ecp'. replace cp' with cp in * by congruence.
  unfold mark_program, marked, is_active, mark_ready, is_active. rewrite Ecp.
  destruct (Z.eqb_spec (active cp) 1) as [E|E]; [|done].
  destruct (Ha E) as ([st Est] & p & Ep & Hr).
  rewrite (bind_ok _ _ _ _ _ (upd_state_run _ _ _ _ _ Ecp Est)).
  set (f := on_state _). set (s1 := s <| heap ::= alter f a |>).
  assert (heap s1 !! a = Some (f cp)) as E1.
  { change (alter f a (heap s) !! a = Some (f cp)). by rewrite lookup_alter_eq, Ecp. }
  rewrite (bind_ok _ _ _ _ _ (get_params_run a (f cp) p s1 E1 Ep)).
  rewrite (bind_ok _ _ _ _ _ (set_txread_run (radar p - 1) 1 s1 ltac:(change (txread s1) with (txread s); lia))).
  rewrite Ep. reflexivity.
Qed.

Lemma marked_threads s a :
  thread_items (marked s a) = thread_items s ∧
  controlprogram_threads (marked s a) = controlprogram_threads s ∧
  trigger_state (marked s a) = trigger_state s ∧
  trace (marked s a) = trace s ∧ radar_channels (marked s a) = radar_channels s.
Proof.
  unfold marked. destruct (heap s !! a) as [cp|]; [|done]. by destruct (active cp =? 1).
Qed.

Lemma marked_inbox s a : inbox (marked s a) = inbox s.
Proof. unfold marked. by destruct (heap s !! a) as [cp|]; [destruct (active cp =? 1)|]. Qed.

Lemma marked_heap s a : is_Some (heap s !! a) → heap (marked s a) = mark_ready a (heap s).
Proof.
  intros [cp E]. unfold marked, mark_ready, is_active. rewrite E.
  by destruct (active cp =? 1).
Qed.

Lemma live_alter_state f h c a :
  live_state h c → live_state (alter (on_state f) a h) c.
Proof.
  intros (cp & E & Hst). destruct (decide (a = c)) as [->|Hne].
  - exists (on_state f cp). rewrite lookup_alter_eq, E. split; [done|].
    intros Ha. destruct (Hst Ha) as [st Est]. unfold on_state, set_field. simpl.
    rewrite Est. by eexists.
  - exists cp. by rewrite lookup_alter_ne.
Qed.

Lemma live_mark h c a : live_state h c → live_state (mark_ready a h) c.
Proof. intros. unfold mark_ready. case_match; [by apply live_alter_state|done]. Qed.

(** The handler up to the decision to fire. *)
Lemma coordination_decide s l cs a t0 :
  threads_are s l → programs_are s l cs → can_mark s a → trigger_state s < 2 →
  let s1 := marked s a in
  let rc := ready_count s + (if is_active (heap s) a then 1 else 0) in
  coordination_body t0 a s =
    (if all_ready (heap s1) cs then
       trigger_sequence t0 (trigger_type s) a;;
       modify (fun s => s <| ready_state := 0 |> <| trigger_state := 0 |> <| ready_count := 0 |>)
     else
       modify (fun s => s <| ready_state := if any_ready (heap s1) cs then 1 else 0 |>
                          <| trigger_state := trigger_state s1 |> <| ready_count := rc |>)) s1.
Proof.
  intros Hl Hc Hm Hts s1 rc. pose proof Hm as (cp & Ecp & _). unfold coordination_body.
  rewrite !gets_then, (bind_ok _ _ _ _ _ (get_cp_run _ _ _ Ecp)).
  rewrite (bind_ok _ _ _ _ _ (mark_program_run s a cp _ Hm Ecp)). fold s1.
  destruct (marked_threads s a) as (Ei & Eh & Et & _). fold s1 in Ei, Eh, Et.
  rewrite (proj2 (Z.ltb_lt _ _) Hts).
  rewrite bind_assoc, gets_then, bind_assoc, gets_then.
  destruct (counts_run s1 l cs) as (np & En).
  { eapply threads_are_frame; [| |exact Hl]; done. }
  { rewrite Ei. by apply programs_are_data. }
  { unfold s1. rewrite marked_heap by eauto. apply programs_are_live in Hc.
    eapply Forall_impl; [exact Hc|]. intros c. apply live_mark. }
  rewrite bind_assoc, (bind_ok _ _ _ _ _ En), ret_then, ready_state_of_spec.
  destruct (all_ready (heap s1) cs).
  - change (2 =? 2) with true. cbn match. rewrite bind_assoc. apply bind_ext. intros _ s2. done.
  - assert (((if any_ready (heap s1) cs then 1 else 0) =? 2) = false) as ->
      by (by destruct (any_ready (heap s1) cs)).
    rewrite ret_then, Et. unfold rc.
    replace (if is_active (heap s) a then ready_count s + 1 else ready_count s)
      with (ready_count s + (if is_active (heap s) a then 1 else 0))
      by (destruct (is_active (heap s) a); lia). done.
Qed.

(** ** Driver traffic *)

Lemma sends_app t1 t2 : sends (t1 ++ t2) = (sends t1 ++ sends t2)%list.
Proof. apply omap_app. Qed.

Lemma io_bind {A B} L1 L2 (m : SM A) (f : A → SM B) :
  io L1 m → (∀ a, io L2 (f a)) → io (L1 ++ L2) (m ≫= f).
Proof.
  intros Hm Hf s b s'' (a & s' & E1 & E2)%bind_inv.
  destruct (Hm _ _ _ E1) as (C1 & t1 & T1 & S1), (Hf _ _ _ _ E2) as (C2 & t2 & T2 & S2).
  split; [congruence|]. exists (t1 ++ t2)%list. rewrite T2, T1, app_assoc. split; [done|].
  rewrite sends_app. congruence.
Qed.

Lemma io_then {A B} L (m : SM A) (f : A → SM B) :
  io [] m → (∀ a, io L (f a)) → io L (m ≫= f).
Proof. apply (io_bind []). Qed.

Lemma io_ret {A} (a : A) : io [] (mret a).
Proof. intros s b s' [= <- <-]. split; [done|]. exists []. by rewrite app_nil_r. Qed.

Lemma io_fail {A} L e : io L (fail e : SM A).
Proof. by intros s a s'. Qed.

Lemma io_send k p : io [(k, p)] (send k p).
Proof. intros s a s' [= <- <-]. split; [done|]. by exists [EvSend k p]. Qed.

Lemma io_event e : match e with EvSend _ _ => False | _ => True end → io [] (emit e).
Proof. intros He s a s' [= <- <-]. split; [done|]. exists [e]. split; [done|]. by destruct e. Qed.

Lemma io_recv k : io [] (recv k).
Proof.
  intros s a s'. unfold recv. destruct (inbox s !! k) as [[|p rest]|]; try done.
  intros [= <- <-]. split; [done|]. by exists [EvRecv k p].
Qed.

Lemma io_gets {A} (f : server → A) : io [] (gets f).
Proof. intros s b s' [= <- <-]. split; [done|]. exists []. by rewrite app_nil_r. Qed.

Lemma io_deref {A} e (o : option A) : io [] (deref e o : SM A).
Proof.
  intros s b s'. unfold deref. destruct o; [|done]. intros [= <- <-].
  split; [done|]. exists []. by rewrite app_nil_r.
Qed.

Lemma io_modify f : (∀ s, core (f s) = core s ∧ trace (f s) = trace s) → io [] (modify f).
Proof.
  intros H s b s' [= <- <-]. destruct (H s) as [? ->]. split; [done|].
  exists []. by rewrite app_nil_r.
Qed.

(** [io_steps] splits a handler into its primitives; the requests are matched
    by [eapply] with an evar for the list. *)
Ltac io_quiet :=
  repeat first
    [ apply io_ret | apply io_recv | apply io_gets | apply io_deref | apply io_fail
    | apply io_event; exact I
    | apply io_modify; intros ?; split; reflexivity
    | apply io_then; [|intros ?]
    | progress unfold recv_msg, recv_driver, recv_int
    | match goal with |- io _ (match ?x with _ => _ end) => destruct x end ].

Lemma io_recv_msg k : io [] (recv_msg k).
Proof. io_quiet. Qed.

Lemma io_recv_int k : io [] (recv_int k).
Proof. io_quiet. Qed.

Lemma io_request l k t : io [(k, PDriver t 1)] (run_steps (driver_request l k t)).
Proof.
  unfold run_steps, driver_request. simpl. unfold id.
  apply io_then; [apply io_event; exact I|intros _].
  apply (io_bind [(k, PDriver t 1)] []); [apply io_send|intros _].
  apply io_then; [apply io_recv_msg|intros _].
  apply io_then; [apply io_event; exact I|intros _]. apply io_ret.
Qed.

Lemma io_timing_pretrigger : io [(STiming, PDriver PRETRIGGER 1)] (run_steps timing_pretrigger).
Proof.
  unfold run_steps, timing_pretrigger. cbn [for_each]. unfold id.
  apply io_then; [apply io_event; exact I|intros _].
  apply (io_bind [_] []); [apply io_send|intros _].
  unfold recv_words. io_quiet.
Qed.

Lemma io_locked {A} L l (m : SM A) : io L m → io L (locked l m).
Proof.
  intros Hm. unfold locked. apply io_then; [apply io_event; exact I|intros _].
  rewrite <- (app_nil_r L). apply io_bind; [done|]. intros a.
  apply io_then; [apply io_event; exact I|intros _]. apply io_ret.
Qed.

Lemma io_timing_trigger t0 t :
  io [(STiming, PDriver (trigger_type_char t0 t) 1)] (timing_trigger t0 t).
Proof.
  apply io_locked. apply (io_bind [_] []); [apply io_send|intros _]. apply io_recv_msg.
Qed.

Lemma io_transmitter_status r :
  io [(SDio, PDriver DIO_GET_TX_STATUS 1); (SDio, PInt r)] (DIO_transmitter_status r).
Proof.
  apply io_locked. apply (io_bind [_] [_]); [apply io_send|intros _].
  apply (io_bind [_] []); [apply io_send|intros _]. io_quiet.
Qed.

Lemma io_trigger_pre t0 t : io (pre_requests t0 t) (trigger_pre t0 t).
Proof.
  unfold trigger_pre, pretrigger_threads, pre_requests.
  assert (io [(SRecv, PDriver PRETRIGGER 1); (SDds, PDriver PRETRIGGER 1);
    (SDio, PDriver PRETRIGGER 1); (STiming, PDriver PRETRIGGER 1)]
    (for_each [receiver_pretrigger; dds_pretrigger; DIO_pretrigger; timing_pretrigger] run_steps)) as H.
  { cbn [for_each]. apply (io_bind [_] [_; _; _]); [apply io_request|intros _].
    apply (io_bind [_] [_; _]); [apply io_request|intros _].
    apply (io_bind [_] [_]); [apply io_request|intros _].
    apply (io_bind [_] []); [apply io_timing_pretrigger|intros _]. apply io_ret. }
  apply (io_bind _ [_; _] _ _ H). intros _.
  apply io_then; [apply io_event; exact I|intros _].
  apply (io_bind [_] [_]); [apply io_timing_trigger|intros _].
  apply (io_bind [_] []); [apply io_send|intros _].
  apply io_then; [apply io_recv_int|intros sec].
  apply io_then; [apply io_recv_int|intros nsec].
  apply io_then; [apply io_recv_msg|intros _]. apply io_ret.
Qed.

Lemma io_post : io post_requests (receiver_posttrigger;; timing_posttrigger).
Proof. apply (io_bind [_] [_]); [apply io_request|intros _; apply io_request]. Qed.

(** The core of a state determines what the coordination reads. *)
Lemma core_fields s s' :
  core s' = core s → heap s' = heap s ∧ thread_items s' = thread_items s ∧
  controlprogram_threads s' = controlprogram_threads s ∧ txread s' = txread s ∧
  radar_channels s' = radar_channels s.
Proof.
  intros E. repeat split.
  - apply (f_equal heap) in E. exact E.
  - apply (f_equal thread_items) in E. exact E.
  - apply (f_equal controlprogram_threads) in E. exact E.
  - apply (f_equal txread) in E. exact E.
  - apply (f_equal radar_channels) in E. exact E.
Qed.

(** ** The hand-over *)

Lemma is_ready_alter f h a c :
  (∀ st, ready (f st) = ready st) → is_ready (alter (on_state f) a h) c = is_ready h c.
Proof.
  intros Hf. unfold is_ready. destruct (decide (a = c)) as [->|]; [|by rewrite lookup_alter_ne].
  rewrite lookup_alter_eq. destruct (h !! c) as [[st ? ? ? ? ? ? ? ? ?]|]; [|done].
  destruct st as [st|]; [|done]. simpl. by rewrite Hf.
Qed.

Lemma is_active_alter f h a c : is_active (alter (on_state f) a h) c = is_active h c.
Proof.
  unfold is_active. destruct (decide (a = c)) as [->|]; [|by rewrite lookup_alter_ne].
  rewrite lookup_alter_eq. by destruct (h !! c).
Qed.

Lemma handover_ne h c d : c ≠ d → handover h c !! d = h !! d.
Proof. intros. unfold handover. case_match; [by apply lookup_alter_ne|done]. Qed.

Lemma handover_not_ready h c d : is_ready (handover h c) d = is_ready h d && negb (bool_decide (c = d)).
Proof.
  destruct (decide (c = d)) as [->|Hne].
  - rewrite (bool_decide_true (d = d)) by done. rewrite andb_false_r. unfold handover.
    destruct (is_ready h d) eqn:E; [|done]. unfold is_ready in *. rewrite lookup_alter_eq.
    destruct (h !! d) as [[[st|] ? ? ? ? ? ? ? ? ?]|]; done.
  - rewrite (bool_decide_false (c = d)) by done. rewrite andb_true_r. unfold is_ready.
    by rewrite handover_ne.
Qed.

Lemma handover_fold_ready cs : ∀ h d,
  is_ready (foldl handover h cs) d = is_ready h d && negb (bool_decide (d ∈ cs)).
Proof.
  induction cs as [| c cs IH]; intros h d; cbn [foldl].
  - rewrite bool_decide_false by (apply not_elem_of_nil). by rewrite andb_true_r.
  - rewrite IH, handover_not_ready, <- andb_assoc. f_equal.
    rewrite <- negb_orb, <- bool_decide_or. f_equal. apply bool_decide_ext.
    rewrite elem_of_cons. naive_solver.
Qed.

Lemma handover_fold_lookup cs : ∀ h d,
  foldl handover h cs !! d =
    if is_ready h d && bool_decide (d ∈ cs)
    then on_state (fun st => st <| ready := 0 |> <| processing := 1 |>) <$> h !! d
    else h !! d.
Proof.
  induction cs as [| c cs IH]; intros h d; cbn [foldl].
  - rewrite bool_decide_false by (apply not_elem_of_nil). by rewrite andb_false_r.
  - rewrite IH, handover_not_ready. destruct (decide (c = d)) as [->|Hne].
    + rewrite !(bool_decide_true (d = d)), andb_false_r by done. simpl.
      rewrite (bool_decide_true (d ∈ d :: cs)) by (by left). rewrite andb_true_r.
      unfold handover. destruct (is_ready h d); [by rewrite lookup_alter_eq|done].
    + rewrite (bool_decide_false (c = d)) by done. rewrite andb_true_r, handover_ne by done.
      replace (bool_decide (d ∈ c :: cs)) with (bool_decide (d ∈ cs)); [done|].
      apply bool_decide_ext. rewrite elem_of_cons. naive_solver.
Qed.

Lemma handover_run s l cs :
  threads_are s l →
  Forall2 (fun x c => thread_data <$> thread_items s !! x = Some (Some c)) l cs →
  Forall (fun c => is_Some (heap s !! c)) cs →
  walk_programs (walk_fuel s) (controlprogram_threads s) handover_body tt s =
    Ok (tt, s <| heap := foldl handover (heap s) cs |>).
Proof.
  intros Hl Hd Hlive.
  destruct (walk_programs_run (fun cs' _ s' => ∃ h, s' = s <| heap := h |> ∧
      Forall (fun c => is_Some (h !! c)) cs' ∧
      foldl handover h cs' = foldl handover (heap s) cs) handover_body (thread_items s))
    with (l := l) (cs := cs) (fuel := walk_fuel s) (nxt := @None Z)
         (hd := controlprogram_threads s) (acc := tt) (s := s)
    as (u & s' & E & _ & h & -> & _ & Eh); try done.
  - intros c cs' u s0 (h & -> & Hlv & Eh) _. inversion Hlv as [|? ? [cp Ecp] Hlv']; subst.
    set (s0 := s <| heap := h |>). assert (heap s0 !! c = Some cp) as Ecp0 by exact Ecp.
    exists tt, (s <| heap := handover h c |>). split; [|split; [done|]].
    + unfold handover_body. rewrite (bind_ok _ _ _ _ _ (get_cp_run _ _ _ Ecp0)).
      unfold handover, is_ready. rewrite Ecp. destruct (state cp) as [st|] eqn:Est; [|done].
      destruct (ready st =? 1); [|done].
      rewrite (bind_ok _ _ _ _ _ (upd_state_run _ _ _ _ _ Ecp0 Est)).
      set (f := on_state _). set (s1 := s0 <| heap ::= _ |>).
      assert (heap s1 !! c = Some (f cp)) as E1
        by (change (alter f c h !! c = Some (f cp)); by rewrite lookup_alter_eq, Ecp).
      erewrite (upd_state_run c _ (f cp) (st <| ready := 0 |>) s1 E1).
      2: { unfold f, on_state, set_field. simpl. by rewrite Est. }
      f_equal. f_equal. change (s <| heap := alter (on_state (fun st => st <| processing := 1 |>)) c
        (alter f c h) |> = s <| heap := alter (on_state (fun st =>
          st <| ready := 0 |> <| processing := 1 |>)) c h |>).
      f_equal. unfold f. by rewrite alter_on_state.
    + exists (handover h c). split; [done|]. split; [|done].
      eapply Forall_impl; [exact Hlv'|]. simpl. intros d Hd'. unfold handover.
      case_match; [by rewrite lookup_alter_is_Some|done].
  - apply Hl.
  - unfold walk_fuel. by rewrite (threads_are_size _ _ Hl).
  - exists (heap s). split; [by destruct s|]. split; [done|done].
  - rewrite E. simpl in Eh. destruct u. by rewrite <- Eh.
Qed.

Lemma trigger_stamp_post a sec nsec s s' cp :
  heap s !! a = Some cp →
  (active cp = 1 → is_Some (state cp) ∧
     ∃ p, parameters cp = Some p ∧ zget (txread s) (radar p - 1) = Some 1) →
  trigger_stamp a (sec, nsec) s = Ok (tt, s') →
  heap s' = stamped a sec nsec (heap s) ∧ thread_items s' = thread_items s ∧
  controlprogram_threads s' = controlprogram_threads s ∧
  ∃ tr, trace s' = (trace s ++ tr)%list ∧ sends tr = tx_requests (heap s) a.
Proof.
  intros Ecp Hact. unfold trigger_stamp, stamped, tx_requests, is_active.
  rewrite (bind_ok _ _ _ _ _ (get_cp_run _ _ _ Ecp)), Ecp. cbn [mbind option_bind].
  destruct (Z.eqb_spec (active cp) 1) as [Ea|Ea].
  2: { intros [= <-]. split_and!; try done. exists []. rewrite app_nil_r.
       by destruct (parameters cp). }
  destruct (Hact Ea) as ([st Est] & p & Ep & Ht). rewrite Ep.
  rewrite (bind_ok _ _ _ _ _ (upd_state_run _ _ _ _ _ Ecp Est)). cbn [fst snd].
  set (f := on_state _). set (s1 := s <| heap ::= alter f a |>).
  assert (heap s1 !! a = Some (f cp)) as E1
    by (change (alter f a (heap s) !! a = Some (f cp)); by rewrite lookup_alter_eq, Ecp).
  rewrite (bind_ok _ _ _ _ _ (get_params_run a (f cp) p s1 E1 Ep)), gets_then.
  change (txread s1) with (txread s). rewrite Ht, deref_then.
  change (negb (1 =? 0)) with true. cbn match.
  intros ([] & s2 & E2 & E3)%bind_inv.
  destruct (io_transmitter_status _ _ _ _ E2) as (C2 & tr & T2 & S2).
  apply core_fields in C2 as (Ch & Ci & Ct & Cx & _).
  rewrite set_txread_run in E3.
  2: { rewrite Cx. apply zget_Some_range in Ht. exact Ht. }
  injection E3 as <-.
  change (heap s2 = alter f a (heap s) ∧ thread_items s2 = thread_items s ∧
    controlprogram_threads s2 = controlprogram_threads s ∧
    ∃ tr0, trace s2 = (trace s ++ tr0)%list ∧ sends tr0 =
      [(SDio, PDriver DIO_GET_TX_STATUS 1); (SDio, PInt (radar p))]).
  split_and!; [exact Ch|exact Ci|exact Ct|]. exists tr. split; [exact T2|exact S2].
Qed.

(** What the mark leaves for the trigger. *)
Lemma marked_program s a cp :
  can_mark s a → heap s !! a = Some cp → ∃ cp',
  heap (marked s a) !! a = Some cp' ∧ active cp' = active cp ∧
  parameters cp' = parameters cp ∧
  (active cp' = 1 → is_Some (state cp') ∧
     ∃ p, parameters cp' = Some p ∧ zget (txread (marked s a)) (radar p - 1) = Some 1).
Proof.
  intros (cp' & E & Hm) E'. replace cp' with cp in * by congruence. clear cp' E'.
  unfold marked. rewrite E. destruct (Z.eqb_spec (active cp) 1) as [Ea|Ea].
  2: { exists cp. split_and!; try done. }
  destruct (Hm Ea) as ([st Est] & p & Ep & Hr). unfold mark_ready, is_active.
  rewrite E, Ea. change (1 =? 1) with true. cbn match. set (f := on_state _).
  exists (f cp). split_and!.
  - change (alter f a (heap s) !! a = Some (f cp)). by rewrite lookup_alter_eq, E.
  - done.
  - done.
  - intros _. split; [unfold f, on_state, set_field; simpl; rewrite Est; by eexists|].
    exists p. split; [done|]. rewrite Ep.
    change (zget (<[Z.to_nat (radar p - 1):=1]> (txread s)) (radar p - 1) = Some 1).
    eapply zget_zset_eq. apply zset_Some. lia.
Qed.

Lemma tx_requests_marked s a :
  is_Some (heap s !! a) → tx_requests (heap (marked s a)) a = tx_requests (heap s) a.
Proof.
  intros [cp E]. unfold marked. rewrite E. destruct (active cp =? 1) eqn:Ea; [|done].
  set (h := mark_ready a (heap s)).
  change (tx_requests h a = tx_requests (heap s) a).
  unfold tx_requests, h, mark_ready, is_active. rewrite E, Ea, lookup_alter_eq, E.
  cbn. by rewrite Ea.
Qed.

Lemma live_stamped_mark a sec nsec h c cp :
  h !! c = Some cp → is_Some (stamped a sec nsec (mark_ready a h) !! c).
Proof.
  intros E. unfold stamped, mark_ready.
  repeat case_match; rewrite ?lookup_alter_is_Some; by exists cp.
Qed.

(** One trigger, from the pre-trigger to the hand-over. *)
Lemma trigger_sequence_post t0 ttype a s l cs cp s' :
  threads_are s l →
  Forall2 (fun x c => thread_data <$> thread_items s !! x = Some (Some c)) l cs →
  (∀ sec nsec, Forall (fun c => is_Some (stamped a sec nsec (heap s) !! c)) cs) →
  heap s !! a = Some cp →
  (active cp = 1 → is_Some (state cp) ∧
     ∃ p, parameters cp = Some p ∧ zget (txread s) (radar p - 1) = Some 1) →
  trigger_sequence t0 ttype a s = Ok (tt, s') →
  (∃ sec nsec s2, trigger_pre t0 ttype s = Ok ((sec, nsec), s2) ∧
     heap s' = foldl handover (stamped a sec nsec (heap s)) cs) ∧
  ∃ tr, trace s' = (trace s ++ tr)%list ∧
    sends tr = (pre_requests t0 ttype ++ tx_requests (heap s) a ++ post_requests)%list.
Proof.
  intros Hl Hd Hlive Ecp Hact E4. unfold trigger_sequence in E4.
  apply bind_inv in E4 as ([sec nsec] & s2 & E2 & E4).
  destruct (io_trigger_pre _ _ _ _ _ E2) as (C2 & tr2 & T2 & S2).
  apply core_fields in C2 as (C2h & C2i & C2t & C2x & _).
  apply bind_inv in E4 as ([] & s3 & E3 & E4).
  rewrite <- C2h in Ecp. rewrite <- C2x in Hact.
  destruct (trigger_stamp_post a sec nsec s2 s3 cp Ecp Hact E3) as (C3h & C3i & C3t & tr3 & T3 & S3).
  rewrite <- bind_assoc in E4. apply bind_inv in E4 as ([] & s4 & Epost & E4).
  destruct (io_post _ _ _ Epost) as (C4 & tr4 & T4 & S4).
  apply core_fields in C4 as (C4h & C4i & C4t & _ & _).
  assert (heap s4 = stamped a sec nsec (heap s)) as Eh by congruence.
  assert (thread_items s4 = thread_items s) as Ei by congruence.
  assert (controlprogram_threads s4 = controlprogram_threads s) as Et by congruence.
  rewrite !gets_then, (handover_run s4 l cs) in E4.
  2: { eapply threads_are_frame; [exact Ei|exact Et|exact Hl]. }
  2: { by rewrite Ei. }
  2: { by rewrite Eh. }
  injection E4 as <-.
  split; [exists sec, nsec, s2; by rewrite <- Eh|].
  exists (tr2 ++ tr3 ++ tr4)%list. split.
  - change (trace s4 = trace s ++ tr2 ++ tr3 ++ tr4)%list.
    by rewrite T4, T3, T2, <- !app_assoc.
  - by rewrite !sends_app, S2, S3, S4, C2h.
Qed.

(** The run of a call that fires: the trigger starts on a state with the sockets
    of [s], and its event time is the stamp. *)
Lemma coordination_fires_run s l cs a t0 s' :
  threads_are s l → programs_are s l cs → can_mark s a → trigger_state s < 2 →
  all_ready (heap (marked s a)) cs = true →
  coordination_handler t0 a s = Ok (tt, s') →
  ready_state s' = 0 ∧ trigger_state s' = 0 ∧ ready_count s' = 0 ∧
  (∃ sec nsec s1 s2, inbox s1 = inbox s ∧ trigger_pre t0 (trigger_type s) s1 = Ok ((sec, nsec), s2) ∧
     heap s' = foldl handover (stamped a sec nsec (mark_ready a (heap s))) cs) ∧
  (∀ c, c ∈ cs → is_ready (heap s') c = false) ∧
  ∃ tr, trace s' = (trace s ++ tr)%list ∧
    sends tr = (pre_requests t0 (trigger_type s) ++ tx_requests (heap s) a ++ post_requests)%list.
Proof.
  intros Hl Hc Hm Hts Hall. pose proof Hm as (cp & Ecp & _).
  unfold coordination_handler, locked, lock, unlock, emit. rewrite modify_then.
  set (s0 := s <| trace ::= _ |>).
  pose proof (coordination_decide s0 l cs a t0 Hl Hc Hm Hts) as E. cbn zeta in E.
  assert (heap (marked s0 a) = heap (marked s a)) as Eh.
  { rewrite !marked_heap by eauto. done. }
  rewrite Eh, Hall in E. intros ([] & s5 & E5 & E6)%bind_inv. rewrite E in E5. clear E.
  assert (inbox (marked s0 a) = inbox s) as Mb by exact (marked_inbox s0 a).
  destruct (marked_threads s0 a) as (Mi & Mt & _ & Mr & _).
  destruct (marked_program s0 a cp Hm Ecp) as (cp1 & Ecp1 & Ea1 & Ep1 & Hact1).
  pose proof (tx_requests_marked s0 a ltac:(by exists cp)) as Htx.
  assert (heap (marked s0 a) = mark_ready a (heap s)) as Hmh by (by rewrite marked_heap; [|by exists cp]).
  set (s1 := marked s0 a) in *. clearbody s1.
  apply bind_inv in E5 as ([] & s4 & E4 & E5). injection E5 as <-. injection E6 as <-.
  apply (trigger_sequence_post t0 _ a s1 l cs cp1) in E4
    as ((sec & nsec & s2 & Etp & Ehf) & tr & T & S); [|by eapply threads_are_frame| | |done|done].
  2: { rewrite Mi. by eapply programs_are_data. }
  2: { intros sec nsec. rewrite Hmh. apply programs_are_live in Hc.
       eapply Forall_impl; [exact Hc|]. intros c (cpc & Ec & _). by eapply live_stamped_mark. }
  do 3 (split; [reflexivity|]).
  split; [exists sec, nsec, s1, s2; rewrite <- Hmh; done|]. split.
  { intros c Hin. change (is_ready (heap s4) c = false). rewrite Ehf.
    rewrite handover_fold_ready, bool_decide_true by done. apply andb_false_r. }
  exists ([EvLock coord_lock] ++ tr ++ [EvUnlock coord_lock])%list. split.
  - change (trace s4 ++ [EvUnlock coord_lock] =
      trace s ++ [EvLock coord_lock] ++ tr ++ [EvUnlock coord_lock])%list.
    rewrite T, Mr. change (trace s0) with (trace s ++ [EvLock coord_lock])%list.
    by rewrite <- !app_assoc.
  - rewrite !sends_app, S, Htx. simpl (sends [_]). by rewrite app_nil_r.
Qed.

(** ** Properties *)

(** C7: while some active program is not ready (or none is active) a call of
    [coordination_handler] returns without any driver traffic: it marks its
    program, counts it, and records whether some program is ready. *)
Theorem coordination_waits s l cs a t0 :
  threads_are s l → programs_are s l cs → can_mark s a → trigger_state s < 2 →
  all_ready (heap (marked s a)) cs = false →
  ∃ s', coordination_handler t0 a s = Ok (tt, s') ∧
    heap s' = mark_ready a (heap s) ∧
    ready_state s' = (if any_ready (heap s') cs then 1 else 0) ∧
    trigger_state s' = trigger_state s ∧
    ready_count s' = ready_count s + (if is_active (heap s) a then 1 else 0) ∧
    trace s' = (trace s ++ [EvLock coord_lock; EvUnlock coord_lock])%list.
Proof.
  intros Hl Hc Hm Hts Hall. pose proof Hm as (cp & Ecp & _).
  unfold coordination_handler, locked, lock, unlock, emit. rewrite modify_then.
  set (s0 := s <| trace ::= _ |>).
  pose proof (coordination_decide s0 l cs a t0 Hl Hc Hm Hts) as E.
  assert (heap (marked s0 a) = heap (marked s a)) as Eh.
  { rewrite !marked_heap by eauto. done. }
  cbn zeta in E. rewrite Eh, Hall in E. unfold modify in E at 1.
  rewrite (bind_ok _ _ _ _ _ E), modify_then. eexists. split; [reflexivity|].
  destruct (marked_threads s0 a) as (_ & _ & Et & Er & _).
  rewrite <- (marked_heap s a) by eauto.
  split; [exact Eh|]. split.
  { change ((if any_ready (heap (marked s a)) cs then 1 else 0) =
      (if any_ready (heap (marked s0 a)) cs then 1 else 0)). by rewrite Eh. }
  split; [exact Et|]. split; [reflexivity|].
  change (trace (marked s0 a) ++ [EvUnlock coord_lock] =
    trace s ++ [EvLock coord_lock; EvUnlock coord_lock])%list.
  rewrite Er. change (trace s0) with (trace s ++ [EvLock coord_lock])%list.
  by rewrite <- app_assoc.
Qed.

(** C2: when every active program is ready a call of [coordination_handler]
    that returns has run one trigger: its requests are exactly the pre-trigger
    of the four drivers, the trigger, the GPS event time, the transmitter
    status of the radar of an active program and the two post-triggers, in that
    order; every ready program is handed over to processing and no program of
    the list is ready any more; the bookkeeping is back to idle. *)
Theorem coordination_fires s l cs a t0 s' :
  threads_are s l → programs_are s l cs → can_mark s a → trigger_state s < 2 →
  all_ready (heap (marked s a)) cs = true →
  coordination_handler t0 a s = Ok (tt, s') →
  ready_state s' = 0 ∧ trigger_state s' = 0 ∧ ready_count s' = 0 ∧
  (∃ sec nsec, heap s' = foldl handover (stamped a sec nsec (mark_ready a (heap s))) cs) ∧
  (∀ c, c ∈ cs → is_ready (heap s') c = false) ∧
  ∃ tr, trace s' = (trace s ++ tr)%list ∧
    sends tr = (pre_requests t0 (trigger_type s) ++ tx_requests (heap s) a ++ post_requests)%list.
Proof.
  intros Hl Hc Hm Hts Hall E.
  destruct (coordination_fires_run s l cs a t0 s' Hl Hc Hm Hts Hall E)
    as (? & ? & ? & (sec & nsec & _ & _ & _ & _ & Eh) & Hrest).
  do 3 (split; [done|]). split; [by exists sec, nsec|exact Hrest].
Qed.

(** the radar number a client stores with SET_PARAMETERS is not checked:
    outside 1..MAX_RADARS the next coordination of the active program writes
    outside [txread]. *)
Theorem client_radar_unchecked t0 a s cp st p :
  heap s !! a = Some cp → active cp = 1 → state cp = Some st → parameters cp = Some p →
  ¬ (1 ≤ radar p ≤ zlen (txread s)) →
  coordination_handler t0 a s = Fault OutOfBounds.
Proof.
  intros Ecp Ea Est Ep Hr. unfold coordination_handler, locked, lock, emit. rewrite modify_then.
  set (s1 := s <| trace ::= _ |>). change (heap s) with (heap s1) in Ecp.
  change (txread s) with (txread s1) in Hr. clearbody s1.
  apply bind_fault. unfold coordination_body.
  rewrite !gets_then, (bind_ok _ _ _ _ _ (get_cp_run _ _ _ Ecp)).
  apply bind_fault. unfold mark_program. rewrite Ea. change (1 =? 1) with true. cbn match.
  rewrite (bind_ok _ _ _ _ _ (upd_state_run _ _ _ _ _ Ecp Est)).
  set (f := on_state _). set (s2 := s1 <| heap ::= alter f a |>).
  assert (heap s2 !! a = Some (f cp)) as E2
    by (change (alter f a (heap s1) !! a = Some (f cp)); by rewrite lookup_alter_eq, Ecp).
  rewrite (bind_ok _ _ _ _ _ (get_params_run a (f cp) p s2 E2 Ep)).
  apply bind_fault. unfold set_txread. rewrite gets_then.
  change (txread s2) with (txread s1). unfold zset.
  rewrite decide_False by (unfold zlen in Hr; lia). done.
Qed.

(** ** Examples *)

Definition reply : packet := PDriver OKAY 1.

(** One client, registered as radar 1 channel 1, and drivers that answer. *)
Definition example_coord : server :=
  server0 <| heap := {[ 7 := cp0 <| radarinfo := mk_RadarPRM 0 1 1 |>
                                 <| parameters := Some (prm0 <| radar := 1 |> <| channel := 1 |>) |> ]} |>
          <| controlprogram_threads := Some 3 |>
          <| thread_items := {[ 3 := mk_Thread_List_Item None None 100 (mk_timeval 60 0)
                                       (mk_timeval 50 0) (Some 7) ]} |>
          <| inbox := <[SRecv := [reply; reply]]> (<[SDds := [reply]]> (<[SDio := [reply; PTx tx_status0; reply]]>
               (<[STiming := [PInt 0; reply; reply; reply]]> (<[SGps := [PInt 1000; PInt 5; reply]]> ∅)))) |>.

(** The same client while a second one, active, is not ready. *)
Definition example_two : server :=
  example_coord <| heap ::= <[8 := cp0]> |>
    <| controlprogram_threads := Some 4 |>
    <| thread_items := <[4 := mk_Thread_List_Item (Some 3) None 101 (mk_timeval 60 0) (mk_timeval 50 0) (Some 8)]>
        {[ 3 := mk_Thread_List_Item None (Some 4) 100 (mk_timeval 60 0) (mk_timeval 50 0) (Some 7) ]} |>.

Lemma example_coord_threads : threads_are example_coord [3].
Proof.
  split; [|split; [refine (bool_decide_unpack _ _); vm_compute; exact I|vm_compute; reflexivity]].
  split; [reflexivity|]. eexists. split; [vm_compute; reflexivity|]. by split.
Defined.

Lemma example_coord_programs : programs_are example_coord [3] [7].
Proof.
  repeat constructor. eexists. split; [vm_compute; reflexivity|]. intros _. by eexists.
Defined.

Lemma example_coord_mark : can_mark example_coord 7.
Proof.
  eexists. split; [vm_compute; reflexivity|]. intros _. split; [by eexists|].
  eexists. split; [reflexivity|]. vm_compute. split; discriminate.
Defined.

Lemma example_two_threads : threads_are example_two [4; 3].
Proof.
  split; [|split; [|vm_compute; reflexivity]].
  - split; [reflexivity|]. eexists. split; [vm_compute; reflexivity|]. split; [done|].
    split; [reflexivity|]. eexists. split; [vm_compute; reflexivity|]. by split.
  - refine (bool_decide_unpack _ _). vm_compute. exact I.
Defined.

Lemma example_two_programs : programs_are example_two [4; 3] [8; 7].
Proof.
  repeat constructor; (eexists; split; [vm_compute; reflexivity|]; intros _; by eexists).
Defined.

Lemma example_two_mark : can_mark example_two 7.
Proof.
  eexists. split; [vm_compute; reflexivity|]. intros _. split; [by eexists|].
  eexists. split; [reflexivity|]. vm_compute. split; discriminate.
Defined.

Lemma coordination_waits_witness : ∃ s',
  coordination_handler "0"%char 7 example_two = Ok (tt, s') ∧
    heap s' = mark_ready 7 (heap example_two) ∧
    ready_state s' = (if any_ready (heap s') [8; 7] then 1 else 0) ∧
    trigger_state s' = trigger_state example_two ∧
    ready_count s' = ready_count example_two + (if is_active (heap example_two) 7 then 1 else 0) ∧
    trace s' = (trace example_two ++ [EvLock coord_lock; EvUnlock coord_lock])%list.
Proof.
  refine (coordination_waits example_two [4; 3] [8; 7] 7 "0"%char example_two_threads
    example_two_programs example_two_mark _ _); vm_compute; reflexivity.
Defined.

Definition example_coord_after : option server :=
  match coordination_handler "0"%char 7 example_coord with Ok (_, s) => Some s | Fault _ => None end.

Lemma coordination_fires_witness : ∃ s', example_coord_after = Some s' ∧
  ready_state s' = 0 ∧ trigger_state s' = 0 ∧ ready_count s' = 0 ∧
  (∃ sec nsec, heap s' = foldl handover (stamped 7 sec nsec (mark_ready 7 (heap example_coord))) [7]) ∧
  (∀ c, c ∈ [7] → is_ready (heap s') c = false) ∧
  ∃ tr, trace s' = (trace example_coord ++ tr)%list ∧
    sends tr = (pre_requests "0"%char 0 ++ tx_requests (heap example_coord) 7 ++ post_requests)%list.
Proof.
  destruct (coordination_handler "0"%char 7 example_coord) as [[[] s']|e] eqn:E.
  2: { vm_compute in E. discriminate E. }
  exists s'. split; [unfold example_coord_after; by rewrite E|].
  refine (coordination_fires example_coord [3] [7] 7 "0"%char s' example_coord_threads
    example_coord_programs example_coord_mark _ _ E); vm_compute; reflexivity.
Defined.

(** A client that set its radar to 5. *)
Definition example_radar : server :=
  server0 <| heap := {[ 7 := cp0 <| active := 1 |> <| parameters := Some (prm0 <| radar := 5 |>) |> ]} |>.

Lemma client_radar_unchecked_witness :
  coordination_handler "0"%char 7 example_radar = Fault OutOfBounds.
Proof.
  refine (client_radar_unchecked "0"%char 7 example_radar _ _ _ eq_refl eq_refl eq_refl eq_refl _).
  change (¬ (1 ≤ 5 ≤ 2)). lia.
Defined.
