(* ===== verification/Interleave.v ===== *)
(** * Interleave: the parallel driver threads of the server

    [coordination_handler] starts the four pre-trigger handlers as threads.
    Each of them works on its own connection under its own lock.  States are
    compared by [equiv]: equal except for the trace, whose projections on every
    connection must agree.  Any interleaving of the atomic steps of threads on
    distinct connections is equivalent to running the threads one after the
    other, so the sequential reading of Coordination.v loses nothing. *)

From Stdlib Require Import ZArith Lia Setoid Morphisms.
From stdpp Require Import base list gmap.
From S2P Require Import Prelude Types ServerIO Coordination.
Open Scope Z_scope.
Open Scope cvr_scope.

(** The connection an event belongs to: that of the message, or the one the
    lock protects; [None] for the events of the server itself. *)
Definition group_of (e : event) : option sock :=
  match e with
  | EvSend k _ | EvRecv k _ | EvClose k => Some k
  | EvLock l | EvUnlock l =>
      match l with
      | dio_comm_lock => Some SDio
      | timing_comm_lock => Some STiming
      | dds_comm_lock => Some SDds
      | recv_comm_lock => Some SRecv
      | _ => None
      end
  | _ => None
  end.

Definition proj (g : option sock) (tr : list event) : list event :=
  filter (fun e => group_of e = g) tr.

(** Equality of states up to the order of events of different connections. *)
#[export] Instance server_equiv : Equiv server := fun s1 s2 =>
  s1 <| trace := [] |> = s2 <| trace := [] |> ∧
  ∀ g, proj g (trace s1) = proj g (trace s2).

(** Outcomes: both faults, or equivalent states. *)
Definition outcome_equiv (r1 r2 : result (unit * server)) : Prop :=
  match r1, r2 with
  | Ok (_, s1), Ok (_, s2) => s1 ≡ s2
  | Fault _, Fault _ => True
  | _, _ => False
  end.

(** Handlers that take equivalent states to equivalent outcomes. *)
Definition meq (m1 m2 : SM unit) : Prop :=
  ∀ s1 s2, s1 ≡ s2 → outcome_equiv (m1 s1) (m2 s2).

(** The part of the state a thread on connection [k] works on: its inbox and,
    for the timing driver, the bad transmit times. *)
Definition slice : Type := option (list packet) * option TRTimes.

Definition get_slice (k : sock) (s : server) : slice :=
  (inbox s !! k, if decide (k = STiming) then Some (bad_transmit_times s) else None).

Definition put_slice (k : sock) (sl : slice) (s : server) : server :=
  s <| inbox ::= partial_alter (fun _ => fst sl) k |>
    <| bad_transmit_times ::= fun b =>
         if decide (k = STiming) then default b (snd sl) else b |>.

(** [local k m]: [m] reads and writes the slice of [k] only, and emits events of
    [k] only. *)
Definition local (k : sock) (m : SM unit) : Prop :=
  ∃ f : slice → result (slice * list event), ∀ s,
    match f (get_slice k s) with
    | Ok (sl, ev) =>
        m s = Ok (tt, (put_slice k sl s) <| trace ::= fun t => (t ++ ev)%list |>) ∧
        Forall (fun e => group_of e = Some k) ev
    | Fault e => m s = Fault e
    end.

(** The interleavings of a list of threads. *)
Inductive interleaving {A} : list (list A) → list A → Prop :=
  | inter_done ts : Forall (fun t => t = []) ts → interleaving ts []
  | inter_step ts1 x t ts2 l :
      interleaving (ts1 ++ t :: ts2) l → interleaving (ts1 ++ (x :: t) :: ts2) (x :: l).

(** ** The equivalence *)

#[export] Instance server_equivalence : Equivalence (≡@{server}).
Proof.
  split.
  - by intros s.
  - intros s1 s2 [E P]. split; [done|]. intros g. by rewrite P.
  - intros s1 s2 s3 [E P] [E' P']. split; [congruence|]. intros g. by rewrite P, P'.
Qed.

Lemma outcome_sym r1 r2 : outcome_equiv r1 r2 → outcome_equiv r2 r1.
Proof. destruct r1 as [[[] s1]|], r2 as [[[] s2]|]; simpl; try done. Qed.

Lemma outcome_trans r1 r2 r3 : outcome_equiv r1 r2 → outcome_equiv r2 r3 → outcome_equiv r1 r3.
Proof.
  destruct r1 as [[[] s1]|], r2 as [[[] s2]|], r3 as [[[] s3]|]; simpl; try done.
  intros H1 H2. by etrans.
Qed.

#[export] Instance meq_per : RelationClasses.PER meq.
Proof.
  split.
  - intros m1 m2 H s1 s2 E. apply outcome_sym, H. by symmetry.
  - intros m1 m2 m3 H1 H2 s1 s2 E. eapply outcome_trans; [apply H1; reflexivity|by apply H2].
Qed.

(** Sequencing respects the equivalence. *)
Definition seq2 (m1 m2 : SM unit) : SM unit := m1;; m2.

#[export] Instance seq2_proper : Proper (meq ==> meq ==> meq) seq2.
Proof.
  intros m1 m2 Hm n1 n2 Hn s1 s2 E. unfold seq2, mbind, m_bind.
  specialize (Hm s1 s2 E).
  destruct (m1 s1) as [[[] t1]|], (m2 s2) as [[[] t2]|]; simpl in *; try done. by apply Hn.
Qed.

Lemma meq_ext m1 m2 : (∀ s, m1 s = m2 s) → meq m2 m2 → meq m1 m2.
Proof. intros E H s1 s2 Es. rewrite E. by apply H. Qed.

Lemma seq2_assoc m1 m2 m3 : 
  meq (seq2 (seq2 m1 m2) m3) (seq2 (seq2 m1 m2) m3) →
  meq (seq2 m1 (seq2 m2 m3)) (seq2 (seq2 m1 m2) m3).
Proof. apply meq_ext. intros s. unfold seq2. by rewrite bind_assoc. Qed.

(** ** Slices *)

Lemma get_put_ne k k' sl s : k ≠ k' → get_slice k (put_slice k' sl s) = get_slice k s.
Proof.
  intros Hk. unfold get_slice, put_slice. f_equal.
  - change (partial_alter (fun _ => fst sl) k' (inbox s) !! k = inbox s !! k).
    by apply lookup_partial_alter_ne.
  - case_decide as D; [|done]. f_equal.
    change ((if decide (k' = STiming) then default (bad_transmit_times s) (snd sl)
      else bad_transmit_times s) = bad_transmit_times s).
    by rewrite decide_False by congruence.
Qed.

Lemma put_put_comm k k' sl sl' s :
  k ≠ k' → put_slice k sl (put_slice k' sl' s) = put_slice k' sl' (put_slice k sl s).
Proof.
  intros Hk. unfold put_slice, set_field. simpl. f_equal.
  - destruct (decide (k = STiming)), (decide (k' = STiming)); congruence.
  - by apply partial_alter_partial_alter_ne.
Qed.

Lemma get_slice_equiv k s1 s2 : s1 ≡ s2 → get_slice k s1 = get_slice k s2.
Proof. intros [E _]. apply (f_equal (get_slice k)) in E. exact E. Qed.

Lemma proj_app g t1 t2 : proj g (t1 ++ t2) = (proj g t1 ++ proj g t2)%list.
Proof. apply filter_app. Qed.

Lemma proj_other g k ev :
  Forall (fun e => group_of e = Some k) ev → g ≠ Some k → proj g ev = [].
Proof.
  intros He Hg. unfold proj. induction He as [|e ev He _ IH]; [done|].
  rewrite filter_cons_False by congruence. done.
Qed.

(** A local step respects the equivalence, and steps on different connections
    commute. *)
Lemma local_proper k m : local k m → meq m m.
Proof.
  intros [f Hf] s1 s2 E. pose proof (Hf s1) as H1. pose proof (Hf s2) as H2.
  rewrite <- (get_slice_equiv k s1 s2 E) in H2.
  destruct (f (get_slice k s1)) as [[sl ev]|e]; [|by rewrite H1, H2].
  destruct H1 as [-> _], H2 as [-> _]. destruct E as [E P]. split.
  - apply (f_equal (fun s => (put_slice k sl s) <| trace := [] |>)) in E. exact E.
  - intros g. change (proj g (trace s1 ++ ev) = proj g (trace s2 ++ ev)).
    by rewrite !proj_app, P.
Qed.

Lemma local_commute k k' m n :
  k ≠ k' → local k m → local k' n → meq (seq2 m n) (seq2 n m).
Proof.
  intros Hk Hm Hn. assert (∀ s, outcome_equiv (seq2 m n s) (seq2 n m s)) as H.
  2: { intros s1 s2 E. eapply outcome_trans; [|apply H].
       apply seq2_proper; [by eapply local_proper|by eapply local_proper|done]. }
  intros s. destruct Hm as [f Hf], Hn as [g Hg]. unfold seq2, mbind, m_bind.
  pose proof (Hf s) as Hfs. pose proof (Hg s) as Hgs.
  destruct (f (get_slice k s)) as [[sl ev]|e] eqn:Ef; destruct (g (get_slice k' s)) as [[sl' ev']|e'] eqn:Eg.
  - destruct Hfs as [-> Hev], Hgs as [-> Hev'].
    set (t1 := (put_slice k sl s) <| trace ::= _ |>). set (t2 := (put_slice k' sl' s) <| trace ::= _ |>).
    pose proof (Hg t1) as Hg1. pose proof (Hf t2) as Hf2.
    change (get_slice k' t1) with (get_slice k' (put_slice k sl s)) in Hg1.
    change (get_slice k t2) with (get_slice k (put_slice k' sl' s)) in Hf2.
    rewrite get_put_ne, Eg in Hg1 by done. rewrite get_put_ne, Ef in Hf2 by done.
    destruct Hg1 as [-> _], Hf2 as [-> _]. split.
    + change ((put_slice k' sl' (put_slice k sl s)) <| trace := [] |> =
        (put_slice k sl (put_slice k' sl' s)) <| trace := [] |>).
      by rewrite put_put_comm.
    + intros h. change (proj h ((trace s ++ ev) ++ ev') = proj h ((trace s ++ ev') ++ ev)).
      rewrite !proj_app, <- !app_assoc. f_equal.
      destruct (decide (h = Some k)) as [->|].
      * rewrite (proj_other _ k' ev') by congruence. by rewrite app_nil_r.
      * rewrite (proj_other _ k ev) by done. by rewrite app_nil_r.
  - destruct Hfs as [-> _]. rewrite Hgs.
    set (t1 := (put_slice k sl s) <| trace ::= _ |>). pose proof (Hg t1) as Hg1.
    change (get_slice k' t1) with (get_slice k' (put_slice k sl s)) in Hg1.
    rewrite get_put_ne, Eg in Hg1 by done. by rewrite Hg1.
  - destruct Hgs as [-> _]. rewrite Hfs.
    set (t2 := (put_slice k' sl' s) <| trace ::= _ |>). pose proof (Hf t2) as Hf2.
    change (get_slice k t2) with (get_slice k (put_slice k' sl' s)) in Hf2.
    rewrite get_put_ne, Ef in Hf2 by done. by rewrite Hf2.
  - by rewrite Hfs, Hgs.
Qed.

(** ** Interleavings *)

(** A thread on connection [k]. *)
Definition local_thread (k : sock) (t : list (SM unit)) : Prop := Forall (local k) t.

Lemma meq_ret : meq (mret tt) (mret tt).
Proof. by intros s1 s2 E. Qed.

Lemma run_steps_cons m t : run_steps (m :: t) = seq2 m (run_steps t).
Proof. done. Qed.

Lemma thread_proper k t : local_thread k t → meq (run_steps t) (run_steps t).
Proof.
  intros Ht. induction Ht as [|m t Hm Ht IH]; [apply meq_ret|].
  rewrite run_steps_cons. apply seq2_proper; [by eapply local_proper|done].
Qed.

(** A step moves past a thread of another connection. *)
Lemma step_past_thread k k' m t :
  k ≠ k' → local k m → local_thread k' t →
  meq (seq2 m (run_steps t)) (seq2 (run_steps t) m).
Proof.
  intros Hk Hm Ht. pose proof (local_proper _ _ Hm) as Pm.
  induction Ht as [|n t Hn Ht IH].
  - intros s1 s2 E. specialize (Pm s1 s2 E). unfold seq2, mbind, m_bind. simpl.
    destruct (m s1) as [[[] t1]|], (m s2) as [[[] t2]|]; done.
  - rewrite !run_steps_cons. pose proof (local_proper _ _ Hn) as Pn.
    pose proof (thread_proper _ _ Ht) as Pt.
    transitivity (seq2 (seq2 m n) (run_steps t)).
    { apply seq2_assoc. by repeat apply seq2_proper. }
    transitivity (seq2 (seq2 n m) (run_steps t)).
    { apply seq2_proper; [by eapply local_commute|done]. }
    transitivity (seq2 n (seq2 m (run_steps t))).
    { symmetry. apply seq2_assoc. by repeat apply seq2_proper. }
    transitivity (seq2 n (seq2 (run_steps t) m)).
    { by apply seq2_proper. }
    apply seq2_assoc. by repeat apply seq2_proper.
Qed.

Definition run_threads (ts : list (list (SM unit))) : SM unit := for_each ts run_steps.

Lemma run_threads_cons t ts : run_threads (t :: ts) = seq2 (run_steps t) (run_threads ts).
Proof. done. Qed.

Lemma threads_proper ks ts :
  Forall2 local_thread ks ts → meq (run_threads ts) (run_threads ts).
Proof.
  intros H. induction H as [|k t ks ts Ht _ IH]; [apply meq_ret|].
  rewrite run_threads_cons. apply seq2_proper; [by eapply thread_proper|done].
Qed.

Lemma run_threads_app ts1 ts2 s :
  run_threads (ts1 ++ ts2) s = seq2 (run_threads ts1) (run_threads ts2) s.
Proof.
  revert s. induction ts1 as [|t ts1 IH]; intros s; [done|].
  simpl app. rewrite run_threads_cons. unfold seq2 at 1, run_threads at 2. simpl.
  unfold seq2. rewrite bind_assoc. apply bind_ext. intros [] s'. apply IH.
Qed.

(** The first step of a thread can run before the threads listed earlier. *)
Lemma step_first ks1 ts1 k m t ks2 ts2 :
  (k ∉ ks1) → Forall2 local_thread ks1 ts1 → local k m → local_thread k t →
  Forall2 local_thread ks2 ts2 →
  meq (seq2 m (run_threads (ts1 ++ t :: ts2))) (run_threads (ts1 ++ (m :: t) :: ts2)).
Proof.
  intros Hk H1 Hm Ht H2. induction H1 as [|k1 t1 ks1 ts1 Ht1 H1 IH].
  - simpl app. rewrite !run_threads_cons, run_steps_cons. apply seq2_assoc.
    repeat apply seq2_proper; eauto using local_proper, thread_proper, threads_proper.
  - simpl app. rewrite !run_threads_cons.
    apply not_elem_of_cons in Hk as [Hk1 Hk]. specialize (IH Hk).
    pose proof (thread_proper _ _ Ht1) as P1. pose proof (local_proper _ _ Hm) as Pm.
    assert (meq (run_threads (ts1 ++ t :: ts2)) (run_threads (ts1 ++ t :: ts2))) as Pr.
    { eapply (threads_proper (ks1 ++ k :: ks2)). apply Forall2_app; [done|by constructor]. }
    transitivity (seq2 (seq2 m (run_steps t1)) (run_threads (ts1 ++ t :: ts2))).
    { apply seq2_assoc. by repeat apply seq2_proper. }
    transitivity (seq2 (seq2 (run_steps t1) m) (run_threads (ts1 ++ t :: ts2))).
    { apply seq2_proper; [by eapply step_past_thread|done]. }
    transitivity (seq2 (run_steps t1) (seq2 m (run_threads (ts1 ++ t :: ts2)))).
    { symmetry. apply seq2_assoc. by repeat apply seq2_proper. }
    by apply seq2_proper.
Qed.

Lemma interleaving_meq ts l :
  interleaving ts l → ∀ ks, NoDup ks → Forall2 local_thread ks ts →
  meq (run_steps l) (run_threads ts).
Proof.
  induction 1 as [ts He|ts1 x t ts2 l _ IH]; intros ks Hnd Hl.
  - assert (∀ s, run_threads ts s = (mret tt : SM unit) s) as E.
    { clear Hl. induction He as [|t ts -> _ IHt]; intros s; [done|].
      rewrite run_threads_cons. unfold seq2. apply IHt. }
    symmetry. apply (meq_ext _ _ E), meq_ret.
  - apply Forall2_app_inv_r in Hl as (ks1 & ks' & H1 & H2 & ->).
    inversion H2 as [|k ? ks2 ? Hxt H2']; subst. inversion Hxt as [|? ? Hx Ht]; subst.
    apply NoDup_app in Hnd as (Hn1 & Hdis & Hn2).
    rewrite run_steps_cons.
    transitivity (seq2 x (run_threads (ts1 ++ t :: ts2))).
    + apply seq2_proper; [by eapply local_proper|].
      apply (IH (ks1 ++ k :: ks2)).
      * apply NoDup_app. done.
      * apply Forall2_app; [done|]. by constructor.
    + eapply step_first; try done. intros Hin. apply (Hdis _ Hin), elem_of_cons. by left.
Qed.

(** ** The pre-trigger threads are local *)

Lemma put_get k s : put_slice k (get_slice k s) s = s.
Proof.
  destruct s. unfold put_slice, get_slice, set_field. simpl. f_equal.
  - by case_decide.
  - apply partial_alter_self.
Qed.

Lemma local_emit k e : group_of e = Some k → local k (emit e).
Proof.
  intros He. exists (fun sl => Ok (sl, [e])). intros s. cbn beta iota. rewrite put_get.
  split; [done|]. by constructor.
Qed.

(** A step of the timing thread that only computes on the bad transmit times. *)
Lemma local_bad f :
  local STiming (modify (fun s => s <| bad_transmit_times ::= f |>)).
Proof.
  exists (fun sl => Ok ((fst sl, f <$> snd sl), [])). intros s. split; [|done].
  unfold modify. f_equal. f_equal. destruct s. unfold put_slice, get_slice, set_field. simpl.
  f_equal; [by rewrite partial_alter_self|by rewrite app_nil_r].
Qed.

(** The slice functions of the receiving steps. *)
Definition recv_msg_slice (k : sock) (sl : slice) : result (slice * list event) :=
  match fst sl with
  | Some (PDriver t z :: rest) => Ok ((Some rest, snd sl), [EvRecv k (PDriver t z)])
  | _ => Fault Desync
  end.

Definition recv_len_slice (sl : slice) : result (slice * list event) :=
  match fst sl with
  | Some (PInt n :: rest) =>
      Ok ((Some rest, (fun b => b <| tr_length := n |>) <$> snd sl), [EvRecv STiming (PInt n)])
  | _ => Fault Desync
  end.

Definition recv_words_slice (buf : TRTimes → option (list Z))
    (upd : option (list Z) → TRTimes → TRTimes) (sl : slice) : result (slice * list event) :=
  match snd sl with
  | None => Fault Desync
  | Some b =>
      if tr_length b =? 0 then Ok ((fst sl, Some (upd (buf b) b)), [])
      else match fst sl with
           | Some (PWords (Some l) :: rest) =>
               match buf b with
               | Some _ => Ok ((Some rest, Some (upd (Some l) b)), [EvRecv STiming (PWords (Some l))])
               | None => Fault NullDeref
               end
           | _ => Fault Desync
           end
  end.

Lemma recv_split k s :
  recv k s = match inbox s !! k with
    | Some (p :: rest) => Ok (p, s <| inbox ::= <[k := rest]> |>
                                   <| trace ::= fun t => (t ++ [EvRecv k p])%list |>)
    | _ => Fault Desync end.
Proof. done. Qed.

Lemma put_slice_other k i o s :
  k ≠ STiming → put_slice k (i, o) s = s <| inbox ::= partial_alter (fun _ => i) k |>.
Proof.
  intros Hk. destruct s. unfold put_slice, set_field. simpl. f_equal. by rewrite decide_False.
Qed.

Lemma put_slice_none k i s :
  put_slice k (i, if decide (k = STiming) then Some (bad_transmit_times s) else None) s =
  s <| inbox ::= partial_alter (fun _ => i) k |>.
Proof. destruct s. unfold put_slice, set_field. simpl. f_equal. by case_decide. Qed.

Lemma local_recv_msg k : local k (recv_msg k).
Proof.
  exists (recv_msg_slice k). intros s.
  unfold recv_msg_slice, get_slice, recv_msg, recv_driver, mbind, m_bind. rewrite recv_split.
  cbn [fst snd]. destruct (inbox s !! k) as [[|[] rest]|] eqn:E; try reflexivity.
  rewrite put_slice_none. split; [reflexivity|by constructor].
Qed.

Lemma local_recv_len :
  local STiming (n ← recv_int STiming;
    modify (fun s => s <| bad_transmit_times ::= fun b => b <| tr_length := n |> |>)).
Proof.
  exists recv_len_slice. intros s.
  unfold recv_len_slice, get_slice, recv_int, mbind, m_bind. rewrite recv_split.
  cbn [fst snd]. destruct (inbox s !! STiming) as [[|[] rest]|] eqn:E; try reflexivity.
  split; [reflexivity|by constructor].
Qed.

Lemma local_recv_words buf upd :
  local STiming (b ← gets bad_transmit_times;
    w ← recv_words STiming (tr_length b) (buf b);
    modify (fun s => s <| bad_transmit_times ::= upd w |>)).
Proof.
  exists (recv_words_slice buf upd). intros s. rewrite gets_then.
  unfold recv_words_slice, get_slice, recv_words. rewrite decide_True by done. cbn [fst snd].
  destruct (tr_length (bad_transmit_times s) =? 0).
  - rewrite ret_then. split; [|done]. unfold modify. do 2 f_equal. destruct s.
    unfold put_slice, set_field. simpl. f_equal; [by rewrite partial_alter_self|by rewrite app_nil_r].
  - rewrite bind_assoc. unfold mbind, m_bind. rewrite recv_split.
    destruct (inbox s !! STiming) as [[|[] rest]|] eqn:E; try reflexivity.
    destruct l as [l|]; [|reflexivity].
    destruct (buf (bad_transmit_times s)); [|reflexivity].
    split; [reflexivity|by constructor].
Qed.

Lemma local_request l k t :
  group_of (EvLock l) = Some k → group_of (EvUnlock l) = Some k →
  local_thread k (driver_request l k t).
Proof.
  intros. repeat constructor; try apply local_recv_msg; by apply local_emit.
Qed.

Lemma local_timing : local_thread STiming timing_pretrigger.
Proof.
  unfold timing_pretrigger, local_thread. rewrite !Forall_cons, Forall_nil. split_and!.
  - by apply local_emit.
  - by apply local_emit.
  - apply local_bad.
  - apply local_recv_len.
  - apply local_bad.
  - apply (local_recv_words start_usec (fun w b => b <| start_usec := w |>)).
  - apply (local_recv_words duration_usec (fun w b => b <| duration_usec := w |>)).
  - apply local_recv_msg.
  - by apply local_emit.
  - done.
Qed.

(** ** Properties *)

(** C37: however the scheduler interleaves the steps of the four pre-trigger
    threads, the outcome is equivalent to running them one after the other in
    the order [coordination_handler] starts them: the same global state, and
    the same sequence of events on every connection. *)
Theorem pretrigger_interleaving l s :
  interleaving pretrigger_threads l →
  outcome_equiv (run_steps l s) (run_threads pretrigger_threads s).
Proof.
  intros Hl. apply (interleaving_meq pretrigger_threads l Hl [SRecv; SDds; SDio; STiming]).
  - refine (bool_decide_unpack _ _). vm_compute. exact I.
  - unfold pretrigger_threads. rewrite !Forall2_cons, Forall2_nil.
    split_and!; try apply local_timing; try done; by apply local_request.
  - reflexivity.
Qed.

Lemma concat_interleaving {A} (ts0 ts : list (list A)) :
  Forall (fun t => t = []) ts0 → interleaving (ts0 ++ ts) (concat ts).
Proof.
  revert ts0. induction ts as [|t ts IH]; intros ts0 H0.
  { rewrite app_nil_r. by constructor. }
  simpl. induction t as [|x t IHt]; simpl; [|by constructor].
  rewrite (cons_middle [] ts0 ts), app_assoc. apply IH.
  apply Forall_app. split; [done|]. by constructor.
Qed.

(** All of the first thread, then all of the second, and so on. *)
Lemma pretrigger_interleaving_witness :
  interleaving pretrigger_threads (concat pretrigger_threads) ∧
  outcome_equiv (run_steps (concat pretrigger_threads) example_coord)
    (run_threads pretrigger_threads example_coord).
Proof.
  split; [exact (concat_interleaving [] pretrigger_threads (Forall_nil_2 _))|].
  exact (pretrigger_interleaving (concat pretrigger_threads) example_coord
    (concat_interleaving [] pretrigger_threads (Forall_nil_2 _))).
Defined.
