(* ===== verification/FreqAssign.v ===== *)
(** * FreqAssign: the clear-frequency search (server/reciever_handler.c)

    [receiver_clrfreq] obtains a power spectrum from the receiver driver;
    [receiver_assign_frequency] smooths it, restricts it to the requested band,
    removes the restricted windows and the frequencies of the other programs,
    sorts what is left by average power and assigns the best.  The arithmetic on
    powers is IEEE binary64 (Binary64.v); [qsort] and the site's ini file are
    parameters. *)

From Stdlib Require Import ZArith Lia Ascii String SpecFloat.
From stdpp Require Import base list gmap strings sorting.
From S2P Require Import Prelude Binary64 Types Threads ServerIO Coordination.
Open Scope Z_scope.
Open Scope cvr_scope.

Definition dE10 : double := d_of_int (10 ^ 10).

Definition dE6 : double := d_of_int (10 ^ 6).

(** [compare_structs], the comparison [qsort] is given. *)
Definition compare_structs (a b : t_fft_index) : Z :=
  if dltb (apwr b) (apwr a) then 1
  else if deqb (apwr a) (apwr b) then 0
  else -1.

(** ** The spectrum *)

(** [MAX(2*ceil(baseband_samplerate/1000.0),0)] converted to [int]; [None] when
    the conversion is undefined. *)
Definition padded_sideband (samplerate : double) : option Z :=
  let q := ddiv (of_float samplerate) (d_of_int 1000) in
  match d_ceil q with
  | Some z => if Z.max (2 * z) 0 <=? int_max then Some (Z.max (2 * z) 0) else None
  | None => match q with S754_infinity false => None | _ => Some 0 end
  end.

(** The loop [for(j=-side;j<=side;j++)] of both smoothing steps: the sum of the
    powers around [i] that exist, and how many they are. *)
Definition window_step (fft : list t_fft_index) (i j : Z) (acc : double * Z) : double * Z :=
  let '(sum, acount) := acc in
  match zget fft (i + j) with
  | Some e => (dadd sum (pwr e), acount + 1)
  | None => acc
  end.

Definition window (fft : list t_fft_index) (side i : Z) : double * Z :=
  foldl (fun acc j => window_step fft i j acc) (dzero, 0)
    (seqZ (- side) (2 * side + 1)).

(** One element of the detrending loop (reciever_handler.c, 257-272). *)
Definition detrend_one (fft : list t_fft_index) (side i : Z) (e : t_fft_index) : t_fft_index :=
  let '(sum, acount) := window fft side i in
  let mean := ddiv sum (d_of_int acount) in
  e <| detrend := mean |> <| pwr := dsub (pwr e) mean |>.

(** One element of the smoothing loop (293-311): too near the edge of the
    spectrum the average is set to 1E10. *)
Definition smooth_one (fft : list t_fft_index) (side i : Z) (e : t_fft_index) : t_fft_index :=
  let '(sum, acount) := window fft side i in
  e <| apwr := if 2 * side <? acount then ddiv sum (d_of_int acount) else dE10 |>.

Definition map_index (f : Z → t_fft_index → t_fft_index) (fft : list t_fft_index)
    : list t_fft_index :=
  imap (fun i e => f (Z.of_nat i) e) fft.

Definition detrend_step (enabled : bool) (side : Z) (fft : list t_fft_index) : list t_fft_index :=
  if enabled then map_index (detrend_one fft side) fft
  else map_index (fun _ e => e <| detrend := dzero |>) fft.

Definition smooth_step (side : Z) (fft : list t_fft_index) : list t_fft_index :=
  map_index (smooth_one fft side) fft.

(** ** The band of interest (349-378) *)

Definition in_band (start end_ : Z) (e : t_fft_index) : bool :=
  (freq e <=? end_) && (start <=? freq e).

(** The copy loop: [sub] is the block of [ncfs] elements, [j] the next free
    index; [None] is a write outside the block. *)
Fixpoint copy_band (start end_ ncfs : Z) (fft : list t_fft_index)
    (sub : list t_fft_index) (j : Z) : option (list t_fft_index * Z) :=
  match fft with
  | [] => Some (sub, j)
  | e :: fft =>
      if in_band start end_ e then
        let j := if ncfs <=? j then ncfs - 1 else j in
        sub ← zset sub j e;
        copy_band start end_ ncfs fft sub (j + 1)
      else copy_band start end_ ncfs fft sub j
  end.

(** ** The blacklist (404-488) *)

Definition in_window (f : Z) (b : BlackList) : bool :=
  (f <=? bl_end b) && (bl_start b <=? f).

(** [clean]: the frequency is in none of the first [count] windows. *)
Definition is_clean (bl : list BlackList) (count : Z) (f : Z) : bool :=
  negb (existsb (in_window f) (take (Z.to_nat count) bl)).

(** The element the walk over the thread list adds for another program. *)
Definition blacklist_body (arg base : Z) (data : option Z) (count : Z) : SM Z :=
  c ← deref NullDeref data;
  if c =? arg then mret count
  else
    cp ← get_cp c;
    if negb (active cp =? 0) then
      if count <? Max_Control_THREADS + base then
        st ← deref NullDeref (state cp);
        o ← gets blacklist;
        bl ← deref NullDeref o;
        bl' ← deref OutOfBounds (zset bl count
                 (mk_BlackList (best_assigned_freq st - rx_sideband st)
                    (best_assigned_freq st + rx_sideband st) (Some c)));
        modify (fun s => s <| blacklist := Some bl' |>);;
        mret (count + 1)
      else mret count
    else mret count.

(** The elements of [sub] below [ncfs - 1] that are clean, in order: what the
    selection loop leaves in [fft_array]. *)
Definition select_clean (bl : list BlackList) (count : Z) (ncfs : Z)
    (sub : list t_fft_index) : list t_fft_index :=
  filter (fun e => is_clean bl count (freq e) = true) (take (Z.to_nat (ncfs - 1)) sub).

(** [qsort] as documented: a permutation, sorted when the comparison is a
    consistent order (no NaN among the keys). *)
Class Qsort (qsort : list t_fft_index → list t_fft_index) : Prop := {
  qsort_perm : ∀ l, Permutation (qsort l) l;
  qsort_sorted : ∀ l, Forall (fun e => is_nan (apwr e) = false) l →
    StronglySorted (fun a b => compare_structs a b ≠ 1) (qsort l)
}.

Section Assign.
  Context (qsort : list t_fft_index → list t_fft_index).
  (** [iniparser_getboolean(Site_INI,...)] and [iniparser_getint(Site_INI,...)]. *)
  Context (ini_getboolean ini_getint : string → Z → Z).

(** The walk that blacklists the other programs; without a blacklist nothing
    is excluded. *)
Definition candidates (arg : Z) (ncfs : Z) (sub : list t_fft_index) : SM (list t_fft_index) :=
  o ← gets blacklist;
  match o with
  | None => mret (take (Z.to_nat ncfs) sub)
  | Some _ =>
      base ← gets blacklist_count;
      fuel ← gets walk_fuel;
      head ← gets controlprogram_threads;
      count ← walk_programs fuel head (blacklist_body arg base) base;
      o ← gets blacklist;
      bl ← deref NullDeref o;
      mret (select_clean bl count ncfs sub)
  end.

(** The assignment of the best candidate, or the fallback (544-593). *)
Definition assign_best (arg side : Z) (sorted : list t_fft_index) : SM unit :=
  match sorted with
  | e :: _ =>
      upd_state arg (fun st => st
        <| current_assigned_freq := freq e |>
        <| current_assigned_noise := to_float (apwr e) |>
        <| best_assigned_freq := freq e |>
        <| best_assigned_noise := to_float (apwr e) |>
        <| tx_sideband := side |> <| rx_sideband := side |>)
  | [] =>
      upd_state arg (fun st => st
        <| current_assigned_freq := 0 |>
        <| current_assigned_noise := to_float dE10 |>
        <| best_assigned_freq := 0 |>
        <| best_assigned_noise := dzero |>)
  end.

(** The detrended powers are added back after the sort (514-520). *)
Definition add_back (enabled : bool) (l : list t_fft_index) : list t_fft_index :=
  if enabled then
    map (fun e => e <| pwr := dadd (pwr e) (detrend e) |>
                    <| apwr := dadd (apwr e) (detrend e) |>) l
  else l.

Definition receiver_assign_frequency (arg : Z) : SM unit :=
  p ← get_params arg;
  cp ← get_cp arg;
  st ← get_state arg;
  v ← gets verbose;
  (** the diagnostics read the first frequency before the null test *)
  when (-1 <? v)
    (l ← deref NullDeref (fft_array st); _ ← deref OutOfBounds (zget l 0); mret tt);;
  match fft_array st with
  | None => mret tt
  | Some fft =>
      side ← deref OutOfBounds (padded_sideband (baseband_samplerate p));
      let enabled := negb (ini_getboolean "site_settings:use_clr_detrend" 0 =? 0) in
      let detrend_sideband := ini_getint "site_settings:detrend_sideband" 50 in
      let fft := smooth_step side (detrend_step enabled detrend_sideband fft) in
      let start := clr_start (clrfreqsearch cp) in
      let end_ := clr_end (clrfreqsearch cp) in
      let ncfs := end_ - start in
      let junk := mk_fft dzero dzero 0 dzero 0 in
      subj ← deref OutOfBounds
        (copy_band start end_ ncfs fft (replicate (Z.to_nat ncfs) junk) 0);
      let '(sub, j) := subj in
      l ← candidates arg j sub;
      assign_best arg side (add_back enabled (qsort l))
  end.

End Assign.

(** ** The search (802-923) *)

(** [clr_needed]: with [full_clr_wait] = [MAX_CLR_WAIT] = 0 a search is always
    needed. *)
Definition clr_needed (clr : CLRFreqPRM) (t0 latest : timeval) : Z :=
  if (FULL_CLR_FREQ_START <=? clr_start clr) && (clr_end clr <=? FULL_CLR_FREQ_END) then
    let wait_elapsed := u32 (u32 (tv_usec t0 - tv_usec latest) * 10 ^ 6 +
                             (tv_sec t0 - tv_sec latest)) in
    if wait_elapsed <? MAX_CLR_WAIT * 10 ^ 6 then 0 else 1
  else 1.

Definition max_freqs : Z := FULL_CLR_FREQ_END - FULL_CLR_FREQ_START.

(** [latest_clr_fft[r][index].pwr] written and read. *)
Definition set_latest (r index : Z) (x : double) : SM unit :=
  l ← gets latest_clr_fft;
  row ← deref OutOfBounds (zget l r);
  c ← deref OutOfBounds (zget row index);
  row' ← deref OutOfBounds (zset row index (c <| clr_pwr := x |>));
  l' ← deref OutOfBounds (zset l r row');
  modify (fun s => s <| latest_clr_fft := l' |>).

Definition get_latest (r index : Z) : SM double :=
  l ← gets latest_clr_fft;
  row ← deref OutOfBounds (zget l r);
  c ← deref OutOfBounds (zget row index);
  mret (clr_pwr c).

Definition in_full_range (index : Z) : bool := (0 <=? index) && (index <? max_freqs).

(** Case 1 of the switch: the search, and the refresh of the full spectrum;
    returns [r] and [start]. *)
Definition clrfreq_search (a : Z) : SM (Z * Z) :=
  p ← get_params a;
  let r := radar p - 1 in
  send SRecv (PDriver RECV_CLRFREQ 1);;
  cp ← get_cp a;
  send SRecv (PClr (clrfreqsearch cp));;
  send SRecv (PParams p);;
  c ← recv SRecv;
  match c with
  | PClr clr => upd_cp a (fun cp => cp <| clrfreqsearch := clr |>)
  | _ => fail Desync
  end;;
  n ← recv_int SRecv;
  upd_state a (fun st => st <| fft_N := n |>);;
  w ← recv SRecv;
  pwrs ← match w with
         | PDoubles l => if zlen l =? n then mret l else fail Desync
         | _ => fail Desync
         end;
  recv_msg SRecv;;
  cp ← get_cp a;
  let clr := clrfreqsearch cp in
  let centre := (clr_end clr + clr_start clr) /c 2 in
  let start := centre - n /c 2 in
  for_each (seqZ 0 n) (fun i =>
    let index := start + i - FULL_CLR_FREQ_START in
    when (in_full_range index)
      (x ← deref OutOfBounds (zget pwrs i); set_latest r index x));;
  mret (r, start).

(** The element [i] of the client's spectrum. *)
Definition fft_element (r start i : Z) : SM t_fft_index :=
  let index := start + i - FULL_CLR_FREQ_START in
  x ← (if in_full_range index then get_latest r index else mret dE6);
  mret (mk_fft x dzero (start + i) dzero i).

(** [r0] and [start0] are the uninitialised locals of a search that was not
    needed; [now] is the time of the call. *)
Definition receiver_clrfreq (r0 start0 : Z) (now : timeval) (a : Z) : SM unit :=
  locked recv_comm_lock
    (latest ← gets latest_full_clr_time;
     cp ← get_cp a;
     rs ← (if clr_needed (clrfreqsearch cp) now latest =? 1 then clrfreq_search a
           else mret (r0, start0));
     let '(r, start) := rs in
     st ← get_state a;
     upd_state a (fun st => st <| fft_array := None |>);;
     fft ← for_fold (seqZ 0 (fft_N st)) (fun i l =>
             e ← fft_element r start i; mret (l ++ [e])%list) [];
     upd_state a (fun st => st <| fft_array := Some fft |>)).

(** ** Specification *)

(** Appending to a block of [n] elements whose last element is overwritten when
    it is full. *)
Definition push (n : nat) (l : list t_fft_index) (e : t_fft_index) : list t_fft_index :=
  if decide (length l < n)%nat then (l ++ [e])%list else (take (n - 1) l ++ [e])%list.

(** The band the copy loop leaves: the in-band elements, squeezed into [n]. *)
Definition band (n : nat) (start end_ : Z) (fft : list t_fft_index) : list t_fft_index :=
  foldl (push n) [] (filter (fun e => in_band start end_ e = true) fft).

(** The programs other than [arg] that are active, and the window each of them
    reserves. *)
Definition is_other (h : gmap Z ControlProgram) (arg c : Z) : bool :=
  negb (c =? arg) && match h !! c with Some cp => negb (active cp =? 0) | None => false end.

Definition other_active (h : gmap Z ControlProgram) (arg : Z) (cs : list Z) : list Z :=
  filter (fun c => is_other h arg c = true) cs.

Definition window_of (h : gmap Z ControlProgram) (c : Z) : BlackList :=
  match h !! c ≫= state with
  | Some st => mk_BlackList (best_assigned_freq st - rx_sideband st)
                 (best_assigned_freq st + rx_sideband st) (Some c)
  | None => mk_BlackList 0 0 None
  end.

(** All the windows a frequency must avoid. *)
Definition windows (s : server) (bl : list BlackList) (arg : Z) (cs : list Z) : list BlackList :=
  (take (Z.to_nat (blacklist_count s)) bl ++ map (window_of (heap s)) (other_active (heap s) arg cs))%list.

Definition avoids (ws : list BlackList) (f : Z) : bool := negb (existsb (in_window f) ws).

(** The candidates of an assignment. *)
Definition spec_candidates (s : server) (bl : list BlackList) (arg : Z) (cs : list Z)
    (start end_ : Z) (fft : list t_fft_index) : list t_fft_index :=
  let b := band (Z.to_nat (end_ - start)) start end_ fft in
  filter (fun e => avoids (windows s bl arg cs) (freq e) = true) (take (length b - 1) b).

(** The blacklist was allocated with room for all the control threads. *)
Definition blacklist_room (s : server) (bl : list BlackList) : Prop :=
  blacklist s = Some bl ∧ 0 ≤ blacklist_count s ∧
  blacklist_count s + Max_Control_THREADS ≤ zlen bl.

(** A thread's program exists and, when it is active, has its state. *)
Definition live_program (h : gmap Z ControlProgram) (c : Z) : Prop :=
  ∃ cp, h !! c = Some cp ∧ (active cp ≠ 0 → is_Some (state cp)).

(** An insertion sort, an instance of the documented [qsort]. *)
Fixpoint insert_fft (x : t_fft_index) (l : list t_fft_index) : list t_fft_index :=
  match l with
  | [] => [x]
  | y :: l' => if compare_structs x y =? 1 then y :: insert_fft x l' else x :: l
  end.

Definition isort_fft (l : list t_fft_index) : list t_fft_index := foldr insert_fft [] l.

(** ** Lemmas *)

Lemma compare_not_gt a b :
  is_nan (apwr a) = false → is_nan (apwr b) = false →
  compare_structs a b ≠ 1 ↔ dleb (apwr a) (apwr b) = true.
Proof.
  intros Ha Hb. unfold compare_structs. rewrite dltb_key by done.
  destruct (dleb (apwr a) (apwr b)); simpl; [|naive_solver].
  destruct (deqb (apwr a) (apwr b)); naive_solver.
Qed.

Lemma insert_fft_perm x l : Permutation (insert_fft x l) (x :: l).
Proof.
  induction l as [|y l IH]; simpl; [done|]. case_match; [|done].
  rewrite IH. constructor.
Qed.

#[export] Instance isort_qsort : Qsort isort_fft.
Proof.
  split.
  - intros l. induction l as [|x l IH]; simpl; [done|]. rewrite insert_fft_perm. by constructor.
  - intros l Hl. induction Hl as [|x l Hx Hl IH]; simpl; [constructor|].
    assert (Permutation (isort_fft l) l) as Hp.
    { clear. induction l as [|x l IH]; simpl; [done|]. rewrite insert_fft_perm. by constructor. }
    rewrite <- Hp in Hl. fold (isort_fft l). revert IH Hl. generalize (isort_fft l). clear l Hp.
    intros l Hs Hl. induction l as [|y l IHl]; simpl; [repeat constructor|].
    apply Forall_cons in Hl as [Hy Hl]. apply StronglySorted_inv in Hs as [Hs Hys].
    destruct (Z.eqb_spec (compare_structs x y) 1) as [E|E].
    + constructor; [by apply IHl|]. rewrite insert_fft_perm. constructor; [|done].
      rewrite compare_not_gt by done.
      destruct (dleb_total (apwr x) (apwr y) Hx Hy) as [D|D]; [|done].
      exfalso. by apply (proj2 (compare_not_gt x y Hx Hy)) in D.
    + assert (Forall (fun b => compare_structs x b ≠ 1) (y :: l)) as Hall.
      { constructor; [done|]. rewrite Forall_forall in *. intros z Hz.
        specialize (Hl _ Hz). specialize (Hys _ Hz).
        rewrite compare_not_gt in * by done. by eapply dleb_trans. }
      constructor; [|done]. by constructor.
Qed.

Lemma push_length n l e :
  (0 < n)%nat → (length l ≤ n)%nat → (length (push n l e) ≤ n)%nat.
Proof.
  intros. unfold push. case_decide; rewrite length_app; simpl; [lia|].
  rewrite length_take. lia.
Qed.

Lemma copy_band_push start end_ ncfs fft : ∀ sub j,
  1 ≤ ncfs → zlen sub = ncfs → 0 ≤ j ≤ ncfs → ∃ sub' j',
  copy_band start end_ ncfs fft sub j = Some (sub', j') ∧ zlen sub' = ncfs ∧
  0 ≤ j' ≤ ncfs ∧
  take (Z.to_nat j') sub' =
    foldl (push (Z.to_nat ncfs)) (take (Z.to_nat j) sub)
      (filter (fun e => in_band start end_ e = true) fft).
Proof.
  induction fft as [|e fft IH]; intros sub j Hn Hl Hj; simpl.
  { exists sub, j. done. }
  destruct (in_band start end_ e) eqn:B.
  2: { rewrite filter_cons_False by congruence. by apply IH. }
  rewrite filter_cons_True by done. cbn [foldl].
  set (k := if ncfs <=? j then ncfs - 1 else j).
  assert (0 ≤ k < ncfs) as Hk by (unfold k; destruct (Z.leb_spec ncfs j); lia).
  rewrite (zset_Some sub k e) by lia. cbn [mbind option_bind].
  destruct (IH (<[Z.to_nat k := e]> sub) (k + 1)) as (sub' & j' & E & El & Ej & Et); [lia| |lia|].
  { unfold zlen. rewrite length_insert. exact Hl. }
  exists sub', j'. do 2 (split; [done|]). split; [exact Ej|]. rewrite Et. f_equal.
  unfold zlen in Hl. replace (Z.to_nat (k + 1)) with (S (Z.to_nat k)) by lia.
  rewrite (take_S_r _ _ e) by (apply list_lookup_insert_eq; lia).
  rewrite take_insert_ge by lia. unfold push. rewrite length_take.
  unfold k. destruct (Z.leb_spec ncfs j).
  - rewrite decide_False by lia. rewrite take_take. f_equal. f_equal. lia.
  - by rewrite decide_True by lia.
Qed.

Lemma blacklist_body_run arg base c s count bl cp :
  heap s !! c = Some cp → (active cp ≠ 0 → is_Some (state cp)) →
  blacklist s = Some bl → 0 ≤ count < zlen bl → count < Max_Control_THREADS + base →
  blacklist_body arg base (Some c) count s =
    if is_other (heap s) arg c then
      Ok (count + 1, s <| blacklist := Some (<[Z.to_nat count := window_of (heap s) c]> bl) |>)
    else Ok (count, s).
Proof.
  intros Ec Hst Eb Hc Hb. unfold blacklist_body. rewrite deref_then.
  unfold is_other, window_of. rewrite Ec. destruct (Z.eqb_spec c arg); [done|]. simpl.
  rewrite (bind_ok _ _ _ _ _ (get_cp_run _ _ _ Ec)).
  destruct (Z.eqb_spec (active cp) 0) as [Ea|Ea]; [done|]. simpl.
  rewrite (proj2 (Z.ltb_lt _ _) Hb). destruct (Hst Ea) as [st Est].
  rewrite Est, deref_then, gets_then, Eb, deref_then, (zset_Some _ _ _ Hc), deref_then.
  done.
Qed.

Lemma blacklist_fill_run s l cs arg bl :
  threads_are s l →
  Forall2 (fun x c => thread_data <$> thread_items s !! x = Some (Some c)) l cs →
  Forall (live_program (heap s)) cs →
  blacklist_room s bl → zlen l ≤ Max_Control_THREADS → ∃ bl',
  walk_programs (walk_fuel s) (controlprogram_threads s)
    (blacklist_body arg (blacklist_count s)) (blacklist_count s) s =
    Ok (blacklist_count s + zlen (other_active (heap s) arg cs), s <| blacklist := Some bl' |>) ∧
  take (Z.to_nat (blacklist_count s + zlen (other_active (heap s) arg cs))) bl' =
    windows s bl arg cs ∧ zlen bl' = zlen bl.
Proof.
  intros Hl Hd Hlive (Eb & Hbase & Hroom) Hlen.
  set (base := blacklist_count s) in *. set (oth := other_active (heap s) arg).
  assert (zlen l = zlen cs) as Elc by (unfold zlen; by rewrite (Forall2_length _ _ _ Hd)).
  destruct (walk_programs_run (fun cs' count s' => ∃ bl' dn,
      s' = s <| blacklist := Some bl' |> ∧ zlen bl' = zlen bl ∧
      Forall (live_program (heap s)) cs' ∧ oth cs = (dn ++ oth cs')%list ∧
      count = base + zlen dn ∧ zlen dn + zlen cs' ≤ Max_Control_THREADS ∧
      take (Z.to_nat count) bl' = (take (Z.to_nat base) bl ++ map (window_of (heap s)) dn)%list)
    (blacklist_body arg base) (thread_items s))
    with (l := l) (cs := cs) (fuel := walk_fuel s) (nxt := @None Z)
         (hd := controlprogram_threads s) (acc := base) (s := s)
    as (count & s' & E & _ & bl' & dn & -> & El & _ & Eo & -> & _ & Et); try done.
  - intros c cs' count s0 (bl' & dn & -> & El & Hlv & Eo & -> & Hn & Et) _.
    inversion Hlv as [|? ? (cp & Ec & Hst) Hlv']; subst. rewrite zlen_cons in Hn.
    pose proof (zlen_nonneg dn). pose proof (zlen_nonneg cs').
    erewrite (blacklist_body_run arg base c (s <| blacklist := Some bl' |>) _ bl' cp); try done; try lia.
    change (heap (s <| blacklist := Some bl' |>)) with (heap s).
    unfold oth, other_active in Eo |- *. rewrite filter_cons in Eo.
    destruct (is_other (heap s) arg c) eqn:O.
    + rewrite decide_True in Eo by done. eexists _, _. split; [reflexivity|]. split; [done|].
      exists (<[Z.to_nat (base + zlen dn) := window_of (heap s) c]> bl'), (dn ++ [c])%list.
      split; [done|]. split; [unfold zlen; by rewrite length_insert|]. split; [done|].
      split; [by rewrite <- app_assoc|]. rewrite zlen_app. change (zlen [c]) with 1.
      split; [lia|]. split; [lia|].
      replace (Z.to_nat (base + zlen dn + 1)) with (S (Z.to_nat (base + zlen dn))) by lia.
      rewrite (take_S_r _ _ (window_of (heap s) c)).
      2: { apply list_lookup_insert_eq. unfold zlen in *. lia. }
      rewrite take_insert_ge by lia. rewrite Et, map_app, app_assoc. done.
    + rewrite decide_False in Eo by done. exists (base + zlen dn), (s <| blacklist := Some bl' |>).
      split; [done|]. split; [done|]. exists bl', dn. repeat (split; [done|]).
      split; [lia|done].
  - apply Hl.
  - unfold walk_fuel. by rewrite (threads_are_size _ _ Hl).
  - exists bl, []. split; [by destruct s; simpl in *; subst|]. repeat (split; [done|]).
    split; [by rewrite Z.add_0_r|]. split; [change (zlen (@nil Z)) with 0; lia|].
    by rewrite app_nil_r.
  - assert (oth cs = dn) as Edn by (rewrite Eo; apply app_nil_r).
    exists bl'. unfold windows. change (other_active (heap s) arg cs) with (oth cs).
    rewrite E, Edn. split; [done|]. by split.
Qed.

Lemma candidates_run s l cs arg bl j sub :
  threads_are s l →
  Forall2 (fun x c => thread_data <$> thread_items s !! x = Some (Some c)) l cs →
  Forall (live_program (heap s)) cs →
  blacklist_room s bl → zlen l ≤ Max_Control_THREADS → ∃ bl',
  candidates arg j sub s =
    Ok (filter (fun e => avoids (windows s bl arg cs) (freq e) = true)
          (take (Z.to_nat (j - 1)) sub), s <| blacklist := Some bl' |>).
Proof.
  intros Hl Hd Hlive Hroom Hlen.
  destruct (blacklist_fill_run s l cs arg bl Hl Hd Hlive Hroom Hlen) as (bl' & E & Et & _).
  exists bl'. unfold candidates. rewrite gets_then. rewrite (proj1 Hroom), !gets_then.
  rewrite (bind_ok _ _ _ _ _ E), gets_then.
  change (blacklist (s <| blacklist := Some bl' |>)) with (Some bl').
  rewrite deref_then. unfold select_clean, is_clean. by rewrite Et.
Qed.

(** The state [assign_best] leaves in the program. *)
Definition assigned (st : ControlState) (side : Z) (sorted : list t_fft_index) : ControlState :=
  match sorted with
  | e :: _ => st
      <| current_assigned_freq := freq e |>
      <| current_assigned_noise := to_float (apwr e) |>
      <| best_assigned_freq := freq e |>
      <| best_assigned_noise := to_float (apwr e) |>
      <| tx_sideband := side |> <| rx_sideband := side |>
  | [] => st
      <| current_assigned_freq := 0 |>
      <| current_assigned_noise := to_float dE10 |>
      <| best_assigned_freq := 0 |>
      <| best_assigned_noise := dzero |>
  end.

Lemma assign_best_run arg side sorted s cp st :
  heap s !! arg = Some cp → state cp = Some st →
  assign_best arg side sorted s =
    Ok (tt, s <| heap ::= alter (on_state (fun st => assigned st side sorted)) arg |>).
Proof. intros E Es. unfold assign_best. destruct sorted; by erewrite upd_state_run. Qed.

Section AssignProofs.
  Context (qsort : list t_fft_index → list t_fft_index) `{!Qsort qsort}.
  Context (ini_getboolean ini_getint : string → Z → Z).

(** The whole assignment, computed, when the search left a spectrum. *)
Lemma assign_run s l cs arg bl cp st p fft side :
  threads_are s l →
  Forall2 (fun x c => thread_data <$> thread_items s !! x = Some (Some c)) l cs →
  Forall (live_program (heap s)) cs →
  blacklist_room s bl → zlen l ≤ Max_Control_THREADS →
  heap s !! arg = Some cp → state cp = Some st → parameters cp = Some p →
  fft_array st = Some fft → fft ≠ [] →
  padded_sideband (baseband_samplerate p) = Some side →
  clr_start (clrfreqsearch cp) < clr_end (clrfreqsearch cp) →
  let enabled := negb (ini_getboolean "site_settings:use_clr_detrend" 0 =? 0) in
  let spectrum := smooth_step side (detrend_step enabled
                    (ini_getint "site_settings:detrend_sideband" 50) fft) in
  let cands := spec_candidates s bl arg cs (clr_start (clrfreqsearch cp))
                 (clr_end (clrfreqsearch cp)) spectrum in
  ∃ bl', receiver_assign_frequency qsort ini_getboolean ini_getint arg s =
    Ok (tt, s <| blacklist := Some bl' |>
              <| heap ::= alter (on_state (fun st =>
                   assigned st side (add_back enabled (qsort cands)))) arg |>).
Proof.
  intros Hl Hd Hlive Hroom Hlen Ecp Est Ep Efft Hne Eside Hclr enabled spectrum cands.
  unfold receiver_assign_frequency.
  rewrite (bind_ok _ _ _ _ _ (get_params_run _ _ _ _ Ecp Ep)).
  rewrite (bind_ok _ _ _ _ _ (get_cp_run _ _ _ Ecp)).
  assert (get_state arg s = Ok (st, s)) as Egs.
  { unfold get_state. rewrite (bind_ok _ _ _ _ _ (get_cp_run _ _ _ Ecp)). unfold deref. by rewrite Est. }
  rewrite (bind_ok _ _ _ _ _ Egs), gets_then, Efft.
  assert (when (-1 <? verbose s) (l0 ← deref NullDeref (Some fft);
    _ ← deref OutOfBounds (zget l0 0); mret tt) s = Ok (tt, s)) as Ew.
  { destruct fft as [|e fft]; [done|]. by destruct (-1 <? verbose s). }
  rewrite (bind_ok _ _ _ _ _ Ew), Eside, deref_then.
  fold enabled. fold spectrum.
  set (start := clr_start (clrfreqsearch cp)) in *. set (end_ := clr_end (clrfreqsearch cp)) in *.
  set (junk := mk_fft dzero dzero 0 dzero 0).
  destruct (copy_band_push start end_ (end_ - start) spectrum
    (replicate (Z.to_nat (end_ - start)) junk) 0) as (sub & j & Ec & Els & Hj & Et); [lia| |lia|].
  { unfold zlen. rewrite length_replicate. lia. }
  rewrite Ec, deref_then.
  change (take (Z.to_nat 0) _) with (@nil t_fft_index) in Et.
  fold (band (Z.to_nat (end_ - start)) start end_ spectrum) in Et.
  destruct (candidates_run s l cs arg bl j sub Hl Hd Hlive Hroom Hlen) as (bl' & Ecand).
  rewrite (bind_ok _ _ _ _ _ Ecand). exists bl'.
  assert (filter (fun e => avoids (windows s bl arg cs) (freq e) = true)
    (take (Z.to_nat (j - 1)) sub) = cands) as ->.
  { unfold cands, spec_candidates. f_equal. rewrite <- Et, length_take, take_take.
    f_equal. unfold zlen in Els. lia. }
  by rewrite (assign_best_run arg side _ _ cp st).
Qed.

End AssignProofs.

(** ** Properties *)

Lemma push_subset n l e x : x ∈ push n l e → x ∈ l ∨ x = e.
Proof.
  unfold push. case_decide; rewrite elem_of_app, list_elem_of_singleton; [done|].
  intros [(i & Hi & _)%elem_of_take|]; [|by right]. left. by eapply list_elem_of_lookup_2.
Qed.

Lemma band_subset n start end_ fft x :
  x ∈ band n start end_ fft → x ∈ fft ∧ in_band start end_ x = true.
Proof.
  unfold band. assert (∀ l acc, x ∈ foldl (push n) acc l → x ∈ acc ∨ x ∈ l) as H.
  { induction l as [|e l IH]; intros acc; simpl; [by left|].
    intros [H|H]%IH; [|right; by right]. apply push_subset in H as [H| ->]; [by left|].
    right. by left. }
  intros Hx%H. destruct Hx as [Hx|Hx]; [by apply not_elem_of_nil in Hx|].
  apply list_elem_of_filter in Hx as [? ?]. done.
Qed.

Lemma spec_candidates_elem s bl arg cs start end_ fft e :
  e ∈ spec_candidates s bl arg cs start end_ fft →
  e ∈ fft ∧ start ≤ freq e ≤ end_ ∧
  ∀ w, w ∈ windows s bl arg cs → ¬ (bl_start w ≤ freq e ≤ bl_end w).
Proof.
  unfold spec_candidates. intros [Ha He]%list_elem_of_filter.
  apply elem_of_take in He as (i & He & _). apply list_elem_of_lookup_2 in He.
  apply band_subset in He as [He Hb]. split; [done|]. unfold in_band in Hb.
  apply andb_true_iff in Hb as [?%Z.leb_le ?%Z.leb_le]. split; [done|].
  intros w Hw [H1 H2]. unfold avoids in Ha. apply negb_true_iff in Ha.
  assert (existsb (in_window (freq e)) (windows s bl arg cs) = true); [|congruence].
  apply existsb_exists. exists w. rewrite <- list_elem_of_In. split; [done|].
  unfold in_window. apply andb_true_iff. by rewrite !Z.leb_le.
Qed.

Lemma qsort_head qsort `{!Qsort qsort} (l : list t_fft_index) e r :
  qsort l = e :: r →
  e ∈ l ∧ (Forall (fun e => is_nan (apwr e) = false) l →
           ∀ e', e' ∈ l → dleb (apwr e) (apwr e') = true).
Proof.
  intros E. pose proof (qsort_perm l) as Hp. rewrite E in Hp. split.
  - rewrite <- Hp. by left.
  - intros Hn e' He'. pose proof (qsort_sorted l Hn) as Hs. rewrite E in Hs.
    apply StronglySorted_inv in Hs as [_ Hs].
    assert (Forall (fun e => is_nan (apwr e) = false) (e :: r)) as Hn' by (by rewrite Hp).
    rewrite <- Hp in He'. apply Forall_cons in Hn' as [Hne Hnr].
    apply elem_of_cons in He' as [->|He']; [by apply dleb_refl|].
    rewrite Forall_forall in Hs, Hnr. apply compare_not_gt; auto.
Qed.

(** C36: when a search left a spectrum, [receiver_assign_frequency] always
    returns.  The frequency it assigns is a candidate of the requested band that
    lies in no restricted window and in no window of another active program, it
    has the least smoothed power among the candidates, and the program's
    sidebands are set; without candidates the assigned frequency is 0.  Nothing
    else in the program table changes. *)
Theorem assign_frequency_correct qsort ini_getboolean ini_getint
    s l cs arg bl cp st p fft side :
  Qsort qsort →
  threads_are s l →
  Forall2 (fun x c => thread_data <$> thread_items s !! x = Some (Some c)) l cs →
  Forall (live_program (heap s)) cs →
  blacklist_room s bl → zlen l ≤ Max_Control_THREADS →
  heap s !! arg = Some cp → state cp = Some st → parameters cp = Some p →
  fft_array st = Some fft → fft ≠ [] →
  padded_sideband (baseband_samplerate p) = Some side →
  clr_start (clrfreqsearch cp) < clr_end (clrfreqsearch cp) →
  let enabled := negb (ini_getboolean "site_settings:use_clr_detrend" 0 =? 0) in
  let spectrum := smooth_step side (detrend_step enabled
                    (ini_getint "site_settings:detrend_sideband" 50) fft) in
  let cands := spec_candidates s bl arg cs (clr_start (clrfreqsearch cp))
                 (clr_end (clrfreqsearch cp)) spectrum in
  ∃ s' st', receiver_assign_frequency qsort ini_getboolean ini_getint arg s = Ok (tt, s') ∧
    heap s' = <[arg := on_state (fun _ => st') cp]> (heap s) ∧
    current_assigned_freq st' = best_assigned_freq st' ∧
    ((cands = [] ∧ current_assigned_freq st' = 0 ∧ rx_sideband st' = rx_sideband st) ∨
     (∃ e, e ∈ cands ∧ current_assigned_freq st' = freq e ∧ rx_sideband st' = side ∧
        clr_start (clrfreqsearch cp) ≤ freq e ≤ clr_end (clrfreqsearch cp) ∧
        (∀ w, w ∈ windows s bl arg cs → ¬ (bl_start w ≤ freq e ≤ bl_end w)) ∧
        (Forall (fun e => is_nan (apwr e) = false) cands →
         ∀ e', e' ∈ cands → dleb (apwr e) (apwr e') = true))).
Proof.
  intros Hq Hl Hd Hlive Hroom Hlen Ecp Est Ep Efft Hne Eside Hclr enabled spectrum cands.
  destruct (assign_run qsort ini_getboolean ini_getint s l cs arg bl cp st p fft side
    Hl Hd Hlive Hroom Hlen Ecp Est Ep Efft Hne Eside Hclr) as (bl' & E).
  fold enabled in E. fold spectrum in E. fold cands in E.
  exists (s <| blacklist := Some bl' |>
    <| heap ::= alter (on_state (fun st => assigned st side (add_back enabled (qsort cands)))) arg |>).
  exists (assigned st side (add_back enabled (qsort cands))). split; [exact E|]. split.
  { change (alter (on_state (fun st => assigned st side (add_back enabled (qsort cands)))) arg (heap s) =
      <[arg := on_state (fun _ => assigned st side (add_back enabled (qsort cands))) cp]> (heap s)).
    rewrite (alter_at _ _ _ _ Ecp). f_equal. unfold on_state, set_field. simpl. by rewrite Est. }
  destruct (qsort cands) as [|e r] eqn:Eq.
  - assert (cands = []) as Ec.
    { pose proof (qsort_perm cands) as Hp. rewrite Eq in Hp. by apply Permutation_nil_l in Hp. }
    unfold add_back. replace (if enabled then _ else _) with (@nil t_fft_index) by (by destruct enabled).
    split; [done|]. left. done.
  - destruct (qsort_head qsort cands e r Eq) as [He Hmin].
    destruct (spec_candidates_elem _ _ _ _ _ _ _ _ He) as (_ & Hrange & Hw).
    split; [by destruct enabled|]. right. exists e.
    split; [done|]. split; [by destruct enabled|]. split; [by destruct enabled|]. done.
Qed.

(** with the default verbosity a frequency request before any search
    dereferences the null spectrum: the diagnostic output reads its first
    element before the test that is meant to refuse the request. *)
Theorem assign_before_search_faults qsort ini_getboolean ini_getint s arg cp st p :
  heap s !! arg = Some cp → state cp = Some st → parameters cp = Some p →
  fft_array st = None → -1 < verbose s →
  receiver_assign_frequency qsort ini_getboolean ini_getint arg s = Fault NullDeref.
Proof.
  intros Ecp Est Ep Efft Hv. unfold receiver_assign_frequency.
  rewrite (bind_ok _ _ _ _ _ (get_params_run _ _ _ _ Ecp Ep)).
  rewrite (bind_ok _ _ _ _ _ (get_cp_run _ _ _ Ecp)).
  unfold get_state. rewrite bind_assoc, (bind_ok _ _ _ _ _ (get_cp_run _ _ _ Ecp)), Est, deref_then.
  rewrite gets_then, Efft, (proj2 (Z.ltb_lt _ _) Hv). done.
Qed.

(** ** The band of a contiguous spectrum *)

Lemma push_fold n l : ∀ acc,
  (length acc + length l ≤ n)%nat → foldl (push n) acc l = (acc ++ l)%list.
Proof.
  induction l as [|e l IH]; intros acc Hn; simpl in *; [by rewrite app_nil_r|].
  unfold push at 2. rewrite decide_True by lia. rewrite IH; [by rewrite <- app_assoc|].
  rewrite length_app. simpl. lia.
Qed.

Lemma push_fold_full n l x :
  length l = n → foldl (push n) [] (l ++ [x]) = (take (n - 1) l ++ [x])%list.
Proof.
  intros Hn. rewrite foldl_app, (push_fold n l []) by (simpl; lia). simpl.
  unfold push. by rewrite decide_False by lia.
Qed.

Lemma filter_freq start end_ (fft : list t_fft_index) :
  map freq (filter (fun e => in_band start end_ e = true) fft) =
  filter (fun f => (f <=? end_) && (start <=? f) = true) (map freq fft).
Proof.
  induction fft as [|e fft IH]; [done|]. cbn [map].
  destruct (in_band start end_ e) eqn:B.
  - rewrite filter_cons_True by done. cbn [map]. rewrite filter_cons_True by exact B.
    by rewrite IH.
  - rewrite filter_cons_False by congruence. rewrite filter_cons_False; [exact IH|].
    unfold in_band in B. congruence.
Qed.

Lemma filter_all {A} (P : A → Prop) `{∀ x, Decision (P x)} l :
  Forall P l → filter P l = l.
Proof. induction 1; [done|]. rewrite filter_cons_True by done. by f_equal. Qed.

Lemma filter_none {A} (P : A → Prop) `{∀ x, Decision (P x)} l :
  Forall (fun x => ¬ P x) l → filter P l = [].
Proof. induction 1; [done|]. by rewrite filter_cons_False. Qed.

Lemma filter_seqZ start end_ lo n :
  lo ≤ start → start ≤ end_ → end_ < lo + n →
  filter (fun f => (f <=? end_) && (start <=? f) = true) (seqZ lo n) =
  seqZ start (end_ - start + 1).
Proof.
  intros. replace n with ((start - lo) + ((end_ - start + 1) + (lo + n - end_ - 1))) by lia.
  rewrite seqZ_app by lia. replace (lo + (start - lo)) with start by lia.
  rewrite (seqZ_app start (end_ - start + 1)) by lia.
  rewrite !filter_app. rewrite filter_none, filter_all, filter_none; simpl.
  - by rewrite app_nil_r.
  - apply Forall_forall. intros x [? ?]%elem_of_seqZ [?%Z.leb_le ?]%andb_true_iff. lia.
  - apply Forall_forall. intros x [? ?]%elem_of_seqZ. rewrite andb_true_iff, !Z.leb_le. lia.
  - apply Forall_forall. intros x [? ?]%elem_of_seqZ [? ?%Z.leb_le]%andb_true_iff. lia.
Qed.

(** On a spectrum of consecutive frequencies that covers the requested
    band [start, end], the frequencies the selection loop considers are exactly
    start, ..., end - 2: the block is one element too short for the band and the
    loop then stops one element early. *)
Theorem band_considered start end_ lo n fft :
  map freq fft = seqZ lo n → lo ≤ start → start < end_ → end_ < lo + n →
  let b := band (Z.to_nat (end_ - start)) start end_ fft in
  map freq (take (length b - 1) b) = seqZ start (end_ - start - 1).
Proof.
  intros Hf H1 H2 H3. unfold band. set (k := Z.to_nat (end_ - start)).
  set (l := filter (fun e => in_band start end_ e = true) fft).
  assert (map freq l = seqZ start (end_ - start + 1)) as El.
  { unfold l. rewrite filter_freq, Hf. apply filter_seqZ; lia. }
  assert (length l = S k) as Hlen.
  { rewrite <- (length_map freq), El, length_seqZ. unfold k. lia. }
  destruct l as [|x l' _] using rev_ind; [done|].
  rewrite length_app, Nat.add_1_r in Hlen. injection Hlen as Hlen.
  rewrite push_fold_full by done. rewrite length_app, length_take. simpl length.
  rewrite take_app_le by (rewrite length_take; lia).
  rewrite take_take. rewrite map_app in El.
  replace (seqZ start (end_ - start + 1)) with (seqZ start (end_ - start) ++ [end_])%list in El.
  2: { rewrite seqZ_app by lia. f_equal. rewrite seqZ_cons' by lia. replace (start + (end_ - start)) with end_ by lia.
       by rewrite seqZ_nil by lia. }
  apply app_inj_tail in El as [El _].
  replace (Nat.min (Nat.min (k - 1) (length l') + 1 - 1) (k - 1))%nat with (k - 1)%nat by lia.
  rewrite <- firstn_map. change firstn with (@take Z). rewrite El.
  assert (seqZ start (end_ - start) = seqZ start (end_ - start - 1) ++ [end_ - 1])%list as ->.
  { replace (end_ - start) with ((end_ - start - 1) + 1) at 1 by lia.
    rewrite seqZ_app by lia. f_equal. rewrite seqZ_cons' by lia.
    replace (start + (end_ - start - 1)) with (end_ - 1) by lia.
    by rewrite seqZ_nil by lia. }
  rewrite take_app_le by (rewrite length_seqZ; unfold k; lia).
  apply take_ge. rewrite length_seqZ. unfold k. lia.
Qed.

(** ** A concrete assignment: two programs, a spectrum of 20 frequencies, one
    restricted window *)

Definition example_prm : ControlPRM := prm0 <| baseband_samplerate := d_of_int 1000 |>.

Definition example_fft : list t_fft_index :=
  map (fun i => mk_fft (d_of_int ((i * 7) mod 11)) dzero (10000 + i) dzero i) (seqZ 0 20).

Definition example_asking : ControlProgram :=
  cp0 <| clrfreqsearch := mk_CLRFreqPRM 10004 10016 dzero dzero 1 |>
      <| parameters := Some example_prm |>
      <| state := Some (state0 <| fft_array := Some example_fft |>) |>.

Definition example_owner : ControlProgram :=
  cp0 <| state := Some (state0 <| best_assigned_freq := 10009 |> <| rx_sideband := 1 |>) |>.

Definition example_blacklist : list BlackList :=
  mk_BlackList 10005 10006 None :: replicate 39 (mk_BlackList 0 0 None).

Definition example_assign : server :=
  server0 <| heap := <[7 := example_asking]> {[ 8 := example_owner ]} |>
    <| controlprogram_threads := Some 4 |>
    <| thread_items := <[4 := mk_Thread_List_Item (Some 3) None 101 (mk_timeval 60 0) (mk_timeval 50 0) (Some 8)]>
        {[ 3 := mk_Thread_List_Item None (Some 4) 100 (mk_timeval 60 0) (mk_timeval 50 0) (Some 7) ]} |>
    <| blacklist := Some example_blacklist |> <| blacklist_count := 1 |>.

Lemma example_assign_threads : threads_are example_assign [4; 3].
Proof.
  split; [|split; [refine (bool_decide_unpack _ _); vm_compute; exact I|vm_compute; reflexivity]].
  split; [reflexivity|]. eexists. split; [vm_compute; reflexivity|].
  split; [reflexivity|]. split; [reflexivity|].
  eexists. split; [vm_compute; reflexivity|]. by split.
Defined.

Lemma example_assign_programs :
  Forall2 (fun x c => thread_data <$> thread_items example_assign !! x = Some (Some c)) [4; 3] [8; 7].
Proof. repeat constructor. Defined.

Lemma example_assign_live : Forall (live_program (heap example_assign)) [8; 7].
Proof.
  constructor; [|constructor; [|constructor]].
  - exists example_owner. split; [reflexivity|]. intros _. by eexists.
  - exists example_asking. split; [reflexivity|]. intros _. by eexists.
Defined.

Lemma example_assign_room : blacklist_room example_assign example_blacklist.
Proof. split; [reflexivity|]. split; vm_compute; discriminate. Defined.

(** The frequency assigned there: neither the restricted 10005-10006 nor the
    other program's 10008-10010. *)
Example example_assign_frequency :
  (r ← (match receiver_assign_frequency isort_fft (fun _ d => d) (fun _ d => d) 7 example_assign with
        | Ok (_, s) => heap s !! 7 ≫= state | Fault _ => None end);
   Some (current_assigned_freq r, rx_sideband r)) = Some (10011, 2).
Proof. vm_compute. reflexivity. Qed.

Definition example_spectrum : list t_fft_index :=
  smooth_step 2 (detrend_step false 50 example_fft).

Definition example_cands : list t_fft_index :=
  spec_candidates example_assign example_blacklist 7 [8; 7] 10004 10016 example_spectrum.

Definition example_outcome (cs : list t_fft_index) : Prop :=
  ∃ s' st', receiver_assign_frequency isort_fft (fun _ d => d) (fun _ d => d) 7 example_assign = Ok (tt, s') ∧
    heap s' = <[7 := on_state (fun _ => st') example_asking]> (heap example_assign) ∧
    current_assigned_freq st' = best_assigned_freq st' ∧
    ((cs = [] ∧ current_assigned_freq st' = 0 ∧ rx_sideband st' = 0) ∨
     (∃ e, e ∈ cs ∧ current_assigned_freq st' = freq e ∧ rx_sideband st' = 2 ∧
        10004 ≤ freq e ≤ 10016 ∧
        (∀ w, w ∈ windows example_assign example_blacklist 7 [8; 7] → ¬ (bl_start w ≤ freq e ≤ bl_end w)) ∧
        (Forall (fun e => is_nan (apwr e) = false) cs →
         ∀ e', e' ∈ cs → dleb (apwr e) (apwr e') = true))).

Lemma assign_frequency_correct_witness : example_outcome example_cands.
Proof.
  refine (assign_frequency_correct isort_fft (fun _ d => d) (fun _ d => d) example_assign
    [4; 3] [8; 7] 7 example_blacklist example_asking (state0 <| fft_array := Some example_fft |>)
    example_prm example_fft 2 _ example_assign_threads example_assign_programs
    example_assign_live example_assign_room _ _ _ _ _ _ _ _); try reflexivity; vm_compute; discriminate.
Defined.

Lemma assign_before_search_faults_witness :
  receiver_assign_frequency isort_fft (fun _ d => d) (fun _ d => d) 7
    (server0 <| heap := {[ 7 := cp0 ]} |>) = Fault NullDeref.
Proof.
  refine (assign_before_search_faults isort_fft (fun _ d => d) (fun _ d => d) _ 7 cp0 state0 prm0
    _ _ _ _ _); vm_compute; reflexivity.
Defined.

Lemma band_considered_witness :
  map freq (take (length (band 12 10004 10016 example_fft) - 1) (band 12 10004 10016 example_fft)) =
  seqZ 10004 11.
Proof.
  refine (band_considered 10004 10016 10000 20 example_fft _ _ _ _); vm_compute; congruence.
Defined.
