(* ===== verification/ClientHandler.v ===== *)
(** * ClientHandler: the thread of one client (server/client_handler.c)

    [control_handler] serves one client: it reads a ROSMsg, answers it
    ([dispatch], one definition per case of the switch) and at the end runs
    [controlprogram_exit].  The time of day, the ini file, the memory mappings,
    the file of sleep times and the contents of uninitialised locals are the
    members of an [Env].  What holds of it is proved in Deadlock (the order of the
    mutexes, cancellation), Exit (what an exit leaves behind) and Replies.

    A client thread can be cancelled by [timeout_handler] and [graceful_cleanup];
    cancellation is deferred, so it takes effect in the [select] or at the
    [pthread_testcancel] of the loop, where the thread holds no mutex, and in any
    [recv], [send], [usleep] or [pthread_join] of a command, where it may hold some
    and keeps them.  [client_loop] ends in the first way, when its list of wakeups
    ends.  The second way is [blocked_leaving] of Deadlock, in which the clean-up
    handler starts after any part of a run. *)

From Stdlib Require Import ZArith Lia Ascii String.
From stdpp Require Import base list gmap strings.
From S2P Require Import Prelude Binary64 Types Registry Threads ServerIO Locking Coordination FreqAssign.
Open Scope Z_scope.
Open Scope cvr_scope.

(** What the thread takes from outside the server's own state. *)
Record Env := mk_Env {
  env_qsort : list t_fft_index → list t_fft_index;
  env_getboolean : string → Z → Z;            (** iniparser_getboolean(Site_INI,...) *)
  env_getint : string → Z → Z;                (** iniparser_getint(Site_INI,...) *)
  env_find_entry : string → Z;                (** iniparser_find_entry(Site_INI,...) *)
  env_getstring : string → option string;     (** iniparser_getstring(Site_INI,...,NULL) *)
  env_mmap_shm : string → Z → Z;
  env_mmap_phys : Z → Z → Z;
  env_others : SM unit;                       (** the other threads, during a wait *)
  env_usleep_file : option (option Z);        (** /ros_usleep.txt: missing, unreadable, a number *)
  env_clr_now : timeval;                      (** the time of a clear-frequency search *)
  env_type0 : ascii;                          (** uninitialised locals *)
  env_r0 : Z;
  env_start0 : Z;
  env_munmap_len : Z
}.

(** The locals of [control_handler] that live from one message to the next. *)
Record Locals := mk_Locals {
  loc_status : Z;
  loc_parameters : ControlPRM;
  loc_entry_name : string     (** the 80 bytes of [entry_name] *)
}.

#[export] Instance eta_Locals : Eta Locals := fun l =>
  mk_Locals (loc_status l) (loc_parameters l) (loc_entry_name l).

(** What [select] and [getsockopt] tell the loop. *)
Inductive wakeup :=
  | SocketError
  | Idle                          (** nothing within five seconds *)
  | Readable (now : timeval).

(** The C string in a buffer: [None] when no byte of it is 0. *)
Fixpoint cstring (s : string) : option string :=
  match s with
  | EmptyString => None
  | String c s => if decide (c = Ascii.zero) then Some EmptyString
                  else String c <$> cstring s
  end.

(** ** Transfers *)

Definition recv_char (k : sock) : SM ascii :=
  p ← recv k; match p with PChar c => mret c | _ => fail Desync end.

Definition recv_params (k : sock) : SM ControlPRM :=
  p ← recv k; match p with PParams q => mret q | _ => fail Desync end.

(** [recv_data(socket,&entry_name,data_length)] into the 80-byte buffer. *)
Definition recv_name (k : sock) (data_length : Z) (buf : string) : SM string :=
  if data_length =? 0 then mret buf
  else if negb ((0 <? data_length) && (data_length <=? 80)) then fail OutOfBounds
  else
    p ← recv k;
    match p with
    | PText s =>
        if Z.of_nat (String.length s) =? data_length then
          mret (String.append s (String.substring (String.length s) (80 - String.length s) buf))
        else fail Desync
    | _ => fail Desync
    end.

(** [recv_data] of [n] bytes into a block of [n] bytes. *)
Definition recv_bytes (k : sock) (n : Z) : SM (list Z) :=
  if n =? 0 then mret []
  else if n <? 0 then fail OutOfBounds
  else
    p ← recv k;
    match p with
    | PBytes l => if zlen l =? n then mret l else fail Desync
    | _ => fail Desync
    end.

(** [send_data] of [n] words at a pointer: nothing for [n = 0], and nothing for
    a null pointer, which the kernel refuses. *)
Definition send_samples (k : sock) (mem : option Z) (n : Z) : SM unit :=
  if n =? 0 then mret tt
  else if n <? 0 then fail OutOfBounds
  else match mem with None => mret tt | Some _ => send k (PSamples mem n) end.

Definition send_words (k : sock) (buf : option (list Z)) (n : Z) : SM unit :=
  if n =? 0 then mret tt
  else if n <? 0 then fail OutOfBounds
  else match buf with None => mret tt | Some _ => send k (PWords buf) end.

Section Client.
  Context (E : Env).

(** ** Leaving *)

(** [controlprogram_exit]; [munmap] is called without a length.  The blocks it
    frees are those of the sequences, the state, the parameters and the data; that
    of [radarinfo] stays allocated, and is lost when the program itself is freed
    ([timeout_free]). *)
Definition controlprogram_exit (arg : option Z) : SM unit :=
  match arg with
  | None => unlock exit_lock
  | Some a =>
      upd_state a (fun st => st <| cancelled := 1 |>);;
      locked exit_lock
        (upd_cp a (fun cp => cp <| active := 0 |>);;
         coordination_handler (env_type0 E) a;;
         timing_wait;;
         dds_end_controlprogram;;
         timing_end_controlprogram;;
         receiver_end_controlprogram None;;
         st ← get_state a;
         emit (EvClose (SClient (socket st)));;
         _ ← unregister_radar_channel (Some a);
         upd_cp a (fun cp => cp <| state := None |>);;
         upd_cp a (fun cp => cp <| parameters := None |>);;
         cp ← get_cp a;
         munmap_if (main_mem cp) (env_munmap_len E);;
         munmap_if (back_mem cp) (env_munmap_len E);;
         upd_cp a (fun cp => cp <| main_mem := None |> <| back_mem := None |>
           <| main_address := 0 |> <| back_address := 0 |>);;
         upd_cp a (fun cp => cp <| data := None |>);;
         upd_cp a (fun cp => cp <| active := 0 |>))
  end.

(** ** The commands

    [a] is the client's control program, [k] its socket, [t] the type of the
    message, [r] and [c] the indices of its radar and channel. *)

Definition unregistered (r c : Z) : bool := (r <? 0) || (c <? 0).

(** SET_INACTIVE and SET_ACTIVE: [v] is the new value of [active]. *)
Definition cmd_set_active (a : Z) (k : sock) (t : ascii) (r c v : Z) : SM unit :=
  if unregistered r c then send k (PRos t (-1))
  else
    locked controlprogram_list_lock
      (cp ← get_cp a;
       when (negb (active cp =? 0))
         (upd_cp a (fun cp => cp <| active := v |>);;
          coordination_handler (env_type0 E) a));;
    send k (PRos t 1).

(** QUERY_INI_SETTING; the case 's' runs on into the default case. *)
Definition cmd_query_ini (k : sock) (t : ascii) (loc : Locals) : SM Locals :=
  data_length ← recv_int k;
  buf ← recv_name k data_length (loc_entry_name loc);
  entry_type ← recv_char k;
  entry_name ← deref OutOfBounds (cstring buf);
  let status := env_find_entry E entry_name in
  let answer (ty : ascii) (z : Z) : SM unit :=
    send k (PChar ty);; send k (PInt 1);; send k (PInt z) in
  let default : SM unit := send k (PChar " "%char);; send k (PInt 0) in
  (if decide (entry_type = "i"%char) then answer "i"%char (env_getint E entry_name (-1))
   else if decide (entry_type = "b"%char) then answer "b"%char (env_getboolean E entry_name (-1))
   else if decide (entry_type = "s"%char) then
     send k (PChar "s"%char);;
     str ← deref NullDeref (env_getstring E entry_name);
     send k (PInt (Z.of_nat (String.length str)));;
     when (negb (Z.of_nat (String.length str) =? 0)) (send k (PText str));;
     default
   else default);;
  send k (PRos t status);;
  mret (loc <| loc_entry_name := buf |>).

Definition cmd_get_site_settings (k : sock) (t : ascii) : SM unit :=
  settings ← gets site_settings;
  send k (PSite settings);;
  send k (PRos t (-1)).

(** SET_SITE_IFMODE: the mode is received into a local copy. *)
Definition cmd_set_site_ifmode (k : sock) (t : ascii) : SM unit :=
  _ ← recv_int k;
  send k (PRos t (-1)).

Definition cmd_set_radar_chan (a : Z) (k : sock) (t : ascii) (loc : Locals) : SM Locals :=
  radar ← recv_int k;
  channel ← recv_int k;
  status ← locked controlprogram_list_lock (register_radar_channel (Some a) radar channel);
  send k (PRos t status);;
  mret (loc <| loc_status := status |>).

Definition cmd_link_radar_chan (a : Z) (k : sock) (t : ascii) (loc : Locals) : SM Locals :=
  r ← recv_int k;
  c ← recv_int k;
  status ← locked controlprogram_list_lock
    (p ← find_registered_controlprogram_by_radar_channel r c;
     upd_state a (fun st => st <| linked_program := p |>);;
     upd_state a (fun st => st <| linked := 1 |>);;
     mret (match p with Some _ => 1 | None => 0 end));
  send k (PRos t status);;
  mret (loc <| loc_status := status |>).

Definition cmd_get_parameters (a : Z) (k : sock) (t : ascii) (r c : Z) (loc : Locals) : SM Locals :=
  if unregistered r c then
    send k (PParams (loc_parameters loc));;
    send k (PRos t (-1));;
    mret loc
  else
    p ← locked controlprogram_list_lock
      (controlprogram_fill_parameters (loc_parameters loc) (Some a));
    send k (PParams p);;
    send k (PRos t (loc_status loc));;
    mret (loc <| loc_parameters := p |>).

(** The frame, the bad transmit times and the transmitter status. *)
Definition send_frame (a : Z) (k : sock) (r : Z) (d : DataPRM) : SM unit :=
  cp ← get_cp a;
  send_samples k (main_mem cp) (samples d);;
  send_samples k (back_mem cp) (samples d);;
  b ← gets bad_transmit_times;
  send k (PInt (tr_length b));;
  send_words k (start_usec b) (tr_length b);;
  send_words k (duration_usec b) (tr_length b);;
  send k (PInt MAX_TRANSMITTERS);;
  l ← gets txstatus;
  tx ← deref OutOfBounds (zget l r);
  send k (PWords (Some (AGC tx)));;
  send k (PWords (Some (LOWPWR tx))).

Definition cmd_get_data (a : Z) (k : sock) (t : ascii) (r c : Z) (loc : Locals) : SM unit :=
  if unregistered r c then
    upd_data a (fun d => d <| data_status := -1 |>);;
    cp ← get_cp a;
    d ← deref NullDeref (data cp);
    send k (PData d);;
    send k (PRos t (-1))
  else
    receiver_controlprogram_get_data (env_mmap_shm E) (env_mmap_phys E) (env_others E) (Some a);;
    locked controlprogram_list_lock
      (st ← get_state a;
       upd_data a (fun d => d <| event_secs := u32 (gpssecond st) |>);;
       upd_data a (fun d => d <| event_nsecs := u32 (gpsnsecond st) |>);;
       cp ← get_cp a;
       d ← deref NullDeref (data cp);
       send k (PData d);;
       when (data_status d =? 0) (send_frame a k r d);;
       send k (PRos t (loc_status loc))).

Definition cmd_set_parameters (a : Z) (k : sock) (t : ascii) (r c : Z) : SM unit :=
  if unregistered r c then
    p ← recv_params k;
    upd_params a (fun _ => p);;
    send k (PRos t (-1))
  else
    locked controlprogram_list_lock
      (p ← recv_params k;
       upd_params a (fun _ => p);;
       when (rfreq p <? 0) (upd_params a (fun p => p <| rfreq := tfreq p |>));;
       send k (PRos t 1)).

(** [state->pulseseqs[index]] assigned; the array has MAX_SEQS elements. *)
Definition set_pulseseq (a index : Z) (v : TSGbuf) : SM unit :=
  st ← get_state a;
  l ← deref OutOfBounds (zset (pulseseqs st) index (Some v));
  upd_state a (fun st => st <| pulseseqs := l |>).

Definition cmd_register_seq (a : Z) (k : sock) (t : ascii) (r c : Z) : SM unit :=
  w ← recv k;
  tprm ← match w with PSeq q => mret q | _ => fail Desync end;
  status ← locked controlprogram_list_lock
    (let index := sq_index tprm in
     let len := i32 (sq_len tprm) in
     let junk := replicate (Z.to_nat len) 0 in
     let buf := mk_TSGbuf (i32 index) len (i32 (sq_step tprm)) junk junk in
     set_pulseseq a index buf;;
     upd_params a (fun p => p <| current_pulseseq_index := i32 index |>);;
     rep ← recv_bytes k len;
     set_pulseseq a index (buf <| seq_rep := rep |>);;
     code ← recv_bytes k len;
     set_pulseseq a index (buf <| seq_rep := rep |> <| seq_code := code |>);;
     if unregistered r c then mret (-1)
     else
       timing_register_seq a;;
       dds_register_seq a;;
       mret 1);
  send k (PRos t status).

Definition cmd_set_ready (a : Z) (k : sock) (t : ascii) (r c : Z) : SM unit :=
  status ←
    (if unregistered r c then mret (-1)
     else
       locked controlprogram_list_lock
         (cp ← get_cp a;
          when (negb (active cp =? 0)) (upd_cp a (fun cp => cp <| active := 1 |>)));;
       timing_wait;;
       locked controlprogram_list_lock
         (DIO_ready_controlprogram (Some a);;
          timing_ready_controlprogram (Some a);;
          dds_ready_controlprogram (Some a);;
          receiver_ready_controlprogram (Some a);;
          coordination_handler (env_type0 E) a);;
       mret 0);
  send k (PRos t status).

Definition cmd_clear_freq_search (a : Z) (k : sock) (t : ascii) (r c : Z) : SM unit :=
  locked clr_lock
    (scanned ← deref NullDeref (env_usleep_file E);
     let usecs := default 0 scanned in
     locked controlprogram_list_lock
       (w ← recv k;
        clr ← match w with PClr q => mret q | _ => fail Desync end;
        upd_cp a (fun cp => cp <| clrfreqsearch := clr |>);;
        status ←
          (if unregistered r c then mret (-1)
           else
             DIO_clrfreq (Some a);;
             emit (EvSleep usecs);;
             receiver_clrfreq (env_r0 E) (env_start0 E) (env_clr_now E) a;;
             DIO_rxfe_reset;;
             emit (EvSleep usecs);;
             st ← get_state a;
             mret (freq_change_needed st));
        send k (PRos t status))).

Definition cmd_assigned_freq (a : Z) (k : sock) (t : ascii) (r c : Z) : SM unit :=
  locked controlprogram_list_lock
    (status ←
       (if unregistered r c then
          upd_state a (fun st => st <| current_assigned_freq := 0 |>);;
          upd_state a (fun st => st <| current_assigned_noise := dzero |>);;
          mret (-1)
        else
          receiver_assign_frequency (env_qsort E) (env_getboolean E) (env_getint E) a;;
          st ← get_state a;
          mret (if best_assigned_freq st =? current_assigned_freq st then 0 else 1));
     st ← get_state a;
     send k (PInt (current_assigned_freq st));;
     send k (PFloat (current_assigned_noise st));;
     send k (PRos t status)).

(** ** The loop *)

(** The switch over the message type; the result says whether the thread
    exits. *)
Definition dispatch (a : Z) (k : sock) (r c : Z) (t : ascii) (loc : Locals) : SM (Locals * bool) :=
  let stay (m : SM unit) : SM (Locals * bool) := m;; mret (loc, false) in
  let keep (m : SM Locals) : SM (Locals * bool) := loc ← m; mret (loc, false) in
  if decide (t = PING) then stay (send k (PRos t 1))
  else if decide (t = SET_INACTIVE) then stay (cmd_set_active a k t r c (-1))
  else if decide (t = SET_ACTIVE) then stay (cmd_set_active a k t r c 1)
  else if decide (t = QUERY_INI_SETTING) then keep (cmd_query_ini k t loc)
  else if decide (t = GET_SITE_SETTINGS) then stay (cmd_get_site_settings k t)
  else if decide (t = SET_SITE_IFMODE) then stay (cmd_set_site_ifmode k t)
  else if decide (t = SET_RADAR_CHAN) then keep (cmd_set_radar_chan a k t loc)
  else if decide (t = LINK_RADAR_CHAN) then keep (cmd_link_radar_chan a k t loc)
  else if decide (t = GET_PARAMETERS) then keep (cmd_get_parameters a k t r c loc)
  else if decide (t = GET_DATA) then stay (cmd_get_data a k t r c loc)
  else if decide (t = SET_PARAMETERS) then stay (cmd_set_parameters a k t r c)
  else if decide (t = REGISTER_SEQ) then stay (cmd_register_seq a k t r c)
  else if decide (t = SET_READY_FLAG) then stay (cmd_set_ready a k t r c)
  else if decide (t = REQUEST_CLEAR_FREQ_SEARCH) then stay (cmd_clear_freq_search a k t r c)
  else if decide (t = REQUEST_ASSIGNED_FREQ) then stay (cmd_assigned_freq a k t r c)
  else if decide (t = QUIT) then send k (PRos t 0);; mret (loc, true)
  else stay (send k (PRos t 1)).

(** The receipt of a message, under the list lock: the indices of the program's
    slot and the message type. *)
Definition receive_message (a : Z) (k : sock) (now : timeval) : SM (Z * Z * ascii) :=
  locked controlprogram_list_lock
    (cp ← get_cp a;
     let r := ri_radar (radarinfo cp) - 1 in
     let c := ri_channel (radarinfo cp) - 1 in
     when (unregistered r c) (upd_data a (fun d => d <| data_status := -1 |>));;
     m ← recv_ros k;
     st ← get_state a;
     x ← deref NullDeref (thread st);
     upd_item x (fun it => it <| last_seen := now |>);;
     mret (r, c, fst m)).

(** The loop, from one [select] to the next.  A client that is cancelled inside a
    message does the clean-up of the first case at that point, with the mutexes it
    holds there (see the head of this file). *)
Fixpoint client_loop (wakeups : list wakeup) (a : Z) (k : sock) (loc : Locals) : SM unit :=
  match wakeups with
  | [] => controlprogram_exit (Some a)          (** cancelled in [select] or [pthread_testcancel] *)
  | SocketError :: _ => controlprogram_exit (Some a)
  | Idle :: wakeups => client_loop wakeups a k loc
  | Readable now :: wakeups =>
      m ← receive_message a k now;
      let '(r, c, t) := m in
      out ← dispatch a k r c t loc;
      let '(loc, leave) := out in
      if leave : bool then controlprogram_exit (Some a)
      else client_loop wakeups a k loc
  end.

Definition control_handler (wakeups : list wakeup) (a : Z) (loc : Locals) : SM unit :=
  fd ← locked exit_lock (locked controlprogram_list_lock
    (st ← get_state a; mret (socket st)));
  client_loop wakeups a (SClient fd) loc.

End Client.

(** ** A concrete client: program 7 on socket 0, thread item 3 *)

Definition example_env : Env :=
  mk_Env isort_fft (fun _ d => d) (fun _ d => d) (fun _ => 1) (fun _ => Some "kod"%string)
    (fun _ _ => 4096) (fun p _ => p) (mret tt) (Some (Some 10)) (mk_timeval 70 0) "0"%char 0 0 0.

Definition example_locals : Locals := mk_Locals 0 prm0 EmptyString.

Definition example_client : server :=
  server0 <| heap := {[ 7 := cp0 <| state := Some (state0 <| thread := Some 3 |>) |>
      <| radarinfo := mk_RadarPRM 0 1 2 |>
      <| parameters := Some (prm0 <| radar := 1 |> <| channel := 2 |>) |> ]} |>
    <| radar_channels := <[1%nat := Some 7]> (replicate 8 None) |>
    <| controlprogram_threads := Some 3 |>
    <| thread_items := {[ 3 := mk_Thread_List_Item None None 100 (mk_timeval 60 0) (mk_timeval 50 0) (Some 7) ]} |>
    <| inbox := <[SClient 0 := [PRos PING 0; PRos QUIT 0]]> {[ STiming := [PDriver TIMING_WAIT 1] ]} |>.

(** A ping and a quit. *)
Definition example_wakeups : list wakeup :=
  [Idle; Readable (mk_timeval 55 0); Readable (mk_timeval 56 0)].

Definition example_client_run : option server :=
  match control_handler example_env example_wakeups 7 example_locals example_client with
  | Ok (_, s) => Some s
  | Fault _ => None
  end.

Example example_client_events :
  (fun s => filter (fun e => match e with EvSend (SClient _) _ | EvClose _ => true | _ => false end = true) (trace s))
    <$> example_client_run =
  Some [EvSend (SClient 0) (PRos PING 1); EvSend (SClient 0) (PRos QUIT 0); EvClose (SClient 0)].
Proof. vm_compute. reflexivity. Qed.
