(* ===== verification/Deadlock.v ===== *)
(** * Deadlock: the lock order of the client threads

    Every handler a client thread runs acquires the mutexes in the order of
    [rank]; so client threads that run, or leave by themselves, never wait for each
    other in a circle.  A client that another thread cancels inside a locked region
    keeps its mutexes ([blocked_leaving]) and can close a circle
    ([cancelled_client_deadlocks]).  settings_parse_ini_file is the one handler
    that breaks the discipline (Startup.v). *)

From Stdlib Require Import ZArith Lia Ascii String.
From stdpp Require Import base list gmap strings.
From S2P Require Import Prelude Binary64 Types Registry Threads ServerIO Locking Coordination FreqAssign ClientHandler.
Open Scope Z_scope.
Open Scope cvr_scope.

(** ** The shared state *)

Lemma locks_get_item r x : locks_ok r (get_item x).
Proof.
  apply locks_silent. intros s a s'. unfold get_item. destruct (thread_items s !! x); naive_solver.
Qed.

Lemma locks_upd_item r x f : locks_ok r (upd_item x f).
Proof. unfold upd_item. locks. apply locks_get_item. Qed.

Lemma locks_find r i j : locks_ok r (find_registered_controlprogram_by_radar_channel i j).
Proof. unfold find_registered_controlprogram_by_radar_channel, get_slot. locks. Qed.

Lemma locks_unregister r p : locks_ok r (unregister_radar_channel p).
Proof. unfold unregister_radar_channel, unregister_body, get_slot, set_slot. locks. Qed.

Lemma locks_register r p i j : locks_ok r (register_radar_channel p i j).
Proof.
  unfold register_radar_channel, register_body, get_slot, set_slot. locks.
  all: apply locks_unregister.
Qed.

Lemma locks_fill r junk p : locks_ok r (controlprogram_fill_parameters junk p).
Proof.
  unfold controlprogram_fill_parameters, best_of_radar, best_body, best_parameters. locks.
  all: apply locks_find.
Qed.

Lemma locks_walk {A} r (body : option Z → A → SM A) :
  (∀ d acc, locks_ok r (body d acc)) → ∀ fuel head acc, locks_ok r (walk_programs fuel head body acc).
Proof.
  intros Hb. induction fuel as [|fuel IH]; intros [x|] acc; simpl; locks.
  all: first [ apply locks_get_item | apply Hb | apply IH ].
Qed.

(** ** Coordination and the frequency search *)

Lemma locks_set_txread r i v : locks_ok r (set_txread i v).
Proof. unfold set_txread. locks. Qed.

Lemma locks_each {I} r (l : list I) (body : I → SM unit) :
  Forall (fun i => locks_ok r (body i)) l → locks_ok r (for_each l body).
Proof. induction 1; simpl; [apply locks_ret|]. apply locks_bind; [done|]. by intros _. Qed.

Lemma locks_pretrigger_threads r : r ≤ 4 → locks_ok r (for_each pretrigger_threads run_steps).
Proof.
  intros Hr. unfold pretrigger_threads. apply locks_each.
  repeat (apply Forall_cons; split); [apply locks_request; simpl; lia ..| |by apply Forall_nil].
  by apply locks_timing_pretrigger.
Qed.

Lemma locks_trigger_stamp r a t : r ≤ 4 → locks_ok r (trigger_stamp a t).
Proof.
  intros Hr. unfold trigger_stamp. locks.
  all: first [ by apply locks_transmitter_status | apply locks_set_txread ].
Qed.

Lemma locks_posttrigger r : r ≤ 4 → locks_ok r receiver_posttrigger ∧ locks_ok r timing_posttrigger.
Proof. split; apply locks_request; simpl; lia. Qed.

Lemma locks_handover r d acc : locks_ok r (handover_body d acc).
Proof. unfold handover_body. locks. Qed.

Lemma locks_trigger_pre r t0 tt : r ≤ 4 → locks_ok r (trigger_pre t0 tt).
Proof.
  intros Hr. unfold trigger_pre.
  apply locks_bind; [by apply locks_pretrigger_threads|intros ?]. locks.
  by apply locks_timing_trigger.
Qed.

Lemma locks_trigger r t0 tt a : r ≤ 4 → locks_ok r (trigger_sequence t0 tt a).
Proof.
  intros Hr. unfold trigger_sequence. destruct (locks_posttrigger r Hr). locks.
  - by apply locks_trigger_pre.
  - by apply locks_trigger_stamp.
  - apply locks_walk, locks_handover.
Qed.

Lemma locks_count r d acc : locks_ok r (count_body d acc).
Proof. unfold count_body. locks. Qed.

Lemma locks_mark r a cp rc : locks_ok r (mark_program a cp rc).
Proof. unfold mark_program. locks. all: apply locks_set_txread. Qed.

Lemma locks_coordination r t0 a : r ≤ 3 → locks_ok r (coordination_handler t0 a).
Proof.
  intros Hr. unfold coordination_handler. apply locks_locked; [simpl; lia|]. simpl.
  unfold coordination_body. locks.
  all: try apply locks_mark; try (apply locks_walk, locks_count).
  all: apply locks_trigger; lia.
Qed.

Lemma locks_assign q gb gi r a : locks_ok r (receiver_assign_frequency q gb gi a).
Proof.
  unfold receiver_assign_frequency, candidates, assign_best. locks.
  all: apply locks_walk; intros ? ?; unfold blacklist_body; locks.
Qed.

Lemma locks_receiver_clrfreq r r0 s0 now a : r ≤ 4 → locks_ok r (receiver_clrfreq r0 s0 now a).
Proof.
  intros Hr. unfold receiver_clrfreq, clrfreq_search, fft_element, get_latest, set_latest. locks.
Qed.

(** ** The client thread *)

Section ClientLocks.
  Context (E : Env) (Hothers : ∀ r, r ≤ 3 → locks_ok r (env_others E)).

Lemma locks_recv_bytes r k n : locks_ok r (recv_bytes k n).
Proof. unfold recv_bytes. locks. Qed.

Lemma locks_send_samples r k m n : locks_ok r (send_samples k m n).
Proof. unfold send_samples. locks. Qed.

Lemma locks_send_words r k m n : locks_ok r (send_words k m n).
Proof. unfold send_words. locks. Qed.

Lemma locks_munmap_if r o n : locks_ok r (munmap_if o n).
Proof. unfold munmap_if. locks. Qed.

Lemma locks_exit r a : r ≤ 1 → locks_ok r (controlprogram_exit E (Some a)).
Proof.
  intros Hr. unfold controlprogram_exit. locks.
  - apply locks_coordination. simpl. lia.
  - apply locks_timing_wait. simpl. lia.
  - apply locks_end_controlprogram. simpl. lia.
  - apply locks_end_controlprogram. simpl. lia.
  - apply locks_end_controlprogram. simpl. lia.
  - apply locks_unregister.
  - apply locks_munmap_if.
  - apply locks_munmap_if.
Qed.

Lemma locks_set_active r a k t i j v : r ≤ 2 → locks_ok r (cmd_set_active E a k t i j v).
Proof. intros Hr. unfold cmd_set_active. locks. apply locks_coordination. simpl. lia. Qed.

Lemma locks_set_ready r a k t i j : r ≤ 2 → locks_ok r (cmd_set_ready E a k t i j).
Proof.
  intros Hr. unfold cmd_set_ready. locks; try (by apply locks_timing_wait; simpl; lia);
    try (by apply locks_driver_ready; simpl; lia).
  apply locks_coordination. simpl. lia.
Qed.

Lemma locks_register_seq r a k t i j : r ≤ 2 → locks_ok r (cmd_register_seq a k t i j).
Proof.
  intros Hr. unfold cmd_register_seq, set_pulseseq. locks; try apply locks_recv_bytes;
    apply locks_driver_register_seq; simpl; lia.
Qed.

Lemma locks_clear_freq_search r a k t i j : r ≤ 0 → locks_ok r (cmd_clear_freq_search E a k t i j).
Proof.
  intros Hr. unfold cmd_clear_freq_search. locks.
  - apply locks_clrfreq. simpl. lia.
  - apply locks_receiver_clrfreq. simpl. lia.
  - apply locks_request. simpl. lia.
Qed.

Lemma locks_cmd_get_data r a k t i j loc : r ≤ 2 → locks_ok r (cmd_get_data E a k t i j loc).
Proof.
  intros Hr. unfold cmd_get_data, send_frame. locks;
    try apply locks_send_samples; try apply locks_send_words.
  apply locks_get_data; [done|lia].
Qed.

Lemma locks_dispatch r a k i j t loc : r ≤ 0 → locks_ok r (dispatch E a k i j t loc).
Proof.
  intros Hr. unfold dispatch.
  repeat match goal with |- locks_ok _ (if decide (?x = ?y) then _ else _) => destruct (decide (x = y)) end.
  all: unfold cmd_query_ini, recv_name, recv_char, cmd_get_site_settings, cmd_set_site_ifmode,
    cmd_set_radar_chan, cmd_link_radar_chan, cmd_get_parameters, cmd_set_parameters,
    recv_params, cmd_assigned_freq; locks.
  all: first [ apply locks_set_active; lia | apply locks_set_ready; lia | apply locks_register_seq; lia
    | apply locks_clear_freq_search; lia | apply locks_cmd_get_data; lia | apply locks_find
    | apply locks_register | apply locks_fill | apply locks_assign ].
Qed.

Lemma locks_receive_message r a k now : r ≤ 2 → locks_ok r (receive_message a k now).
Proof. intros Hr. unfold receive_message. locks. apply locks_upd_item. Qed.

Lemma locks_client_loop r ws : r ≤ 0 → ∀ a k loc, locks_ok r (client_loop E ws a k loc).
Proof.
  intros Hr. induction ws as [|[| |now] ws IH]; intros a k loc; cbn [client_loop].
  - apply locks_exit. lia.
  - apply locks_exit. lia.
  - apply IH.
  - locks; try (apply locks_receive_message; lia); try (apply locks_dispatch; lia);
      try (apply locks_exit; lia). apply IH.
Qed.

Lemma locks_control_handler r ws a loc : r ≤ 0 → locks_ok r (control_handler E ws a loc).
Proof. intros Hr. unfold control_handler. locks. by apply locks_client_loop. Qed.

End ClientLocks.

(** ** No circular wait *)

(** The locks a thread holds after a trace, as the mutexes themselves count. *)
Fixpoint remove_lock (l : lock_id) (held : list lock_id) : list lock_id :=
  match held with
  | [] => []
  | h :: held => if decide (h = l) then held else h :: remove_lock l held
  end.

Fixpoint held_after (held : list lock_id) (tr : list event) : list lock_id :=
  match tr with
  | [] => held
  | EvLock l :: tr => held_after (l :: held) tr
  | EvUnlock l :: tr => held_after (remove_lock l held) tr
  | _ :: tr => held_after held tr
  end.

(** The threads of the server that serve clients or accept them. *)
Inductive server_thread (E : Env) : SM unit → Prop :=
  | thread_client ws a loc : server_thread E (control_handler E ws a loc)
  | thread_main junk jst jprm jdata jitem fd id now limit :
      server_thread E (_ ← main_accept junk jst jprm jdata jitem fd id now limit; mret tt).

(** How a thread may come to wait for the mutex [want] while it holds [held]: in
    the middle of a run of its own, or as a client that is leaving because
    another thread has cancelled it.  Cancellation is deferred, so it takes
    effect at a [recv], [send], [select], [usleep] or [pthread_join] of the run;
    here it may take effect anywhere ([rest] is what the client does not do any
    more).  The clean-up handler releases no mutex the client holds at that point:
    these are [kept], and the state [s1] in which it starts is arbitrary but for
    the trace, since the other threads go on. *)
Inductive blocked (E : Env) : list lock_id → lock_id → list lock_id → Prop :=
  | blocked_running m s s' before want after :
      server_thread E m → m s = Ok (tt, s') →
      trace s' = (trace s ++ before ++ EvLock want :: after)%list →
      blocked E (held_after [] before) want []
  | blocked_leaving ws a loc s s' before rest s1 s2 cleanup want after :
      control_handler E ws a loc s = Ok (tt, s') → trace s' = (trace s ++ before ++ rest)%list →
      trace s1 = (trace s ++ before)%list → controlprogram_exit E (Some a) s1 = Ok (tt, s2) →
      trace s2 = (trace s1 ++ cleanup ++ EvLock want :: after)%list →
      blocked E (held_after (held_after [] before) cleanup) want (held_after [] before).

(** A thread that waits: what it holds, what it waits for, and what it already
    held when it was cancelled. *)
Record waiting := mk_waiting { w_held : list lock_id; w_want : lock_id; w_kept : list lock_id }.

(** Each of some threads waits for a mutex that one of them holds. *)
Definition circle (ts : list waiting) : Prop :=
  ts ≠ [] ∧ ∀ t, t ∈ ts → ∃ t', t' ∈ ts ∧ w_want t ∈ w_held t'.

(** Cancelled in a region locked by the exit lock, the list lock or a mutex above
    them (that is, by any but [clr_lock]). *)
Definition cancelled_in_region (t : waiting) : Prop :=
  ∃ l, l ∈ w_kept t ∧ rank exit_lock ≤ rank l.

Lemma check_held tr : ∀ held h, check_locks held tr = Some h → held_after held tr = h.
Proof.
  induction tr as [|e tr IH]; intros held h; simpl; [by intros [= ->]|].
  destruct e; simpl; try apply IH.
  - destruct (forallb _ held); [apply IH|done].
  - destruct held as [|h' held]; [done|]. simpl. case_decide; [apply IH|done].
Qed.

Lemma held_after_app tr1 tr2 : ∀ held,
  held_after held (tr1 ++ tr2) = held_after (held_after held tr1) tr2.
Proof. induction tr1 as [|[] tr1 IH]; intros held; simpl; try apply IH. done. Qed.

(** Events that keep the discipline from [held] do so above any other locks. *)
Lemma check_held_above x tr : ∀ held h, check_locks held tr = Some h →
  held_after (held ++ x) tr = (h ++ x)%list.
Proof.
  induction tr as [|e tr IH]; intros held h; simpl; [by intros [= ->]|].
  destruct e; simpl; try apply IH.
  - destruct (forallb _ held); [apply (IH (l :: held))|done].
  - destruct held as [|h' held]; [done|]. simpl. case_decide; [apply IH|done].
Qed.

Lemma locks_main_accept r junk jst jprm jdata jitem fd id now limit :
  r ≤ 2 → locks_ok r (main_accept junk jst jprm jdata jitem fd id now limit).
Proof.
  intros Hr. apply (locks_ext _ _ (locked controlprogram_list_lock
    (control_program ← control_init junk jst jprm jdata;
     upd_state control_program (fun st => st <| socket := fd |>);;
     x ← thread_insert jitem id now limit control_program;
     upd_state control_program (fun st => st <| thread := Some x |>);;
     fuel ← gets walk_fuel;
     thread_count fuel (Some x) 0))).
  { intros s. unfold main_accept, locked. apply bind_ext. intros _ s1.
    repeat (rewrite bind_assoc; apply bind_ext; intros ? ?). done. }
  assert (locks_ok 3 (malloc_item jitem)) as Hmalloc.
  { apply locks_silent. by intros s b s' [= <- <-]. }
  assert (locks_ok 3 (control_init junk jst jprm jdata)) as Hinit.
  { apply locks_silent. by intros s b s' [= <- <-]. }
  assert (∀ fuel x n, locks_ok 3 (thread_count fuel x n)) as Hcount.
  { induction fuel as [|fuel IH]; intros [x|] n; simpl; locks; [apply locks_get_item|apply IH]. }
  apply locks_locked; [simpl; lia|]. simpl. unfold thread_insert. locks; try apply locks_upd_item.
  apply Hcount.
Qed.

Section NoDeadlock.
  Context (E : Env) (Hothers : ∀ r, r ≤ 3 → locks_ok r (env_others E)).

Lemma thread_locks m : server_thread E m → locks_ok 0 m.
Proof.
  destruct 1; [by apply locks_control_handler|]. locks. by apply locks_main_accept.
Qed.

(** The next acquisition of a run that keeps the discipline. *)
Lemma check_next held before want after :
  check_locks held (before ++ EvLock want :: after) ≠ None →
  Forall (fun h => rank h < rank want) (held_after held before).
Proof.
  rewrite check_locks_app. destruct (check_locks held before) as [h|] eqn:Eb; [|done].
  rewrite (check_held _ _ _ Eb). simpl.
  destruct (forallb (fun h => rank h <? rank want) h) eqn:Ef; [|done]. intros _.
  rewrite forallb_forall in Ef. apply Forall_forall. intros x Hx.
  apply Z.ltb_lt, Ef. by apply list_elem_of_In.
Qed.

Lemma blocked_rank held want kept : blocked E held want kept →
  (∀ l, l ∈ kept → rank l < rank exit_lock) → Forall (fun h => rank h < rank want) held.
Proof.
  destruct 1 as [m s s' before want after Hm Em Et
    |ws a loc s s' before rest s1 s2 cleanup want after Em Et E1 Ex Ec]; intros Hk.
  - destruct (thread_locks m Hm s tt s' Em) as (tr & Et' & Hc).
    rewrite Et' in Et. apply app_inv_head in Et as ->.
    apply (check_next _ _ _ after). by rewrite Hc.
  - destruct (locks_exit E 1 a ltac:(lia) s1 tt s2 Ex) as (tr & Et' & Hc).
    rewrite Et' in Ec. apply app_inv_head in Ec as ->.
    apply (check_next _ _ _ after). rewrite Hc; [done|]. by apply Forall_forall.
Qed.

End NoDeadlock.

(** A thread of greatest wanted rank. *)
Lemma max_rank (ts : list waiting) :
  ts ≠ [] → ∃ t, t ∈ ts ∧ ∀ t', t' ∈ ts → rank (w_want t') ≤ rank (w_want t).
Proof.
  induction ts as [|x ts IH]; [done|]. intros _. destruct ts as [|y ts].
  - exists x. split; [by left|]. intros t' [->|?%not_elem_of_nil]%elem_of_cons; [lia|done].
  - destruct (IH ltac:(done)) as (t & Ht & Hmax).
    destruct (decide (rank (w_want t) ≤ rank (w_want x))).
    + exists x. split; [by left|]. intros t' [->|Ht']%elem_of_cons; [lia|].
      specialize (Hmax _ Ht'). lia.
    + exists t. split; [by right|]. intros t' [->|Ht']%elem_of_cons; [lia|by apply Hmax].
Qed.

#[export] Instance cancelled_in_region_dec t : Decision (cancelled_in_region t).
Proof.
  refine (cast_if (decide (Exists (fun l => rank exit_lock ≤ rank l) (w_kept t)))).
  - by apply Exists_exists.
  - intros H. by apply n, Exists_exists.
Defined.

(** C8: a run of [control_handler], from the first message to the end of
    [controlprogram_exit], never locks a mutex it holds, never unlocks one it
    does not hold, always locks in the order of [rank] and ends with every mutex
    released, provided the rest of the server does while it waits.  That is a
    client that leaves by itself or is cancelled between two messages.  A client
    that is cancelled after any other part [before] of the run ends with exactly
    the mutexes it held there: its clean-up handler releases all it takes and none
    of those. *)
Theorem client_lock_discipline E ws a loc s s' :
  (∀ r, r ≤ 3 → locks_ok r (env_others E)) →
  control_handler E ws a loc s = Ok (tt, s') →
  ∃ tr, trace s' = (trace s ++ tr)%list ∧ check_locks [] tr = Some [] ∧ held_after [] tr = [] ∧
    ∀ before rest s1 s2, tr = (before ++ rest)%list → trace s1 = (trace s ++ before)%list →
      controlprogram_exit E (Some a) s1 = Ok (tt, s2) →
      ∃ cleanup, trace s2 = (trace s1 ++ cleanup)%list ∧
        held_after [] (before ++ cleanup) = held_after [] before.
Proof.
  intros Ho Er. destruct (locks_control_handler E Ho 0 ws a loc ltac:(lia) s tt s' Er) as (tr & Et & Hc).
  exists tr. specialize (Hc [] ltac:(done)). rewrite (check_held _ _ _ Hc). split_and!; [done..|].
  intros before rest s1 s2 _ _ Ex.
  destruct (locks_exit E 1 a ltac:(lia) s1 tt s2 Ex) as (cleanup & Ec & Hx). exists cleanup.
  split; [done|]. rewrite held_after_app.
  exact (check_held_above (held_after [] before) cleanup [] [] (Hx [] ltac:(done))).
Qed.

(** C1: the threads that accept and serve clients can only wait for each other in
    a circle when one of them is a client that was cancelled inside a locked
    region.  No circle comes about among threads that run and clients that leave by
    themselves or are cancelled between two messages (or while they hold no mutex
    but [clr_lock]), however many there are and wherever they wait.  The exception
    is real ([cancelled_client_deadlocks]). *)
Theorem no_circular_wait E (ts : list waiting) :
  (∀ r, r ≤ 3 → locks_ok r (env_others E)) →
  (∀ t, t ∈ ts → blocked E (w_held t) (w_want t) (w_kept t)) →
  circle ts → ∃ t, t ∈ ts ∧ cancelled_in_region t.
Proof.
  intros Ho Hb [Hne Hcirc].
  destruct (decide (Exists cancelled_in_region ts)) as [Hex|Hno]; [by apply Exists_exists|].
  exfalso. destruct (max_rank ts Hne) as (t & Ht & Hmax).
  destruct (Hcirc t Ht) as (t' & Ht' & Hin).
  assert (Forall (fun h => rank h < rank (w_want t')) (w_held t')) as Hr.
  { apply (blocked_rank E Ho _ _ _ (Hb _ Ht')). intros l Hl.
    destruct (decide (rank exit_lock ≤ rank l)); [|lia].
    exfalso. apply Hno, Exists_exists. exists t'. split; [done|]. by exists l. }
  rewrite Forall_forall in Hr. specialize (Hr _ Hin). specialize (Hmax _ Ht'). lia.
Qed.

(** ** Witnesses *)

Lemma example_others r : r ≤ 3 → locks_ok r (env_others example_env).
Proof. intros _. apply locks_ret. Defined.

Lemma client_lock_discipline_witness : ∃ s', example_client_run = Some s' ∧
  ∃ tr, trace s' = (trace example_client ++ tr)%list ∧ check_locks [] tr = Some [] ∧ held_after [] tr = [] ∧
    ∀ before rest s1 s2, tr = (before ++ rest)%list → trace s1 = (trace example_client ++ before)%list →
      controlprogram_exit example_env (Some 7) s1 = Ok (tt, s2) →
      ∃ cleanup, trace s2 = (trace s1 ++ cleanup)%list ∧
        held_after [] (before ++ cleanup) = held_after [] before.
Proof.
  destruct (control_handler example_env example_wakeups 7 example_locals example_client) as [[[] s']|e] eqn:Er.
  2: { exfalso. revert Er. vm_compute. discriminate. }
  exists s'. split; [unfold example_client_run; by rewrite Er|].
  exact (client_lock_discipline example_env example_wakeups 7 example_locals example_client s' example_others Er).
Defined.

(** A client is about to receive a message, under the list lock, and is cancelled:
    its clean-up handler waits for the exit lock.  Another client has just been
    started: it holds the exit lock and waits for the list lock. *)
Definition example_receiving : list event :=
  [EvLock exit_lock; EvLock controlprogram_list_lock; EvUnlock controlprogram_list_lock;
   EvUnlock exit_lock; EvLock controlprogram_list_lock].

Definition example_circle : list waiting :=
  [mk_waiting [controlprogram_list_lock] exit_lock [controlprogram_list_lock];
   mk_waiting [exit_lock] controlprogram_list_lock []].

Definition example_cancelled : server :=
  example_client <| trace ::= fun tr => (tr ++ example_receiving)%list |>.

Lemma example_blocked t : t ∈ example_circle → blocked example_env (w_held t) (w_want t) (w_kept t).
Proof.
  destruct (control_handler example_env example_wakeups 7 example_locals example_client) as [[[] s']|e] eqn:Er.
  2: { exfalso. revert Er. vm_compute. discriminate. }
  destruct (controlprogram_exit example_env (Some 7) example_cancelled) as [[[] s2]|e] eqn:Ex.
  2: { exfalso. revert Ex. vm_compute. discriminate. }
  assert (∃ rest, trace s' = (example_receiving ++ rest)%list) as [rest Et].
  { exists (drop 5 (trace s')). rewrite <- (take_drop 5 (trace s')) at 1. f_equal.
    revert Er. vm_compute. intros [= <-]. reflexivity. }
  assert (∃ after, trace s2 = (trace example_cancelled ++ EvLock exit_lock :: after)%list) as [after Ec].
  { exists (drop 6 (trace s2)). rewrite <- (take_drop 6 (trace s2)) at 1.
    change (EvLock exit_lock :: drop 6 (trace s2)) with ([EvLock exit_lock] ++ drop 6 (trace s2))%list.
    rewrite app_assoc. f_equal. revert Ex. vm_compute. intros [= <-]. reflexivity. }
  intros [->|[->|Hn]%elem_of_cons]%elem_of_cons.
  - exact (blocked_leaving example_env example_wakeups 7 example_locals example_client s' example_receiving
      rest example_cancelled s2 [] exit_lock after Er Et eq_refl Ex Ec).
  - apply (blocked_running example_env _ example_client s' [EvLock exit_lock] _
      ([EvUnlock controlprogram_list_lock; EvUnlock exit_lock; EvLock controlprogram_list_lock] ++ rest)
      (thread_client example_env example_wakeups 7 example_locals) Er Et).
  - by apply not_elem_of_nil in Hn.
Qed.

Lemma example_is_circle : circle example_circle.
Proof.
  split; [done|]. intros t [->|[->|Hn]%elem_of_cons]%elem_of_cons.
  - exists (mk_waiting [exit_lock] controlprogram_list_lock []). split; [by right; left|by left].
  - eexists. split; [by left|by left].
  - by apply not_elem_of_nil in Hn.
Qed.

Lemma no_circular_wait_witness : ∃ t, t ∈ example_circle ∧ cancelled_in_region t.
Proof.
  exact (no_circular_wait example_env example_circle example_others example_blocked example_is_circle).
Defined.

(** The circle exists: nothing in the code keeps a client from being cancelled
    while it holds the list lock, and these two threads then wait for ever. *)
Theorem cancelled_client_deadlocks : ∃ E ts,
  (∀ r, r ≤ 3 → locks_ok r (env_others E)) ∧
  (∀ t, t ∈ ts → blocked E (w_held t) (w_want t) (w_kept t)) ∧ circle ts.
Proof.
  exists example_env, example_circle. split_and!; [apply example_others|apply example_blocked|apply example_is_circle].
Qed.
