(* ===== verification/Exit.v ===== *)
(** * Exit: the end of a client and the removal of its thread

    What an exit does, event by event, and what it leaves behind; what a timeout
    pass does to the list of threads, the programs and the channel table when the
    clients it cancels run their exits.  [controlprogram_exit] also satisfies what
    the removal loops of Threads.v ask of any cancelled client ([ClientExit]). *)

From Stdlib Require Import ZArith Lia Ascii String.
From stdpp Require Import base list gmap strings.
From S2P Require Import Prelude Binary64 Types Registry Threads ServerIO Locking Coordination FreqAssign ClientHandler.
Open Scope Z_scope.
Open Scope cvr_scope.

(** ** The thread list through an exit *)

Lemma frame_ext {A} (m m' : SM A) : (∀ s, m s = m' s) → list_frame m' → list_frame m.
Proof. intros E Hm s l. rewrite E. apply Hm. Qed.

Lemma walk_frame {A} (body : option Z → A → SM A) s l0 :
  (∀ d acc, list_frame (body d acc)) → threads_are s l0 →
  ∀ l l1 fuel acc s1, l0 = (l1 ++ l)%list → (length l ≤ fuel)%nat →
  thread_items s1 = thread_items s → controlprogram_threads s1 = controlprogram_threads s →
  ends (fun _ s' => thread_items s' = thread_items s ∧
                    controlprogram_threads s' = controlprogram_threads s)
    (walk_programs fuel (head l) body acc s1).
Proof.
  intros Hb Hl. induction l as [|x l IH]; intros l1 fuel acc s1 El Hf Ei Eh; [by destruct fuel|].
  destruct fuel as [|fuel]; simpl in Hf; [lia|]. cbn [walk_programs head].
  pose proof (threads_are_frame s s1 l0 Ei Eh Hl) as Hl1. rewrite El in Hl1.
  destruct (dll_split _ _ _ _ _ _ (proj1 Hl1)) as (it & E & Hp & _).
  rewrite (bind_ok _ _ _ _ _ (get_item_run _ _ _ E)).
  apply ends_bind. eapply ends_mono; [by eapply Hb|]. intros acc' s2 [Ei2 Eh2].
  rewrite (bind_ok _ _ _ _ _ (get_item_run x it s2 ltac:(by rewrite Ei2))), Hp.
  eapply (IH (l1 ++ [x])%list); [by rewrite <- app_assoc|lia|congruence..].
Qed.

Lemma frame_walk {A B} (body : option Z → A → SM A) (acc : A) (k : A → SM B) :
  (∀ d acc, list_frame (body d acc)) → (∀ a, list_frame (k a)) →
  list_frame (gets walk_fuel ≫= fun fuel => gets controlprogram_threads ≫= fun head =>
    walk_programs fuel head body acc ≫= k).
Proof.
  intros Hb Hk s l Hl. rewrite !gets_then. apply ends_bind.
  pose proof (dll_head _ _ _ _ (proj1 Hl)) as Eh. eapply ends_mono.
  - rewrite Eh. eapply (walk_frame body s l Hb Hl l []); try done.
    unfold walk_fuel. by rewrite (threads_are_size _ _ Hl).
  - intros acc' s1 [E1 E2]. eapply ends_mono.
    + apply (Hk _ s1 l). exact (threads_are_frame s s1 l E1 E2 Hl).
    + intros b s2 [E3 E4]. split; congruence.
Qed.

Lemma frame_walk_last {A} (body : option Z → A → SM A) (acc : A) :
  (∀ d acc, list_frame (body d acc)) →
  list_frame (gets walk_fuel ≫= fun fuel => gets controlprogram_threads ≫= fun head =>
    walk_programs fuel head body acc).
Proof.
  intros Hb s l Hl. rewrite !gets_then, (dll_head _ _ _ _ (proj1 Hl)) at 1.
  eapply ends_mono; [eapply (walk_frame body s l Hb Hl l []); try done|done].
  unfold walk_fuel. by rewrite (threads_are_size _ _ Hl).
Qed.

Lemma frame_each {I} (l : list I) (body : I → SM unit) :
  Forall (fun i => list_frame (body i)) l → list_frame (for_each l body).
Proof. induction 1; simpl; [apply frame_ret|]. apply frame_bind; [done|]. by intros _. Qed.

Lemma frame_steps steps : Forall list_frame steps → list_frame (run_steps steps).
Proof.
  intros. by apply frame_each.
Qed.

Lemma frame_request l k t : list_frame (run_steps (driver_request l k t)).
Proof. apply frame_steps. unfold driver_request, recv_msg. repeat (apply Forall_cons; split); [frames..|]. done. Qed.

Lemma frame_timing_pretrigger : list_frame (run_steps timing_pretrigger).
Proof.
  apply frame_steps. unfold timing_pretrigger, recv_words, recv_msg.
  repeat (apply Forall_cons; split); [frames..|]. done.
Qed.

Lemma frame_trigger_pre t0 tt : list_frame (trigger_pre t0 tt).
Proof.
  unfold trigger_pre, pretrigger_threads. apply frame_bind; [|intros _].
  - apply frame_each. repeat (apply Forall_cons; split); [apply frame_request ..| |done].
    apply frame_timing_pretrigger.
  - unfold timing_trigger, recv_msg. frames.
Qed.

Lemma frame_trigger_stamp a t : list_frame (trigger_stamp a t).
Proof.
  unfold trigger_stamp, DIO_transmitter_status, set_txread, recv_msg. frames.
Qed.

Lemma frame_handover d u : list_frame (handover_body d u).
Proof. unfold handover_body. frames. Qed.

Lemma frame_trigger t0 tt a : list_frame (trigger_sequence t0 tt a).
Proof.
  unfold trigger_sequence. apply frame_bind; [apply frame_trigger_pre|intros ?].
  apply frame_bind; [apply frame_trigger_stamp|intros _].
  apply frame_bind; [apply frame_request|intros _].
  apply frame_bind; [apply frame_request|intros _].
  apply frame_walk_last, frame_handover.
Qed.

Lemma frame_count d acc : list_frame (count_body d acc).
Proof. unfold count_body. frames. Qed.

Lemma frame_decide (ts rs : Z) :
  list_frame (if ts <? 2 then
    fuel ← gets walk_fuel;
    head ← gets controlprogram_threads;
    counts ← walk_programs fuel head count_body (0, 0, 0);
    let '(num, numready, numprocessing) := counts in
    mret (ready_state_of num numready rs)
  else mret rs).
Proof.
  destruct (ts <? 2); [|apply frame_ret].
  apply frame_walk; [apply frame_count|]. intros [[? ?] ?]. apply frame_ret.
Qed.

Lemma frame_coordination t0 a : list_frame (coordination_handler t0 a).
Proof.
  unfold coordination_handler, locked, lock, unlock. apply frame_bind; [apply frame_emit|intros _].
  apply frame_bind; [|intros ?; frames]. unfold coordination_body.
  apply frame_bind; [apply frame_gets|intros rs0]. apply frame_bind; [apply frame_gets|intros ttype].
  apply frame_bind; [apply frame_gets|intros ts]. apply frame_bind; [apply frame_gets|intros rc0].
  apply frame_bind; [apply frame_get_cp|intros cp].
  apply frame_bind; [unfold mark_program, set_txread; frames|intros rc].
  apply frame_bind; [apply frame_decide|intros rs]. frames. apply frame_trigger.
Qed.

Lemma frame_end a : list_frame timing_wait ∧ list_frame dds_end_controlprogram ∧
  list_frame timing_end_controlprogram ∧ list_frame (receiver_end_controlprogram None) ∧
  list_frame (unregister_radar_channel (Some a)).
Proof.
  split; [unfold timing_wait, recv_msg; frames|].
  unfold dds_end_controlprogram, timing_end_controlprogram, receiver_end_controlprogram,
    unregister_radar_channel, unregister_body, get_slot, set_slot.
  split; [frames|]. split; [frames|]. split; frames.
Qed.

(** The cleanup handler of a client leaves the thread list alone. *)
#[export] Instance exit_client_exit E : ClientExit (fun c => controlprogram_exit E (Some c)).
Proof.
  split. intros c. unfold controlprogram_exit, locked, lock, unlock, munmap_if, upd_cp.
  destruct (frame_end c) as (H1 & H2 & H3 & H4 & H5).
  pose proof (frame_coordination (env_type0 E) c) as H6. frames.
Qed.

(** ** What an exit leaves *)

(** The program an exit leaves at its address. *)
Definition released (cp : ControlProgram) : ControlProgram :=
  cp <| state := None |> <| parameters := None |> <| data := None |>
     <| main_mem := None |> <| back_mem := None |>
     <| main_address := 0 |> <| back_address := 0 |> <| active := 0 |>.

(** During the exit of [a] from [s0]: only [a]'s entry of the program table, the
    registry and the inboxes differ from [s0] (and the ready bookkeeping), and the
    events since [s0] are [tr]. *)
Definition leaving (s0 : server) (a : Z) (cp : ControlProgram) (R : list (option Z))
    (I : gmap sock (list packet)) (tr : list event) (s : server) : Prop :=
  heap s !! a = Some cp ∧ (∀ b, b ≠ a → heap s !! b = heap s0 !! b) ∧
  radar_channels s = R ∧ inbox s = I ∧ trace s = (trace s0 ++ tr)%list ∧
  thread_items s = thread_items s0 ∧
  controlprogram_threads s = controlprogram_threads s0 ∧ trigger_state s = trigger_state s0.

Lemma leaving_emit s0 a cp R I tr e (Q : unit → server → Prop) s :
  leaving s0 a cp R I tr s → (∀ s', leaving s0 a cp R I (tr ++ [e]) s' → Q tt s') → wp (emit e) Q s.
Proof.
  intros (Ha & Hb & Hr & Hi & Ht & Hv) HQ. apply wp_modify. apply HQ.
  split_and!; try done; [|apply Hv..]. simpl. by rewrite Ht, app_assoc.
Qed.

Lemma leaving_upd_cp s0 a cp R I tr g (Q : unit → server → Prop) s :
  leaving s0 a cp R I tr s → (∀ s', leaving s0 a (g cp) R I tr s' → Q tt s') → wp (upd_cp a g) Q s.
Proof.
  intros (Ha & Hb & Hv) HQ. unfold wp, upd_cp. rewrite (bind_ok _ _ _ _ _ (get_cp_run _ _ _ Ha)).
  apply HQ. split; [apply lookup_insert_eq|]. split; [|exact Hv].
  intros b Hne. rewrite <- Hb by done. by apply lookup_insert_ne.
Qed.

Lemma leaving_upd_state s0 a cp st R I tr g (Q : unit → server → Prop) s :
  leaving s0 a cp R I tr s → state cp = Some st →
  (∀ s', leaving s0 a (cp <| state := Some (g st) |>) R I tr s' → Q tt s') → wp (upd_state a g) Q s.
Proof.
  intros (Ha & Hb & Hv) Est HQ. unfold wp, upd_state.
  rewrite (bind_ok _ _ _ _ _ (get_cp_run _ _ _ Ha)), Est, deref_then.
  apply HQ. split; [apply lookup_insert_eq|]. split; [|exact Hv].
  intros b Hne. rewrite <- Hb by done. by apply lookup_insert_ne.
Qed.

Lemma leaving_get_cp s0 a cp R I tr (Q : ControlProgram → server → Prop) s :
  leaving s0 a cp R I tr s → Q cp s → wp (get_cp a) Q s.
Proof. intros (Ha & _) HQ. unfold wp. by rewrite (get_cp_run _ _ _ Ha). Qed.

Lemma leaving_recv_msg s0 a cp R I tr k t z rest (Q : unit → server → Prop) s :
  leaving s0 a cp R I tr s → I !! k = Some (PDriver t z :: rest) →
  (∀ s', leaving s0 a cp R (<[k := rest]> I) (tr ++ [EvRecv k (PDriver t z)]) s' → Q tt s') →
  wp (recv_msg k) Q s.
Proof.
  intros (Ha & Hb & Hr & Hi & Ht & Hv) Hk HQ. unfold wp, recv_msg, recv_driver, recv.
  unfold mbind, m_bind. rewrite Hi, Hk. apply HQ.
  split_and!; try done; [by rewrite <- Hi| |apply Hv..]. simpl. by rewrite Ht, app_assoc.
Qed.

Lemma leaving_unregister s0 a cp R I tr (Q : Z → server → Prop) s :
  leaving s0 a cp R I tr s → zlen R = 8 → is_Some (parameters cp) →
  (∀ n cp' s', leaving s0 a cp' (spec_unregister R a) I tr s' →
     cp' <| parameters := None |> = cp <| parameters := None |> → Q n s') →
  wp (unregister_radar_channel (Some a)) Q s.
Proof.
  intros (Ha & Hb & Hr & Hv) Hz [p Hp] HQ. unfold wp. rewrite unregister_run.
  2: { by rewrite Hr. }
  2: { intros _. by exists cp, p. }
  rewrite Hr. unfold heap_unregister. destruct (slot_count R a =? 0).
  - apply (HQ _ cp); [|done]. split; [exact Ha|]. split; [exact Hb|]. split; [|exact Hv].
    by rewrite <- Hr.
  - apply (HQ _ (on_params zero_slot cp)); [|by destruct cp].
    split; [|split; [|split; [by rewrite <- Hr|exact Hv]]].
    + change (alter (on_params zero_slot) a (heap s) !! a = Some (on_params zero_slot cp)).
      by rewrite lookup_alter_eq, Ha.
    + intros b Hne. rewrite <- Hb by done.
      change (alter (on_params zero_slot) a (heap s) !! b = heap s !! b). by rewrite lookup_alter_ne.
Qed.

(** Coordination on behalf of a program that is not active any more, while the
    others are not all ready. *)
Lemma leaving_coordination s0 a cp R I tr l cs t0 (Q : unit → server → Prop) s :
  leaving s0 a cp R I tr s → threads_are s l → programs_are s l cs → active cp ≠ 1 →
  trigger_state s < 2 → all_ready (heap s) cs = false →
  (∀ s', leaving s0 a cp R I (tr ++ [EvLock coord_lock; EvUnlock coord_lock]) s' → Q tt s') →
  wp (coordination_handler t0 a) Q s.
Proof.
  intros Hv Hl Hc Hact Hts Hall HQ. pose proof Hv as (Ha & Hb & Hr & Hi & Ht & Hv').
  unfold wp, coordination_handler, locked, lock, unlock, emit. rewrite modify_then.
  set (s1 := s <| trace ::= _ |>).
  assert (marked s1 a = s1) as Em.
  { unfold marked. change (heap s1) with (heap s). rewrite Ha.
    by rewrite (proj2 (Z.eqb_neq _ _) Hact). }
  assert (can_mark s1 a) as Hm by (exists cp; by split).
  pose proof (coordination_decide s1 l cs a t0 Hl Hc Hm Hts) as E. cbn zeta in E. rewrite Em in E.
  change (heap s1) with (heap s) in E. rewrite Hall in E. unfold modify in E at 1.
  rewrite (bind_ok _ _ _ _ _ E), modify_then. apply HQ.
  split_and!; try done; [|apply Hv'..]. simpl. by rewrite Ht, <- !app_assoc.
Qed.

Lemma all_ready_ext h h' cs :
  (∀ c, is_active h c = is_active h' c) →
  (∀ c, is_active h c = true → is_ready h c = is_ready h' c) →
  all_ready h cs = all_ready h' cs.
Proof.
  intros Ha Hr. unfold all_ready. f_equal.
  - induction cs as [| c cs IH]; [done|]. simpl. rewrite IH, <- Ha. f_equal.
    destruct (is_active h c) eqn:E; [|done]. by rewrite Hr.
  - induction cs as [| c cs IH]; [done|]. simpl. by rewrite IH, Ha.
Qed.

(** The program table just before the coordination of an exit. *)
Lemma leaving_all_ready s0 a cp cp' R I tr s cs :
  leaving s0 a cp R I tr s → active cp = 0 → active cp' = 0 →
  all_ready (heap s) cs = all_ready (<[a := cp']> (heap s0)) cs.
Proof.
  intros (Ha & Hb & _) E E'. apply all_ready_ext.
  - intros c. unfold is_active. destruct (decide (c = a)) as [->|Hne].
    + by rewrite Ha, lookup_insert_eq, E, E'.
    + by rewrite Hb, lookup_insert_ne.
  - intros c. unfold is_active, is_ready. destruct (decide (c = a)) as [->|Hne].
    + by rewrite Ha, E.
    + by rewrite Hb, lookup_insert_ne.
Qed.

Lemma leaving_programs s0 a cp R I tr s l cs :
  leaving s0 a cp R I tr s → active cp = 0 → programs_are s0 l cs → programs_are s l cs.
Proof.
  intros (Ha & Hb & _ & _ & _ & Hi & _) E Hc. unfold programs_are in *. rewrite Hi.
  eapply Forall2_impl; [exact Hc|]. simpl. intros x c [Hx (cpc & Ec & Hlive)]. split; [done|].
  destruct (decide (c = a)) as [->|Hne].
  - exists cp. split; [done|]. by rewrite E.
  - exists cpc. by rewrite Hb.
Qed.

Lemma leaving_threads s0 a cp R I tr s l :
  leaving s0 a cp R I tr s → threads_are s0 l → threads_are s l.
Proof. intros (_ & _ & _ & _ & _ & Hi & Ht & _). by apply threads_are_frame. Qed.

Lemma leaving_heap s0 a cp R I tr s : leaving s0 a cp R I tr s → heap s = <[a := cp]> (heap s0).
Proof.
  intros (Ha & Hb & _). apply map_eq. intros b. destruct (decide (b = a)) as [->|Hne].
  - by rewrite lookup_insert_eq.
  - rewrite lookup_insert_ne by done. by apply Hb.
Qed.

Ltac leaving_step :=
  lazymatch goal with
  | H : leaving _ _ _ _ _ _ ?s |- wp _ _ ?s =>
      first [ eapply (leaving_emit _ _ _ _ _ _ _ _ _ H)
            | eapply (leaving_upd_cp _ _ _ _ _ _ _ _ _ H)
            | eapply (leaving_get_cp _ _ _ _ _ _ _ _ H) ]
  end.

(** The events of a wait that is answered and of an end message. *)
Definition wait_events (t : ascii) (z : Z) : list event :=
  [EvLock timing_comm_lock; EvSend STiming (PDriver TIMING_WAIT 1); EvRecv STiming (PDriver t z);
   EvUnlock timing_comm_lock].

Definition end_events (l : lock_id) (k : sock) : list event :=
  [EvLock l; EvSend k (PDriver CtrlProg_END 1); EvUnlock l].

Lemma leaving_wait s0 a cp R I tr t z rest (Q : unit → server → Prop) s :
  leaving s0 a cp R I tr s → I !! STiming = Some (PDriver t z :: rest) →
  (∀ s', leaving s0 a cp R (<[STiming := rest]> I) (tr ++ wait_events t z) s' → Q tt s') →
  wp timing_wait Q s.
Proof.
  intros H0 Hin HQ. unfold timing_wait, locked. apply wp_bind. leaving_step. intros s1 H1.
  apply wp_bind, wp_bind. leaving_step. intros s2 H2.
  eapply (leaving_recv_msg _ _ _ _ _ _ _ _ _ _ _ _ H2 Hin). intros s3 H3.
  apply wp_bind. leaving_step. intros s4 H4. apply HQ. by rewrite <- !app_assoc in H4.
Qed.

(** The end messages, which nobody answers; the receiver is sent none, because the
    handler is given no program. *)
Lemma leaving_end l k s0 a cp R I tr (Q : unit → server → Prop) s :
  leaving s0 a cp R I tr s → (∀ s', leaving s0 a cp R I (tr ++ end_events l k) s' → Q tt s') →
  wp (locked l (send k (PDriver CtrlProg_END 1))) Q s.
Proof.
  intros H0 HQ. unfold locked. apply wp_bind. leaving_step. intros s1 H1.
  apply wp_bind. leaving_step. intros s2 H2. apply wp_bind. leaving_step. intros s3 H3.
  apply HQ. by rewrite <- !app_assoc in H3.
Qed.

Lemma leaving_recv_end s0 a cp R I tr (Q : unit → server → Prop) s :
  leaving s0 a cp R I tr s →
  (∀ s', leaving s0 a cp R I (tr ++ [EvLock recv_comm_lock; EvUnlock recv_comm_lock]) s' → Q tt s') →
  wp (receiver_end_controlprogram None) Q s.
Proof.
  intros H0 HQ. unfold receiver_end_controlprogram, locked. apply wp_bind. leaving_step. intros s1 H1.
  apply wp_bind, wp_ret, wp_bind. leaving_step. intros s2 H2. apply HQ. by rewrite <- !app_assoc in H2.
Qed.

Definition unmap_events (o : option Z) (len : Z) : list event :=
  match o with Some m => [EvMunmap m len] | None => [] end.

Lemma leaving_unmap s0 a cp R I tr o len (Q : unit → server → Prop) s :
  leaving s0 a cp R I tr s → (∀ s', leaving s0 a cp R I (tr ++ unmap_events o len) s' → Q tt s') →
  wp (munmap_if o len) Q s.
Proof.
  destruct o as [m|]; intros H0 HQ; [by eapply leaving_emit|]. simpl in HQ.
  rewrite app_nil_r in HQ. by apply HQ.
Qed.

(** The tail of an exit, once the registry is clean. *)
Lemma leaving_free E s0 a cp cp0' R I tr s :
  leaving s0 a cp R I tr s → cp <| parameters := None |> = cp0' <| parameters := None |> →
  wp (upd_cp a (fun cp => cp <| state := None |>);;
      upd_cp a (fun cp => cp <| parameters := None |>);;
      cp ← get_cp a;
      munmap_if (main_mem cp) (env_munmap_len E);;
      munmap_if (back_mem cp) (env_munmap_len E);;
      upd_cp a (fun cp => cp <| main_mem := None |> <| back_mem := None |>
        <| main_address := 0 |> <| back_address := 0 |>);;
      upd_cp a (fun cp => cp <| data := None |>);;
      upd_cp a (fun cp => cp <| active := 0 |>))
    (fun _ s' => leaving s0 a (released cp0') R I (tr ++ unmap_events (main_mem cp0') (env_munmap_len E) ++
       unmap_events (back_mem cp0') (env_munmap_len E)) s') s.
Proof.
  intros H0 Ecp. apply wp_bind. leaving_step. intros s1 H1.
  apply wp_bind. eapply (leaving_upd_cp _ _ _ _ _ _ _ _ _ H1). intros s2 H2.
  apply wp_bind. eapply (leaving_get_cp _ _ _ _ _ _ _ _ H2).
  assert (cp <| state := None |> <| parameters := None |> = cp0' <| parameters := None |> <| state := None |>) as E2.
  { rewrite <- Ecp. by destruct cp. }
  rewrite E2 in *. apply wp_bind. eapply (leaving_unmap _ _ _ _ _ _ _ _ _ _ H2). intros s3 H3.
  apply wp_bind. eapply (leaving_unmap _ _ _ _ _ _ _ _ _ _ H3). intros s4 H4.
  apply wp_bind. eapply (leaving_upd_cp _ _ _ _ _ _ _ _ _ H4). intros s5 H5.
  apply wp_bind. eapply (leaving_upd_cp _ _ _ _ _ _ _ _ _ H5). intros s6 H6.
  eapply (leaving_upd_cp _ _ _ _ _ _ _ _ _ H6). intros s7 H7.
  rewrite <- app_assoc in H7. by destruct cp0'.
Qed.

(** The events of the exit of a client on socket [fd] with the mappings [main] and
    [back], when the timing driver answers the wait with [t], [z]. *)
Definition exit_events (E : Env) (fd : Z) (main back : option Z) (t : ascii) (z : Z) : list event :=
  [EvLock exit_lock; EvLock coord_lock; EvUnlock coord_lock] ++ wait_events t z ++
  end_events dds_comm_lock SDds ++ end_events timing_comm_lock STiming ++
  [EvLock recv_comm_lock; EvUnlock recv_comm_lock; EvClose (SClient fd)] ++
  unmap_events main (env_munmap_len E) ++ unmap_events back (env_munmap_len E) ++ [EvUnlock exit_lock].

(** An exit while the remaining programs are not all ready. *)
Lemma exit_leaving E s l cs a cp st t z rest :
  threads_are s l → programs_are s l cs → trigger_state s < 2 →
  heap s !! a = Some cp → state cp = Some st → is_Some (parameters cp) →
  zlen (radar_channels s) = MAX_RADARS * MAX_CHANNELS →
  all_ready (<[a := cp <| active := 0 |>]> (heap s)) cs = false →
  inbox s !! STiming = Some (PDriver t z :: rest) →
  ∃ s', controlprogram_exit E (Some a) s = Ok (tt, s') ∧
    leaving s a (released cp) (spec_unregister (radar_channels s) a) (<[STiming := rest]> (inbox s))
      (exit_events E (socket st) (main_mem cp) (back_mem cp) t z) s'.
Proof.
  intros Hl Hc Hts Ecp Est Hp Hz Hall Hin.
  match goal with |- ∃ s', _ ∧ ?P => assert (wp (controlprogram_exit E (Some a)) (fun _ s' => P) s) as H end.
  2: { apply wp_run in H as ([] & s' & E' & H). by exists s'. }
  assert (leaving s a cp (radar_channels s) (inbox s) [] s) as H0
    by (split_and!; by rewrite ?app_nil_r).
  unfold controlprogram_exit, locked, lock, unlock. apply wp_bind.
  eapply (leaving_upd_state _ _ _ _ _ _ _ _ _ _ H0 Est). intros s1 H1.
  apply wp_bind. leaving_step. intros s2 H2.
  apply wp_bind. apply wp_bind. eapply (leaving_upd_cp _ _ _ _ _ _ _ _ _ H2). intros s3 H3.
  apply wp_bind. eapply (leaving_coordination _ _ _ _ _ _ l cs _ _ _ H3).
  { by eapply leaving_threads. }
  { by eapply leaving_programs. }
  { done. }
  { destruct H3 as (_ & _ & _ & _ & _ & _ & _ & ->). done. }
  { by rewrite (leaving_all_ready s a _ (cp <| active := 0 |>) _ _ _ s3 cs H3). }
  intros s4 H4. apply wp_bind. eapply (leaving_wait _ _ _ _ _ _ _ _ _ _ _ H4 Hin). intros s5 H5.
  apply wp_bind. eapply (leaving_end _ _ _ _ _ _ _ _ _ _ H5). intros s6 H6.
  apply wp_bind. eapply (leaving_end _ _ _ _ _ _ _ _ _ _ H6). intros s7 H7.
  apply wp_bind. eapply (leaving_recv_end _ _ _ _ _ _ _ _ H7). intros s8 H8.
  apply wp_bind. unfold get_state. apply wp_bind. eapply (leaving_get_cp _ _ _ _ _ _ _ _ H8).
  eapply wp_deref; [reflexivity|]. apply wp_bind. leaving_step. intros s9 H9.
  apply wp_bind. eapply (leaving_unregister _ _ _ _ _ _ _ _ H9); [exact Hz|exact Hp|].
  intros n cp' s10 H10 Ecp'.
  eapply wp_mono; [eapply (leaving_free E _ _ _ _ _ _ _ _ H10 Ecp')|]. intros [] s11 H11.
  apply wp_bind. leaving_step. intros s12 H12. apply wp_ret.
  rewrite <- !app_assoc in H12. destruct cp. exact H12.
Qed.

(** C10: a client that leaves while the remaining programs are not all ready
    always completes [controlprogram_exit], provided the timing driver answers
    the wait.  Its effects are exactly these: the events [exit_events] (the timing
    driver is asked to wait, the DDS and timing drivers are sent the end message,
    the receiver nothing, the client's socket is closed once, its mappings are
    unmapped); the program holds no state, parameters, data or mappings any more
    and is inactive, but keeps its [radarinfo], which nobody frees; its slots of
    the channel table, and no others, are free; the other programs and the list
    of threads are as before. *)
Theorem exit_releases E s l cs a cp st t z rest :
  threads_are s l → programs_are s l cs → trigger_state s < 2 →
  heap s !! a = Some cp → state cp = Some st → is_Some (parameters cp) →
  zlen (radar_channels s) = MAX_RADARS * MAX_CHANNELS →
  all_ready (<[a := cp <| active := 0 |>]> (heap s)) cs = false →
  inbox s !! STiming = Some (PDriver t z :: rest) →
  ∃ s', controlprogram_exit E (Some a) s = Ok (tt, s') ∧
    trace s' = (trace s ++ exit_events E (socket st) (main_mem cp) (back_mem cp) t z)%list ∧
    heap s' = <[a := mk_ControlProgram None None (clrfreqsearch cp) None (radarinfo cp) None 0 None 0 0]> (heap s) ∧
    (∀ i, zget (radar_channels s') i ≠ Some (Some a)) ∧
    (∀ i v, v ≠ Some a → zget (radar_channels s) i = Some v → zget (radar_channels s') i = Some v) ∧
    threads_are s' l.
Proof.
  intros Hl Hc Hts Ecp Est Hp Hz Hall Hin.
  destruct (exit_leaving E s l cs a cp st t z rest Hl Hc Hts Ecp Est Hp Hz Hall Hin) as (s' & Ex & H).
  exists s'. split; [done|]. pose proof (leaving_heap _ _ _ _ _ _ _ H) as Eh.
  destruct H as (_ & _ & Hr & _ & Ht & Hi & Hh & _). split_and!.
  - done.
  - rewrite Eh. by destruct cp.
  - rewrite Hr. by apply unregister_no_slot.
  - intros i v Hv Ei. rewrite Hr, spec_unregister_zget, Ei. simpl. by rewrite decide_False.
  - by apply (threads_are_frame s).
Qed.

(** ** Properties of the removal loops *)

(** The two removals as the server runs them: a cancelled client runs
    [controlprogram_exit]. *)
Definition timeout_pass_of (E : Env) (now : timeval) : SM unit :=
  timeout_handler (fun c => controlprogram_exit E (Some c)) now.

Definition cleanup_of (E : Env) : SM unit :=
  graceful_cleanup (fun c => controlprogram_exit E (Some c)).

(** ** A pass over the clients *)

(** The clients of the thread list as pairs of a list item and a program.  A client
    is in time when the seconds since it was last seen, as an [unsigned long], are
    at most those of its timeout. *)
Definition in_time (s : server) (now : timeval) (xc : Z * Z) : Prop :=
  match thread_items s !! xc.1 with
  | Some it => (tv_sec now - tv_sec (last_seen it)) mod 2 ^ 32 ≤ tv_sec (timeout it) mod 2 ^ 32
  | None => False
  end.

#[export] Instance in_time_dec s now xc : Decision (in_time s now xc).
Proof. unfold in_time. case_match; apply _. Defined.


Definition has_state (s : server) (c : Z) : Prop :=
  match heap s !! c with Some cp => is_Some (state cp) | None => False end.

#[export] Instance has_state_dec s c : Decision (has_state s c).
Proof. unfold has_state. case_match; apply _. Defined.


















(** [graceful_cleanup] on a well-formed thread list terminates, and when it
    returns the list is empty and no item is allocated any more. *)
Theorem cleanup_empties E s l :
  threads_are s l →
  cleanup_of E s ≠ Fault OutOfFuel ∧
  ∀ s', cleanup_of E s = Ok (tt, s') →
    controlprogram_threads s' = None ∧ thread_items s' = ∅.
Proof.
  intros Hl. pose proof (graceful_cleanup_are (fun c => controlprogram_exit E (Some c)) l s Hl) as H.
  fold (cleanup_of E) in H. unfold ends in H.
  destruct (cleanup_of E s) as [[[] s1]|e];
    split; try done; try congruence.
  intros s' [= <-]. destruct H as (Hd & _ & Hdom). split; [exact Hd|].
  apply dom_empty_inv_L. by rewrite Hdom.
Qed.

(** ** Witnesses *)

Lemma example_client_threads : threads_are example_client [3].
Proof.
  split; [|split; [refine (bool_decide_unpack _ _); vm_compute; exact I|vm_compute; reflexivity]].
  split; [reflexivity|]. eexists. split; [vm_compute; reflexivity|]. by split.
Defined.

Lemma example_client_programs : programs_are example_client [3] [7].
Proof.
  constructor; [|constructor]. split; [reflexivity|]. eexists. split; [reflexivity|]. intros _. by eexists.
Defined.



(** The pass at time 200 cancels the client and empties the list. *)
Example example_timeout :
  (match timeout_pass_of example_env (mk_timeval 200 0) example_client with
   | Ok (_, s) => Some (controlprogram_threads s, bool_decide (thread_items s = ∅), radar_channels s)
   | Fault _ => None
   end) = Some (None, true, replicate 8 None).
Proof. vm_compute. reflexivity. Qed.

Lemma cleanup_empties_witness :
  let cleanup := cleanup_of example_env in
  cleanup example_client ≠ Fault OutOfFuel ∧
  ∀ s', cleanup example_client = Ok (tt, s') → controlprogram_threads s' = None ∧ thread_items s' = ∅.
Proof. exact (cleanup_empties example_env example_client [3] example_client_threads). Defined.

Lemma exit_releases_witness : ∃ cp st,
  heap example_client !! 7 = Some cp ∧ state cp = Some st ∧
  ∃ s', controlprogram_exit example_env (Some 7) example_client = Ok (tt, s') ∧
    trace s' = (trace example_client ++
      exit_events example_env (socket st) (main_mem cp) (back_mem cp) TIMING_WAIT 1)%list ∧
    heap s' = <[7 := mk_ControlProgram None None (clrfreqsearch cp) None (radarinfo cp) None 0 None 0 0]>
      (heap example_client) ∧
    (∀ i, zget (radar_channels s') i ≠ Some (Some 7)) ∧
    (∀ i v, v ≠ Some 7 → zget (radar_channels example_client) i = Some v →
       zget (radar_channels s') i = Some v) ∧
    threads_are s' [3].
Proof.
  eexists _, _. split; [reflexivity|]. split; [reflexivity|].
  refine (exit_releases example_env example_client [3] [7] 7 _ _ TIMING_WAIT 1 []
    example_client_threads example_client_programs _ eq_refl eq_refl _ _ _ _).
  - reflexivity.
  - by eexists.
  - reflexivity.
  - vm_compute. reflexivity.
  - reflexivity.
Defined.
