(* ===== verification/Replies.v ===== *)
(** * Replies: what a client thread sends, and to whom

    Every message of a client is answered by exactly one ROSMsg of the
    message's type; while the client owns no radar channel nothing of what it
    asks for reaches a driver.  Both are stated over the sends of a run and
    proved by the structure of the handlers. *)

From Stdlib Require Import ZArith Lia Ascii String.
From stdpp Require Import base list gmap strings.
From S2P Require Import Prelude Binary64 Types Registry Threads ServerIO Locking Coordination FreqAssign ClientHandler.
Open Scope Z_scope.
Open Scope cvr_scope.

(** Every packet [m] sends satisfies [P]. *)
Definition sends_only {A} (P : sock → packet → Prop) (m : SM A) : Prop := ∀ s a s',
  m s = Ok (a, s') → ∃ tr, trace s' = (trace s ++ tr)%list ∧
    Forall (fun kp => P (fst kp) (snd kp)) (sends tr).

(** The ROSMsgs sent to the client [k]. *)
Definition replies (k : sock) (tr : list event) : list (ascii * Z) :=
  omap (fun kp => match kp with
    | (k', PRos t z) => if decide (k' = k) then Some (t, z) else None
    | _ => None end) (sends tr).

(** [m] sends [n] ROSMsgs to [k], all of type [t]. *)
Definition answers {A} (k : sock) (t : ascii) (n : nat) (m : SM A) : Prop := ∀ s a s',
  m s = Ok (a, s') → ∃ tr, trace s' = (trace s ++ tr)%list ∧
    map fst (replies k tr) = replicate n t.

(** What the handlers of the drivers send goes to a driver. *)
Definition to_driver (k : sock) (p : packet) : Prop :=
  match k with SClient _ => False | _ => True end.

(** Anything but a ROSMsg to [k]. *)
Definition no_reply (k k' : sock) (p : packet) : Prop :=
  k' = k → match p with PRos _ _ => False | _ => True end.

(** ** Closure *)

Section Closure.
  Context (P : sock → packet → Prop).

Lemma only_silent {A} (m : SM A) : silent m → sends_only P m.
Proof. intros Hm s a s' ->%Hm. exists []. rewrite app_nil_r. split; [done|constructor]. Qed.

Lemma only_bind {A B} (m : SM A) (f : A → SM B) :
  sends_only P m → (∀ a, sends_only P (f a)) → sends_only P (m ≫= f).
Proof.
  intros Hm Hf s b s'' (a & s' & E1 & E2)%bind_inv.
  destruct (Hm _ _ _ E1) as (tr1 & T1 & C1), (Hf _ _ _ _ E2) as (tr2 & T2 & C2).
  exists (tr1 ++ tr2)%list. rewrite T2, T1, app_assoc. split; [done|].
  rewrite sends_app. by apply Forall_app.
Qed.

Lemma only_emit e :
  match e with EvSend k p => P k p | _ => True end → sends_only P (emit e).
Proof.
  intros He s a s' [= <- <-]. exists [e]. split; [done|].
  destruct e; by repeat constructor.
Qed.

Lemma only_recv k : sends_only P (recv k).
Proof.
  intros s a s'. unfold recv. destruct (inbox s !! k) as [[|p rest]|]; try done.
  intros [= <- <-]. exists [EvRecv k p]. split; [done|constructor].
Qed.

Lemma only_ret {A} (a : A) : sends_only P (mret a : SM A).
Proof. apply only_silent. by intros s b s' [= <- <-]. Qed.

Lemma only_fail {A} e : sends_only P (fail e : SM A).
Proof. by intros s a s'. Qed.

Lemma only_gets {A} (f : server → A) : sends_only P (gets f).
Proof. apply only_silent. by intros s b s' [= <- <-]. Qed.

Lemma only_deref {A} e (o : option A) : sends_only P (deref e o : SM A).
Proof. apply only_silent. intros s b s'. unfold deref. destruct o; naive_solver. Qed.

Lemma only_modify f : (∀ s, trace (f s) = trace s) → sends_only P (modify f).
Proof. intros H. apply only_silent. by intros s b s' [= <- <-]. Qed.

Lemma only_get_cp a : sends_only P (get_cp a).
Proof.
  apply only_silent. intros s b s'. unfold get_cp. destruct (heap s !! a); naive_solver.
Qed.

Lemma only_get_item x : sends_only P (get_item x).
Proof.
  apply only_silent. intros s a s'. unfold get_item. destruct (thread_items s !! x); naive_solver.
Qed.

Lemma only_for_each {I} (l : list I) (body : I → SM unit) :
  (∀ i, sends_only P (body i)) → sends_only P (for_each l body).
Proof.
  intros Hb. induction l as [|i l IH]; simpl; [apply only_ret|].
  apply only_bind; [done|]. by intros _.
Qed.

Lemma only_each {I} (l : list I) (body : I → SM unit) :
  Forall (fun i => sends_only P (body i)) l → sends_only P (for_each l body).
Proof. induction 1; simpl; [apply only_ret|]. apply only_bind; [done|]. by intros _. Qed.

Lemma only_for_fold {I A} (l : list I) (body : I → A → SM A) :
  (∀ i a, sends_only P (body i a)) → ∀ acc, sends_only P (for_fold l body acc).
Proof.
  intros Hb. induction l as [|i l IH]; intros acc; simpl; [apply only_ret|].
  apply only_bind; [done|]. by intros a.
Qed.

Lemma only_for_break {I A} (l : list I) (body : I → A → SM (iter A)) :
  (∀ i a, sends_only P (body i a)) → ∀ acc, sends_only P (for_break l body acc).
Proof.
  intros Hb. induction l as [|i l IH]; intros acc; simpl; [apply only_ret|].
  apply only_bind; [done|]. intros [a|a]; [apply IH|apply only_ret].
Qed.

Lemma only_walk {A} (body : option Z → A → SM A) :
  (∀ d acc, sends_only P (body d acc)) → ∀ fuel head acc, sends_only P (walk_programs fuel head body acc).
Proof.
  intros Hb. induction fuel as [|fuel IH]; intros [x|] acc; simpl;
    try apply only_ret; [apply only_fail|].
  apply only_bind; [apply only_get_item|intros it]. apply only_bind; [apply Hb|intros acc'].
  apply only_bind; [apply only_get_item|intros it']. apply IH.
Qed.

End Closure.

(** [onlies] proves [sends_only] of a handler by its structure and leaves the
    packets it sends itself and the handlers it calls. *)
Ltac onlies :=
  repeat first
    [ match goal with |- forall _, _ => intros ? end
    | assumption
    | lazymatch goal with
      | |- sends_only _ (mbind _ _) => apply only_bind
      | |- sends_only _ (recv _) => apply only_recv
      | |- sends_only _ (mret _) => apply only_ret
      | |- sends_only _ (fail _) => apply only_fail
      | |- sends_only _ (gets _) => apply only_gets
      | |- sends_only _ (deref _ _) => apply only_deref
      | |- sends_only _ (get_cp _) => apply only_get_cp
      | |- sends_only _ (get_item _) => apply only_get_item
      | |- sends_only _ (emit _) => apply only_emit
      | |- sends_only _ (for_each _ _) => apply only_for_each
      | |- sends_only _ (for_fold _ _ _) => apply only_for_fold
      | |- sends_only _ (for_break _ _ _) => apply only_for_break
      | |- sends_only _ (walk_programs _ _ _ _) => apply only_walk
      | |- sends_only _ (modify _) => apply only_modify; reflexivity
      | |- sends_only _ (match ?x with _ => _ end) => destruct x
      end
    | exact I
    | progress unfold id, when, locked, lock, unlock, send, recv_msg, recv_driver, recv_ros, recv_int,
        get_params, get_state, upd_state, upd_params, upd_data, upd_radarinfo, set_cp, upd_cp,
        current_seq, upd_item ].

Lemma only_weaken {A} (P Q : sock → packet → Prop) (m : SM A) :
  (∀ k p, P k p → Q k p) → sends_only P m → sends_only Q m.
Proof.
  intros HPQ Hm s a s' E. destruct (Hm _ _ _ E) as (tr & Et & Hf). exists tr.
  split; [done|]. eapply Forall_impl; [exact Hf|]. intros [k p]. apply HPQ.
Qed.

(** ** The handlers of the drivers *)

Lemma only_request l k t : to_driver k (PDriver t 1) → sends_only to_driver (run_steps (driver_request l k t)).
Proof.
  intros Hk. apply only_each. repeat (apply Forall_cons; split); onlies. done.
Qed.

Lemma only_timing_pretrigger : sends_only to_driver (run_steps timing_pretrigger).
Proof.
  apply only_each. unfold timing_pretrigger, recv_words.
  repeat (apply Forall_cons; split); onlies. done.
Qed.

Lemma only_ready l k arg : (∀ p, to_driver k p) → sends_only to_driver (driver_ready l k arg).
Proof. intros Hk. unfold driver_ready. onlies; apply Hk. Qed.

Lemma only_register l k t a : (∀ p, to_driver k p) → sends_only to_driver (driver_register_seq l k t a).
Proof. intros Hk. unfold driver_register_seq. onlies; apply Hk. Qed.

Lemma only_trigger t0 tt a : sends_only to_driver (trigger_sequence t0 tt a).
Proof.
  unfold trigger_sequence. apply only_bind; [|intros ?].
  { unfold trigger_pre. apply only_bind; [|intros _].
    - apply only_each. unfold pretrigger_threads.
      repeat (apply Forall_cons; split); [by apply only_request..| |done].
      apply only_timing_pretrigger.
    - unfold timing_trigger. onlies. }
  apply only_bind; [unfold trigger_stamp, DIO_transmitter_status, set_txread; onlies|intros _].
  apply only_bind; [by apply only_request|intros _].
  apply only_bind; [by apply only_request|intros _].
  unfold handover_body. onlies.
Qed.

Lemma only_coordination t0 a : sends_only to_driver (coordination_handler t0 a).
Proof.
  unfold coordination_handler, coordination_body, mark_program, set_txread, count_body. onlies.
  apply only_trigger.
Qed.

Lemma only_wait : sends_only to_driver timing_wait.
Proof. unfold timing_wait. onlies. Qed.

Lemma only_dio_clrfreq arg : sends_only to_driver (DIO_clrfreq arg).
Proof. unfold DIO_clrfreq. onlies. Qed.

Lemma only_receiver_clrfreq r0 s0 now a : sends_only to_driver (receiver_clrfreq r0 s0 now a).
Proof.
  unfold receiver_clrfreq, clrfreq_search, fft_element, get_latest, set_latest. onlies.
Qed.

Lemma only_assign P q gb gi a : sends_only P (receiver_assign_frequency q gb gi a).
Proof.
  unfold receiver_assign_frequency, candidates, assign_best, blacklist_body. onlies.
Qed.

Lemma only_register_channel P p i j : sends_only P (register_radar_channel p i j).
Proof.
  unfold register_radar_channel, register_body, unregister_radar_channel, unregister_body,
    get_slot, set_slot. onlies.
Qed.

Lemma only_find P i j : sends_only P (find_registered_controlprogram_by_radar_channel i j).
Proof. unfold find_registered_controlprogram_by_radar_channel, get_slot. onlies. Qed.

Lemma only_fill P junk p : sends_only P (controlprogram_fill_parameters junk p).
Proof.
  unfold controlprogram_fill_parameters, best_of_radar, best_body, best_parameters. onlies.
  all: apply only_find.
Qed.

(** ** Counting the replies *)

Section Answers.
  Context (k : sock) (t : ascii).

Lemma replies_app tr1 tr2 : replies k (tr1 ++ tr2) = (replies k tr1 ++ replies k tr2)%list.
Proof. unfold replies. by rewrite sends_app, omap_app. Qed.

Lemma answers_bind {A B} n1 n2 (m : SM A) (f : A → SM B) :
  answers k t n1 m → (∀ a, answers k t n2 (f a)) → answers k t (n1 + n2) (m ≫= f).
Proof.
  intros Hm Hf s b s'' (a & s' & E1 & E2)%bind_inv.
  destruct (Hm _ _ _ E1) as (tr1 & T1 & C1), (Hf _ _ _ _ E2) as (tr2 & T2 & C2).
  exists (tr1 ++ tr2)%list. rewrite T2, T1, app_assoc. split; [done|].
  by rewrite replies_app, map_app, C1, C2, replicate_add.
Qed.

Lemma answers_none {A} (m : SM A) : sends_only (no_reply k) m → answers k t 0 m.
Proof.
  intros Hm s a s' E. destruct (Hm _ _ _ E) as (tr & Et & Hf). exists tr. split; [done|].
  unfold replies. induction Hf as [|[k' p] l Hp Hf IH]; [done|]. simpl.
  destruct p; try exact IH. case_decide; [by destruct (Hp ltac:(done))|exact IH].
Qed.

(** The reply comes in the rest of the handler, or in its first part. *)
Lemma answers_after {A B} (m : SM A) (f : A → SM B) :
  sends_only (no_reply k) m → (∀ a, answers k t 1 (f a)) → answers k t 1 (m ≫= f).
Proof. intros Hm Hf. apply (answers_bind 0 1); [by apply answers_none|done]. Qed.

Lemma answers_first {A B} (m : SM A) (f : A → SM B) :
  answers k t 1 m → (∀ a, sends_only (no_reply k) (f a)) → answers k t 1 (m ≫= f).
Proof. intros Hm Hf. apply (answers_bind 1 0); [done|]. intros a. by apply answers_none. Qed.

Lemma answers_send z : answers k t 1 (send k (PRos t z)).
Proof.
  intros s a s' [= <- <-]. exists [EvSend k (PRos t z)]. split; [done|].
  unfold replies. simpl. by rewrite decide_True.
Qed.

Lemma answers_send_ret {A} z (a : A) : answers k t 1 (send k (PRos t z);; mret a).
Proof. apply answers_first; [apply answers_send|]. intros _. apply only_ret. Qed.

Lemma answers_locked {A} l (m : SM A) : answers k t 1 m → answers k t 1 (locked l m).
Proof.
  intros Hm. unfold locked. apply answers_after; [unfold lock; onlies|intros _].
  apply answers_first; [done|]. intros a. unfold unlock. onlies.
Qed.

End Answers.

(** ** The commands *)

Lemma unregistered_true r c : r < 0 ∨ c < 0 → unregistered r c = true.
Proof. intros H. unfold unregistered. apply orb_true_iff. rewrite !Z.ltb_lt. done. Qed.

Section Commands.
  Context (E : Env) (fd : Z) (t : ascii).
Let k := SClient fd.

Lemma driver_no_reply k' p : to_driver k' p → no_reply k k' p.
Proof. intros Hd ->. destruct Hd. Qed.

Lemma only_driver {A} (m : SM A) : sends_only to_driver m → sends_only (no_reply k) m.
Proof. apply only_weaken, driver_no_reply. Qed.

(** [quietly] proves that a part of a handler sends no ROSMsg to the client. *)
Ltac quietly :=
  onlies; try (intros _; exact I);
  try first
    [ apply only_driver, only_coordination | apply only_driver, only_wait
    | apply only_driver, only_dio_clrfreq | apply only_driver, only_receiver_clrfreq
    | apply only_assign | apply only_register_channel | apply only_find | apply only_fill
    | apply only_driver, only_ready; done | apply only_driver, only_register; done
    | apply only_driver, only_request; done ].

Ltac answered :=
  repeat first
    [ apply answers_send | apply answers_send_ret
    | lazymatch goal with
      | |- answers _ _ 1 (locked _ _) => apply answers_locked
      | |- answers _ _ 1 (mbind _ _) => apply answers_after; [solve [quietly]|intros ?]
      | |- answers _ _ 1 (match ?x with _ => _ end) => destruct x
      end ].

Lemma answers_set_active a r c v : answers k t 1 (cmd_set_active E a k t r c v).
Proof. unfold cmd_set_active. answered. Qed.

Lemma answers_query_ini loc : answers k t 1 (cmd_query_ini E k t loc).
Proof. unfold cmd_query_ini, recv_name, recv_char. answered. Qed.

Lemma answers_radar_chan a loc :
  answers k t 1 (cmd_set_radar_chan a k t loc) ∧ answers k t 1 (cmd_link_radar_chan a k t loc).
Proof. unfold cmd_set_radar_chan, cmd_link_radar_chan. split; answered. Qed.

Lemma answers_parameters a r c loc :
  answers k t 1 (cmd_get_parameters a k t r c loc) ∧ answers k t 1 (cmd_set_parameters a k t r c).
Proof.
  unfold cmd_get_parameters, cmd_set_parameters, recv_params. split; answered.
Qed.

Lemma only_frame a r d : sends_only (no_reply k) (send_frame a k r d).
Proof. unfold send_frame, send_samples, send_words. quietly. Qed.

Lemma only_get_data : sends_only (no_reply k) (env_others E) → ∀ a,
  sends_only (no_reply k) (receiver_controlprogram_get_data (env_mmap_shm E) (env_mmap_phys E) (env_others E) a).
Proof.
  intros Ho a. unfold receiver_controlprogram_get_data, wait_not_ready, receive_frame, munmap_if. quietly.
Qed.

Lemma answers_get_data a r c loc :
  sends_only (no_reply k) (env_others E) → answers k t 1 (cmd_get_data E a k t r c loc).
Proof.
  intros Ho. unfold cmd_get_data. destruct (unregistered r c); [answered|].
  apply answers_after; [by apply only_get_data|intros _]. apply answers_locked.
  do 5 (apply answers_after; [quietly|intros ?]). apply answers_after; [quietly|intros _].
  apply answers_after; [|intros _; apply answers_send].
  unfold when. destruct (data_status _ =? 0); [apply only_frame|apply only_ret].
Qed.

Lemma answers_sequence a r c :
  answers k t 1 (cmd_register_seq a k t r c) ∧ answers k t 1 (cmd_set_ready E a k t r c).
Proof.
  unfold cmd_register_seq, cmd_set_ready, set_pulseseq, recv_bytes. split; answered.
Qed.

Lemma answers_frequency a r c :
  answers k t 1 (cmd_clear_freq_search E a k t r c) ∧ answers k t 1 (cmd_assigned_freq E a k t r c).
Proof. unfold cmd_clear_freq_search, cmd_assigned_freq. split; answered. Qed.

Lemma answers_simple :
  answers k t 1 (cmd_get_site_settings k t) ∧ answers k t 1 (cmd_set_site_ifmode k t).
Proof. unfold cmd_get_site_settings, cmd_set_site_ifmode. split; answered. Qed.

Lemma answers_stay loc (m : SM unit) :
  answers k t 1 m → answers k t 1 (m;; mret (loc, false) : SM (Locals * bool)).
Proof. intros Hm. apply answers_first; [done|]. intros _. apply only_ret. Qed.

Lemma answers_keep (m : SM Locals) :
  answers k t 1 m → answers k t 1 (loc ← m; mret (loc, false) : SM (Locals * bool)).
Proof. intros Hm. apply answers_first; [done|]. intros ?. apply only_ret. Qed.

Lemma answers_dispatch a r c loc :
  sends_only (no_reply k) (env_others E) → answers k t 1 (dispatch E a k r c t loc).
Proof.
  intros Ho. unfold dispatch.
  repeat match goal with |- answers _ _ _ (if decide (?x = ?y) then _ else _) => destruct (decide (x = y)) end.
  all: first [ apply answers_keep | apply answers_stay | apply answers_send_ret ].
  all: first [ apply answers_send | apply answers_set_active | apply answers_query_ini
    | apply answers_simple | apply (answers_radar_chan a loc) | apply (answers_parameters a r c loc)
    | by apply answers_get_data | apply answers_sequence | apply answers_frequency ].
Qed.

Lemma dispatch_leave a r c loc s out s' :
  dispatch E a k r c t loc s = Ok (out, s') → snd out = bool_decide (t = QUIT).
Proof.
  unfold dispatch.
  repeat match goal with
  | |- (if decide (?x = ?y) then _ else _) _ = _ → _ => destruct (decide (x = y)) as [->|]
  end.
  all: intros (? & ? & _ & E1)%bind_inv; injection E1 as <- _; simpl; symmetry.
  all: first [ reflexivity | by apply bool_decide_false ].
Qed.
End Commands.

(** ** Properties *)

(** C9: every message of a client is answered by exactly one ROSMsg, of the
    type of the message, whatever the message, the state of the server and what
    the drivers send back; and the thread exits after a QUIT and after no other
    message. *)
Theorem one_reply E a fd r c t loc s out s' :
  sends_only (no_reply (SClient fd)) (env_others E) →
  dispatch E a (SClient fd) r c t loc s = Ok (out, s') →
  (∃ tr z, trace s' = (trace s ++ tr)%list ∧ replies (SClient fd) tr = [(t, z)]) ∧
  snd out = bool_decide (t = QUIT).
Proof.
  intros Ho Er. split; [|by eapply dispatch_leave].
  destruct (answers_dispatch E fd t a r c loc Ho s out s' Er) as (tr & Et & Hr).
  exists tr. destruct (replies (SClient fd) tr) as [|[t' z] [|? ?]]; try done.
  injection Hr as <-. by exists z.
Qed.

(** ** Clients without a radar channel *)

Section Isolation.
  Context (E : Env) (fd : Z).
Let k := SClient fd.
Let to_client : sock → packet → Prop := fun k' _ => k' = k.

Lemma only_keep {A} (m : SM A) (out : A → Locals * bool) :
  sends_only to_client m → sends_only to_client (x ← m; mret (out x)).
Proof. intros Hm. apply only_bind; [done|]. intros x. apply only_ret. Qed.

Lemma only_dispatch a r c t loc :
  unregistered r c = true → sends_only to_client (dispatch E a k r c t loc).
Proof.
  intros Hu. unfold dispatch.
  repeat match goal with |- sends_only _ (if decide (?x = ?y) then _ else _) => destruct (decide (x = y)) end.
  all: apply only_keep || (apply only_bind; [|intros ?; apply only_ret]).
  all: unfold cmd_set_active, cmd_query_ini, cmd_get_site_settings, cmd_set_site_ifmode,
    cmd_set_radar_chan, cmd_link_radar_chan, cmd_get_parameters, cmd_get_data, cmd_set_parameters,
    cmd_register_seq, cmd_set_ready, cmd_clear_freq_search, cmd_assigned_freq,
    set_pulseseq, recv_bytes, recv_name, recv_char, recv_params; rewrite ?Hu; onlies; try reflexivity.
  all: first [ apply only_register_channel | apply only_find ].
Qed.

End Isolation.

(** [m] does not write the radar and channel the program [a] is registered for. *)
Definition keeps_info {A} (a : Z) (m : SM A) : Prop := ∀ s x s',
  m s = Ok (x, s') → radarinfo <$> heap s' !! a = radarinfo <$> heap s !! a.

Section Info.
  Context (a : Z).

Lemma info_bind {A B} (m : SM A) (f : A → SM B) :
  keeps_info a m → (∀ x, keeps_info a (f x)) → keeps_info a (m ≫= f).
Proof. intros Hm Hf s y s'' (x & s' & E1 & E2)%bind_inv. rewrite (Hf _ _ _ _ E2). by eapply Hm. Qed.

Lemma info_heap {A} (m : SM A) : (∀ s x s', m s = Ok (x, s') → heap s' = heap s) → keeps_info a m.
Proof. intros Hm s x s' E. by rewrite (Hm _ _ _ E). Qed.

Lemma info_ret {A} (x : A) : keeps_info a (mret x : SM A).
Proof. apply info_heap. by intros s y s' [= _ <-]. Qed.

Lemma info_emit e : keeps_info a (emit e).
Proof. apply info_heap. by intros s y s' [= _ <-]. Qed.

Lemma info_fail {A} e : keeps_info a (fail e : SM A).
Proof. by intros s y s'. Qed.

Lemma info_gets {A} (f : server → A) : keeps_info a (gets f).
Proof. apply info_heap. by intros s y s' [= _ <-]. Qed.

Lemma info_deref {A} e (o : option A) : keeps_info a (deref e o : SM A).
Proof. apply info_heap. intros s y s'. unfold deref. destruct o; naive_solver. Qed.

Lemma info_modify f : (∀ s, heap (f s) = heap s) → keeps_info a (modify f).
Proof. intros H. apply info_heap. by intros s y s' [= _ <-]. Qed.

Lemma info_recv k : keeps_info a (recv k).
Proof.
  apply info_heap. intros s y s'. unfold recv. destruct (inbox s !! k) as [[|p rest]|]; try done.
  by intros [= _ <-].
Qed.

Lemma info_get_cp b : keeps_info a (get_cp b).
Proof. apply info_heap. intros s y s'. unfold get_cp. destruct (heap s !! b); naive_solver. Qed.

Lemma info_get_item x : keeps_info a (get_item x).
Proof. apply info_heap. intros s y s'. unfold get_item. destruct (thread_items s !! x); naive_solver. Qed.

(** Assignments to members of a program, or of a block it points to. *)
Lemma info_upd_cp b f : (∀ cp, radarinfo (f cp) = radarinfo cp) → keeps_info a (upd_cp b f).
Proof.
  intros Hf s x s' (cp & s1 & E1 & E2)%bind_inv. unfold get_cp in E1.
  destruct (heap s !! b) as [cp'|] eqn:Eb; [|done]. injection E1 as -> <-. injection E2 as _ <-.
  change (heap (s <| heap ::= <[b := f cp]> |>)) with (<[b := f cp]> (heap s)).
  destruct (decide (b = a)) as [->|Hne]; [|by rewrite lookup_insert_ne].
  rewrite lookup_insert_eq, Eb. simpl. by rewrite Hf.
Qed.

Lemma info_upd_state b f : keeps_info a (upd_state b f).
Proof.
  intros s x s' E. apply (info_upd_cp b (fun cp => cp <| state ::= fmap f |>) ltac:(done) s x s').
  unfold upd_state in E. apply bind_inv in E as (cp & s1 & E1 & E). unfold upd_cp.
  rewrite (bind_ok _ _ _ _ _ E1). destruct (state cp) as [st|] eqn:Es; [|done]. rewrite deref_then in E.
  rewrite <- E. unfold set_cp, modify, set_field. simpl. by rewrite Es.
Qed.

Lemma info_upd_params b f : keeps_info a (upd_params b f).
Proof.
  intros s x s' E. apply (info_upd_cp b (fun cp => cp <| parameters ::= fmap f |>) ltac:(done) s x s').
  unfold upd_params in E. apply bind_inv in E as (cp & s1 & E1 & E). unfold upd_cp.
  rewrite (bind_ok _ _ _ _ _ E1). destruct (parameters cp) as [p|] eqn:Es; [|done]. rewrite deref_then in E.
  rewrite <- E. unfold set_cp, modify, set_field. simpl. by rewrite Es.
Qed.

Lemma info_upd_data b f : keeps_info a (upd_data b f).
Proof.
  intros s x s' E. apply (info_upd_cp b (fun cp => cp <| data ::= fmap f |>) ltac:(done) s x s').
  unfold upd_data in E. apply bind_inv in E as (cp & s1 & E1 & E). unfold upd_cp.
  rewrite (bind_ok _ _ _ _ _ E1). destruct (data cp) as [d|] eqn:Es; [|done]. rewrite deref_then in E.
  rewrite <- E. unfold set_cp, modify, set_field. simpl. by rewrite Es.
Qed.

Lemma info_for_break {I A} (l : list I) (body : I → A → SM (iter A)) :
  (∀ i x, keeps_info a (body i x)) → ∀ acc, keeps_info a (for_break l body acc).
Proof.
  intros Hb. induction l as [|i l IH]; intros acc; simpl; [apply info_ret|].
  apply info_bind; [done|]. intros [x|x]; [apply IH|apply info_ret].
Qed.

End Info.

(** [infos] proves [keeps_info] of a handler by its structure. *)
Ltac infos :=
  repeat first
    [ match goal with |- forall _, _ => intros ? end
    | assumption
    | lazymatch goal with
      | |- keeps_info _ (mbind _ _) => apply info_bind
      | |- keeps_info _ (recv _) => apply info_recv
      | |- keeps_info _ (mret _) => apply info_ret
      | |- keeps_info _ (fail _) => apply info_fail
      | |- keeps_info _ (gets _) => apply info_gets
      | |- keeps_info _ (deref _ _) => apply info_deref
      | |- keeps_info _ (get_cp _) => apply info_get_cp
      | |- keeps_info _ (get_item _) => apply info_get_item
      | |- keeps_info _ (emit _) => apply info_emit
      | |- keeps_info _ (upd_cp _ _) => apply info_upd_cp; reflexivity
      | |- keeps_info _ (upd_state _ _) => apply info_upd_state
      | |- keeps_info _ (upd_params _ _) => apply info_upd_params
      | |- keeps_info _ (upd_data _ _) => apply info_upd_data
      | |- keeps_info _ (for_break _ _ _) => apply info_for_break
      | |- keeps_info _ (modify _) => apply info_modify; reflexivity
      | |- keeps_info _ (match ?x with _ => _ end) => destruct x
      end
    | progress unfold when, locked, lock, unlock, send, recv_ros, recv_int, get_params, get_state, upd_item ].

Section Unregistered.
  Context (E : Env) (fd : Z).
Let k := SClient fd.
Let to_client : sock → packet → Prop := fun k' _ => k' = k.

Lemma info_dispatch a r c t loc :
  unregistered r c = true → t ≠ SET_RADAR_CHAN → keeps_info a (dispatch E a k r c t loc).
Proof.
  intros Hu Ht. unfold dispatch.
  repeat match goal with |- keeps_info _ (if decide (?x = ?y) then _ else _) => destruct (decide (x = y)) end;
    try done.
  all: unfold cmd_set_active, cmd_query_ini, cmd_get_site_settings, cmd_set_site_ifmode,
    cmd_link_radar_chan, cmd_get_parameters, cmd_get_data, cmd_set_parameters,
    cmd_register_seq, cmd_set_ready, cmd_clear_freq_search, cmd_assigned_freq,
    find_registered_controlprogram_by_radar_channel, get_slot,
    set_pulseseq, recv_bytes, recv_name, recv_char, recv_params; rewrite ?Hu; infos.
Qed.

Lemma recv_ros_inv s x s' : recv_ros k s = Ok (x, s') → trace s' = (trace s ++ [EvRecv k (PRos x.1 x.2)])%list.
Proof.
  intros (p & s1 & E1 & E2)%bind_inv. unfold recv in E1.
  destruct (inbox s !! k) as [[|p' rest]|]; try done. injection E1 as -> <-.
  destruct p; try done. injection E2 as <- <-. done.
Qed.

(** The receipt of a message. *)
Lemma receive_inv a now s r c t s' cp :
  heap s !! a = Some cp → receive_message a k now s = Ok ((r, c, t), s') →
  r = ri_radar (radarinfo cp) - 1 ∧ c = ri_channel (radarinfo cp) - 1 ∧
  radarinfo <$> heap s' !! a = radarinfo <$> heap s !! a ∧
  ∃ tr z, trace s' = (trace s ++ tr)%list ∧ sends tr = [] ∧ EvRecv k (PRos t z) ∈ tr.
Proof.
  intros Ecp Er. assert (keeps_info a (receive_message a k now)) as Hk by (unfold receive_message; infos).
  pose proof (Hk _ _ _ Er) as Hi. clear Hk. unfold receive_message, locked, lock, emit in Er.
  rewrite modify_then in Er. apply bind_inv in Er as (rct & s5 & Er & E5).
  unfold unlock, emit in E5. rewrite modify_then in E5. injection E5 as -> E5.
  set (s1 := s <| trace ::= _ |>) in Er. change (heap s) with (heap s1) in Ecp.
  rewrite (bind_ok _ _ _ _ _ (get_cp_run _ _ _ Ecp)) in Er.
  apply bind_inv in Er as ([] & s2 & E2 & Er). apply bind_inv in Er as ([t' z] & s3 & E3 & Er).
  assert (sends_only (fun _ _ => False) (when (unregistered (ri_radar (radarinfo cp) - 1) (ri_channel (radarinfo cp) - 1))
    (upd_data a (fun d => d <| data_status := -1 |>)))) as H2 by onlies.
  destruct (H2 _ _ _ E2) as (tr2 & T2 & F2). apply recv_ros_inv in E3 as T3. simpl in T3.
  apply bind_inv in Er as (st & s6 & E6 & Er).
  assert (sends_only (fun _ _ => False) (x ← deref NullDeref (thread st);
     upd_item x (fun it => it <| last_seen := now |>);;
     mret (ri_radar (radarinfo cp) - 1, ri_channel (radarinfo cp) - 1, t'))) as H7 by onlies.
  assert (sends_only (fun _ _ => False) (get_state a)) as H6 by onlies.
  destruct (H6 _ _ _ E6) as (tr6 & T6 & F6). destruct (H7 _ _ _ Er) as (tr7 & T7 & F7).
  apply bind_inv in Er as (x & s7 & _ & Er). apply bind_inv in Er as ([] & s8 & _ & Er).
  injection Er as <- <- <- _. split_and!; [done..|].
  exists ([EvLock controlprogram_list_lock] ++ tr2 ++ [EvRecv k (PRos t' z)] ++ tr6 ++ tr7 ++
    [EvUnlock controlprogram_list_lock])%list, z.
  assert (∀ tr, Forall (fun kp : sock * packet => False) (sends tr) → sends tr = []) as Hnil
    by (intros tr Hf; destruct (sends tr); [done|by apply Forall_cons in Hf as [[] _]]).
  split_and!.
  - rewrite <- E5. change (trace s5 ++ [EvUnlock controlprogram_list_lock] = trace s ++ [EvLock controlprogram_list_lock] ++
      tr2 ++ [EvRecv k (PRos t' z)] ++ tr6 ++ tr7 ++ [EvUnlock controlprogram_list_lock])%list.
    rewrite T7, T6, T3, T2. change (trace s1) with (trace s ++ [EvLock controlprogram_list_lock])%list.
    by rewrite <- !app_assoc.
  - rewrite !sends_app, (Hnil tr2 F2), (Hnil tr6 F6), (Hnil tr7 F7). reflexivity.
  - set_solver.
Qed.

(** A message, from its receipt to its answer. *)
Lemma message_isolated a now loc s r c t s1 out s2 cp :
  sends_only (no_reply k) (env_others E) →
  heap s !! a = Some cp → ri_radar (radarinfo cp) ≤ 0 ∨ ri_channel (radarinfo cp) ≤ 0 →
  receive_message a k now s = Ok ((r, c, t), s1) → dispatch E a k r c t loc s1 = Ok (out, s2) →
  ∃ tr, trace s2 = (trace s ++ tr)%list ∧ (∀ k' p, (k', p) ∈ sends tr → k' = k) ∧
    ((∃ z, EvRecv k (PRos SET_RADAR_CHAN z) ∈ tr) ∨
     ∃ cp', heap s2 !! a = Some cp' ∧ radarinfo cp' = radarinfo cp).
Proof.
  intros Ho Ecp Hinfo Er Ed. destruct (receive_inv a now s r c t s1 cp Ecp Er) as (-> & -> & Hi1 & tr1 & z & T1 & S1 & R1).
  set (r := ri_radar (radarinfo cp) - 1) in *. set (c := ri_channel (radarinfo cp) - 1) in *.
  assert (unregistered r c = true) as Hu by (apply unregistered_true; lia).
  destruct (only_dispatch E fd a r c t loc Hu s1 out s2 Ed) as (tr2 & T2 & F2).
  exists (tr1 ++ tr2)%list. rewrite T2, T1, <- app_assoc. split_and!; [done| |].
  - rewrite sends_app, S1. intros k' p Hin. rewrite Forall_forall in F2. by apply (F2 (k', p)).
  - destruct (decide (t = SET_RADAR_CHAN)) as [->|Ht].
    + left. exists z. apply elem_of_app. by left.
    + right. pose proof (info_dispatch a r c t loc Hu Ht s1 out s2 Ed) as Hi2.
      rewrite Hi1, Ecp in Hi2. destruct (heap s2 !! a) as [cp'|]; [|done]. exists cp'. by injection Hi2 as ->.
Qed.
End Unregistered.

(** A run of the loop ends in the exit handler. *)
Lemma loop_exits E a fd ws : sends_only (no_reply (SClient fd)) (env_others E) → ∀ loc s s',
  client_loop E ws a (SClient fd) loc s = Ok (tt, s') →
  ∃ tr s1, trace s1 = (trace s ++ tr)%list ∧ controlprogram_exit E (Some a) s1 = Ok (tt, s').
Proof.
  intros Ho. induction ws as [|[| |now] ws IH]; intros loc s s' Er; cbn [client_loop] in Er;
    try (by exists [], s; rewrite app_nil_r); [by eapply IH|].
  apply bind_inv in Er as ([[r c] t] & s1 & E1 & Er). apply bind_inv in Er as ([loc' leave] & s2 & E2 & Er).
  assert (sends_only (fun _ _ => True) (receive_message a (SClient fd) now)) as H1 by (unfold receive_message; onlies).
  destruct (H1 _ _ _ E1) as (tr1 & T1 & _).
  destruct (answers_dispatch E fd t a r c loc Ho s1 _ s2 E2) as (tr2 & T2 & _).
  destruct leave.
  - exists (tr1 ++ tr2)%list, s2. by rewrite T2, T1, app_assoc.
  - destruct (IH _ _ _ Er) as (tr3 & s3 & T3 & E3). exists (tr1 ++ tr2 ++ tr3)%list, s3.
    by rewrite T3, T2, T1, <- !app_assoc.
Qed.

(** C40: a client that was never registered for a radar channel (as long as its
    [radarinfo] holds no radar or no channel, which is what [control_init] writes
    and only SET_RADAR_CHAN changes) reaches no driver: from any message on until
    the exit handler starts, whatever else it asks for, everything sent on its
    behalf goes to its own socket.  What the exit handler itself sends is
    [exit_events] (Exit.v).  A client that lost its channel keeps its [radarinfo]
    and is not covered ([lost_channel_still_served]). *)
Theorem unregistered_isolated E a fd ws loc s cp s' :
  sends_only (no_reply (SClient fd)) (env_others E) →
  heap s !! a = Some cp → ri_radar (radarinfo cp) ≤ 0 ∨ ri_channel (radarinfo cp) ≤ 0 →
  client_loop E ws a (SClient fd) loc s = Ok (tt, s') →
  ∃ tr s1, trace s1 = (trace s ++ tr)%list ∧ controlprogram_exit E (Some a) s1 = Ok (tt, s') ∧
    ((∀ z, EvRecv (SClient fd) (PRos SET_RADAR_CHAN z) ∉ tr) → ∀ k p, (k, p) ∈ sends tr → k = SClient fd).
Proof.
  intros Ho. revert loc s cp. induction ws as [|[| |now] ws IH]; intros loc s cp Ecp Hinfo Er; cbn [client_loop] in Er.
  1-2: exists [], s; rewrite app_nil_r; split_and!; [done..|]; by intros _ k p ?%not_elem_of_nil.
  { by eapply IH. }
  apply bind_inv in Er as ([[r c] t] & s1 & E1 & Er). apply bind_inv in Er as ([loc' leave] & s2 & E2 & Er).
  destruct (message_isolated E fd a now loc s r c t s1 _ s2 cp Ho Ecp Hinfo E1 E2) as (tr & T & Hs & Hnext).
  destruct leave; [by exists tr, s2|].
  destruct Hnext as [[z Hz]|(cp' & Ecp' & Hi)].
  - destruct (loop_exits E a fd ws Ho _ _ _ Er) as (tr2 & s3 & T2 & E3). exists (tr ++ tr2)%list, s3.
    rewrite T2, T, <- app_assoc. split_and!; [done..|]. intros Hno. destruct (Hno z). apply elem_of_app. by left.
  - rewrite <- Hi in Hinfo. destruct (IH _ _ _ Ecp' Hinfo Er) as (tr2 & s3 & T2 & E3 & Hs2).
    exists (tr ++ tr2)%list, s3. rewrite T2, T, <- app_assoc. split_and!; [done..|]. intros Hno k p.
    rewrite sends_app. intros [Hin|Hin]%elem_of_app; [by eapply Hs|].
    eapply Hs2; [|exact Hin]. intros z Hz. destruct (Hno z). apply elem_of_app. by right.
Qed.

(** ** Requests the checks miss *)

(** A run of receives from the client. *)
Lemma recv_run k p rest s : inbox s !! k = Some (p :: rest) →
  recv k s = Ok (p, s <| inbox ::= <[k := rest]> |>
                      <| trace ::= fun t => (t ++ [EvRecv k p])%list |>).
Proof. intros E. unfold recv. by rewrite E. Qed.

(** a query of a string entry is answered by the string and then, because
    its case has no [break], by a second, empty answer of type ' ' before the
    ROSMsg. *)
Theorem query_string_runs_on E fd t loc s name rest key str :
  let k := SClient fd in
  inbox s !! k = Some (PInt (Z.of_nat (String.length name)) :: PText name :: PChar "s"%char :: rest) →
  (0 < String.length name ≤ 80)%nat →
  cstring (String.append name (String.substring (String.length name) (80 - String.length name)
    (loc_entry_name loc))) = Some key →
  env_getstring E key = Some str → str ≠ EmptyString →
  ∃ loc' s' tr, cmd_query_ini E k t loc s = Ok (loc', s') ∧ trace s' = (trace s ++ tr)%list ∧
    sends tr = [(k, PChar "s"%char); (k, PInt (Z.of_nat (String.length str))); (k, PText str);
                (k, PChar " "%char); (k, PInt 0); (k, PRos t (env_find_entry E key))].
Proof.
  intros k Hin Hlen Hkey Hstr Hne. unfold cmd_query_ini, recv_int, recv_name, recv_char.
  set (n := String.length name) in *.
  rewrite bind_assoc, (bind_ok _ _ _ _ _ (recv_run _ _ _ _ Hin)), ret_then.
  set (s1 := _ <| trace ::= _ |>).
  rewrite (proj2 (Z.eqb_neq (Z.of_nat n) 0)) by lia.
  rewrite (proj2 (Z.ltb_lt 0 (Z.of_nat n))), (proj2 (Z.leb_le (Z.of_nat n) 80)) by lia.
  cbn [andb negb].
  assert (inbox s1 !! k = Some (PText name :: PChar "s"%char :: rest)) as Hin1
    by (unfold s1; simpl; apply lookup_insert_eq).
  rewrite bind_assoc, (bind_ok _ _ _ _ _ (recv_run _ _ _ _ Hin1)).
  set (s2 := _ <| trace ::= _ |>). fold n. rewrite Z.eqb_refl, ret_then.
  assert (inbox s2 !! k = Some (PChar "s"%char :: rest)) as Hin2
    by (unfold s2; simpl; apply lookup_insert_eq).
  rewrite bind_assoc, (bind_ok _ _ _ _ _ (recv_run _ _ _ _ Hin2)), ret_then.
  set (s3 := _ <| trace ::= _ |>). rewrite Hkey, deref_then.
  rewrite !decide_False by discriminate. rewrite decide_True by done.
  rewrite Hstr. destruct str as [|ch str]; [done|].
  assert (trace s3 = (trace s ++ [EvRecv k (PInt (Z.of_nat n)); EvRecv k (PText name); EvRecv k (PChar "s"%char)])%list) as E3.
  { unfold s3, s2, s1. simpl. by rewrite <- !app_assoc. }
  clearbody s3. eexists _, _, _. split; [reflexivity|]. split.
  { simpl. rewrite E3, <- !app_assoc. reflexivity. }
  reflexivity.
Qed.

(** SET_READY before REGISTER_SEQ: the sequence index is still -1, and
    every ready handler reads [pulseseqs] outside its bounds. *)
Theorem ready_without_sequence l k a s cp st p :
  heap s !! a = Some cp → state cp = Some st → parameters cp = Some p →
  ¬ (0 ≤ current_pulseseq_index p < zlen (pulseseqs st)) →
  driver_ready l k (Some a) s = Fault OutOfBounds.
Proof.
  intros Ecp Est Ep Hi. unfold driver_ready, locked, lock, emit. rewrite modify_then.
  set (s1 := s <| trace ::= _ |>). change (heap s) with (heap s1) in Ecp. clearbody s1.
  unfold current_seq, get_state, get_params.
  rewrite !bind_assoc, (bind_ok _ _ _ _ _ (get_cp_run _ _ _ Ecp)), Est, deref_then.
  rewrite !bind_assoc, (bind_ok _ _ _ _ _ (get_cp_run _ _ _ Ecp)), Ep, deref_then.
  destruct (zget (pulseseqs st) (current_pulseseq_index p)) as [x|] eqn:Ez.
  - by apply zget_Some_range in Ez.
  - done.
Qed.

(** ** Witnesses *)

Lemma one_reply_witness : ∃ out s',
  dispatch example_env 7 (SClient 0) 0 1 PING example_locals example_client = Ok (out, s') ∧
  (∃ tr z, trace s' = (trace example_client ++ tr)%list ∧ replies (SClient 0) tr = [(PING, z)]) ∧
  snd out = bool_decide (PING = QUIT).
Proof.
  eexists _, _. split; [reflexivity|].
  refine (one_reply example_env 7 0 0 1 PING example_locals example_client _ _ _ _).
  - apply only_ret.
  - reflexivity.
Defined.

(** A client without a channel that pings, sets its ready flag and quits. *)
Definition example_stranger : server :=
  example_client <| heap ::= alter (fun cp => cp <| radarinfo := mk_RadarPRM (-1) (-1) (-1) |>) 7 |>
    <| inbox ::= <[SClient 0 := [PRos PING 0; PRos SET_READY_FLAG 0; PRos QUIT 0]]> |>.

Definition example_visits : list wakeup := replicate 3 (Readable (mk_timeval 55 0)).

Lemma unregistered_isolated_witness : ∃ s' tr s1,
  client_loop example_env example_visits 7 (SClient 0) example_locals example_stranger = Ok (tt, s') ∧
  trace s1 = (trace example_stranger ++ tr)%list ∧ controlprogram_exit example_env (Some 7) s1 = Ok (tt, s') ∧
  ((∀ z, EvRecv (SClient 0) (PRos SET_RADAR_CHAN z) ∉ tr) → ∀ k p, (k, p) ∈ sends tr → k = SClient 0).
Proof.
  destruct (client_loop example_env example_visits 7 (SClient 0) example_locals example_stranger)
    as [[[] s']|e] eqn:Er.
  2: { exfalso. revert Er. vm_compute. discriminate. }
  exists s'.
  destruct (unregistered_isolated example_env 7 0 example_visits example_locals example_stranger
    (cp0 <| state := Some (state0 <| thread := Some 3 |>) |> <| radarinfo := mk_RadarPRM (-1) (-1) (-1) |>
         <| parameters := Some (prm0 <| radar := 1 |> <| channel := 2 |>) |>) s') as (tr & s1 & H).
  - apply only_ret.
  - reflexivity.
  - left. by vm_compute.
  - exact Er.
  - by exists tr, s1.
Defined.

(** SET_RADAR_CHAN for a taken channel: the client loses the channel it had, but its
    [radarinfo] still names it, and after a SET_PARAMETERS its ready flag reaches
    the drivers. *)
Definition example_mover : server :=
  example_client
    <| heap := {[ 7 := cp0 <| state := Some (state0 <| thread := Some 3 |> <| pulseseqs := [Some (mk_TSGbuf 0 0 5 [] []); None; None; None] |>) |>
                     <| radarinfo := mk_RadarPRM 0 1 2 |>
                     <| parameters := Some (prm0 <| radar := 1 |> <| channel := 2 |>) |>;
                   9 := cp0 <| state := Some (state0 <| thread := Some 4 |>) |> <| radarinfo := mk_RadarPRM 0 1 1 |> <| active := 1 |> ]} |>
    <| controlprogram_threads := Some 4 |>
    <| thread_items := {[ 3 := mk_Thread_List_Item None (Some 4) 100 (mk_timeval 60 0) (mk_timeval 50 0) (Some 7);
                          4 := mk_Thread_List_Item (Some 3) None 101 (mk_timeval 60 0) (mk_timeval 50 0) (Some 9) ]} |>
    <| radar_channels := [Some 9; Some 7; None; None; None; None; None; None] |>
    <| inbox := <[SClient 0 := [PRos SET_RADAR_CHAN 0; PInt 1; PInt 1; PRos SET_PARAMETERS 0;
           PParams (prm0 <| radar := 1 |> <| channel := 2 |>); PRos SET_READY_FLAG 0]]>
         (<[SDio := [PDriver OKAY 1]]> (<[STiming := [PDriver OKAY 1; PDriver OKAY 1]]>
         (<[SDds := [PDriver OKAY 1]]> {[ SRecv := [PDriver OKAY 1] ]}))) |>.

Definition example_moves : list timeval := [mk_timeval 55 0; mk_timeval 56 0; mk_timeval 57 0].

Definition example_move (now : timeval) (loc : Locals) : SM Locals :=
  m ← receive_message 7 (SClient 0) now; let '(r, c, t) := m in
  out ← dispatch example_env 7 (SClient 0) r c t loc; mret (fst out).

Example lost_channel_still_served :
  (match for_fold example_moves example_move example_locals example_mover with
   | Ok (_, s) => Some (radar_channels s, replies (SClient 0) (trace s),
                        filter (fun k => k ≠ SClient 0) (map fst (sends (trace s))))
   | Fault e => None
   end) = Some ([Some 9; None; None; None; None; None; None; None],
                [(SET_RADAR_CHAN, -1); (SET_PARAMETERS, 1); (SET_READY_FLAG, 0)],
                [STiming; SDio; SDio; STiming; STiming; SDds; SDds; SRecv; SRecv]).
Proof. vm_compute. reflexivity. Qed.

(** A query for a key sent with its terminating zero. *)
Definition example_query : server :=
  example_client <| inbox := {[ SClient 0 :=
    [PInt 4; PText (String "k" (String "e" (String "y" (String Ascii.zero EmptyString)))); PChar "s"%char] ]} |>.

Lemma query_string_runs_on_witness : ∃ loc' s' tr,
  cmd_query_ini example_env (SClient 0) QUERY_INI_SETTING example_locals example_query = Ok (loc', s') ∧
  trace s' = (trace example_query ++ tr)%list ∧
  sends tr = [(SClient 0, PChar "s"%char); (SClient 0, PInt 3); (SClient 0, PText "kod");
              (SClient 0, PChar " "%char); (SClient 0, PInt 0); (SClient 0, PRos QUERY_INI_SETTING 1)].
Proof.
  refine (query_string_runs_on example_env 0 QUERY_INI_SETTING example_locals example_query
    (String "k" (String "e" (String "y" (String Ascii.zero EmptyString)))) [] "key" "kod" _ _ _ _ _).
  - reflexivity.
  - simpl. lia.
  - reflexivity.
  - reflexivity.
  - discriminate.
Defined.

(** A client that never registered a sequence and set its radar to 5. *)
Definition example_ready : server :=
  example_client <| heap := {[ 7 := cp0 <| parameters :=
    Some (prm0 <| radar := 5 |> <| current_pulseseq_index := -1 |>) |> ]} |>.

Lemma ready_without_sequence_witness :
  driver_ready dio_comm_lock SDio (Some 7) example_ready = Fault OutOfBounds.
Proof.
  refine (ready_without_sequence dio_comm_lock SDio 7 example_ready _ _ _ eq_refl eq_refl eq_refl _).
  change (¬ (0 ≤ -1 < 4)). lia.
Defined.
