(* ===== verification/Files.v ===== *)
(** * Files: the text files the server reads at start-up

    The restricted-frequency list (server/main.c) and the frequency table
    (server/dio_handler.c, [FreqLoadTable]), with the functions of the C library
    they use: [fgets], [atoi], [strtok_r], [sscanf].  A file is its contents.
    Parsing what was printed gives back the windows, and the block allocated for
    the blacklist always has the room the clear-frequency search relies on. *)

From Stdlib Require Import ZArith Lia Ascii String.
From Stdlib Require Import DecimalString DecimalNat.
From stdpp Require Import base list strings.
From S2P Require Import Prelude Types.
Open Scope Z_scope.
Open Scope cvr_scope.

(** ** The C library *)

Definition newline : ascii := Ascii.ascii_of_nat 10.

Definition char_code (c : ascii) : Z := Z.of_nat (Ascii.nat_of_ascii c).

Definition is_space (c : ascii) : bool :=
  (char_code c =? 32) || ((9 <=? char_code c) && (char_code c <=? 13)).

Definition is_digit (c : ascii) : bool := (48 <=? char_code c) && (char_code c <=? 57).

Fixpoint skip_space (s : string) : string :=
  match s with
  | String c s' => if is_space c then skip_space s' else s
  | EmptyString => EmptyString
  end.

Fixpoint scan_digits (s : string) (acc : Z) : Z * string :=
  match s with
  | String c s' => if is_digit c then scan_digits s' (10 * acc + (char_code c - 48)) else (acc, s)
  | EmptyString => (acc, EmptyString)
  end.

(** An unsigned number: at least one digit. *)
Definition scan_unsigned (s : string) : option (Z * string) :=
  match s with
  | String c _ => if is_digit c then Some (scan_digits s 0) else None
  | EmptyString => None
  end.

(** What [strtol] and the conversion [%d] accept: white space, a sign, digits. *)
Definition scan_int (s : string) : option (Z * string) :=
  match skip_space s with
  | String "-" s' => '(z, r) ← scan_unsigned s'; Some (- z, r)
  | String "+" s' => scan_unsigned s'
  | s' => scan_unsigned s'
  end.

(** [strtol] saturates at the bounds of its 32-bit [long]. *)
Definition clamp (z : Z) : Z := Z.max int_min (Z.min int_max z).

Definition atoi (s : string) : Z :=
  match scan_int s with Some (z, _) => clamp z | None => 0 end.

(** [sscanf(s,"%d %d",...)] when it returns 2. *)
Definition sscanf_dd (s : string) : option (Z * Z) :=
  '(a, r) ← scan_int s; '(b, _) ← scan_int r; Some (clamp a, clamp b).

(** [strtok_r] with the delimiter " ": the token and the rest. *)
Fixpoint skip_blanks (s : string) : string :=
  match s with
  | String c s' => if decide (c = " "%char) then skip_blanks s' else s
  | EmptyString => EmptyString
  end.

Fixpoint until_blank (s : string) : string * string :=
  match s with
  | String c s' => if decide (c = " "%char) then (EmptyString, s')
                   else let '(t, r) := until_blank s' in (String c t, r)
  | EmptyString => (EmptyString, EmptyString)
  end.

Definition strtok (s : string) : option (string * string) :=
  match skip_blanks s with
  | EmptyString => None
  | s' => Some (until_blank s')
  end.

(** [fgets(buf,n,fp)] for [n = k + 1]: the next line, cut after [k] characters,
    and the rest of the file. *)
Fixpoint fgets (k : nat) (s : string) : string * string :=
  match k, s with
  | S k, String c s' =>
      if decide (c = newline) then (String c EmptyString, s')
      else let '(l, r) := fgets k s' in (String c l, r)
  | _, _ => (EmptyString, s)
  end.

(** The successive results of [fgets] until it returns NULL. *)
Fixpoint file_lines (fuel : nat) (k : nat) (s : string) : list string :=
  match fuel, s with
  | _, EmptyString => []
  | O, _ => []
  | S fuel, _ => let '(l, r) := fgets k s in l :: file_lines fuel k r
  end.

Definition lines_of (k : nat) (s : string) : list string := file_lines (String.length s) k s.

(** ** restrict.dat (main.c, 274-314) *)

(** One line of the second pass: [None] for a line that is skipped; a line with
    a single field makes [atoi] read a null pointer. *)
Definition parse_restrict (s : string) : result (option (Z * Z)) :=
  match s with
  | String c _ =>
      if decide (c = "#"%char) then Ok None
      else if is_digit c then
        match strtok s with
        | None => Fault NullDeref
        | Some (field, line) =>
            match strtok line with
            | None => Fault NullDeref
            | Some (field', _) => Ok (Some (atoi field, atoi field'))
            end
        end
      else Ok None
  | EmptyString => Ok None
  end.

(** The second pass over the lines: the blacklist and its count. *)
Fixpoint fill_blacklist (lines : list string) (bl : list BlackList) (count : Z)
    : result (list BlackList * Z) :=
  match lines with
  | [] => Ok (bl, count)
  | s :: lines =>
      match parse_restrict s with
      | Fault e => Fault e
      | Ok None => fill_blacklist lines bl count
      | Ok (Some (start, end_)) =>
          match zset bl count (mk_BlackList start end_ None) with
          | None => Fault OutOfBounds
          | Some bl => fill_blacklist lines bl (count + 1)
          end
      end
  end.

(** Both passes; [file] is [None] when restrict.dat cannot be opened, and the
    first [fgets] then reads a null stream.  [junk] is an uninitialised element. *)
Definition load_restrict (junk : BlackList) (file : option string) : result (list BlackList * Z) :=
  match file with
  | None => Fault NullDeref
  | Some contents =>
      let restrict_count := zlen (lines_of 119 contents) in
      let blacklist := replicate (Z.to_nat (restrict_count + Max_Control_THREADS * 4)) junk in
      fill_blacklist (lines_of 119 contents) blacklist 0
  end.

(** ** The frequency table (dio_handler.c, 16-61) *)

Record FreqTable := mk_FreqTable { dfrq : Z; ft_start : list Z; ft_end : list Z }.

Definition DEFAULT_FREQ : Z := 13000.

(** [for (j=0;(tkn[j] !='=') && (tkn[j] !=0);j++)]: what follows the '='. *)
Fixpoint after_equals (s : string) : option string :=
  match s with
  | String c s' => if decide (c = "="%char) then Some s' else after_equals s'
  | EmptyString => None
  end.

(** The blanks and newlines before the first token of a line. *)
Fixpoint skip_lead (s : string) : string :=
  match s with
  | String c s' => if decide (c = " "%char) then skip_lead s'
                   else if decide (c = newline) then skip_lead s' else s
  | EmptyString => EmptyString
  end.

Definition table_line (ptr : FreqTable) (line : string) : FreqTable :=
  let tkn := skip_lead line in
  match tkn with
  | EmptyString => ptr
  | String c _ =>
      if decide (c = "#"%char) then ptr
      else if decide (c = "d"%char ∨ c = "D"%char) then
        match after_equals tkn with
        | None => ptr
        | Some r => mk_FreqTable (if atoi r =? 0 then DEFAULT_FREQ else atoi r) (ft_start ptr) (ft_end ptr)
        end
      else
        match sscanf_dd tkn with
        | Some (s, e) => mk_FreqTable (dfrq ptr) (ft_start ptr ++ [s]) (ft_end ptr ++ [e])
        | None => ptr
        end
  end.

Definition FreqLoadTable (contents : string) : FreqTable :=
  foldl table_line (mk_FreqTable DEFAULT_FREQ [] []) (lines_of 1023 contents).

(** ** Printing *)

(** A number in decimal. *)
Definition dec (n : nat) : string := NilEmpty.string_of_uint (Nat.to_uint n).

(** The entries of a restrict.dat file, and the frequency table's. *)
Inductive entry :=
  | Comment (text : string)
  | Window (start end_ : nat).

Definition print_entry (e : entry) : string :=
  match e with
  | Comment text => String "#" (String.append text (String newline EmptyString))
  | Window a b => String.append (dec a) (String " " (String.append (dec b) (String newline EmptyString)))
  end.

Fixpoint print_file (es : list entry) : string :=
  match es with
  | [] => EmptyString
  | e :: es => String.append (print_entry e) (print_file es)
  end.

Fixpoint no_newline (s : string) : bool :=
  match s with
  | String c s => bool_decide (c ≠ newline) && no_newline s
  | EmptyString => true
  end.

(** The printed entry fits the buffer of [fgets], a comment is one line and the
    bounds of a window are [int]s. *)
Definition entry_ok (k : nat) (e : entry) : Prop :=
  (String.length (print_entry e) ≤ k)%nat ∧
  match e with
  | Comment text => no_newline text = true
  | Window a b => Z.of_nat a ≤ int_max ∧ Z.of_nat b ≤ int_max
  end.

Definition windows_of (es : list entry) : list (Z * Z) :=
  omap (fun e => match e with
    | Window a b => Some (Z.of_nat a, Z.of_nat b) | Comment _ => None end) es.

(** ** Decimal numbers *)

Definition starts_digit (s : string) : bool :=
  match s with String c _ => is_digit c | EmptyString => false end.

Lemma append_cons c (s1 s2 : string) :
  String.append (String c s1) s2 = String c (String.append s1 s2).
Proof. done. Qed.

Lemma append_nil (s : string) : String.append EmptyString s = s.
Proof. done. Qed.

Lemma append_assoc (s1 s2 s3 : string) :
  String.append (String.append s1 s2) s3 = String.append s1 (String.append s2 s3).
Proof. induction s1 as [| c s1 IH]; [done|]. rewrite !append_cons. by rewrite IH. Qed.

Lemma append_nil_r (s : string) : String.append s EmptyString = s.
Proof. induction s as [| c s IH]; [done|]. rewrite append_cons. by rewrite IH. Qed.

Lemma length_append (s1 s2 : string) :
  String.length (String.append s1 s2) = (String.length s1 + String.length s2)%nat.
Proof. induction s1 as [| c s1 IH]; [done|]. rewrite append_cons. simpl. by rewrite IH. Qed.

Lemma scan_step c k s acc :
  is_digit c = true → char_code c - 48 = Z.of_nat k →
  scan_digits (String c s) (Z.of_nat acc) = scan_digits s (Z.of_nat (k + 10 * acc)).
Proof.
  intros Hd Hk. cbn [scan_digits]. rewrite Hd, Hk. f_equal. lia.
Qed.

Lemma scan_digits_dec d : ∀ acc r, starts_digit r = false →
  scan_digits (String.append (NilEmpty.string_of_uint d) r) (Z.of_nat acc) =
    (Z.of_nat (Nat.of_uint_acc d acc), r).
Proof.
  induction d as [|d IH|d IH|d IH|d IH|d IH|d IH|d IH|d IH|d IH|d IH]; intros acc r Hr.
  { cbn [NilEmpty.string_of_uint]. rewrite append_nil.
    destruct r as [| c r]; [done|]. simpl in *. by rewrite Hr. }
  all: cbn [NilEmpty.string_of_uint]; rewrite append_cons.
  all: first
    [ rewrite (scan_step _ 0) by reflexivity | rewrite (scan_step _ 1) by reflexivity
    | rewrite (scan_step _ 2) by reflexivity | rewrite (scan_step _ 3) by reflexivity
    | rewrite (scan_step _ 4) by reflexivity | rewrite (scan_step _ 5) by reflexivity
    | rewrite (scan_step _ 6) by reflexivity | rewrite (scan_step _ 7) by reflexivity
    | rewrite (scan_step _ 8) by reflexivity | rewrite (scan_step _ 9) by reflexivity ].
  all: rewrite IH by done; do 2 f_equal; cbn [Nat.of_uint_acc]; f_equal.
  all: by rewrite Nat.tail_mul_spec.
Qed.

(** The characters of a number. *)
Fixpoint all_digits (s : string) : bool :=
  match s with String c s => is_digit c && all_digits s | EmptyString => true end.

Lemma all_digits_uint d : all_digits (NilEmpty.string_of_uint d) = true.
Proof. induction d; simpl; auto. Qed.

Lemma dec_digits n : all_digits (dec n) = true.
Proof. apply all_digits_uint. Qed.

Lemma dec_starts n : ∃ c s, dec n = String c s ∧ is_digit c = true.
Proof.
  pose proof (dec_digits n) as Hd. destruct (dec n) as [| c s] eqn:E.
  - exfalso. assert (Nat.of_uint (Nat.to_uint n) = n) as H by apply DecimalNat.Unsigned.of_to.
    unfold dec in E. destruct (Nat.to_uint n) eqn:En; try done.
    simpl in H. subst n. done.
  - exists c, s. simpl in Hd. by apply andb_true_iff in Hd as [? _].
Qed.

Lemma digit_not_blank c : is_digit c = true →
  c ≠ " "%char ∧ c ≠ newline ∧ c ≠ "#"%char ∧ is_space c = false ∧ c ≠ "-"%char ∧ c ≠ "+"%char ∧
  c ≠ "d"%char ∧ c ≠ "D"%char.
Proof.
  intros H. assert (is_space c = false) as Hs.
  { unfold is_digit, is_space in *. apply andb_true_iff in H as [?%Z.leb_le ?%Z.leb_le].
    apply orb_false_iff. split; [apply Z.eqb_neq; lia|].
    apply andb_false_iff. right. apply Z.leb_gt. lia. }
  split_and!; try done; intros ->; done.
Qed.

Lemma scan_dec n r : starts_digit r = false →
  scan_int (String.append (dec n) r) = Some (Z.of_nat n, r).
Proof.
  intros Hr. destruct (dec_starts n) as (c & s & E & Hc).
  assert (scan_unsigned (String.append (dec n) r) = Some (Z.of_nat n, r)) as Hu.
  { unfold scan_unsigned. rewrite E, append_cons, Hc, <- append_cons, <- E.
    unfold dec. rewrite (scan_digits_dec _ 0) by done. do 3 f_equal.
    apply DecimalNat.Unsigned.of_to. }
  destruct (digit_not_blank c Hc) as (_ & _ & _ & Hs & Hm & Hp & _).
  rewrite <- Hu. unfold scan_int. rewrite E, append_cons. cbn [skip_space]. rewrite Hs.
  destruct c as [[] [] [] [] [] [] [] []]; try done.
Qed.

Lemma atoi_dec n r : starts_digit r = false → Z.of_nat n ≤ int_max →
  atoi (String.append (dec n) r) = Z.of_nat n.
Proof.
  intros Hr Hi. unfold atoi. rewrite scan_dec by done. unfold clamp, int_min, int_max in *. lia.
Qed.

(** ** Lines *)

Lemma fgets_line body : ∀ k r, no_newline body = true → (String.length body < k)%nat →
  fgets k (String.append body (String newline r)) = (String.append body (String newline EmptyString), r).
Proof.
  induction body as [| c body IH]; intros k r Hn Hk.
  - destruct k as [|k]; [simpl in Hk; lia|]. done.
  - destruct k as [|k]; [simpl in Hk; lia|]. simpl in Hn, Hk.
    apply andb_true_iff in Hn as [Hc%bool_decide_eq_true Hn].
    rewrite !append_cons. cbn [fgets]. rewrite decide_False by done. by rewrite IH by (done || lia).
Qed.

Lemma no_newline_app s1 s2 : no_newline (String.append s1 s2) = no_newline s1 && no_newline s2.
Proof.
  induction s1 as [| c s1 IH]; [done|]. rewrite append_cons. simpl. by rewrite IH, andb_assoc.
Qed.

Lemma no_newline_dec n : no_newline (dec n) = true.
Proof.
  pose proof (dec_digits n) as Hd. induction (dec n) as [| c s IH]; [done|]. simpl in *.
  apply andb_true_iff in Hd as [Hc Hd]. rewrite IH by done.
  by rewrite bool_decide_true by apply digit_not_blank, Hc.
Qed.

(** A printed entry is a line. *)
Lemma print_entry_line k e : entry_ok k e → ∃ body,
  print_entry e = String.append body (String newline EmptyString) ∧
  no_newline body = true ∧ (String.length body < k)%nat.
Proof.
  intros [Hlen He].
  assert (∀ body, print_entry e = String.append body (String newline EmptyString) →
    (String.length body < k)%nat) as Hk.
  { intros body E. rewrite E, length_append in Hlen. simpl in Hlen. lia. }
  destruct e as [text|a b].
  - exists (String "#" text). by split_and!; [|simpl; rewrite He|apply Hk].
  - exists (String.append (dec a) (String " " (dec b))).
    assert (print_entry (Window a b) = String.append (String.append (dec a) (String " " (dec b)))
      (String newline EmptyString)) as E by (unfold print_entry; by rewrite append_assoc, append_cons).
    split_and!; [done| |by apply Hk].
    rewrite no_newline_app. simpl. by rewrite !no_newline_dec.
Qed.

Lemma file_lines_print k es : Forall (entry_ok k) es → ∀ fuel,
  (String.length (print_file es) ≤ fuel)%nat → file_lines fuel k (print_file es) = map print_entry es.
Proof.
  induction 1 as [|e es He _ IH]; intros fuel Hf; [by destruct fuel|].
  destruct (print_entry_line k e He) as (body & E & Hn & Hk).
  cbn [print_file map] in *. rewrite length_append in Hf.
  assert (0 < String.length (print_entry e))%nat as Hpos.
  { rewrite E, length_append. simpl. lia. }
  destruct fuel as [|fuel]; [lia|]. rewrite E, append_assoc, append_cons, append_nil in *.
  assert (∀ s, s ≠ EmptyString → file_lines (S fuel) k s =
    let '(l, r) := fgets k s in l :: file_lines fuel k r) as Hstep by (by intros []).
  rewrite Hstep by (by destruct body). rewrite fgets_line by done. f_equal. apply IH. lia.
Qed.

Lemma lines_of_print k es : Forall (entry_ok k) es → lines_of k (print_file es) = map print_entry es.
Proof. intros He. by apply file_lines_print. Qed.

(** ** The windows read back *)

Lemma until_blank_dec n r : until_blank (String.append (dec n) (String " " r)) = (dec n, r).
Proof.
  pose proof (dec_digits n) as Hd. induction (dec n) as [| c s IH]; [done|]. simpl in Hd.
  apply andb_true_iff in Hd as [Hc Hd]. rewrite append_cons. cbn [until_blank].
  rewrite decide_False by apply digit_not_blank, Hc. by rewrite IH.
Qed.

Lemma until_blank_dec_end n :
  until_blank (String.append (dec n) (String newline EmptyString)) =
    (String.append (dec n) (String newline EmptyString), EmptyString).
Proof.
  pose proof (dec_digits n) as Hd. induction (dec n) as [| c s IH]; [done|]. simpl in Hd.
  apply andb_true_iff in Hd as [Hc Hd]. rewrite append_cons. cbn [until_blank].
  rewrite decide_False by apply digit_not_blank, Hc. by rewrite IH.
Qed.

Lemma strtok_dec n r : strtok (String.append (dec n) r) = Some (until_blank (String.append (dec n) r)).
Proof.
  unfold strtok. destruct (dec_starts n) as (c & s & E & Hc). rewrite E, append_cons.
  cbn [skip_blanks]. by rewrite decide_False by apply digit_not_blank, Hc.
Qed.

Lemma parse_restrict_print k e : entry_ok k e →
  parse_restrict (print_entry e) = Ok (match e with
    | Window a b => Some (Z.of_nat a, Z.of_nat b) | Comment _ => None end).
Proof.
  intros [_ He]. destruct e as [text|a b]; [done|]. destruct He as [Ha Hb].
  destruct (dec_starts a) as (c & s & E & Hc). unfold parse_restrict, print_entry.
  rewrite E, append_cons. cbn match.
  destruct (digit_not_blank c Hc) as (_ & _ & Hh & _). rewrite decide_False by done.
  rewrite Hc, <- append_cons, <- E, strtok_dec, until_blank_dec. cbn match.
  rewrite strtok_dec, until_blank_dec_end. cbn match.
  rewrite <- (append_nil_r (dec a)). by rewrite !atoi_dec.
Qed.

(** Filling the blacklist with room for every line. *)
Lemma fill_blacklist_print k es : Forall (entry_ok k) es → ∀ bl0 bl,
  zlen es ≤ zlen bl → ∃ tail,
  fill_blacklist (map print_entry es) (bl0 ++ bl) (zlen bl0) =
    Ok ((bl0 ++ map (fun w => mk_BlackList (fst w) (snd w) None) (windows_of es) ++ tail)%list,
        zlen bl0 + zlen (windows_of es)) ∧
  zlen (windows_of es) + zlen tail = zlen bl.
Proof.
  induction 1 as [|e es He _ IH]; intros bl0 bl Hl.
  - exists bl. simpl. split; [|done]. do 2 f_equal. unfold zlen. simpl. lia.
  - cbn [map fill_blacklist]. rewrite (parse_restrict_print k) by done.
    rewrite zlen_cons in Hl. pose proof (zlen_nonneg es). destruct e as [text|a b]; cbn match.
    + apply IH. lia.
    + destruct bl as [|x bl]; [unfold zlen in Hl; simpl in Hl; lia|].
      rewrite zset_mid. rewrite zlen_cons in Hl.
      destruct (IH (bl0 ++ [mk_BlackList (Z.of_nat a) (Z.of_nat b) None])%list bl) as (tail & E & Et); [lia|].
      exists tail. rewrite <- !app_assoc in E. cbn [app] in E.
      rewrite zlen_app, zlen_cons in E. change (zlen (@nil BlackList) + 1) with 1 in E. rewrite E.
      change (windows_of (Window a b :: es)) with ((Z.of_nat a, Z.of_nat b) :: windows_of es).
      cbn [map fst snd]. rewrite !zlen_cons. split; [|lia].
      do 2 f_equal. lia.
Qed.

Lemma fill_blacklist_room lines : ∀ bl count r,
  0 ≤ count → count + zlen lines ≤ zlen bl → fill_blacklist lines bl count = r →
  r ≠ Fault OutOfBounds ∧ ∀ bl' count', r = Ok (bl', count') →
    zlen bl' = zlen bl ∧ count ≤ count' ≤ count + zlen lines.
Proof.
  induction lines as [|s lines IH]; intros bl count r Hc Hl <-; simpl.
  - split; [done|]. intros bl' count' [= <- <-]. pose proof (zlen_nonneg (@nil string)). lia.
  - rewrite zlen_cons in Hl. pose proof (zlen_nonneg lines).
    destruct (parse_restrict s) as [[[start end_]|]|e] eqn:Ep.
    + rewrite zset_Some by lia. set (bl1 := <[_ := _]> bl).
      assert (zlen bl1 = zlen bl) as E1 by (unfold bl1, zlen; by rewrite length_insert).
      destruct (IH bl1 (count + 1) _ ltac:(lia) ltac:(lia) eq_refl) as [H1 H2].
      split; [done|]. intros bl' count' E. destruct (H2 _ _ E). rewrite zlen_cons. lia.
    + destruct (IH bl count _ ltac:(lia) ltac:(lia) eq_refl) as [H1 H2].
      split; [done|]. intros bl' count' E. destruct (H2 _ _ E). rewrite zlen_cons. lia.
    + split; [|done]. intros [= ->]. revert Ep. unfold parse_restrict. clear.
      repeat case_match; done.
Qed.

Lemma scan_int_blank s : scan_int (String " " s) = scan_int s.
Proof. done. Qed.

Lemma table_line_print k e ptr : entry_ok k e →
  table_line ptr (print_entry e) = match e with
    | Window a b => mk_FreqTable (dfrq ptr) (ft_start ptr ++ [Z.of_nat a]) (ft_end ptr ++ [Z.of_nat b])
    | Comment _ => ptr end.
Proof.
  intros [_ He]. destruct e as [text|a b]; [done|]. destruct He as [Ha Hb].
  destruct (dec_starts a) as (c & s & E & Hc).
  destruct (digit_not_blank c Hc) as (Hbl & Hnl & Hh & _ & _ & _ & Hd & HD).
  unfold table_line.
  assert (skip_lead (print_entry (Window a b)) = print_entry (Window a b)) as ->.
  { unfold print_entry. rewrite E, append_cons. cbn [skip_lead]. by rewrite !decide_False. }
  assert (sscanf_dd (print_entry (Window a b)) = Some (Z.of_nat a, Z.of_nat b)) as Es.
  { unfold sscanf_dd, print_entry. rewrite scan_dec by done. cbn [mbind option_bind].
    rewrite scan_int_blank, scan_dec by done. cbn [mbind option_bind].
    unfold clamp, int_min, int_max in *. do 2 f_equal; lia. }
  rewrite Es. unfold print_entry. rewrite E, append_cons. cbn match.
  rewrite !decide_False by naive_solver. done.
Qed.

Lemma load_restrict_room junk file :
  load_restrict junk file ≠ Fault OutOfBounds ∧
  ∀ bl count, load_restrict junk file = Ok (bl, count) →
    0 ≤ count ∧ count + Max_Control_THREADS * 4 ≤ zlen bl.
Proof.
  unfold load_restrict. destruct file as [contents|]; [|done].
  set (lines := lines_of 119 contents). set (n := zlen lines + Max_Control_THREADS * 4).
  pose proof (zlen_nonneg lines) as Hnn.
  assert (zlen (replicate (Z.to_nat n) junk) = n) as Hz.
  { unfold zlen. rewrite length_replicate. unfold n, Max_Control_THREADS. lia. }
  destruct (fill_blacklist_room lines (replicate (Z.to_nat n) junk) 0 _ ltac:(lia)
    ltac:(rewrite Hz; unfold n, Max_Control_THREADS; lia) eq_refl) as [H1 H2].
  split; [done|]. intros bl count E. destruct (H2 _ _ E). unfold n in *. lia.
Qed.

(** ** Properties *)

(** [FreqLoadTable] reads back a table of windows and comments: the windows
    in order, and the default frequency when the file names none. *)
Theorem freq_table_roundtrip es :
  Forall (entry_ok 1023) es →
  FreqLoadTable (print_file es) =
    mk_FreqTable DEFAULT_FREQ (map fst (windows_of es)) (map snd (windows_of es)).
Proof.
  intros He. unfold FreqLoadTable. rewrite lines_of_print by done.
  assert (∀ f l1 l2, foldl table_line (mk_FreqTable f l1 l2) (map print_entry es) =
    mk_FreqTable f (l1 ++ map fst (windows_of es)) (l2 ++ map snd (windows_of es))) as H; [|apply H].
  induction He as [|e es He _ IH]; intros f l1 l2; [by rewrite !app_nil_r|].
  cbn [map foldl]. rewrite (table_line_print 1023) by done. destruct e as [text|a b].
  - apply IH.
  - rewrite IH. cbn [ft_start ft_end dfrq]. by rewrite <- !app_assoc.
Qed.

(** Restrict.dat reads back what was written: a file of comment lines and of
    windows "start end" gives the windows, in order, and their number. *)
Theorem restrict_roundtrip junk es :
  Forall (entry_ok 119) es → ∃ tail,
  load_restrict junk (Some (print_file es)) =
    Ok ((map (fun w => mk_BlackList (fst w) (snd w) None) (windows_of es) ++ tail)%list,
        zlen (windows_of es)) ∧
  zlen (windows_of es) + zlen tail = zlen es + Max_Control_THREADS * 4.
Proof.
  intros He. unfold load_restrict. rewrite lines_of_print by done.
  set (n := zlen (map print_entry es) + Max_Control_THREADS * 4).
  assert (zlen (map print_entry es) = zlen es) as El by (unfold zlen; by rewrite length_map).
  pose proof (zlen_nonneg es) as Hnn.
  assert (zlen (replicate (Z.to_nat n) junk) = zlen es + Max_Control_THREADS * 4) as Hz.
  { unfold zlen at 1. rewrite length_replicate. unfold n, Max_Control_THREADS in *. lia. }
  destruct (fill_blacklist_print 119 es He [] (replicate (Z.to_nat n) junk)) as (tail & E & Et).
  { rewrite Hz. unfold Max_Control_THREADS. lia. }
  exists tail. split; [exact E|]. by rewrite Et.
Qed.

(** Whatever restrict.dat contains, reading it never writes outside the
    blacklist, and the blacklist keeps room for a window of each of the
    Max_Control_THREADS programs, which the clear-frequency search adds. *)
Theorem blacklist_never_overflows junk file :
  load_restrict junk file ≠ Fault OutOfBounds ∧
  ∀ bl count, load_restrict junk file = Ok (bl, count) →
    0 ≤ count ∧ count + Max_Control_THREADS * 4 ≤ zlen bl.
Proof. apply load_restrict_room. Qed.

(** ** Witnesses *)

Definition example_entries : list entry :=
  [Comment " restricted bands"; Window 10005 10006; Comment EmptyString; Window 12000 12500].

Lemma example_entries_ok k : (40 ≤ k)%nat → Forall (entry_ok k) example_entries.
Proof.
  intros Hk. repeat (apply Forall_cons; split); try apply Forall_nil_2.
  all: split; [vm_compute; lia|].
  all: try (split; vm_compute; discriminate); vm_compute; reflexivity.
Defined.

Lemma restrict_roundtrip_witness : ∃ tail,
  load_restrict (mk_BlackList 0 0 None) (Some (print_file example_entries)) =
    Ok ((mk_BlackList 10005 10006 None :: mk_BlackList 12000 12500 None :: tail)%list, 2) ∧
  2 + zlen tail = 4 + Max_Control_THREADS * 4.
Proof.
  refine (restrict_roundtrip (mk_BlackList 0 0 None) example_entries (example_entries_ok 119 _)). lia.
Defined.

Lemma freq_table_roundtrip_witness :
  FreqLoadTable (print_file example_entries) = mk_FreqTable 13000 [10005; 12000] [10006; 12500].
Proof. refine (freq_table_roundtrip example_entries (example_entries_ok 1023 _)). lia. Defined.
