(* ===== verification/Startup.v ===== *)
(** * Startup: the initial state and the settings (server/main.c, settings_handler.c)

    [main] initialises the global variables, reads the restricted windows and the
    site's ini file and configures the drivers.  The ini file is third-party code
    (iniparser): its handle and its getters are parameters.  The theorems say
    that the invariants the handlers rely on hold from the start, what the
    drivers are configured with, and that settings_parse_ini_file releases a
    mutex it never took. *)

From Stdlib Require Import ZArith Lia Ascii String.
From stdpp Require Import base list gmap strings.
From S2P Require Import Prelude Binary64 Types Registry Threads ServerIO Locking Coordination FreqAssign Files.
Open Scope Z_scope.
Open Scope cvr_scope.

Definition SITE_NAME : string := "kod".

Definition REFRESHRATE : Z := 1.

Section Settings.
  Context (ini : Type) (iniparser_load : string → option ini).
  Context (iniparser_getboolean : option ini → string → Z → Z).
  Context (iniparser_getstring : option ini → string → string → string).

(** [settings_parse_ini_file]: the first statement unlocks; returns [Site_INI]. *)
Definition settings_parse_ini_file : SM (option ini) :=
  unlock settings_lock;;
  match iniparser_load "/root/site_data//site.ini" with
  | None => unlock settings_lock;; mret None
  | Some d =>
      modify (fun s => s <| site_settings ::= fun x => x <| ifmode :=
        u32 (iniparser_getboolean (Some d) "site_settings:ifmode" IF_ENABLED) |> |>);;
      let name := iniparser_getstring (Some d) "site_settings:name" SITE_NAME in
      if Z.of_nat (String.length name) <? 80 then
        modify (fun s => s <| site_settings ::= fun x => x <| site_name := name |> |>);;
        unlock settings_lock;;
        mret (Some d)
      else fail OutOfBounds
  end.

(** The common body of the two update functions: the keys of a section. *)
Definition rxfe_from_ini (Site_INI : option ini) (section : string) (mode : Z)
    (r : RXFESettings) : RXFESettings :=
  let get (key : string) : Z := u32 (iniparser_getboolean Site_INI (String.append section key) 0) in
  r <| rx_ifmode := mode |>
    <| amp1 := get ":enable_amp1"%string |> <| amp2 := get ":enable_amp2"%string |>
    <| amp3 := get ":enable_amp3"%string |>
    <| att1 := get ":enable_att1"%string |> <| att2 := get ":enable_att2"%string |>
    <| att3 := get ":enable_att3"%string |> <| att4 := get ":enable_att4"%string |>.

Definition settings_rxfe_update_rf (Site_INI : option ini) : SM unit :=
  locked settings_lock (modify (fun s => s <| site_settings ::= fun x =>
    x <| rf_settings ::= rxfe_from_ini Site_INI "rxfe_rf" 0 |> |>)).

Definition settings_rxfe_update_if (Site_INI : option ini) : SM unit :=
  locked settings_lock (modify (fun s => s <| site_settings ::= fun x =>
    x <| if_settings ::= rxfe_from_ini Site_INI "rxfe_if" 1 |> |>)).

(** The defaults of [main]; [if_settings.att4] keeps its static value, the last
    assignment being to [rf_settings] again. *)
Definition default_settings (x : SiteSettings) : SiteSettings :=
  x <| site_name := SITE_NAME |> <| ifmode := IF_ENABLED |>
    <| rf_settings := mk_RXFESettings 0 0 0 0 0 0 0 0 |>
    <| if_settings ::= fun r => mk_RXFESettings 1 0 0 0 0 0 0 (att4 r) |>.

Definition main_settings : SM unit :=
  modify (fun s => s <| site_settings ::= default_settings |>);;
  Site_INI ← settings_parse_ini_file;
  settings_rxfe_update_rf Site_INI;;
  settings_rxfe_update_if Site_INI.

(** The trigger rate of the GPS, and the receiver front end of the drivers. *)
Definition main_configure : SM unit :=
  send SGps (PDriver GPS_SET_TRIGGER_RATE 1);;
  send SGps (PInt REFRESHRATE);;
  recv_msg SGps;;
  x ← gets site_settings; receiver_rxfe_settings (Some x);;
  x ← gets site_settings; dds_rxfe_settings (Some x);;
  x ← gets site_settings; dio_rxfe_settings (Some x).

(** The global variables after their initialisation, at time [t0], with the
    blacklist [bl] of which [count] windows are read from restrict.dat. *)
Definition latest0 : list ClrPwr :=
  map (fun i => mk_ClrPwr (FULL_CLR_FREQ_START + i) dzero) (seqZ 0 FreqAssign.max_freqs).

Definition main_init (t0 : timeval) (bl : list BlackList) (count : Z) (s : server) : server :=
  s <| latest_full_clr_time := t0 |>
    <| latest_clr_fft := replicate (Z.to_nat MAX_RADARS) latest0 |>
    <| controlprogram_threads := None |>
    <| ready_state := 0 |> <| ready_count := 0 |> <| trigger_state := 0 |> <| trigger_type := 0 |>
    <| radar_channels := replicate (Z.to_nat (MAX_RADARS * MAX_CHANNELS)) None |>
    <| bad_transmit_times := mk_TRTimes 0 None None |>
    <| blacklist := Some bl |> <| blacklist_count := count |>.

(** [main] up to the accept loop. *)
Definition main_start (t0 : timeval) (junk : BlackList) (restrict : option string) : SM unit := fun s =>
  match load_restrict junk restrict with
  | Fault e => Fault e
  | Ok (bl, count) => (main_settings;; main_configure) (main_init t0 bl count s)
  end.

(** ** Properties *)

(** The invariants of the handlers hold when the accept loop starts: the
    thread list is empty, the channel table is empty and well formed, the
    blacklist has room for the windows of every client, and the full spectrum
    covers the whole band of every radar. *)
Theorem startup_invariants t0 junk restrict bl count s :
  load_restrict junk restrict = Ok (bl, count) →
  thread_items s = ∅ →
  let s' := main_init t0 bl count s in
  threads_are s' [] ∧ registry_wf s' ∧ (∀ i a, zget (radar_channels s') i ≠ Some (Some a)) ∧
  blacklist_room s' bl ∧ trigger_state s' < 2 ∧
  ∀ r index, 0 ≤ r < MAX_RADARS → in_full_range index = true →
    get_latest r index s' = Ok (dzero, s').
Proof.
  intros El Hi s'.
  assert (∀ i a, zget (radar_channels s') i ≠ Some (Some a)) as Hnone.
  { intros i a E. change (radar_channels s') with (replicate 8 (@None Z)) in E.
    unfold zget in E. case_decide; [|done]. by apply lookup_replicate in E as [? _]. }
  split; [split; [done|split; [constructor|]]|].
  { change (dom (thread_items s) = list_to_set []). by rewrite Hi, dom_empty_L. }
  split; [split; [reflexivity|by intros i a ?%Hnone]|]. split; [done|]. split.
  { split; [done|]. change (blacklist_count s') with count.
    assert (0 ≤ count ∧ count + Max_Control_THREADS * 4 ≤ zlen bl) as [??]; [|unfold Max_Control_THREADS in *; lia].
    by apply (load_restrict_room junk restrict). }
  split; [done|]. intros r index Hr Hx. unfold get_latest. rewrite gets_then.
  change (latest_clr_fft s') with (replicate 2 latest0).
  assert (zget (replicate 2 latest0) r = Some latest0) as ->.
  { unfold MAX_RADARS in Hr. by assert (r = 0 ∨ r = 1) as [-> | ->] by lia. }
  rewrite deref_then. unfold latest0. rewrite zget_map.
  unfold in_full_range in Hx. apply andb_true_iff in Hx as [?%Z.leb_le ?%Z.ltb_lt].
  assert (zget (seqZ 0 FreqAssign.max_freqs) index = Some index) as ->; [|done].
  unfold zget. rewrite decide_True by done. apply lookup_seqZ. lia.
Qed.

(** The settings an ini file [d] gives, key by key; the number of radars is not one
    of them. *)
Definition configured (d : ini) (x : SiteSettings) : SiteSettings :=
  let flag (key : string) : Z := u32 (iniparser_getboolean (Some d) key 0) in
  mk_SiteSettings (iniparser_getstring (Some d) "site_settings:name" "kod") (num_radars x)
    (flag "site_settings:ifmode")
    (mk_RXFESettings 0
      (flag "rxfe_rf:enable_amp1") (flag "rxfe_rf:enable_amp2") (flag "rxfe_rf:enable_amp3")
      (flag "rxfe_rf:enable_att1") (flag "rxfe_rf:enable_att2") (flag "rxfe_rf:enable_att3")
      (flag "rxfe_rf:enable_att4"))
    (mk_RXFESettings 1
      (flag "rxfe_if:enable_amp1") (flag "rxfe_if:enable_amp2") (flag "rxfe_if:enable_amp3")
      (flag "rxfe_if:enable_att1") (flag "rxfe_if:enable_att2") (flag "rxfe_if:enable_att3")
      (flag "rxfe_if:enable_att4")).

Definition settings_events : list event :=
  [EvUnlock settings_lock; EvUnlock settings_lock; EvLock settings_lock; EvUnlock settings_lock;
   EvLock settings_lock; EvUnlock settings_lock].

(** The messages that configure a driver. *)
Definition rxfe_requests (k : sock) (x : SiteSettings) : list (sock * packet) :=
  [(k, PDriver RXFE_SETTINGS 1); (k, PInt (ifmode x)); (k, PRxfe (rf_settings x));
   (k, PRxfe (if_settings x))].

Lemma main_settings_run d s :
  iniparser_load "/root/site_data//site.ini" = Some d →
  Z.of_nat (String.length (iniparser_getstring (Some d) "site_settings:name" SITE_NAME)) < 80 →
  ∃ s', main_settings s = Ok (tt, s') ∧ site_settings s' = configured d (site_settings s) ∧
    inbox s' = inbox s ∧ trace s' = (trace s ++ settings_events)%list.
Proof.
  intros Ed Hn. unfold main_settings, settings_parse_ini_file, settings_rxfe_update_rf,
    settings_rxfe_update_if, locked, lock, unlock, emit.
  rewrite modify_then, bind_assoc, modify_then, Ed, bind_assoc, modify_then.
  cbn zeta. rewrite (proj2 (Z.ltb_lt _ _) Hn).
  eexists. split; [reflexivity|]. split; [by destruct s|]. split; [by destruct s|].
  destruct s. simpl. by rewrite <- !app_assoc.
Qed.

Lemma rxfe_run l k x t z rest s :
  inbox s !! k = Some (PDriver t z :: rest) →
  ∃ s' tr, driver_rxfe_settings l k (Some x) s = Ok (tt, s') ∧ site_settings s' = site_settings s ∧
    inbox s' = <[k := rest]> (inbox s) ∧ trace s' = (trace s ++ tr)%list ∧
    sends tr = rxfe_requests k x.
Proof.
  intros Hin. unfold driver_rxfe_settings, locked, lock, unlock, send, emit, recv_msg, recv_driver.
  rewrite !modify_then, !bind_assoc. rewrite !modify_then, !bind_assoc.
  repeat (rewrite modify_then, ?bind_assoc).
  match goal with |- context [(recv k ≫= _) ?s1] => set (s2 := s1) end.
  assert (inbox s2 !! k = Some (PDriver t z :: rest)) as Hin2 by exact Hin.
  assert (recv k s2 = Ok (PDriver t z, s2 <| inbox ::= <[k := rest]> |>
    <| trace ::= fun t0 => (t0 ++ [EvRecv k (PDriver t z)])%list |>)) as Er by (unfold recv; by rewrite Hin2).
  rewrite (bind_ok _ _ _ _ _ Er). eexists _, _. split; [reflexivity|]. split; [reflexivity|].
  split; [reflexivity|]. split; [unfold s2; simpl; rewrite <- !app_assoc; reflexivity|]. reflexivity.
Qed.

(** C39: with an ini file and drivers that answer, [main] reaches the accept loop.
    The settings of the site are those of the file, each from the key of its name
    ([configured]); the receiver, the DDS and the DIO driver are each sent the IF
    mode and the two front-end settings of the file, in that order, after the GPS
    driver was sent its trigger rate, which is the constant REFRESHRATE.  The
    timing driver is sent nothing. *)
Theorem startup_configures d t0 junk restrict bl count s tg zg rg tr zr rr td zd rd ti zi ri :
  load_restrict junk restrict = Ok (bl, count) →
  iniparser_load "/root/site_data//site.ini" = Some d →
  Z.of_nat (String.length (iniparser_getstring (Some d) "site_settings:name" SITE_NAME)) < 80 →
  inbox s !! SGps = Some (PDriver tg zg :: rg) → inbox s !! SRecv = Some (PDriver tr zr :: rr) →
  inbox s !! SDds = Some (PDriver td zd :: rd) → inbox s !! SDio = Some (PDriver ti zi :: ri) →
  let x := configured d (site_settings s) in
  ∃ s' evs, main_start t0 junk restrict s = Ok (tt, s') ∧ site_settings s' = x ∧
    trace s' = (trace s ++ evs)%list ∧
    sends evs = ([(SGps, PDriver GPS_SET_TRIGGER_RATE 1); (SGps, PInt REFRESHRATE)] ++
      rxfe_requests SRecv x ++ rxfe_requests SDds x ++ rxfe_requests SDio x)%list.
Proof.
  intros El Ed Hn Hg Hr Hd Hi x. unfold main_start. rewrite El. set (s0 := main_init t0 bl count s).
  destruct (main_settings_run d s0 Ed Hn) as (s1 & E1 & X1 & I1 & T1).
  rewrite (bind_ok _ _ _ _ _ E1). unfold main_configure, send, emit. rewrite !modify_then.
  set (s2 := s1 <| trace ::= _ |> <| trace ::= _ |>).
  assert (recv_msg SGps s2 = Ok (tt, s2 <| inbox ::= <[SGps := rg]> |>
    <| trace ::= fun t0 => (t0 ++ [EvRecv SGps (PDriver tg zg)])%list |>)) as E3.
  { unfold recv_msg, recv_driver, recv, mbind, m_bind.
    change (inbox s2) with (inbox s1). rewrite I1. change (inbox s0) with (inbox s). by rewrite Hg. }
  rewrite (bind_ok _ _ _ _ _ E3). set (s3 := _ <| trace ::= _ |>).
  assert (inbox s3 = <[SGps := rg]> (inbox s)) as I3.
  { change (inbox s3) with (<[SGps := rg]> (inbox s1)). by rewrite I1. }
  assert (site_settings s3 = x) as X3 by exact X1.
  rewrite gets_then, X3.
  destruct (rxfe_run recv_comm_lock SRecv x tr zr rr s3) as (s4 & t4 & E4 & X4 & I4 & T4 & S4).
  { by rewrite I3, lookup_insert_ne. }
  rewrite (bind_ok _ _ _ _ _ E4), gets_then, X4, X3.
  destruct (rxfe_run dds_comm_lock SDds x td zd rd s4) as (s5 & t5 & E5 & X5 & I5 & T5 & S5).
  { by rewrite I4, lookup_insert_ne, I3, lookup_insert_ne. }
  rewrite (bind_ok _ _ _ _ _ E5), gets_then, X5, X4, X3.
  destruct (rxfe_run dio_comm_lock SDio x ti zi ri s5) as (s6 & t6 & E6 & X6 & I6 & T6 & S6).
  { by rewrite I5, lookup_insert_ne, I4, lookup_insert_ne, I3, lookup_insert_ne. }
  exists s6, (settings_events ++ [EvSend SGps (PDriver GPS_SET_TRIGGER_RATE 1);
    EvSend SGps (PInt REFRESHRATE); EvRecv SGps (PDriver tg zg)] ++ t4 ++ t5 ++ t6)%list.
  split; [exact E6|]. split; [congruence|]. split.
  - rewrite T6, T5, T4. change (trace s3) with (((trace s1 ++ [EvSend SGps (PDriver GPS_SET_TRIGGER_RATE 1)]) ++
      [EvSend SGps (PInt REFRESHRATE)]) ++ [EvRecv SGps (PDriver tg zg)])%list.
    rewrite T1. change (trace s0) with (trace s). by rewrite <- !app_assoc.
  - rewrite !sends_app, S4, S5, S6. reflexivity.
Qed.

(** [settings_parse_ini_file] never takes the settings lock: its first
    statement releases it, so no run of it keeps the lock discipline. *)
Theorem settings_unlocks_unheld s Site_INI s' :
  settings_parse_ini_file s = Ok (Site_INI, s') →
  ∃ tr, trace s' = (trace s ++ EvUnlock settings_lock :: tr)%list ∧
    check_locks [] (EvUnlock settings_lock :: tr) = None.
Proof.
  intros E. unfold settings_parse_ini_file, unlock, emit in E. rewrite modify_then in E.
  assert (∃ tr, trace s' = ((trace s ++ [EvUnlock settings_lock]) ++ tr)%list) as [tr Et].
  { destruct (iniparser_load _) as [d|]; rewrite modify_then in E.
    - destruct (_ <? 80); [|done]. rewrite !modify_then in E. injection E as _ <-.
      exists [EvUnlock settings_lock]. by destruct s.
    - injection E as _ <-. exists [EvUnlock settings_lock]. by destruct s. }
  exists tr. split; [by rewrite Et, <- app_assoc|done].
Qed.

End Settings.

(** ** Witnesses *)

Definition example_boot : server :=
  server0 <| inbox := <[SGps := [PDriver OKAY 1]]> (<[SRecv := [PDriver OKAY 1]]>
    (<[SDds := [PDriver OKAY 1]]> {[ SDio := [PDriver OKAY 1] ]})) |>.

Definition example_boolean (_ : option unit) (key : string) (d : Z) : Z :=
  if decide (key = "rxfe_rf:enable_amp1"%string) then 1 else d.

Lemma startup_invariants_witness : ∃ bl, load_restrict (mk_BlackList 0 0 None) (Some (print_file example_entries)) = Ok (bl, 2) ∧
  let s' := main_init (mk_timeval 0 0) bl 2 server0 in
  threads_are s' [] ∧ registry_wf s' ∧ (∀ i a, zget (radar_channels s') i ≠ Some (Some a)) ∧
  blacklist_room s' bl ∧ trigger_state s' < 2 ∧
  ∀ r index, 0 ≤ r < MAX_RADARS → in_full_range index = true →
    get_latest r index s' = Ok (dzero, s').
Proof.
  eexists. split; [vm_compute; reflexivity|].
  refine (startup_invariants (mk_timeval 0 0) (mk_BlackList 0 0 None) (Some (print_file example_entries)) _ 2 server0 _ _).
  - vm_compute. reflexivity.
  - reflexivity.
Defined.

Lemma startup_configures_witness :
  let x := configured unit example_boolean (fun _ _ d => d) tt (site_settings server0) in
  ∃ s' evs, main_start unit (fun _ => Some tt) example_boolean (fun _ _ d => d) (mk_timeval 0 0)
      (mk_BlackList 0 0 None) (Some EmptyString) example_boot = Ok (tt, s') ∧
    site_settings s' = x ∧ trace s' = (trace example_boot ++ evs)%list ∧
    sends evs = ([(SGps, PDriver GPS_SET_TRIGGER_RATE 1); (SGps, PInt REFRESHRATE)] ++
      rxfe_requests SRecv x ++ rxfe_requests SDds x ++ rxfe_requests SDio x)%list.
Proof.
  refine (startup_configures unit (fun _ => Some tt) example_boolean (fun _ _ d => d) tt (mk_timeval 0 0)
    (mk_BlackList 0 0 None) (Some EmptyString) _ 0 example_boot OKAY 1 [] OKAY 1 [] OKAY 1 [] OKAY 1 []
    _ _ _ _ _ _ _); reflexivity.
Defined.

Lemma settings_unlocks_unheld_witness : ∃ s', settings_parse_ini_file unit (fun _ => None)
    example_boolean (fun _ _ d => d) server0 = Ok (None, s') ∧
  ∃ tr, trace s' = (trace server0 ++ EvUnlock settings_lock :: tr)%list ∧
    check_locks [] (EvUnlock settings_lock :: tr) = None.
Proof.
  eexists. split; [reflexivity|].
  refine (settings_unlocks_unheld unit (fun _ => None) example_boolean (fun _ _ d => d) server0 None _ _).
  reflexivity.
Defined.
