(* ===== verification/Tsg.v ===== *)
(** * Tsg: the timing sequence generator (src/ros6/tsg/maketsg.c)

    [TSGMake] turns the parameters of a pulse sequence into the bytes the
    timing card plays: [code] is the state of the control lines and [rep] the
    number of 10-microsecond ticks it lasts.  The parameters are checked and
    completed ([check_params], [complete_params], [check_completed],
    [make_timing]); then an event-driven machine over the table [states] writes
    the sequence ([make_loop]).

    Arithmetic on the caller's parameters is checked ([int_op], [int_div]): an
    overflow or a division by zero is the fault [BadArith].  [alloc n] tells
    whether the [n]-th [malloc] of the function succeeds.  The phase table and
    the pulse pattern are the caller's arrays.  The global table [states] is
    constant but for the durations, which [duration] computes from the call's
    times.  [buf->prm] is returned beside the buffer.

    The theorems: what the accepted parameters satisfy; the written sequence,
    read tick by tick, is the superposition of two independent waveforms (the
    pulses of [rf_wave] and the samples of [sample_wave]), with the number of
    samples the parameters promise, inside the allocated blocks. *)

From S2P Require Import Prelude Binary64 Types.
From stdpp Require Import base list.
From Stdlib Require Import ZArith Lia.
Open Scope Z_scope.

(** ** Constants *)

Definition CLOCK_PERIOD : Z := 10.

Definition TSG_OK : Z := 0.
Definition TSG_INV_RSEP : Z := 1.
Definition TSG_NO_SMSEP : Z := 2.
Definition TSG_INV_MPPUL_SMSEP : Z := 3.
Definition TSG_INV_PAT : Z := 4.
Definition TSG_INV_MPINC_SMSEP : Z := 5.
Definition TSG_INV_LAGFR_SMSEP : Z := 6.
Definition TSG_INV_DUTY_CYCLE : Z := 7.
Definition TSG_INV_ODD_SMSEP : Z := 8.
Definition TSG_INV_TXPL_BAUD : Z := 9.
Definition TSG_INV_MEMORY : Z := 10.
Definition TSG_INV_PHASE_DELAY : Z := 11.

Definition S_bit : Z := 1.
Definition R_bit : Z := 2.
Definition X_bit : Z := 4.
Definition A_bit : Z := 8.
Definition P_bit : Z := 16.

Definition Null_code : Z := 0.
Definition S_code : Z := S_bit.
Definition A_code : Z := A_bit.
Definition AS_code : Z := A_code |c S_bit.
Definition AR_code : Z := A_bit |c R_bit.
Definition ARS_code : Z := AR_code |c S_bit.
Definition ARX_code : Z := AR_code |c X_bit.
Definition ARXS_code : Z := ARX_code |c S_bit.

Definition END_DELAY : Z := 10000 /c CLOCK_PERIOD.
Definition R_to_X_min : Z := 60 /c CLOCK_PERIOD.
Definition A_to_R_min : Z := 10 /c CLOCK_PERIOD.

Definition MIN3 (a b c : Z) : Z :=
  if a <? (if b <? c then b else c) then a else if b <? c then b else c.

(** ** The state table *)

Inductive TSGstates :=
  | Null | S_state | A1 | AS1 | AR1 | ARS1 | ARX | ARXS | AR2 | ARS2 | A2 | AS2
  | END_state.

Definition rfvect (st : TSGstates) : Z :=
  match st with
  | Null => Null_code | S_state => S_code | A1 => A_code | AS1 => AS_code
  | AR1 => AR_code | ARS1 => ARS_code | ARX => ARX_code | ARXS => ARXS_code
  | AR2 => AR_code | ARS2 => ARS_code | A2 => A_code | AS2 => AS_code
  | END_state => Null_code
  end.

(** The three transitions of a state: on a sample event, on a sample and a
    pulse event together, on a pulse event. *)
Definition next_state (st : TSGstates) : TSGstates * TSGstates * TSGstates :=
  match st with
  | Null => (S_state, AS1, A1)
  | S_state => (Null, A1, AS1)
  | A1 => (AS1, ARS1, AR1)
  | AS1 => (A1, AR1, ARS1)
  | AR1 => (ARS1, ARXS, ARX)
  | ARS1 => (AR1, ARX, ARXS)
  | ARX => (ARXS, ARS2, AR2)
  | ARXS => (ARX, AR2, ARS2)
  | AR2 => (ARS2, AS2, A2)
  | ARS2 => (AR2, A2, AS2)
  | A2 => (AS2, S_state, Null)
  | AS2 => (A2, Null, S_state)
  | END_state => (Null, Null, Null)
  end.

(** ** The times of a call *)

Record Timing := mk_Timing {
  smsp : Z;          (** half the sample separation, in ticks *)
  lgfr : Z;
  mpnc : Z;
  txp : Z;
  N_sample : Z;
  t2 : Z; t3 : Z; t4 : Z; t5 : Z;
  phase_delay : Z;
  p_time0 : Z;       (** the initial times to the next events *)
  s_time0 : Z;
  f_time0 : Z;
  i0 : Z
}.

Definition duration (tm : Timing) (st : TSGstates) : Z :=
  match st with
  | A1 | AS1 => t2 tm
  | AR1 | ARS1 => t3 tm
  | ARX | ARXS => txp tm
  | AR2 | ARS2 => t4 tm
  | A2 | AS2 => t5 tm
  | END_state => 1
  | Null | S_state => 0
  end.

(** ** The parameters

    The state of these computations is the structure [*tsg].  A flag is an
    early return. *)

Abbreviation PM := (M TSGprm).

Definition pat_at (i : Z) : PM Z :=
  t ← get_st; l ← deref NullDeref (pat t); deref OutOfBounds (zget l i).

(** The first loop reads the whole pattern (its result is not used). *)
Definition maxpulse : PM Z :=
  n ← gets mppul;
  for_fold (seqZ 0 n) (fun p m => x ← pat_at p; mret (if m <? x then x else m)) (-1).

(** The pattern has an entry that is not above the one before. *)
Definition pat_not_increasing : PM bool :=
  n ← gets mppul;
  for_break (seqZ 1 (n - 1)) (fun i _ =>
    x ← pat_at i; y ← pat_at (i - 1);
    mret (if y <? x then Next false else Break true)) false.

Definition check_params : PM (option Z) :=
  _ ← maxpulse;
  t ← get_st;
  if (frang t <? 0) || (rsep t <=? 0) then mret (Some TSG_INV_RSEP)
  else if (txpl t <=? 0) && (smsep t <=? 0) && (rsep t <=? 0) then
    mret (Some TSG_NO_SMSEP)
  else if (mppul t =? 0) && (smsep t =? 0) && (rsep t =? 0) then
    mret (Some TSG_INV_MPPUL_SMSEP)
  else if 0 <? mppul t then
    bad ← pat_not_increasing;
    mret (if (bad : bool) then Some TSG_INV_PAT else None)
  else mret None.

(** The copy [prm] of the parameters the buffer keeps. *)
Definition copy_params : PM TSGprm :=
  t ← get_st;
  p ← (if 0 <? mppul t then
         for_fold (seqZ 0 (mppul t)) (fun i l =>
           x ← pat_at i; mret (l ++ [x])%list) [] ≫= fun l => mret (Some l)
       else mret None);
  c ← (if 1 <? nbaud t then
         l ← deref NullDeref (code t);
         if zlen l <? nbaud t then fail OutOfBounds
         else mret (Some (take (Z.to_nat (nbaud t)) l))
       else mret None);
  mret (t <| pat := p |> <| code := c |>).

(** Lag to the first range and sample separation. *)
Definition complete_params : PM unit :=
  modify (fun t => if nbaud t <? 1 then t <| nbaud := 1 |> else t);;
  t ← get_st;
  temp ← int_op (frang t * 20);
  modify (fun t => t <| lagfr := temp /c 3 |>);;
  (if negb (mppul t =? 0) then
     if negb (txpl t =? 0) then modify (fun t => t <| smsep := txpl t |>)
     else if smsep t =? 0 then
       r ← int_op (rsep t * 20);
       modify (fun t => t <| smsep := r /c 3 |>);;
       modify (fun t => t <| txpl := smsep t |>)
     else modify (fun t => t <| txpl := smsep t |>)
   else mret tt);;
  t ← get_st;
  sm ← int_div (smsep t) (nbaud t);
  modify (fun t => t <| smsep := sm |>);;
  ml ← (if mppul t =? 0 then mret 0 else pat_at (mppul t - 1));
  modify (fun t => t <| mlag := ml |>);;
  when (negb (sm %c CLOCK_PERIOD =? 0))
    (sm1 ← int_op ((sm /c CLOCK_PERIOD + 1) * CLOCK_PERIOD);
     modify (fun t => t <| smsep := sm1 |>);;
     when (negb ((sm1 /c CLOCK_PERIOD) %c 2 =? 0))
       (sm2 ← int_op (sm1 + CLOCK_PERIOD);
        modify (fun t => t <| smsep := sm2 |>))).

Definition check_completed : PM (option Z) :=
  t ← get_st;
  if 0 <? mppul t then
    if mpinc t <? smsep t then mret (Some TSG_INV_MPINC_SMSEP) else
    r ← int_rem (lagfr t) (smsep t);
    if negb (r =? 0) then mret (Some TSG_INV_LAGFR_SMSEP) else
    q ← int_rem (mpinc t) (smsep t);
    if negb (q =? 0) then mret (Some TSG_INV_MPINC_SMSEP) else
    a ← int_op (20 * mppul t);
    a ← int_op (a * txpl t);
    b ← int_op (mlag t * mpinc t);
    c ← int_op (nrang t * nbaud t);
    c ← int_op (c * smsep t);
    b ← int_op (b + c);
    b ← int_op (b + lagfr t);
    duty ← int_div a b;
    mret (if 1 <=? duty then Some TSG_INV_DUTY_CYCLE else None)
  else mret None.

(** Lines 368-443: the number of samples and the times, in ticks. *)
Definition make_timing : PM (Z + Timing) :=
  t ← get_st;
  let smsp1 := smsep t /c CLOCK_PERIOD in
  let lgfr := lagfr t /c CLOCK_PERIOD in
  let mpnc := mpinc t /c CLOCK_PERIOD in
  let txp := txpl t /c CLOCK_PERIOD in
  if negb (smsp1 %c 2 =? 0) then mret (inl TSG_INV_ODD_SMSEP) else
  a ← int_op (mlag t * mpnc);
  a ← int_div a smsp1;
  b ← int_op (rsep t * 20);
  b ← int_op (nrang t * b);
  c ← int_op (3 * smsep t);
  b ← int_div b c;
  n ← int_op (a + b);
  modify (fun t => t <| tsg_samples := n |>);;
  let t3 := R_to_X_min in
  let t2 := A_to_R_min in
  let t4 := if rtoxmin t =? 0 then t3 else rtoxmin t /c CLOCK_PERIOD in
  let t5 := t2 + 30 /c CLOCK_PERIOD in
  if mppul t =? 0 then
    mret (inr (mk_Timing (smsp1 /c 2) lgfr mpnc txp n t2 t3 t4 t5 0 32767 1 0 0))
  else
    p0 ← pat_at 0;
    p ← int_op (p0 * mpnc);
    p ← int_op (p + 1);
    s ← int_op (p + lgfr + t2 + t3 + txp /c 2);
    if 1 <? nbaud t then
      let pd := txp /c nbaud t in
      if negb (txp %c nbaud t =? 0) then mret (inl TSG_INV_TXPL_BAUD)
      else if pd =? 0 then mret (inl TSG_INV_PHASE_DELAY)
      else mret (inr (mk_Timing (smsp1 /c 2) lgfr mpnc txp n t2 t3 t4 t5 pd p s 32727 1))
    else
      mret (inr (mk_Timing (smsp1 /c 2) lgfr mpnc txp n t2 t3 t4 t5 0 p s 32727 1)).

(** Everything [TSGMake] does before it allocates the blocks of the sequence:
    an error flag ([None] is a failed [malloc], which leaves [TSG_OK]), or the
    copy and the times. *)
Definition prepare (alloc : Z → bool) : PM (option Z + TSGprm * Timing) :=
  e ← check_params;
  match (e : option Z) with
  | Some f => mret (inl (Some f))
  | None =>
      if negb (alloc 0) then mret (inl None)
      else if negb (alloc 1) then mret (inl None)
      else
        t ← get_st;
        if (0 <? mppul t) && negb (alloc 2) then mret (inl None)
        else if (1 <? nbaud t) && negb (alloc 3) then mret (inl None)
        else
          prm ← copy_params;
          complete_params;;
          e ← check_completed;
          match (e : option Z) with
          | Some f => mret (inl (Some f))
          | None =>
              r ← make_timing;
              mret match (r : Z + Timing) with
                | inl f => inl (Some f)
                | inr tm => inr (prm, tm)
                end
          end
  end.

(** ** The writer

    The two blocks of the buffer with their sizes in bytes, and the counter
    [struct TSGcnt] of the samples written. *)

Record Writer := mk_Writer {
  w_code : list Z;
  w_rep : list Z;
  code_size : Z;
  rep_size : Z;
  cnt_last : Z;
  cnt_n_smp : Z
}.

#[export] Instance eta_Writer : Eta Writer := fun r =>
  mk_Writer (w_code r) (w_rep r) (code_size r) (rep_size r) (cnt_last r) (cnt_n_smp r).

Abbreviation WM := (M Writer).

(** [code[len] = (char) c; rep[len] = (char) r; len++]. *)
Definition put (c r : Z) : WM unit :=
  w ← get_st;
  if (zlen (w_code w) <? code_size w) && (zlen (w_code w) <? rep_size w) then
    modify (fun w => w <| w_code := (w_code w ++ [u8 c])%list |>);;
    modify (fun w => w <| w_rep := (w_rep w ++ [u8 r])%list |>)
  else fail OutOfBounds.

(** [while (delay > 255)]: returns the delay that is left. *)
Fixpoint put_chunks (fuel : nat) (c delay : Z) : WM Z :=
  if 255 <? delay then
    match fuel with
    | O => fail OutOfFuel
    | S fuel => put c 255;; put_chunks fuel c (delay - 255)
    end
  else mret delay.

Definition TSGWrBuf (c delay : Z) : WM unit :=
  rest ← put_chunks (Z.to_nat delay) c delay;
  put c rest;;
  w ← get_st;
  when (bits_any c S_bit && (cnt_last w =? 0))
    (modify (fun w => w <| cnt_n_smp := cnt_n_smp w + 1 |>));;
  modify (fun w => w <| cnt_last := c &c S_bit |>).

(** ** The machine: the variables of the main loop *)

Record Machine := mk_Machine {
  state : TSGstates;
  mi : Z;             (** the next pulse of the pattern *)
  mj : Z;             (** the baud being sent *)
  p_time : Z;         (** ticks to the next pulse, sample, phase event *)
  s_time : Z;
  f_time : Z;
  scope : Z
}.

Section Generate.
Context (t : TSGprm) (tm : Timing).

(** The completed parameters' arrays. *)
Definition read_pat (i : Z) : WM Z :=
  l ← deref NullDeref (pat t); deref OutOfBounds (zget l i).

Definition read_code (i : Z) : WM Z :=
  l ← deref NullDeref (code t); deref OutOfBounds (zget l i).

(** Lines 473-494: the code and the delay of the next entry. *)
Definition next_entry (g : Machine) : WM (Z * Z * Machine) :=
  let c := rfvect (state g) |c scope g in
  let sc := if (gort t =? 1) && bits_any c X_bit then 0 else scope g in
  if bits_any c X_bit && (1 <? nbaud t) then
    let f := if txp tm <? f_time g then phase_delay tm else f_time g in
    v ← read_code (nbaud t * (mi g - 1) + mj g);
    let c := c |c (if v <? 0 then P_bit else 0) in
    mret (c, MIN3 f (s_time g) (p_time g),
          mk_Machine (state g) (mi g) (mj g) (p_time g) (s_time g) f sc)
  else
    mret (c, MIN3 32767 (s_time g) (p_time g),
          mk_Machine (state g) (mi g) (mj g) (p_time g) (s_time g) 32767 sc).

(** Lines 502-518: the next state. *)
Definition transition (g : Machine) : Machine :=
  let '(on_s, on_sp, on_p) := next_state (state g) in
  let st g st j f := mk_Machine st (mi g) j (p_time g) (s_time g) f (scope g) in
  if (f_time g <? s_time g) && (f_time g <? p_time g) then
    st g (state g) (mj g + 1) (f_time g)
  else if s_time g <? p_time g then
    st g on_s (if f_time g =? s_time g then mj g + 1 else mj g) (f_time g)
  else if s_time g =? p_time g then st g on_sp 0 (f_time g)
  else st g on_p 0 32767.

(** Lines 520-540: the times to the next events. *)
Definition advance (delay : Z) (g : Machine) : WM Machine :=
  let s := s_time g - delay in
  let p := p_time g - delay in
  let f := f_time g - delay in
  let f := if f <=? 0 then phase_delay tm else f in
  let s := if s <=? 0 then smsp tm else s in
  let p := if p <=? 0 then duration tm (state g) else p in
  if p =? 0 then
    if mi g <? mppul t then
      x ← read_pat (mi g);
      y ← read_pat (mi g - 1);
      mret (mk_Machine (state g) (mi g + 1) 0
              ((x - y) * mpnc tm - (t2 tm + t3 tm + t4 tm + t5 tm + txp tm)) s f (scope g))
    else mret (mk_Machine (state g) (mi g) (mj g) 32767 s f (scope g))
  else mret (mk_Machine (state g) (mi g) (mj g) p s f (scope g)).

(** One iteration of the main loop. *)
Definition make_step (g : Machine) : WM Machine :=
  e ← next_entry g;
  let '(c, delay, g1) := (e : Z * Z * Machine) in
  TSGWrBuf c delay;;
  advance delay (transition g1).

Fixpoint make_loop (fuel : nat) (g : Machine) : WM unit :=
  w ← get_st;
  if cnt_n_smp w <? N_sample tm then
    match fuel with
    | O => fail OutOfFuel
    | S fuel => g' ← make_step g; make_loop fuel g'
    end
  else mret tt.

Definition initial_machine : Machine :=
  mk_Machine Null (i0 tm) 0 (p_time0 tm) (s_time0 tm) (f_time0 tm) 0.

(** A bound of the ticks the loop writes. *)
Definition loop_fuel : nat :=
  Z.to_nat (s_time0 tm + 2 * smsp tm * N_sample tm).

(** Lines 471-553: the scope pulse, the start delay, the sequence, the end. *)
Definition generate : WM unit :=
  TSGWrBuf 128 1;;
  TSGWrBuf (rfvect Null) (stdelay t);;
  make_loop loop_fuel initial_machine;;
  let ttemp := if (mppul t =? 0) || (END_DELAY <=? 0) then 1 else END_DELAY in
  TSGWrBuf Null_code ttemp.

End Generate.

(** Lines 557-562: the ticks before the first sample. *)
Fixpoint ticks_before_sample (codes reps : list Z) : Z :=
  match codes, reps with
  | c :: codes, r :: reps =>
      if (c &c 1) =? 0 then r + ticks_before_sample codes reps else 0
  | _, _ => 0
  end.

(** [smdelay/(rsep/3.0e-1*2)+0.5]. *)
Definition sample_delay (us rsep : Z) : Z :=
  let d3 := ddiv (d_of_int 3) (d_of_int 10) in
  let gate := dmul (ddiv (d_of_int rsep) d3) (d_of_int 2) in
  d_to_int (dadd (ddiv (d_of_int us) gate) (ddiv (d_of_int 1) (d_of_int 2))).

Definition buf_len (t : TSGprm) (tm : Timing) : Z :=
  mppul t * (6 + 2 * nbaud t) + lgfr tm + 2 * N_sample tm + 100.

Definition writer0 (n : Z) : Writer := mk_Writer [] [] (2 * n) (4 * n) 0 0.

(** [TSGMake]: the flag and, when it succeeds, the buffer with its copy of the
    parameters; [*tsg] is updated.  The block sizes are checked not to
    overflow. *)
Definition TSGMake (alloc : Z → bool) (index : Z)
    : PM (Z * option (TSGbuf * TSGprm)) :=
  r ← prepare alloc;
  match (r : option Z + TSGprm * Timing) with
  | inl (Some f) => mret (f, None)
  | inl None => mret (TSG_OK, None)
  | inr (prm, tm) =>
      t ← get_st;
      n ← int_op (buf_len t tm);
      m ← int_op (4 * n);
      if negb (alloc 4) || negb (alloc 5) then mret (TSG_INV_MEMORY, None)
      else
        match generate t tm (writer0 n) with
        | Fault e => fail e
        | Ok (_, w) =>
            us ← int_op (ticks_before_sample (w_code w) (w_rep w) * 10);
            modify (fun t => t <| smdelay := sample_delay us (rsep t) |>);;
            mret (TSG_OK,
                  Some (mk_TSGbuf index (zlen (w_code w)) CLOCK_PERIOD
                          (w_code w) (w_rep w), prm))
        end
  end.

(** A two-pulse sequence of the radar: 15 km gates, 300-microsecond pulses. *)
Definition example_pulses : TSGprm :=
  mk_TSGprm 40 180 45 0 0 300 2 1500 0 1 0 0 2 1 360 0 (Some [0; 3]) None.

Definition example_coded : TSGprm :=
  mk_TSGprm 80 180 45 0 0 800 2 3000 0 4 0 0 2 1 0 0 (Some [0; 3])
    (Some [1; -1; 1; 1; 1; -1; 1; 1]).

(** ** The specification: two independent waveforms

    A state of the table is a phase of the pulse with the sample bit. *)

Inductive phase := PNull | PA1 | PAR1 | PX | PAR2 | PA2.

#[export] Instance phase_eq_dec : EqDecision phase.
Proof. solve_decision. Defined.

Definition phase_state (ph : phase) (sampling : bool) : TSGstates :=
  match ph, sampling with
  | PNull, false => Null | PNull, true => S_state
  | PA1, false => A1 | PA1, true => AS1
  | PAR1, false => AR1 | PAR1, true => ARS1
  | PX, false => ARX | PX, true => ARXS
  | PAR2, false => AR2 | PAR2, true => ARS2
  | PA2, false => A2 | PA2, true => AS2
  end.

Definition phase_next (ph : phase) : phase :=
  match ph with
  | PNull => PA1 | PA1 => PAR1 | PAR1 => PX | PX => PAR2 | PAR2 => PA2 | PA2 => PNull
  end.

Definition phase_code (ph : phase) : Z :=
  match ph with
  | PNull => Null_code | PA1 | PA2 => A_code | PAR1 | PAR2 => AR_code | PX => ARX_code
  end.

(** The control lines of the radar (attenuator, receiver, transmitter, phase)
    and the sample line of a code. *)
Definition rf_lines (c : Z) : Z := c &c (A_bit |c R_bit |c X_bit |c P_bit).

Definition sample_line (c : Z) : bool := bits_any c S_bit.

(** A pair of lists of codes and repetitions read tick by tick. *)
Definition ticks (codes reps : list Z) : list Z :=
  concat (zip_with (fun c r => replicate (Z.to_nat r) c) codes reps).

Definition hold (n : Z) (c : Z) : list Z := replicate (Z.to_nat n) c.

Section Waveforms.
Context (t : TSGprm) (tm : Timing) (pats codes : list Z).

Definition pulse_at (k : Z) : Z := pats !!! Z.to_nat k.

(** The quiet time before pulse [k]. *)
Definition gap (k : Z) : Z :=
  if k =? 0 then p_time0 tm
  else (pulse_at k - pulse_at (k - 1)) * mpnc tm
       - (t2 tm + t3 tm + t4 tm + t5 tm + txp tm).

Definition baud_code (k j : Z) : Z :=
  ARX_code |c (if (codes !!! Z.to_nat (nbaud t * k + j)) <? 0 then P_bit else 0).

(** The transmission of pulse [k] from its baud [j] on. *)
Definition baud_wave (k j : Z) : list Z :=
  concat (map (fun j => hold (phase_delay tm) (baud_code k j)) (seqZ j (nbaud t - j))).

Definition tx_wave (k : Z) : list Z :=
  if 1 <? nbaud t then baud_wave k 0 else hold (txp tm) ARX_code.

Definition rf_pulse (k : Z) : list Z :=
  (hold (t2 tm) A_code ++ hold (t3 tm) AR_code ++ tx_wave k ++
   hold (t4 tm) AR_code ++ hold (t5 tm) A_code)%list.

(** Pulses [k], ..., [k + n - 1] each after its gap, then quiet. *)
Fixpoint rf_wave (n : nat) (k : Z) : list Z :=
  match n with
  | O => hold 32767 Null_code
  | S n => (hold (gap k) Null_code ++ rf_pulse k ++ rf_wave n (k + 1))%list
  end.

(** The sample line: low for [s] ticks, then [n] samples. *)
Fixpoint sample_wave (n : nat) (s : Z) : list bool :=
  (replicate (Z.to_nat s) false ++
   match n with
   | O => []
   | S n => replicate (Z.to_nat (smsp tm)) true ++ sample_wave n (smsp tm)
   end)%list.

(** What the parameters must satisfy for the sequence to be the waveforms: the
    pulses do not overlap, every time is positive, and the sequence ends
    before the quiet of 32767 ticks does. *)
Record well_timed : Prop := mk_well_timed {
  wt_pat : 0 < mppul t → pat t = Some pats;
  wt_pats : mppul t ≤ zlen pats;
  wt_gaps : ∀ k, 0 ≤ k < mppul t → 1 ≤ gap k;
  wt_code : 1 < nbaud t → code t = Some codes;
  wt_codes : 1 < nbaud t → nbaud t * mppul t ≤ zlen codes;
  wt_nbaud : 1 ≤ nbaud t;
  wt_baud : 1 < nbaud t → 1 ≤ phase_delay tm ∧ txp tm = phase_delay tm * nbaud t;
  wt_txp : 1 ≤ txp tm ≤ 32760;
  wt_t2 : t2 tm = A_to_R_min;
  wt_t3 : t3 tm = R_to_X_min;
  wt_t4 : 1 ≤ t4 tm;
  wt_t5 : t5 tm = 4;
  wt_smsp : 1 ≤ smsp tm;
  wt_s0 : 1 ≤ s_time0 tm;
  wt_first : (mppul t = 0 ∧ p_time0 tm = 32767 ∧ i0 tm = 0) ∨
             (1 ≤ mppul t ∧ i0 tm = 1);
  wt_samples : 1 ≤ N_sample tm;
  wt_total : s_time0 tm + 2 * smsp tm * N_sample tm ≤ 32767;
  wt_stdelay : 0 ≤ stdelay t ≤ 10000;
  wt_lgfr : 0 ≤ lgfr tm
}.

(** The part of [well_timed] the checks of [TSGMake] do not imply. *)
Record feasible : Prop := mk_feasible {
  fe_mppul : 0 ≤ mppul t;
  fe_pat : 0 < mppul t → pat t = Some pats;
  fe_pats : mppul t ≤ zlen pats;
  fe_gaps : ∀ k, 0 ≤ k < mppul t → 1 ≤ gap k;
  fe_code : 1 < nbaud t → code t = Some codes;
  fe_codes : 1 < nbaud t → nbaud t * mppul t ≤ zlen codes;
  fe_baud : 1 < nbaud t → 0 < mppul t;
  fe_txp : 1 ≤ txp tm ≤ 32760;
  fe_t4 : 1 ≤ t4 tm;
  fe_smsp : 1 ≤ smsp tm;
  fe_lgfr : 0 ≤ lgfr tm;
  fe_s0 : 1 ≤ s_time0 tm;
  fe_samples : 1 ≤ N_sample tm;
  fe_total : s_time0 tm + 2 * smsp tm * N_sample tm ≤ 32767;
  fe_stdelay : 0 ≤ stdelay t ≤ 10000
}.

(** The wave that remains when the machine is in phase [ph] with [p] ticks to
    its end; [quiet] tells that all the pulses were sent. *)
Definition rest_wave (i : Z) : list Z := rf_wave (Z.to_nat (mppul t - i)) i.

Definition after (ph : phase) (i : Z) : list Z :=
  (match ph with
   | PNull => rf_pulse (i - 1)
   | PA1 => hold (t3 tm) AR_code ++ tx_wave (i - 1) ++ hold (t4 tm) AR_code ++
            hold (t5 tm) A_code
   | PAR1 => tx_wave (i - 1) ++ hold (t4 tm) AR_code ++ hold (t5 tm) A_code
   | PX => hold (t4 tm) AR_code ++ hold (t5 tm) A_code
   | PAR2 => hold (t5 tm) A_code
   | PA2 => []
   end ++ rest_wave i)%list.

(** The time to the next baud, as the next iteration will set it. *)
Definition baud_time (g : Machine) : Z :=
  if txp tm <? f_time g then phase_delay tm else f_time g.

Definition pulse_rem (quiet : bool) (ph : phase) (g : Machine) : list Z :=
  if quiet then hold (p_time g) Null_code
  else
    ((if bool_decide (ph = PX) && (1 <? nbaud t)
      then hold (baud_time g) (baud_code (mi g - 1) (mj g)) ++
           baud_wave (mi g - 1) (mj g + 1)
      else hold (p_time g) (phase_code ph)) ++ after ph (mi g))%list.

Record pulse_ok (quiet : bool) (ph : phase) (g : Machine) : Prop := mk_pulse_ok {
  po_time : 1 ≤ p_time g;
  po_index : (if quiet then 0 else 1) ≤ mi g ≤ mppul t;
  po_quiet : quiet = true → ph = PNull ∧ mi g = mppul t;
  po_ar : ph = PAR1 → p_time g ≤ R_to_X_min;
  po_x : ph = PX → 1 < nbaud t →
    0 ≤ mj g < nbaud t ∧ 1 ≤ baud_time g ≤ phase_delay tm ∧
    p_time g = baud_time g + phase_delay tm * (nbaud t - 1 - mj g);
  po_x1 : ph = PX → p_time g ≤ txp tm
}.

(** A bound of the pulse and phase events to come. *)
Definition pulse_events (quiet : bool) (ph : phase) (g : Machine) : Z :=
  if quiet then 0
  else (5 + nbaud t) * (mppul t - mi g) +
    match ph with
    | PNull => 5 + nbaud t
    | PA1 => 4 + nbaud t
    | PAR1 => 3 + nbaud t
    | PX => 2 + (if 1 <? nbaud t then nbaud t - mj g else 1)
    | PAR2 => 2
    | PA2 => 1
    end.

(** The sample line that remains. *)
Definition sample_rem (b : bool) (last n s : Z) : list bool :=
  if b then
    (replicate (Z.to_nat s) true ++
     sample_wave (Z.to_nat (N_sample tm - n - if last =? 0 then 1 else 0)) (smsp tm))%list
  else sample_wave (Z.to_nat (N_sample tm - n)) s.

(** A bound of the sample events to come. *)
Definition sample_events (b : bool) (last n : Z) : Z :=
  2 * (N_sample tm - n) +
  (if b then if last =? 0 then -1 else 1 else 0).

End Waveforms.

(** What the writer keeps true of its blocks: entries as long as they claim. *)
Definition entry_ok (c r : Z) : Prop :=
  0 ≤ c < 256 ∧ 0 ≤ r < 256 ∧ (sample_line c = true → 1 ≤ r).

Definition writer_ok (w : Writer) : Prop :=
  Forall2 entry_ok (w_code w) (w_rep w) ∧ code_size w ≤ rep_size w.

Definition written (w : Writer) : list Z := ticks (w_code w) (w_rep w).

(** ** Theorems: the writer *)

Lemma hold_split n m c : 0 ≤ m ≤ n → hold n c = (hold m c ++ hold (n - m) c)%list.
Proof. intros. unfold hold. rewrite <- replicate_add. f_equal. lia. Qed.

Lemma hold_0 c : hold 0 c = [].
Proof. done. Qed.

Lemma zlen_hold n c : 0 ≤ n → zlen (hold n c) = n.
Proof. intros. unfold zlen, hold. rewrite length_replicate. lia. Qed.

Lemma ticks_snoc cs rs c r :
  length cs = length rs → ticks (cs ++ [c]) (rs ++ [r]) = (ticks cs rs ++ hold r c)%list.
Proof.
  intros E. unfold ticks. rewrite zip_with_app by done.
  rewrite concat_app. simpl. by rewrite app_nil_r.
Qed.

Lemma put_ok c r w :
  writer_ok w → 0 ≤ c < 256 → 0 ≤ r < 256 → (sample_line c = true → 1 ≤ r) →
  zlen (w_code w) < code_size w →
  ∃ w', put c r w = Ok (tt, w') ∧ writer_ok w' ∧
    written w' = (written w ++ hold r c)%list ∧
    zlen (w_code w') = zlen (w_code w) + 1 ∧
    code_size w' = code_size w ∧ cnt_last w' = cnt_last w ∧ cnt_n_smp w' = cnt_n_smp w.
Proof.
  intros [Hf Hs] Hc Hr Hsl Hlen. unfold put. mrun.
  rewrite (proj2 (Z.ltb_lt _ _) Hlen).
  rewrite (proj2 (Z.ltb_lt (zlen (w_code w)) (rep_size w))) by lia. simpl.
  destruct w as [cs rs z1 z2 l n]. simpl in *.
  eexists. split; [reflexivity|]. simpl. rewrite !u8_id by done.
  split_and!; try done; simpl.
  - split; [|done]. apply Forall2_app; [done|]. constructor; done.
  - unfold written. simpl. apply ticks_snoc.
    by eapply Forall2_length.
  - rewrite zlen_app. done.
Qed.

Lemma put_chunks_ok c fuel d w :
  (Z.to_nat d ≤ fuel)%nat → 0 ≤ d → writer_ok w → 0 ≤ c < 256 →
  255 * zlen (w_code w) + d ≤ 255 * code_size w →
  ∃ w' rest, put_chunks fuel c d w = Ok (rest, w') ∧ writer_ok w' ∧
    0 ≤ rest ≤ 255 ∧ (0 < d → 0 < rest) ∧
    (written w' ++ hold rest c = written w ++ hold d c)%list ∧
    255 * zlen (w_code w') + rest = 255 * zlen (w_code w) + d ∧
    code_size w' = code_size w ∧ cnt_last w' = cnt_last w ∧ cnt_n_smp w' = cnt_n_smp w.
Proof.
  revert d w. induction fuel as [|fuel IH]; intros d w Hf Hd Hw Hc Hcap; simpl.
  - rewrite (proj2 (Z.ltb_ge _ _)) by lia. exists w, d. split_and!; try done; lia.
  - destruct (Z.ltb_spec 255 d) as [H|H].
    2: { exists w, d. split_and!; try done; lia. }
    destruct (put_ok c 255 w) as (w1 & E1 & Hw1 & Ht1 & Hl1 & Hs1 & Ha1 & Hn1); try done; [lia|].
    rewrite (bind_ok _ _ _ _ _ E1).
    destruct (IH (d - 255) w1) as (w2 & rest & E2 & Hw2 & Hr & Hr' & Ht2 & Hl2 & Hs2 & Ha2 & Hn2);
      try done; try lia.
    exists w2, rest. split_and!; try done; try lia; try congruence.
    rewrite Ht2, Ht1, <- app_assoc. f_equal. by rewrite (hold_split d 255) by lia.
Qed.

(** The counter of samples after an entry. *)
Definition count_sample (c last n : Z) : Z :=
  if sample_line c && (last =? 0) then n + 1 else n.

Lemma TSGWrBuf_ok c d w :
  writer_ok w → 0 ≤ c < 256 → 0 ≤ d → (sample_line c = true → 1 ≤ d) →
  255 * zlen (w_code w) + d + 255 ≤ 255 * code_size w →
  ∃ w', TSGWrBuf c d w = Ok (tt, w') ∧ writer_ok w' ∧
    written w' = (written w ++ hold d c)%list ∧
    255 * zlen (w_code w') ≤ 255 * zlen (w_code w) + d + 255 ∧
    code_size w' = code_size w ∧ cnt_last w' = (c &c S_bit) ∧
    cnt_n_smp w' = count_sample c (cnt_last w) (cnt_n_smp w).
Proof.
  intros Hw Hc Hd Hsl Hcap. unfold TSGWrBuf.
  destruct (put_chunks_ok c (Z.to_nat d) d w)
    as (w1 & rest & E1 & Hw1 & Hr & Hr' & Ht1 & Hl1 & Hs1 & Ha1 & Hn1); try done; [lia|].
  rewrite (bind_ok _ _ _ _ _ E1).
  destruct (put_ok c rest w1) as (w2 & E2 & Hw2 & Ht2 & Hl2 & Hs2 & Ha2 & Hn2);
    try done; try lia; [intros; specialize (Hsl ltac:(done)); lia|].
  rewrite (bind_ok _ _ _ _ _ E2). mrun.
  change (bits_any c S_bit) with (sample_line c). rewrite Ha2, Ha1.
  unfold count_sample.
  destruct (sample_line c && (cnt_last w =? 0)); mrun;
    (eexists; split; [reflexivity|]); destruct w2; simpl in *;
    (split_and!; [done|rewrite <- Ht1; done|lia|congruence|done|congruence]).
Qed.

(** ** Theorems: the sample line *)

Section Steps.
Context (t : TSGprm) (tm : Timing) (pats codes : list Z).
Hypothesis Hwt : well_timed t tm pats codes.

Lemma zlen_sample_wave n s :
  0 ≤ s → zlen (sample_wave tm n s) = s + 2 * smsp tm * Z.of_nat n.
Proof.
  pose proof (wt_smsp _ _ _ _ Hwt) as Hsm. revert s.
  induction n as [|n IH]; intros s Hs; simpl; rewrite zlen_app;
    unfold zlen at 1; rewrite length_replicate; [simpl; unfold zlen; simpl; lia|].
  rewrite zlen_app, IH by lia. unfold zlen. rewrite length_replicate. lia.
Qed.

Lemma zlen_sample_rem b last n s :
  n < N_sample tm → 0 ≤ s →
  s < zlen (sample_rem tm b last n s).
Proof.
  intros Hn Hs. pose proof (wt_smsp _ _ _ _ Hwt) as Hsm. unfold sample_rem. destruct b.
  - rewrite zlen_app, zlen_sample_wave by lia.
    unfold zlen at 1. rewrite length_replicate.
    assert (0 ≤ 2 * smsp tm * Z.of_nat (Z.to_nat (N_sample tm - n -
      (if last =? 0 then 1 else 0)))) by (apply Z.mul_nonneg_nonneg; lia). lia.
  - rewrite zlen_sample_wave by lia.
    assert (0 < 2 * smsp tm * Z.of_nat (Z.to_nat (N_sample tm - n))) by
      (apply Z.mul_pos_pos; lia). lia.
Qed.

Lemma replicate_split {A} (x : A) d s :
  0 ≤ d ≤ s →
  replicate (Z.to_nat s) x = (replicate (Z.to_nat d) x ++ replicate (Z.to_nat (s - d)) x)%list.
Proof. intros. rewrite <- replicate_add. f_equal. lia. Qed.

Lemma sample_wave_split n d s :
  0 ≤ d ≤ s →
  sample_wave tm n s = (replicate (Z.to_nat d) false ++ sample_wave tm n (s - d))%list.
Proof.
  intros H. destruct n; simpl; rewrite (replicate_split false d s) by done;
    by rewrite <- app_assoc.
Qed.

(** [d] ticks with the sample line at [b], with a flip at the end of the time. *)
Lemma sample_step b c last n s d :
  sample_line c = b → n < N_sample tm → 1 ≤ d ≤ s → (b = true → s ≤ smsp tm) →
  let b' := if d =? s then negb b else b in
  let s' := if d =? s then smsp tm else s - d in
  let last' := c &c S_bit in
  let n' := count_sample c last n in
  sample_rem tm b last n s =
    (replicate (Z.to_nat d) b ++ sample_rem tm b' last' n' s')%list ∧
  1 ≤ s' ∧ (b' = true → s' ≤ smsp tm) ∧ n' ≤ N_sample tm ∧
  sample_events tm b' last' n' + (if d =? s then 1 else 0) = sample_events tm b last n ∧
  (n' = N_sample tm →
   smsp tm ≤ zlen (sample_rem tm b' last' n' s') < 2 * smsp tm).
Proof.
  intros Hc Hn Hd Hb. pose proof (wt_smsp _ _ _ _ Hwt) as Hsm.
  assert (((c &c S_bit) =? 0) = negb b) as Hl.
  { rewrite <- Hc. unfold sample_line, bits_any. by rewrite negb_involutive. }
  unfold count_sample, sample_events, sample_rem. rewrite Hc, Hl.
  destruct (Z.eqb_spec d s) as [->|Hne]; destruct b; simpl in *.
  - specialize (Hb eq_refl). destruct (last =? 0); simpl.
    + replace (N_sample tm - (n + 1)) with (N_sample tm - n - 1) by lia.
      split_and!; try done; try lia. intros E.
      replace (N_sample tm - n - 1) with 0 by lia.
      rewrite zlen_sample_wave by lia. simpl. lia.
    + rewrite Z.sub_0_r. split_and!; try done; lia.
  - replace (Z.to_nat (N_sample tm - n)) with (S (Z.to_nat (N_sample tm - n - 1))) by lia.
    split_and!; try done; lia.
  - specialize (Hb eq_refl). destruct (last =? 0); simpl.
    + rewrite (replicate_split true d s), <- app_assoc by lia. rewrite Z.sub_0_r.
      replace (N_sample tm - (n + 1)) with (N_sample tm - n - 1) by lia.
      split_and!; try done; try lia. intros E.
      replace (N_sample tm - n - 1) with 0 by lia.
      rewrite zlen_app, zlen_sample_wave by lia. unfold zlen.
      rewrite length_replicate. simpl. lia.
    + rewrite (replicate_split true d s), <- app_assoc by lia.
      split_and!; try done; lia.
  - rewrite (sample_wave_split _ d s) by lia. split_and!; try done; lia.
Qed.

(** ** Theorems: the pulses *)

Lemma pulse_at_spec k w :
  0 ≤ k < mppul t → read_pat t k w = Ok (pulse_at pats k, w).
Proof.
  intros Hk. unfold read_pat. rewrite (wt_pat _ _ _ _ Hwt ltac:(lia)). mrun.
  unfold pulse_at. pose proof (wt_pats _ _ _ _ Hwt) as Hl.
  destruct (zget_range pats k) as [x E]; [lia|]. rewrite E.
  unfold zget in E. rewrite decide_True in E by lia.
  by rewrite (list_lookup_total_correct _ _ _ E).
Qed.

Lemma baud_wave_cons k j :
  0 ≤ j < nbaud t →
  baud_wave t tm codes k j =
    (hold (phase_delay tm) (baud_code t codes k j) ++ baud_wave t tm codes k (j + 1))%list.
Proof.
  intros Hj. unfold baud_wave. rewrite seqZ_cons' by lia. simpl.
  by replace (nbaud t - j - 1) with (nbaud t - (j + 1)) by lia.
Qed.

Lemma baud_wave_end k : baud_wave t tm codes k (nbaud t) = [].
Proof. unfold baud_wave. by rewrite Z.sub_diag. Qed.

Lemma rest_wave_cons i :
  0 ≤ i < mppul t →
  rest_wave t tm pats codes i =
    (hold (gap tm pats i) Null_code ++ rf_pulse t tm codes i ++
     rest_wave t tm pats codes (i + 1))%list.
Proof.
  intros Hi. unfold rest_wave.
  replace (Z.to_nat (mppul t - i)) with (S (Z.to_nat (mppul t - (i + 1)))) by lia. done.
Qed.

(** The events of a phase that ends. *)
Definition events_at_end (ph : phase) (i : Z) : Z :=
  (5 + nbaud t) * (mppul t - i) +
  match ph with
  | PNull => 5 + nbaud t
  | PA1 => 4 + nbaud t
  | PAR1 => 3 + nbaud t
  | PX => 3
  | PAR2 => 2
  | PA2 => 1
  end.

Definition phase_duration (ph : phase) : Z :=
  match ph with
  | PNull => 0 | PA1 => t2 tm | PAR1 => t3 tm | PX => txp tm | PAR2 => t4 tm | PA2 => t5 tm
  end.

Lemma duration_phase ph b : duration tm (phase_state ph b) = phase_duration ph.
Proof. by destruct ph, b. Qed.

Lemma phase_duration_pos ph : ph ≠ PNull → 1 ≤ phase_duration ph.
Proof.
  destruct Hwt. assert (R_to_X_min = 6) by reflexivity. assert (A_to_R_min = 1) by reflexivity.
  destruct ph; simpl; try done; lia.
Qed.

(** The quiet phase begins: the next gap, or quiet to the end. *)
Lemma quiet_begins g d w :
  1 ≤ mi g ≤ mppul t → mj g = 0 → p_time g ≤ d → duration tm (state g) = 0 →
  ∃ g' quiet, advance t tm d g w = Ok (g', w) ∧
    pulse_ok t tm quiet PNull g' ∧
    pulse_rem t tm pats codes quiet PNull g' = rest_wave t tm pats codes (mi g) ∧
    (quiet = true → p_time g' = 32767) ∧
    state g' = state g ∧ scope g' = scope g ∧
    s_time g' = (if s_time g - d <=? 0 then smsp tm else s_time g - d) ∧
    pulse_events t quiet PNull g' ≤ (5 + nbaud t) * (mppul t - mi g).
Proof.
  intros Hi Hj Hp Hd. unfold advance. rewrite Hd.
  rewrite (proj2 (Z.leb_le (p_time g - d) 0)) by lia. simpl.
  destruct (Z.ltb_spec (mi g) (mppul t)) as [Hlt|Hge].
  - rewrite (bind_ok _ _ _ _ _ (pulse_at_spec (mi g) w ltac:(lia))).
    rewrite (bind_ok _ _ _ _ _ (pulse_at_spec (mi g - 1) w ltac:(lia))).
    eexists _, false. split; [reflexivity|]. 
    pose proof (wt_gaps _ _ _ _ Hwt (mi g) ltac:(lia)) as Hg. unfold gap in Hg.
    rewrite (proj2 (Z.eqb_neq (mi g) 0)) in Hg by lia.
    split_and!; try done; simpl; [|rewrite rest_wave_cons by lia; simpl|unfold pulse_events; simpl; lia].
    + constructor; simpl; try done; lia.
    + unfold pulse_rem, after. simpl. replace (mi g + 1 - 1) with (mi g) by lia.
      unfold gap. by rewrite (proj2 (Z.eqb_neq (mi g) 0)) by lia.
  - eexists _, true. split; [reflexivity|]. split_and!; try done; simpl; [| |unfold pulse_events; simpl; replace (mi g) with (mppul t) by lia; lia].
    + constructor; simpl; try done; [lia|]. intros _. split; [done|lia].
    + unfold rest_wave. by replace (Z.to_nat (mppul t - mi g)) with O by lia.
Qed.

(** A pulse event: the next phase begins, and the wave is what was to come. *)
Lemma pulse_event ph b g d w :
  1 ≤ mi g ≤ mppul t → mj g = 0 →
  p_time g ≤ d →
  (ph = PAR1 → txp tm < f_time g - d) →
  state g = phase_state (phase_next ph) b →
  ∃ g' quiet, advance t tm d g w = Ok (g', w) ∧
    pulse_ok t tm quiet (phase_next ph) g' ∧
    pulse_rem t tm pats codes quiet (phase_next ph) g' = after t tm pats codes ph (mi g) ∧
    (quiet = true → p_time g' = 32767) ∧
    state g' = state g ∧ scope g' = scope g ∧
    s_time g' = (if s_time g - d <=? 0 then smsp tm else s_time g - d) ∧
    pulse_events t quiet (phase_next ph) g' + 1 ≤ events_at_end ph (mi g).
Proof.
  intros Hi Hj Hp Har Hst.
  destruct (decide (ph = PA2)) as [->|Hph].
  { destruct (quiet_begins g d w) as (g' & q & E & H1 & H2 & H3 & H4 & H5 & H6 & H7);
      try done; [by rewrite Hst, duration_phase|].
    exists g', q. split_and!; try done. unfold events_at_end. simpl. lia. }
  pose proof (phase_duration_pos (phase_next ph)) as Hd.
  specialize (Hd ltac:(by destruct ph)).
  unfold advance. rewrite Hst, duration_phase.
  rewrite (proj2 (Z.leb_le (p_time g - d) 0)) by lia.
  rewrite (proj2 (Z.eqb_neq (phase_duration (phase_next ph)) 0)) by lia.
  eexists _, false. split; [reflexivity|].
  pose proof (wt_txp _ _ _ _ Hwt). pose proof (wt_nbaud _ _ _ _ Hwt).
  pose proof (wt_t3 _ _ _ _ Hwt). pose proof (wt_baud _ _ _ _ Hwt) as Hb.
  pose proof (Z.leb_spec (f_time g - d) 0) as Hf.
  split_and!; try done; simpl.
  - constructor; simpl; try done; [destruct ph; simpl; try done; intros; lia| |destruct ph; simpl; try done; intros; lia].
    intros Hx Hn. assert (ph = PAR1) as -> by (by destruct ph). specialize (Har eq_refl).
    specialize (Hb Hn). unfold baud_time. simpl.
    destruct (f_time g - d <=? 0); [inversion Hf; lia|].
    rewrite (proj2 (Z.ltb_lt (txp tm) (f_time g - d))) by lia. rewrite Hj. lia.
  - unfold pulse_rem, after, rf_pulse, tx_wave. destruct ph; simpl; try done.
    + by rewrite <- !app_assoc.
    + by rewrite <- !app_assoc.
    + specialize (Har eq_refl). unfold baud_time; simpl.
      destruct (f_time g - d <=? 0); [inversion Hf; lia|].
      rewrite (proj2 (Z.ltb_lt (txp tm) (f_time g - d))) by lia. rewrite Hj.
      destruct (Z.ltb_spec 1 (nbaud t)); simpl; rewrite <- !app_assoc; [|done].
      rewrite (baud_wave_cons _ 0) by lia. by rewrite <- !app_assoc.
    + by rewrite <- !app_assoc.
  - unfold events_at_end, pulse_events. simpl. rewrite Hj.
    destruct (Z.ltb_spec 1 (nbaud t)); destruct ph; simpl; try done; lia.
Qed.

(** ** Theorems: one iteration *)

(** The machine codes the phase of the transmission in this state. *)
Definition coded (ph : phase) : bool := bool_decide (ph = PX) && (1 <? nbaud t).

Definition entry_lines (ph : phase) (g : Machine) : Z :=
  if coded ph then baud_code t codes (mi g - 1) (mj g) else phase_code ph.

Definition event_time (ph : phase) (g : Machine) : Z :=
  if coded ph then baud_time tm g else 32767.

Lemma code_at_spec k w :
  0 ≤ k < zlen codes → 1 < nbaud t →
  read_code t k w = Ok (codes !!! Z.to_nat k, w).
Proof.
  intros Hk Hn. unfold read_code. rewrite (wt_code _ _ _ _ Hwt Hn). mrun.
  destruct (zget_range codes k) as [x E]; [lia|]. rewrite E.
  unfold zget in E. rewrite decide_True in E by lia.
  by rewrite (list_lookup_total_correct _ _ _ E).
Qed.

Lemma MIN3_min a b c : MIN3 a b c = Z.min a (Z.min b c).
Proof.
  unfold MIN3. destruct (Z.ltb_spec b c) as [H|H];
    [destruct (Z.ltb_spec a b)|destruct (Z.ltb_spec a c)]; lia.
Qed.

Lemma next_entry_spec q ph b g w :
  pulse_ok t tm q ph g → state g = phase_state ph b → scope g = 0 →
  ∃ c, next_entry t tm g w =
    Ok ((c, MIN3 (event_time ph g) (s_time g) (p_time g),
         mk_Machine (state g) (mi g) (mj g) (p_time g) (s_time g) (event_time ph g) 0), w) ∧
    0 ≤ c < 256 ∧ sample_line c = b ∧ rf_lines c = entry_lines ph g.
Proof.
  intros Hok Hst Hsc. unfold next_entry, entry_lines, event_time, coded.
  rewrite Hst, Hsc, !Z.lor_0_r.
  assert ((if (gort t =? 1) && bits_any (rfvect (phase_state ph b)) X_bit then 0 else 0) = 0)
    as -> by (by destruct ((gort t =? 1) && _)).
  destruct (Z.ltb_spec 1 (nbaud t)) as [Hn|Hn]; destruct (decide (ph = PX)) as [->|Hph].
  - assert (bits_any (rfvect (phase_state PX b)) X_bit = true) as -> by (by destruct b).
    destruct (po_x _ _ _ _ _ Hok eq_refl Hn) as [Hj _].
    pose proof (po_index _ _ _ _ _ Hok) as Hi. pose proof (po_quiet _ _ _ _ _ Hok) as Hq.
    pose proof (wt_codes _ _ _ _ Hwt Hn) as Hl. simpl.
    destruct q; [by destruct (Hq eq_refl)|].
    assert (0 ≤ nbaud t * (mi g - 1) + mj g < zlen codes) as Hk by nia.
    rewrite (bind_ok _ _ _ _ _ (code_at_spec _ w Hk Hn)).
    unfold baud_code. eexists. split; [reflexivity|].
    by destruct (codes !!! _ <? 0), b.
  - assert (bits_any (rfvect (phase_state ph b)) X_bit = false) as -> by (by destruct ph, b).
    rewrite bool_decide_false by done. simpl.
    eexists. split; [reflexivity|]. by destruct ph, b.
  - rewrite bool_decide_true, andb_false_r by done. simpl.
    eexists. split; [reflexivity|]. by destruct b.
  - rewrite bool_decide_false, andb_false_r by done. simpl.
    eexists. split; [reflexivity|]. by destruct ph, b.
Qed.

(** What an iteration of [d] ticks does to the machine. *)
Record stepped (q : bool) (ph : phase) (b : bool) (g : Machine) (d : Z)
    (q' : bool) (ph' : phase) (g' : Machine) : Prop := mk_stepped {
  st_state : state g' = phase_state ph' (if d =? s_time g then negb b else b);
  st_scope : scope g' = 0;
  st_time : s_time g' = if d =? s_time g then smsp tm else s_time g - d;
  st_ok : pulse_ok t tm q' ph' g';
  st_rem : pulse_rem t tm pats codes q ph g =
    (hold d (entry_lines ph g) ++ pulse_rem t tm pats codes q' ph' g')%list;
  st_quiet : q' = true → p_time g' = 32767 ∨ (q = true ∧ p_time g' = p_time g - d);
  st_events : pulse_events t q' ph' g' + (if d =? s_time g then 0 else 1) ≤
    pulse_events t q ph g
}.

(** The wave up to the end of the phase, and the events of a phase at its end. *)
Lemma phase_ends ph g d :
  pulse_ok t tm false ph g → p_time g = d → d ≤ event_time ph g →
  pulse_rem t tm pats codes false ph g =
    (hold d (entry_lines ph g) ++ after t tm pats codes ph (mi g))%list ∧
  events_at_end ph (mi g) ≤ pulse_events t false ph g.
Proof.
  intros Hok Hp Hd. unfold pulse_rem, entry_lines, event_time, coded in *.
  pose proof (wt_nbaud _ _ _ _ Hwt).
  destruct (Z.ltb_spec 1 (nbaud t)) as [Hn|Hn]; destruct (decide (ph = PX)) as [->|Hph].
  - destruct (po_x _ _ _ _ _ Hok eq_refl Hn) as (Hj & Hf & Ht).
    simpl in *. assert (mj g = nbaud t - 1) as Ej by nia.
    rewrite Ej. replace (nbaud t - 1 + 1) with (nbaud t) by lia.
    rewrite baud_wave_end, app_nil_r. replace (baud_time tm g) with d by lia.
    split; [done|]. unfold events_at_end, pulse_events.
    rewrite (proj2 (Z.ltb_lt 1 (nbaud t))) by lia. lia.
  - rewrite bool_decide_false by done. rewrite Hp. split; [done|].
    unfold events_at_end, pulse_events. by destruct ph.
  - rewrite andb_false_r, Hp. split; [done|].
    unfold events_at_end, pulse_events. rewrite (proj2 (Z.ltb_ge 1 (nbaud t))) by lia. lia.
  - rewrite andb_false_r, Hp. split; [done|].
    unfold events_at_end, pulse_events. by destruct ph.
Qed.

(** A time below the end of the phase. *)
Lemma phase_goes_on q ph b g d g' :
  pulse_ok t tm q ph g → 1 ≤ d < p_time g → d ≤ event_time ph g →
  state g' = phase_state ph b → mi g' = mi g → p_time g' = p_time g - d →
  mj g' = (if event_time ph g =? d then mj g + 1 else mj g) →
  f_time g' = (if event_time ph g - d <=? 0 then phase_delay tm else event_time ph g - d) →
  pulse_ok t tm q ph g' ∧
  pulse_rem t tm pats codes q ph g =
    (hold d (entry_lines ph g) ++ pulse_rem t tm pats codes q ph g')%list ∧
  pulse_events t q ph g' + (if coded ph && (event_time ph g =? d) then 1 else 0) ≤
    pulse_events t q ph g.
Proof.
  intros Hok Hd Hle Hst Hmi Hp Hj Hf.
  pose proof (wt_nbaud _ _ _ _ Hwt) as Hnb.
  destruct (coded ph) eqn:Ec.
  - unfold coded in Ec. apply andb_true_iff in Ec as [Ex En].
    apply bool_decide_eq_true in Ex as ->. apply Z.ltb_lt in En.
    pose proof (wt_baud _ _ _ _ Hwt En) as [Hpd Htx].
    destruct (po_x _ _ _ _ _ Hok eq_refl En) as (Hjr & Hfr & Ht).
    assert (q = false) as -> by (destruct q; [by destruct (po_quiet _ _ _ _ _ Hok eq_refl)|done]).
    assert (event_time PX g = baud_time tm g) as Ee.
    { unfold event_time, coded. by rewrite (proj2 (Z.ltb_lt 1 (nbaud t))) by lia. }
    assert (entry_lines PX g = baud_code t codes (mi g - 1) (mj g)) as El.
    { unfold entry_lines, coded. by rewrite (proj2 (Z.ltb_lt 1 (nbaud t))) by lia. }
    rewrite Ee in *. rewrite El.
    assert (phase_delay tm ≤ txp tm) by nia.
    unfold pulse_rem, pulse_events. rewrite Hmi.
    rewrite (proj2 (Z.ltb_lt 1 (nbaud t))) by lia. simpl.
    pose proof (po_index _ _ _ _ _ Hok) as Hi. pose proof (po_x1 _ _ _ _ _ Hok eq_refl) as Hx1.
    destruct (Z.eqb_spec (baud_time tm g) d) as [E|E].
    + assert (mj g + 1 < nbaud t) by nia.
      rewrite (proj2 (Z.leb_le _ _)) in Hf by lia.
      assert (baud_time tm g' = phase_delay tm) as E'.
      { unfold baud_time. rewrite Hf. by destruct (txp tm <? phase_delay tm). }
      split_and!; [|rewrite E, E', Hj, <- !app_assoc; f_equal;
        rewrite (baud_wave_cons _ (mj g + 1)) by lia; by rewrite <- app_assoc|lia].
      constructor; rewrite ?E', ?Hj, ?Hmi; try done; intros; nia.
    + rewrite (proj2 (Z.leb_gt _ _)) in Hf by lia.
      assert (baud_time tm g' = baud_time tm g - d) as E'.
      { unfold baud_time at 1. rewrite Hf. by rewrite (proj2 (Z.ltb_ge _ _)) by lia. }
      split_and!; [|rewrite E', Hj, (hold_split (baud_time tm g) d), <- !app_assoc by lia;
        done|lia].
      constructor; rewrite ?E', ?Hj, ?Hmi; try done; intros; nia.
  - assert (entry_lines ph g = phase_code ph) as El by (unfold entry_lines; by rewrite Ec).
    rewrite El. simpl. split_and!.
    + destruct Hok as [H1 H2 H3 H4 H5 H6].
      constructor; rewrite ?Hmi; try done; try lia.
      * intros E. specialize (H4 E). lia.
      * intros -> Hn. unfold coded in Ec. simpl in Ec. apply Z.ltb_ge in Ec. lia.
      * intros E. specialize (H6 E). lia.
    + unfold pulse_rem. fold (coded ph). rewrite Ec, Hmi, Hp. destruct q.
      * destruct (po_quiet _ _ _ _ _ Hok eq_refl) as [-> _]. apply hold_split. lia.
      * rewrite (hold_split (p_time g) d) by lia. by rewrite <- app_assoc.
    + unfold pulse_events. rewrite Hmi. destruct q; [lia|].
      destruct ph; try lia. unfold coded in Ec. simpl in Ec. rewrite Ec. lia.
Qed.

Lemma next_state_phase ph b :
  next_state (phase_state ph b) =
    (phase_state ph (negb b), phase_state (phase_next ph) (negb b),
     phase_state (phase_next ph) b).
Proof. by destruct ph, b. Qed.

Lemma event_time_pos q ph g : pulse_ok t tm q ph g → 1 ≤ event_time ph g.
Proof.
  intros Hok. unfold event_time, coded. destruct (bool_decide_reflect (ph = PX)); simpl; [|lia].
  destruct (Z.ltb_spec 1 (nbaud t)); [|lia].
  destruct (po_x _ _ _ _ _ Hok) as (_ & Hb & _); try done. lia.
Qed.

(** An uncoded phase has no phase event before the next sample. *)
Lemma event_time_coded ph g d :
  d ≤ 32766 → event_time ph g = d → coded ph = true.
Proof. unfold event_time. destruct (coded ph); [done|lia]. Qed.

(** The phase goes on: no pulse event within the delay. *)
Lemma step_on q ph b g d w :
  pulse_ok t tm q ph g → state g = phase_state ph b →
  1 ≤ d < p_time g → d ≤ s_time g ≤ 32766 → d ≤ event_time ph g →
  (d = s_time g ∨ event_time ph g = d) →
  ∃ g' q' ph', advance t tm d
      (mk_Machine (phase_state ph (if d =? s_time g then negb b else b)) (mi g)
         (if event_time ph g =? d then mj g + 1 else mj g) (p_time g) (s_time g)
         (event_time ph g) 0) w = Ok (g', w) ∧
    stepped q ph b g d q' ph' g'.
Proof.
  intros Hok Hst Hd Hs Hf Hev. unfold advance. cbn [p_time s_time f_time state mi mj scope].
  rewrite (proj2 (Z.leb_gt (p_time g - d) 0)), (proj2 (Z.eqb_neq (p_time g - d) 0)) by lia.
  eexists _, q, ph. split; [reflexivity|].
  match goal with |- stepped _ _ _ _ _ _ _ ?g' =>
    destruct (phase_goes_on q ph (if d =? s_time g then negb b else b) g d g')
      as (H1 & H2 & H3); try done end.
  constructor; try done; simpl.
  - destruct (Z.eqb_spec d (s_time g)).
    + by rewrite (proj2 (Z.leb_le _ _)) by lia.
    + by rewrite (proj2 (Z.leb_gt _ _)) by lia.
  - intros ->. by right.
  - destruct (Z.eqb_spec d (s_time g)) as [|Hne].
    + revert H3. destruct (coded ph && _); lia.
    + destruct Hev as [|He]; [done|].
      assert (coded ph && (event_time ph g =? d) = true) as Hc.
      { by rewrite (event_time_coded ph g d), (proj2 (Z.eqb_eq _ _) He) by (done || lia). }
      by rewrite Hc in H3.
Qed.

(** The phase ends. *)
Lemma step_end ph b g d f w :
  pulse_ok t tm false ph g → state g = phase_state ph b →
  p_time g = d → d ≤ s_time g → d ≤ event_time ph g →
  (ph = PAR1 → f = 32767) →
  ∃ g' q' ph', advance t tm d
      (mk_Machine (phase_state (phase_next ph) (if d =? s_time g then negb b else b)) (mi g)
         0 (p_time g) (s_time g) f 0) w = Ok (g', w) ∧
    stepped false ph b g d q' ph' g'.
Proof.
  intros Hok Hst Hp Hs Hf Har.
  destruct (phase_ends ph g d) as [Hrem Hev]; try done.
  match goal with |- context [advance _ _ _ ?g1] =>
    destruct (pulse_event ph (if d =? s_time g then negb b else b) g1 d w)
      as (g' & q' & E & H1 & H2 & H3 & H4 & H5 & H6 & H7); try done end;
    cbn [mi p_time s_time f_time state scope] in *.
  - apply (po_index _ _ _ _ _ Hok).
  - lia.
  - intros ->. rewrite Har by done. pose proof (po_ar _ _ _ _ _ Hok eq_refl).
    pose proof (wt_txp _ _ _ _ Hwt). assert (R_to_X_min = 6) by reflexivity. lia.
  - exists g', q', (phase_next ph). split; [done|]. constructor; try done.
    + rewrite H6. destruct (Z.eqb_spec d (s_time g)).
      * by rewrite (proj2 (Z.leb_le _ _)) by lia.
      * by rewrite (proj2 (Z.leb_gt _ _)) by lia.
    + by rewrite Hrem, H2.
    + intros Hq. left. by apply H3.
    + destruct (d =? s_time g); lia.
Qed.

(** One iteration: the machine that results. *)
Lemma machine_step q ph b g w :
  pulse_ok t tm q ph g → state g = phase_state ph b →
  1 ≤ s_time g ≤ 32766 → (q = true → s_time g < p_time g) →
  let d := MIN3 (event_time ph g) (s_time g) (p_time g) in
  1 ≤ d ≤ s_time g ∧
  ∃ g' q' ph', advance t tm d (transition
      (mk_Machine (state g) (mi g) (mj g) (p_time g) (s_time g) (event_time ph g) 0)) w =
    Ok (g', w) ∧ stepped q ph b g d q' ph' g'.
Proof.
  intros Hok Hst Hs Hq. rewrite MIN3_min.
  pose proof (event_time_pos _ _ _ Hok) as Hf. pose proof (po_time _ _ _ _ _ Hok) as Hp.
  intros d. assert (d = event_time ph g `min` (s_time g `min` p_time g)) as Ed by done.
  clearbody d. split; [lia|].
  unfold transition. cbn [state mi mj p_time s_time f_time scope].
  rewrite Hst, next_state_phase.
  destruct ((event_time ph g <? s_time g) && (event_time ph g <? p_time g)) eqn:E1.
  - apply andb_true_iff in E1 as [H1%Z.ltb_lt H2%Z.ltb_lt].
    destruct (step_on q ph b g d w) as (g' & q' & ph' & Hg); try done; try lia.
    rewrite (proj2 (Z.eqb_neq d (s_time g))), (proj2 (Z.eqb_eq (event_time ph g) d)) in Hg by lia.
    eauto.
  - apply andb_false_iff in E1. rewrite !Z.ltb_ge in E1.
    destruct (Z.ltb_spec (s_time g) (p_time g)) as [H2|H2].
    + assert (d = s_time g) as Eds by lia.
      destruct (step_on q ph b g d w) as (g' & q' & ph' & Hg); try done; try lia.
      rewrite (proj2 (Z.eqb_eq d (s_time g))) in Hg by done. rewrite Eds in *. eauto.
    + assert (q = false) as -> by (destruct q; [specialize (Hq eq_refl); lia|done]).
      destruct (Z.eqb_spec (s_time g) (p_time g)) as [E|E].
      * destruct (step_end ph b g d (event_time ph g) w) as (g' & q' & ph' & Hg); try done; try lia.
        { intros ->. done. }
        rewrite (proj2 (Z.eqb_eq d (s_time g))) in Hg by lia. eauto.
      * destruct (step_end ph b g d 32767 w) as (g' & q' & ph' & Hg); try done; try lia.
        rewrite (proj2 (Z.eqb_neq d (s_time g))) in Hg by lia. eauto.
Qed.

(** ** Theorems: the main loop *)

Record loop_inv (q : bool) (ph : phase) (b : bool) (g : Machine) (w : Writer) : Prop := mk_loop_inv {
  li_state : state g = phase_state ph b;
  li_scope : scope g = 0;
  li_ok : pulse_ok t tm q ph g;
  li_writer : writer_ok w;
  li_time : 1 ≤ s_time g;
  li_half : b = true → s_time g ≤ smsp tm;
  li_left : zlen (sample_rem tm b (cnt_last w) (cnt_n_smp w) (s_time g)) ≤ 32767;
  li_quiet : q = true →
    zlen (sample_rem tm b (cnt_last w) (cnt_n_smp w) (s_time g)) ≤ p_time g;
  li_room :
    255 * zlen (w_code w) +
    zlen (sample_rem tm b (cnt_last w) (cnt_n_smp w) (s_time g)) +
    255 * (pulse_events t q ph g + sample_events tm b (cnt_last w) (cnt_n_smp w)) ≤
    255 * (code_size w - 8)
}.

Lemma pulse_events_nonneg q ph g : pulse_ok t tm q ph g → 0 ≤ pulse_events t q ph g.
Proof.
  intros Hok. pose proof (po_index _ _ _ _ _ Hok). pose proof (wt_nbaud _ _ _ _ Hwt).
  unfold pulse_events. destruct q; [done|].
  assert (0 ≤ (5 + nbaud t) * (mppul t - mi g)) by (apply Z.mul_nonneg_nonneg; lia).
  destruct ph; try lia. destruct (Z.ltb_spec 1 (nbaud t)); [|lia].
  destruct (po_x _ _ _ _ _ Hok); try done. lia.
Qed.

Lemma sample_events_pos b last n : n < N_sample tm → 1 ≤ sample_events tm b last n.
Proof. unfold sample_events. destruct b, (last =? 0); lia. Qed.

Lemma sample_events_nonneg b last n :
  n ≤ N_sample tm → (n = N_sample tm → last ≠ 0) → 0 ≤ sample_events tm b last n.
Proof. intros. unfold sample_events. destruct b; destruct (Z.eqb_spec last 0); lia. Qed.

Lemma map_hold {B} (f : Z → B) d c :
  map f (hold d c) = replicate (Z.to_nat d) (f c).
Proof. unfold hold. induction (Z.to_nat d); simpl; congruence. Qed.

(** The ticks [out] take the waves of one state to those of another. *)
Definition sends (q : bool) (ph : phase) (b : bool) (g : Machine) (w : Writer) (out : list Z)
    (q' : bool) (ph' : phase) (b' : bool) (g' : Machine) (w' : Writer) : Prop :=
  written w' = (written w ++ out)%list ∧
  pulse_rem t tm pats codes q ph g =
    (map rf_lines out ++ pulse_rem t tm pats codes q' ph' g')%list ∧
  sample_rem tm b (cnt_last w) (cnt_n_smp w) (s_time g) =
    (map sample_line out ++ sample_rem tm b' (cnt_last w') (cnt_n_smp w') (s_time g'))%list ∧
  code_size w' = code_size w.

Lemma sends_trans q ph b g w o q1 ph1 b1 g1 w1 o1 q2 ph2 b2 g2 w2 :
  sends q ph b g w o q1 ph1 b1 g1 w1 → sends q1 ph1 b1 g1 w1 o1 q2 ph2 b2 g2 w2 →
  sends q ph b g w (o ++ o1)%list q2 ph2 b2 g2 w2.
Proof.
  intros (H1 & H2 & H3 & H4) (K1 & K2 & K3 & K4). unfold sends.
  rewrite K1, H1, H2, K2, H3, K3, !map_app, <- !app_assoc. split_and!; try done. congruence.
Qed.

Lemma loop_step q ph b g w :
  loop_inv q ph b g w → cnt_n_smp w < N_sample tm →
  ∃ d c g' w' q' ph' b', make_step t tm g w = Ok (g', w') ∧ 1 ≤ d ∧
    sends q ph b g w (hold d c) q' ph' b' g' w' ∧ loop_inv q' ph' b' g' w' ∧
    cnt_n_smp w' ≤ N_sample tm ∧
    (cnt_n_smp w' = N_sample tm → smsp tm ≤
       zlen (sample_rem tm b' (cnt_last w') (cnt_n_smp w') (s_time g')) < 2 * smsp tm).
Proof.
  intros [Hst Hsc Hok Hw Hs Hh Hl Hq Hroom] Hn.
  pose proof (zlen_sample_rem b (cnt_last w) _ (s_time g) Hn ltac:(lia)) as Hlen.
  destruct (next_entry_spec q ph b g w Hok Hst Hsc) as (c & E & Hc & Hsl & Hrf).
  set (d := MIN3 _ _ _) in E.
  assert (∀ w', 1 ≤ d ≤ s_time g ∧ ∃ g' q' ph', advance t tm d (transition
      (mk_Machine (state g) (mi g) (mj g) (p_time g) (s_time g) (event_time ph g) 0)) w' =
    Ok (g', w') ∧ stepped q ph b g d q' ph' g') as Hstep.
  { intros w'. apply (machine_step q ph b g w'); try done; [lia|].
    intros Hq'. specialize (Hq Hq'). lia. }
  clearbody d. destruct (Hstep w) as [Hd _].
  destruct (sample_step b c (cnt_last w) (cnt_n_smp w) (s_time g) d Hsl Hn Hd Hh)
    as (HS1 & HS2 & HS3 & HS4 & HS5 & HS6).
  pose proof (sample_events_pos b (cnt_last w) _ Hn) as Hse.
  pose proof (pulse_events_nonneg _ _ _ Hok) as Hpe.
  destruct (TSGWrBuf_ok c d w) as (w' & Ew & Hw' & Ht & Hln & Hsz & Hla & Hcn); try done; try lia.
  destruct (Hstep w') as (_ & g' & q' & ph' & Ea & [T1 T2 T3 T4 T5 T6 T7]).
  assert (zlen (sample_rem tm b (cnt_last w) (cnt_n_smp w) (s_time g)) =
    d + zlen (sample_rem tm (if d =? s_time g then negb b else b) (cnt_last w')
                (cnt_n_smp w') (s_time g'))) as Hz.
  { rewrite HS1, zlen_app, Hla, Hcn, T3. unfold zlen at 1. rewrite length_replicate. lia. }
  exists d, c, g', w', q', ph', (if d =? s_time g then negb b else b). split_and!.
  - unfold make_step. rewrite (bind_ok _ _ _ _ _ E). cbn beta iota.
    rewrite (bind_ok _ _ _ _ _ Ew). exact Ea.
  - lia.
  - unfold sends. rewrite !map_hold, Hsl, Hrf, Hla, Hcn, T3, Ht. split_and!; try done.
  - constructor; try done; try (rewrite T3; done); try lia.
    + intros Hq'. destruct (T6 Hq') as [->|[Hqt ->]]; [lia|]. specialize (Hq Hqt). lia.
    + rewrite Hla, Hcn, T3 in Hz |- *. rewrite Hsz. 
      destruct (d =? s_time g); lia.
  - by rewrite Hcn.
  - rewrite Hla, Hcn, T3. exact HS6.
Qed.

Lemma make_loop_ok fuel q ph b g w :
  loop_inv q ph b g w → cnt_n_smp w < N_sample tm →
  zlen (sample_rem tm b (cnt_last w) (cnt_n_smp w) (s_time g)) ≤ Z.of_nat fuel →
  ∃ out g' w' q' ph' b', make_loop t tm fuel g w = Ok (tt, w') ∧
    sends q ph b g w out q' ph' b' g' w' ∧ loop_inv q' ph' b' g' w' ∧
    cnt_n_smp w' = N_sample tm ∧
    smsp tm ≤ zlen (sample_rem tm b' (cnt_last w') (cnt_n_smp w') (s_time g')) < 2 * smsp tm.
Proof.
  revert q ph b g w. induction fuel as [|fuel IH]; intros q ph b g w Hi Hn Hf.
  { pose proof (zlen_sample_rem b (cnt_last w) _ (s_time g) Hn). pose proof (li_time _ _ _ _ _ Hi). lia. }
  destruct (loop_step _ _ _ _ _ Hi Hn) as (d & c & g1 & w1 & q1 & ph1 & b1 & E & Hd & Hs & Hi1 & Hle & Hend).
  simpl. mrun. rewrite (proj2 (Z.ltb_lt _ _)) by done. rewrite (bind_ok _ _ _ _ _ E).
  destruct (decide (cnt_n_smp w1 = N_sample tm)) as [En|En].
  - exists (hold d c), g1, w1, q1, ph1, b1.
    assert (make_loop t tm fuel g1 w1 = Ok (tt, w1)) as ->.
    { destruct fuel; simpl; mrun; by rewrite (proj2 (Z.ltb_ge _ _)) by lia. }
    split_and!; try done; by apply Hend.
  - destruct (IH _ _ _ _ _ Hi1 ltac:(lia)) as (o & g2 & w2 & q2 & ph2 & b2 & E2 & Hs2 & Hr).
    { destruct Hs as (_ & _ & H3 & _). rewrite H3, zlen_app in Hf. unfold zlen at 1 in Hf.
      rewrite length_map in Hf. fold (zlen (hold d c)) in Hf.
      rewrite zlen_hold in Hf; lia. }
    exists (hold d c ++ o)%list, g2, w2, q2, ph2, b2. split; [done|]. split; [|done].
    by eapply sends_trans.
Qed.

(** ** Theorems: the whole sequence *)

Definition end_ticks : Z :=
  if (mppul t =? 0) || (END_DELAY <=? 0) then 1 else END_DELAY.

(** All the ticks of a sequence whose main loop wrote [out]. *)
Definition whole (out : list Z) : list Z :=
  (hold 1 128 ++ hold (stdelay t) Null_code ++ out ++ hold end_ticks Null_code)%list.

Lemma initial_inv w :
  writer_ok w → cnt_last w = 0 → cnt_n_smp w = 0 →
  code_size w = 2 * buf_len t tm → 255 * zlen (w_code w) ≤ stdelay t + 511 →
  loop_inv (mppul t =? 0) PNull false (initial_machine tm) w ∧
  pulse_rem t tm pats codes (mppul t =? 0) PNull (initial_machine tm) =
    rf_wave t tm pats codes (Z.to_nat (mppul t)) 0.
Proof.
  intros Hw Hl Hn Hs Hlen. pose proof (wt_nbaud _ _ _ _ Hwt) as Hnb.
  pose proof (wt_smsp _ _ _ _ Hwt). pose proof (wt_samples _ _ _ _ Hwt).
  pose proof (wt_total _ _ _ _ Hwt). pose proof (wt_lgfr _ _ _ _ Hwt).
  pose proof (wt_stdelay _ _ _ _ Hwt). pose proof (wt_s0 _ _ _ _ Hwt).
  assert (zlen (sample_rem tm false (cnt_last w) (cnt_n_smp w) (s_time0 tm)) =
    s_time0 tm + 2 * smsp tm * N_sample tm) as Hz.
  { unfold sample_rem. rewrite zlen_sample_wave by lia. rewrite Hn. lia. }
  assert (sample_events tm false (cnt_last w) (cnt_n_smp w) = 2 * N_sample tm) as He.
  { unfold sample_events. rewrite Hn. lia. }
  assert (0 ≤ mppul t) as Hm by (destruct (wt_first _ _ _ _ Hwt) as [[]|[]]; lia).
  assert (0 ≤ (5 + nbaud t) * mppul t) by (apply Z.mul_nonneg_nonneg; lia).
  assert (pulse_events t (mppul t =? 0) PNull (initial_machine tm) ≤
    (5 + nbaud t) * mppul t) as Hp.
  { unfold pulse_events. destruct (Z.eqb_spec (mppul t) 0) as [|Hne]; [lia|].
    destruct (wt_first _ _ _ _ Hwt) as [[]|[_ Hi]]; [done|]. simpl. rewrite Hi. lia. }
  unfold buf_len in Hs. split.
  - constructor; try done; change (s_time (initial_machine tm)) with (s_time0 tm);
      change (p_time (initial_machine tm)) with (p_time0 tm); try done; try lia.
    destruct (wt_first _ _ _ _ Hwt) as [(Hm0 & Hp0 & Hi)|(Hm1 & Hi)].
    + rewrite Hm0. constructor; simpl; try done; [lia|lia|]. intros _. split; [done|lia].
    + rewrite (proj2 (Z.eqb_neq _ _)) by lia.
      pose proof (wt_gaps _ _ _ _ Hwt 0 ltac:(lia)) as Hg. unfold gap in Hg. simpl in Hg.
      constructor; simpl; try done; lia.
    + destruct (wt_first _ _ _ _ Hwt) as [(Hm0 & Hp0 & Hi)|(Hm1 & Hi)].
      * intros _. lia.
      * intros E%Z.eqb_eq. lia.
  - unfold pulse_rem. destruct (wt_first _ _ _ _ Hwt) as [(Hm0 & Hp0 & Hi)|(Hm1 & Hi)].
    + rewrite Hm0. simpl. by rewrite Hp0.
    + rewrite (proj2 (Z.eqb_neq _ _)) by lia. simpl. unfold rest_wave. rewrite Hi.
      replace (Z.to_nat (mppul t)) with (S (Z.to_nat (mppul t - 1))) by lia. done.
Qed.

Lemma generate_ok :
  ∃ out w, generate t tm (writer0 (buf_len t tm)) = Ok (tt, w) ∧ writer_ok w ∧
    written w = whole out ∧
    map rf_lines out `prefix_of` rf_wave t tm pats codes (Z.to_nat (mppul t)) 0 ∧
    map sample_line out `prefix_of`
      sample_wave tm (Z.to_nat (N_sample tm)) (s_time0 tm) ∧
    s_time0 tm + 2 * smsp tm * (N_sample tm - 1) < zlen out ≤
      s_time0 tm + 2 * smsp tm * (N_sample tm - 1) + smsp tm.
Proof.
  pose proof (wt_smsp _ _ _ _ Hwt) as Hsm. pose proof (wt_samples _ _ _ _ Hwt) as HN.
  pose proof (wt_total _ _ _ _ Hwt) as HT. pose proof (wt_lgfr _ _ _ _ Hwt) as Hlg.
  pose proof (wt_stdelay _ _ _ _ Hwt) as Hst. pose proof (wt_s0 _ _ _ _ Hwt) as Hs0.
  pose proof (wt_nbaud _ _ _ _ Hwt) as Hnb.
  assert (0 ≤ mppul t) as Hm by (destruct (wt_first _ _ _ _ Hwt) as [[]|[]]; lia).
  assert (100 ≤ buf_len t tm) as Hb by (unfold buf_len; nia).
  unfold generate.
  destruct (TSGWrBuf_ok 128 1 (writer0 (buf_len t tm)))
    as (w1 & E1 & Hw1 & Ht1 & Hl1 & Hs1 & Ha1 & Hn1); try done; try lia.
  { split; [constructor|simpl; lia]. }
  { change (w_code _) with (@nil Z). change (code_size _) with (2 * buf_len t tm).
    change (zlen []) with 0. lia. }
  rewrite (bind_ok _ _ _ _ _ E1).
  change (code_size (writer0 (buf_len t tm))) with (2 * buf_len t tm) in Hs1.
  change (255 * zlen (w_code (writer0 _))) with 0 in Hl1.
  change (cnt_n_smp w1 = 0) in Hn1. change (cnt_last w1 = 0) in Ha1.
  destruct (TSGWrBuf_ok Null_code (stdelay t) w1)
    as (w2 & E2 & Hw2 & Ht2 & Hl2 & Hs2 & Ha2 & Hn2); try done; try lia.
  rewrite (bind_ok _ _ _ _ _ E2).
  change (cnt_last w2 = 0) in Ha2. unfold count_sample in Hn2. simpl in Hn2. rewrite Hn1 in Hn2.
  destruct (initial_inv w2) as [Hinv Hrf]; try done; try lia.
  destruct (make_loop_ok (loop_fuel tm) _ _ _ _ _ Hinv)
    as (out & g' & w3 & q' & ph' & b' & E3 & (Ht3 & Hp3 & Hsm3 & Hs3) & Hinv3 & Hn3 & Hend).
  { lia. }
  { change (s_time (initial_machine tm)) with (s_time0 tm). unfold sample_rem.
    rewrite zlen_sample_wave, Hn2 by lia. unfold loop_fuel. lia. }
  rewrite (bind_ok _ _ _ _ _ E3).
  pose proof (li_room _ _ _ _ _ Hinv3) as Hroom.
  pose proof (pulse_events_nonneg _ _ _ (li_ok _ _ _ _ _ Hinv3)) as Hpe.
  assert (-1 ≤ sample_events tm b' (cnt_last w3) (cnt_n_smp w3)) as Hse.
  { unfold sample_events. rewrite Hn3. destruct b', (cnt_last w3 =? 0); lia. }
  assert (0 ≤ end_ticks ≤ 1000) as Het.
  { unfold end_ticks. by destruct ((mppul t =? 0) || _). }
  destruct (TSGWrBuf_ok Null_code end_ticks w3)
    as (w4 & E4 & Hw4 & Ht4 & _); try done; try lia.
  { apply (li_writer _ _ _ _ _ Hinv3). }
  exists out, w4. unfold end_ticks in E4. rewrite E4.
  rewrite Hrf in Hp3. unfold sample_rem at 1 in Hsm3. rewrite Hn2 in Hsm3.
  change (s_time (initial_machine tm)) with (s_time0 tm) in Hsm3. rewrite Z.sub_0_r in Hsm3.
  split_and!; try done.
  - rewrite Ht4, Ht3, Ht2, Ht1. unfold whole. rewrite <- !app_assoc. done.
  - by eexists.
  - by eexists.
  - apply (f_equal zlen) in Hsm3. rewrite zlen_app, zlen_sample_wave in Hsm3 by lia.
    unfold zlen at 1 in Hsm3. rewrite length_map in Hsm3. fold (zlen out) in Hsm3. lia.
  - apply (f_equal zlen) in Hsm3. rewrite zlen_app, zlen_sample_wave in Hsm3 by lia.
    unfold zlen at 1 in Hsm3. rewrite length_map in Hsm3. fold (zlen out) in Hsm3. lia.
Qed.

End Steps.

(** ** Theorems: the accepted parameters *)

(** A computation that does not change the parameters. *)
Definition only_reads {A} (m : PM A) : Prop := ∀ t a t', m t = Ok (a, t') → t' = t.

Lemma only_reads_bind {A B} (m : PM A) (f : A → PM B) :
  only_reads m → (∀ a, only_reads (f a)) → only_reads (m ≫= f).
Proof.
  intros Hm Hf t b t' (a & t1 & E1 & E2)%bind_inv.
  apply Hm in E1 as ->. by apply Hf in E2.
Qed.

Lemma only_reads_for_fold {I A} (l : list I) (body : I → A → PM A) acc :
  (∀ i a, only_reads (body i a)) → only_reads (for_fold l body acc).
Proof.
  intros Hb. revert acc. induction l as [|i l IH]; intros acc; simpl;
    [by intros t a t' [= _ ->]|]. by apply only_reads_bind.
Qed.

Lemma int_op_inv {S} z (s s' : S) a :
  int_op z s = Ok (a, s') → a = z ∧ s' = s ∧ is_int z.
Proof. unfold int_op. case_bool_decide; [|done]. by intros [= <- <-]. Qed.

Lemma int_rem_inv {S} a b (s s' : S) r :
  int_rem a b s = Ok (r, s') → r = Z.rem a b ∧ s' = s ∧ b ≠ 0.
Proof.
  unfold int_rem. destruct (Z.eqb_spec b 0); [done|]. by intros (-> & -> & _)%int_op_inv.
Qed.

Lemma int_div_inv {S} a b (s s' : S) r :
  int_div a b s = Ok (r, s') → r = Z.quot a b ∧ s' = s ∧ b ≠ 0.
Proof.
  unfold int_div. destruct (Z.eqb_spec b 0); [done|]. by intros (-> & -> & _)%int_op_inv.
Qed.

Lemma only_reads_int_op z : only_reads (int_op z).
Proof. by intros t a t' (_ & -> & _)%int_op_inv. Qed.

Lemma only_reads_int_rem a b : only_reads (int_rem a b).
Proof. by intros t r t' (_ & -> & _)%int_rem_inv. Qed.

Lemma only_reads_int_div a b : only_reads (int_div a b).
Proof. by intros t r t' (_ & -> & _)%int_div_inv. Qed.

Lemma only_reads_ret {A} (a : A) : only_reads (mret a).
Proof. by intros t x t' [= _ ->]. Qed.

Lemma only_reads_get : only_reads get_st.
Proof. by intros t x t' [= _ ->]. Qed.

Lemma only_reads_gets {A} (f : TSGprm → A) : only_reads (gets f).
Proof. by intros t x t' [= _ ->]. Qed.

Lemma only_reads_fail {A} e : only_reads (fail e : PM A).
Proof. done. Qed.

Lemma only_reads_deref {A} e (o : option A) : only_reads (deref e o).
Proof. by destruct o; intros t b t' [= _ ->]. Qed.

Ltac reads_only :=
  repeat lazymatch goal with
  | |- only_reads (_ ≫= _) => apply only_reads_bind; [|intros ?]
  | |- only_reads (mret _) => apply only_reads_ret
  | |- only_reads get_st => apply only_reads_get
  | |- only_reads (gets _) => apply only_reads_gets
  | |- only_reads (deref _ _) => apply only_reads_deref
  | |- only_reads (fail _) => apply only_reads_fail
  | |- only_reads (int_op _) => apply only_reads_int_op
  | |- only_reads (int_div _ _) => apply only_reads_int_div
  | |- only_reads (int_rem _ _) => apply only_reads_int_rem
  | |- only_reads (for_fold _ _ _) => apply only_reads_for_fold; intros ? ?
  | |- only_reads (if ?b then _ else _) => destruct b
  | |- only_reads (pat_at _) => unfold pat_at
  | |- only_reads (match ?x with _ => _ end) => destruct x
  end.

Lemma maxpulse_reads : only_reads maxpulse.
Proof. unfold maxpulse. reads_only. Qed.

Lemma copy_params_reads : only_reads copy_params.
Proof. unfold copy_params. reads_only. Qed.

Lemma check_completed_reads : only_reads check_completed.
Proof. unfold check_completed. reads_only. Qed.

(** Takes apart the equation of a run that succeeds. *)
Ltac run_inv H :=
  lazymatch type of H with
  | (_ ≫= _) _ = Ok _ =>
      let a := fresh "a" in let s := fresh "s" in let E := fresh "E" in
      apply bind_inv in H as (a & s & E & H); run_inv E
  | mret _ _ = Ok _ => injection H as ? ?; subst
  | get_st _ = Ok _ => injection H as ? ?; subst
  | gets _ _ = Ok _ => injection H as ? ?; subst
  | modify _ _ = Ok _ => injection H as ? ?; subst
  | int_op _ _ = Ok _ => apply int_op_inv in H as (? & ? & ?); subst
  | int_rem _ _ _ = Ok _ => apply int_rem_inv in H as (? & ? & ?); subst
  | int_div _ _ _ = Ok _ => apply int_div_inv in H as (? & ? & ?); subst
  | _ => idtac
  end.

Lemma pat_at_inv t i x t' :
  pat_at i t = Ok (x, t') → t' = t ∧ ∃ l, pat t = Some l ∧ zget l i = Some x.
Proof.
  unfold pat_at. destruct (pat t) as [l|] eqn:El; mrun; rewrite El; [|done].
  mrun. destruct (zget l i) as [y|] eqn:Ey; [|done]. intros [= <- <-]. eauto.
Qed.

Definition increasing_at (t : TSGprm) (k : Z) : Prop :=
  ∀ l x y, pat t = Some l → zget l (k - 1) = Some x → zget l k = Some y → x < y.

Lemma pat_loop_increasing t n a t' acc :
  0 ≤ n → ∀ i,
  for_break (seqZ i n) (fun i _ =>
    x ← pat_at i; y ← pat_at (i - 1);
    mret (if y <? x then Next false else Break true)) acc t = Ok (a, t') →
  t' = t ∧ (a = false → acc = false ∨ 0 < n → ∀ k, i ≤ k < i + n → increasing_at t k).
Proof.
  intros Hn. revert acc. pattern n. apply natlike_ind; [| |done]; clear n Hn.
  - intros acc i [= <- <-]. split; [done|]. lia.
  - intros n Hn IH acc i H. rewrite seqZ_cons' in H by lia. simpl in H.
    replace (Z.succ n - 1) with n in H by lia.
    apply bind_inv in H as (r & t1 & E & H).
    apply bind_inv in E as (x & t2 & [-> (l & Hl & Hx)]%pat_at_inv & E).
    apply bind_inv in E as (y & t3 & [-> (l' & Hl' & Hy)]%pat_at_inv & E).
    rewrite Hl in Hl'. injection Hl' as <-. injection E as <- <-.
    destruct (Z.ltb_spec y x) as [Hlt|Hge].
    + apply IH in H as [-> H]. split; [done|]. intros -> _ k Hk.
      destruct (Z.eq_dec k i) as [->|Hne]; [|apply H; [done|by left|lia]].
      intros l0 x0 y0 Hl0 Hx0 Hy0. rewrite Hl in Hl0. injection Hl0 as <-.
      rewrite Hx in Hy0. rewrite Hy in Hx0. naive_solver.
    + injection H as <- <-. done.
Qed.

Lemma check_params_inv t t' :
  check_params t = Ok (None, t') →
  t' = t ∧ 0 ≤ frang t ∧ 0 < rsep t ∧ (∀ k, 1 ≤ k < mppul t → increasing_at t k).
Proof.
  intros H. unfold check_params in H.
  apply bind_inv in H as (m & t1 & ->%maxpulse_reads & H). run_inv H.
  destruct (Z.ltb_spec (frang s) 0); [done|].
  destruct (Z.leb_spec (rsep s) 0); [done|]. simpl in H.
  rewrite andb_false_r in H. destruct (_ && _); [done|].
  destruct (Z.ltb_spec 0 (mppul s)) as [Hm|Hm].
  - apply bind_inv in H as (bad & t1 & E & H). unfold pat_not_increasing in E. run_inv E.
    apply pat_loop_increasing in E as [-> Hp]; [|lia].
    destruct bad; [done|]. injection H as <-. split_and!; try done.
    intros k Hk. apply Hp; [done|lia|lia].
  - injection H as <-. split_and!; try done. lia.
Qed.

(** The parameters the completion leaves as they are. *)
Definition kept (t : TSGprm) :=
  (frang t, rsep t, mppul t, pat t, code t, mpinc t, nrang t, stdelay t, nbaud t).

Definition keeps {A} (m : PM A) : Prop := ∀ t a t', m t = Ok (a, t') → kept t' = kept t.

Lemma keeps_bind {A B} (m : PM A) (f : A → PM B) :
  keeps m → (∀ a, keeps (f a)) → keeps (m ≫= f).
Proof.
  intros Hm Hf t b t' (a & t1 & E1 & E2)%bind_inv.
  apply Hm in E1 as <-. by apply Hf in E2.
Qed.

Lemma keeps_reads {A} (m : PM A) : only_reads m → keeps m.
Proof. by intros H t a t' ->%H. Qed.

Lemma keeps_modify f : (∀ t, kept (f t) = kept t) → keeps (modify f).
Proof. intros H t a t' [= _ <-]. apply H. Qed.

Ltac keeps_all :=
  repeat lazymatch goal with
  | |- keeps (_ ≫= _) => apply keeps_bind; [|intros ?]
  | |- keeps (modify _) => apply keeps_modify; intros []; reflexivity
  | |- keeps (if ?b then _ else _) => destruct b
  | |- keeps (when _ _) => unfold when
  | |- keeps _ => apply keeps_reads; reads_only
  end.

(** The last step rounds the sample separation to a multiple of the clock. *)
Lemma round_smsep t t' sm :
  smsep t = sm →
  when (negb (sm %c CLOCK_PERIOD =? 0))
    (sm1 ← int_op ((sm /c CLOCK_PERIOD + 1) * CLOCK_PERIOD);
     modify (fun t => t <| smsep := sm1 |>);;
     when (negb ((sm1 /c CLOCK_PERIOD) %c 2 =? 0))
       (sm2 ← int_op (sm1 + CLOCK_PERIOD);
        modify (fun t => t <| smsep := sm2 |>))) t = Ok (tt, t') →
  ∃ q, smsep t' = CLOCK_PERIOD * q.
Proof.
  intros Hs H. destruct (Z.eqb_spec (sm %c CLOCK_PERIOD) 0) as [E|E]; simpl in H.
  - injection H as <-. exists (sm /c CLOCK_PERIOD).
    rewrite Hs, (Z.quot_rem' sm CLOCK_PERIOD) at 1. lia.
  - apply bind_inv in H as (sm1 & t1 & (-> & -> & _)%int_op_inv & H).
    apply bind_inv in H as ([] & t1 & [= <-] & H).
    destruct (negb _).
    + apply bind_inv in H as (sm2 & t2 & (-> & -> & _)%int_op_inv & H).
      injection H as <-. exists (sm /c CLOCK_PERIOD + 2). destruct t. simpl. lia.
    + injection H as <-. exists (sm /c CLOCK_PERIOD + 1). destruct t. simpl. lia.
Qed.

Lemma complete_params_inv t t' :
  complete_params t = Ok (tt, t') →
  1 ≤ nbaud t' ∧ (∃ q, smsep t' = CLOCK_PERIOD * q) ∧
  frang t' = frang t ∧ rsep t' = rsep t ∧ mppul t' = mppul t ∧ pat t' = pat t ∧
  code t' = code t ∧ stdelay t' = stdelay t.
Proof.
  intros H. unfold complete_params in H.
  apply bind_inv in H as ([] & t1 & [= <-] & H).
  set (t1 := if nbaud t <? 1 then _ else _) in H.
  assert (kept t' = kept t1 ∧ ∃ q, smsep t' = CLOCK_PERIOD * q) as [Hk Hq].
  { split; [revert H; match goal with |- ?m t1 = _ → _ => assert (keeps m) as Hm by keeps_all end;
      apply Hm|].
    apply bind_inv in H as (t2 & t3 & _ & H). apply bind_inv in H as (tmp & t4 & _ & H).
    apply bind_inv in H as (u & t5 & _ & H). apply bind_inv in H as (u1 & t6 & _ & H).
    apply bind_inv in H as (t7 & t8 & _ & H). apply bind_inv in H as (sm & t9 & _ & H).
    apply bind_inv in H as ([] & t10 & [= <-] & H). apply bind_inv in H as (ml & t11 & E & H).
    apply bind_inv in H as ([] & t12 & [= <-] & H).
    eapply round_smsep; [|exact H].
    assert (t11 = t9 <| smsep := sm |>) as ->.
    { revert E. destruct (mppul t7 =? 0); [by intros [= _ <-]|]. by intros [-> _]%pat_at_inv. }
    by destruct t9. }
  unfold kept in Hk. injection Hk as H1 H2 H3 H4 H5 H6 H7 H8 H9.
  assert (1 ≤ nbaud t1 ∧ frang t1 = frang t ∧ rsep t1 = rsep t ∧ mppul t1 = mppul t ∧
    pat t1 = pat t ∧ code t1 = code t ∧ stdelay t1 = stdelay t) as (K1 & K2 & K3 & K4 & K5 & K6 & K7).
  { unfold t1. destruct (Z.ltb_spec (nbaud t) 1); destruct t; simpl in *; split_and!; done || lia. }
  split_and!; try congruence; try done; lia.
Qed.

Lemma check_completed_inv t t' :
  check_completed t = Ok (None, t') →
  t' = t ∧
  (0 < mppul t →
   smsep t ≠ 0 ∧ smsep t ≤ mpinc t ∧ (smsep t | mpinc t) ∧ (smsep t | lagfr t) ∧
   20 * mppul t * txpl t /c
     (mlag t * mpinc t + nrang t * nbaud t * smsep t + lagfr t) < 1).
Proof.
  intros H. split; [by eapply check_completed_reads|].
  intros Hm. unfold check_completed in H.
  apply bind_inv in H as (t0 & t1 & [= <- <-] & H).
  rewrite (proj2 (Z.ltb_lt _ _) Hm) in H.
  destruct (Z.ltb_spec (mpinc t) (smsep t)); [done|].
  apply bind_inv in H as (r & t1 & (-> & -> & Hn)%int_rem_inv & H).
  destruct (Z.eqb_spec (Z.rem (lagfr t) (smsep t)) 0) as [E1|]; [|done]. simpl in H.
  apply bind_inv in H as (r & t1 & (-> & -> & _)%int_rem_inv & H).
  destruct (Z.eqb_spec (Z.rem (mpinc t) (smsep t)) 0) as [E2|]; [|done]. simpl in H.
  do 7 (apply bind_inv in H as (? & t1 & (-> & -> & _)%int_op_inv & H)).
  apply bind_inv in H as (duty & t1 & (-> & -> & _)%int_div_inv & H).
  match type of H with context [1 <=? ?x] => destruct (Z.leb_spec 1 x) end; [done|].
  split_and!; try done.
  - by apply Z.rem_divide.
  - by apply Z.rem_divide.
Qed.

Lemma make_timing_inv t t' tm :
  make_timing t = Ok (inr tm, t') →
  t' = t <| tsg_samples := N_sample tm |> ∧
  (smsep t /c CLOCK_PERIOD) = 2 * smsp tm ∧
  t2 tm = A_to_R_min ∧ t3 tm = R_to_X_min ∧ t5 tm = 4 ∧
  lgfr tm = lagfr t /c CLOCK_PERIOD ∧ mpnc tm = mpinc t /c CLOCK_PERIOD ∧
  txp tm = txpl t /c CLOCK_PERIOD ∧
  t4 tm = (if rtoxmin t =? 0 then R_to_X_min else rtoxmin t /c CLOCK_PERIOD) ∧
  (mppul t = 0 → p_time0 tm = 32767 ∧ s_time0 tm = 1 ∧ i0 tm = 0) ∧
  (mppul t ≠ 0 → i0 tm = 1 ∧
     s_time0 tm = p_time0 tm + lgfr tm + t2 tm + t3 tm + txp tm /c 2) ∧
  (mppul t ≠ 0 → 1 < nbaud t → phase_delay tm ≠ 0 ∧ txp tm = phase_delay tm * nbaud t).
Proof.
  intros H. unfold make_timing in H.
  apply bind_inv in H as (t0 & t1 & [= <- <-] & H).
  destruct (Z.eqb_spec ((smsep t /c CLOCK_PERIOD) %c 2) 0) as [Ee|]; [|done]. simpl in H.
  assert (smsep t /c CLOCK_PERIOD = 2 * (smsep t /c CLOCK_PERIOD /c 2)) as Eh.
  { pose proof (Z.quot_rem' (smsep t /c CLOCK_PERIOD) 2). lia. }
  do 6 (let x := fresh "x" in apply bind_inv in H as (x & ? & E & H); run_inv E).
  apply bind_inv in H as (n & t1 & (-> & -> & _)%int_op_inv & H).
  apply bind_inv in H as ([] & t2 & [= <-] & H).
  destruct (Z.eqb_spec (mppul t) 0) as [Em|Em].
  - injection H as <- <-. simpl. split_and!; done.
  - apply bind_inv in H as (p0 & t3 & [-> _]%pat_at_inv & H).
    do 3 (let x := fresh "x" in apply bind_inv in H as (x & ? & E' & H); run_inv E').
    destruct (Z.ltb_spec 1 (nbaud t)).
    + destruct (Z.eqb_spec ((txpl t /c CLOCK_PERIOD) %c nbaud t) 0) as [Er|]; [|done].
      simpl in H. destruct (Z.eqb_spec (txpl t /c CLOCK_PERIOD /c nbaud t) 0); [done|].
      injection H as <- <-. simpl. split_and!; try done. intros _ _. split; [done|].
      rewrite (Z.quot_rem' (txpl t /c CLOCK_PERIOD) (nbaud t)) at 1. lia.
    + injection H as <- <-. simpl. split_and!; try done. lia.
Qed.

Lemma prepare_inv alloc t t1 prm tm :
  prepare alloc t = Ok (inr (prm, tm), t1) →
  ∃ t0, check_params t = Ok (None, t) ∧ copy_params t = Ok (prm, t) ∧
    complete_params t = Ok (tt, t0) ∧ check_completed t0 = Ok (None, t0) ∧
    make_timing t0 = Ok (inr tm, t1).
Proof.
  intros H. unfold prepare in H. apply bind_inv in H as ([f|] & t2 & E & H); [done|].
  pose proof (check_params_inv _ _ E) as [-> _].
  destruct (alloc 0), (alloc 1); try done. simpl in H.
  apply bind_inv in H as (t3 & t4 & [= <- <-] & H).
  destruct ((0 <? mppul t) && negb (alloc 2)); [done|].
  destruct ((1 <? nbaud t) && negb (alloc 3)); [done|].
  apply bind_inv in H as (p & t4 & E2 & H). pose proof (copy_params_reads _ _ _ E2) as ->.
  apply bind_inv in H as ([] & t0 & E3 & H).
  apply bind_inv in H as ([f|] & t4 & E4 & H); [done|].
  pose proof (check_completed_reads _ _ _ E4) as ->.
  apply bind_inv in H as ([f|tm'] & t4 & E5 & H); [done|].
  injection H as -> -> ->. eauto 10.
Qed.

Lemma prepare_well_timed alloc t t1 prm tm pats codes :
  prepare alloc t = Ok (inr (prm, tm), t1) → feasible t1 tm pats codes →
  well_timed t1 tm pats codes.
Proof.
  intros (t0 & _ & _ & E3 & _ & E5)%prepare_inv Hf.
  apply complete_params_inv in E3 as (Hnb & _).
  apply make_timing_inv in E5 as (-> & _ & H2 & H3 & H5 & _ & _ & _ & _ & Hz & Hnz & Hb).
  set (t1 := t0 <| _ := _ |>) in *.
  assert (mppul t1 = mppul t0) as Em by (by destruct t0).
  assert (nbaud t1 = nbaud t0) as En by (by destruct t0).
  rewrite <- Em in Hz, Hnz, Hb. rewrite <- En in Hnb, Hb.
  destruct Hf. constructor; try done.
  - intros Hn. specialize (fe_baud0 Hn). destruct (Hb ltac:(lia) Hn). nia.
  - destruct (Z.eq_dec (mppul t1) 0) as [E|E]; [left|right].
    + by destruct (Hz E) as (? & _ & ?).
    + split; [lia|]. by destruct (Hnz E).
Qed.

(** ** Theorems: the delay to the first sample *)

(** The ticks before the sample line rises. *)
Fixpoint lead (l : list bool) : Z :=
  match l with
  | false :: l => 1 + lead l
  | _ => 0
  end.

Lemma lead_low n l : lead (replicate n false ++ l) = Z.of_nat n + lead l.
Proof. induction n as [|n IH]; simpl; [done|]. rewrite IH. lia. Qed.

Lemma ticks_before_sample_spec cs rs :
  Forall2 entry_ok cs rs → ticks_before_sample cs rs = lead (map sample_line (ticks cs rs)).
Proof.
  induction 1 as [ | c r cs rs (Hc & Hr & Hs) _ IH]; [done|].
  change (ticks (c :: cs) (r :: rs)) with (hold r c ++ ticks cs rs)%list.
  rewrite map_app, map_hold. simpl. unfold sample_line at 1, bits_any.
  change S_bit with 1. destruct ((c &c 1) =? 0) eqn:E; simpl.
  - rewrite lead_low, IH. lia.
  - assert (1 ≤ r) as Hr1.
    { apply Hs. unfold sample_line, bits_any. change S_bit with 1. by rewrite E. }
    by replace (Z.to_nat r) with (S (Z.to_nat (r - 1))) by lia.
Qed.

Lemma lead_sample_wave tm n s out rest :
  0 ≤ s → 1 ≤ smsp tm → s < zlen out →
  map sample_line out `prefix_of` sample_wave tm (S n) s →
  lead (map sample_line out ++ rest) = s.
Proof.
  intros Hs Hsm Hl [k Hk]. simpl in Hk.
  replace (Z.to_nat (smsp tm)) with (S (Z.to_nat (smsp tm - 1))) in Hk by lia.
  simpl in Hk. revert Hk. generalize (replicate (Z.to_nat (smsp tm - 1)) true ++
    sample_wave tm n (smsp tm))%list as r. intros r Hk.
  assert (length (map sample_line out) = length out) as Hlm by apply length_map.
  revert Hk Hlm. generalize (map sample_line out) as l. intros l Hk Hlm.
  assert (l = replicate (Z.to_nat s) false ++ drop (Z.to_nat s) l)%list as El.
  { rewrite <- (take_drop (Z.to_nat s) l) at 1. f_equal.
    apply (f_equal (take (Z.to_nat s))) in Hk.
    rewrite (take_app_le l) in Hk by (unfold zlen in Hl; lia).
    rewrite take_app_length' in Hk by (by rewrite length_replicate). done. }
  assert (length (drop (Z.to_nat s) l) ≠ O) as Hd
    by (rewrite length_drop; unfold zlen in Hl; lia).
  rewrite El in Hk. rewrite <- app_assoc in Hk. apply app_inv_head in Hk.
  destruct (drop (Z.to_nat s) l) as [|x o]; [done|]. injection Hk as <- _.
  rewrite El, <- app_assoc, lead_low. simpl. lia.
Qed.

(** ** Properties *)

(** C14: Parameters for which [TSGMake] makes a sequence satisfy: a positive
    range separation and a lag that is not negative; a strictly increasing
    pulse pattern; a sample separation that is an even number of clock periods
    ([2 * smsp] ticks); with pulses, a pulse increment and a lag to the first
    range that are multiples of the sample separation and a duty cycle below
    one in twenty; with a phase code, a pulse that its bauds divide. *)
Theorem accepted_params alloc t t1 prm tm :
  prepare alloc t = Ok (inr (prm, tm), t1) →
  0 ≤ frang t ∧ 0 < rsep t ∧ (∀ k, 1 ≤ k < mppul t → increasing_at t k) ∧
  smsep t1 = 2 * smsp tm * CLOCK_PERIOD ∧ tsg_samples t1 = N_sample tm ∧ 1 ≤ nbaud t1 ∧
  (0 < mppul t →
     (smsep t1 | mpinc t1) ∧ smsep t1 ≤ mpinc t1 ∧ (smsep t1 | lagfr t1) ∧
     20 * mppul t1 * txpl t1 /c
       (mlag t1 * mpinc t1 + nrang t1 * nbaud t1 * smsep t1 + lagfr t1) < 1 ∧
     (1 < nbaud t1 → phase_delay tm ≠ 0 ∧ txp tm = phase_delay tm * nbaud t1)).
Proof.
  intros (t0 & E1 & E2 & E3 & E4 & E5)%prepare_inv.
  apply check_params_inv in E1 as (_ & Hf & Hr & Hp).
  apply complete_params_inv in E3 as (Hnb & [q Hq] & _ & _ & Hm & _).
  apply check_completed_inv in E4 as [_ Hc].
  apply make_timing_inv in E5 as (-> & Hs & _ & _ & _ & _ & _ & _ & _ & _ & _ & Hb).
  rewrite Hm in Hc, Hb. split; [done|]. split; [done|]. split; [done|].
  split; [|split; [by destruct t0|split; [by destruct t0|]]].
  - replace (smsep (t0 <| tsg_samples := N_sample tm |>)) with (smsep t0) by (by destruct t0).
    rewrite <- Hs, Hq. rewrite (Z.mul_comm CLOCK_PERIOD q), Z.quot_mul by done. lia.
  - intros Hpos. destruct (Hc Hpos) as (_ & H1 & H2 & H3 & H4). specialize (Hb ltac:(lia)).
    rewrite <- Hm in H4. clear - H1 H2 H3 H4 Hb. destruct t0; split_and!; assumption.
Qed.

(** The waveform of an accepted sequence. *)
Lemma TSGMake_run alloc idx t t1 prm tm pats codes :
  prepare alloc t = Ok (inr (prm, tm), t1) → feasible t1 tm pats codes →
  is_int (4 * buf_len t1 tm) → alloc 4 = true → alloc 5 = true →
  ∃ buf out,
    TSGMake alloc idx t =
      Ok ((TSG_OK, Some (buf, prm)),
          t1 <| smdelay := sample_delay (10 * (1 + stdelay t1 + s_time0 tm)) (rsep t1) |>) ∧
    ticks (seq_code buf) (seq_rep buf) = whole t1 out ∧
    seq_len buf = zlen (seq_code buf) ∧ seq_index buf = idx ∧ seq_step buf = CLOCK_PERIOD ∧
    Forall2 entry_ok (seq_code buf) (seq_rep buf) ∧
    map rf_lines out `prefix_of` rf_wave t1 tm pats codes (Z.to_nat (mppul t1)) 0 ∧
    map sample_line out `prefix_of` sample_wave tm (Z.to_nat (N_sample tm)) (s_time0 tm) ∧
    s_time0 tm + 2 * smsp tm * (N_sample tm - 1) < zlen out ≤
      s_time0 tm + 2 * smsp tm * (N_sample tm - 1) + smsp tm.
Proof.
  intros Hp Hf Hint H4 H5. pose proof (prepare_well_timed _ _ _ _ _ _ _ Hp Hf) as Hwt.
  destruct (generate_ok t1 tm pats codes Hwt) as (out & w & E & [Hw _] & Ht & Hrf & Hsl & Hlen).
  pose proof (fe_smsp _ _ _ _ Hf) as Hsm. pose proof (fe_samples _ _ _ _ Hf) as HN.
  pose proof (fe_s0 _ _ _ _ Hf) as Hs0. pose proof (fe_total _ _ _ _ Hf) as HT.
  pose proof (fe_stdelay _ _ _ _ Hf) as Hst.
  assert (ticks_before_sample (w_code w) (w_rep w) = 1 + stdelay t1 + s_time0 tm) as Etb.
  { rewrite ticks_before_sample_spec by done. unfold written in Ht. rewrite Ht.
    unfold whole. rewrite !map_app, !map_hold, !lead_low.
    replace (Z.to_nat (N_sample tm)) with (S (Z.to_nat (N_sample tm - 1))) in Hsl by lia.
    rewrite (lead_sample_wave tm _ (s_time0 tm)) by (done || nia). lia. }
  exists (mk_TSGbuf idx (zlen (w_code w)) CLOCK_PERIOD (w_code w) (w_rep w)), out.
  split; [|split_and!; done || lia].
  unfold TSGMake. rewrite (bind_ok _ _ _ _ _ Hp). cbn beta iota. mrun.
  assert (∀ z (s : TSGprm), is_int z → int_op z s = Ok (z, s)) as Hi.
  { intros z s Hz. unfold int_op. by rewrite bool_decide_true. }
  assert (is_int ((1 + stdelay t1 + s_time0 tm) * 10)) as Hus.
  { assert (0 ≤ smsp tm * N_sample tm) by nia. unfold is_int, int_min, int_max. lia. }
  assert (is_int (buf_len t1 tm)) as Hint1 by (unfold is_int, int_min, int_max in *; lia).
  rewrite (bind_ok _ _ _ _ _ (Hi _ _ Hint1)), (bind_ok _ _ _ _ _ (Hi _ _ Hint)).
  rewrite H4, H5. cbn [negb orb]. rewrite E, Etb.
  rewrite (bind_ok _ _ _ _ _ (Hi _ _ Hus)).
  mrun. by rewrite (Z.mul_comm _ 10).
Qed.

(** C12: The sequence [TSGMake] writes for accepted, feasible parameters, read
    tick by tick, is: the scope pulse, the start delay, the ticks [out] of the
    main loop, the end delay.  In [out] the lines of the radar are a beginning
    of the reference wave [rf_wave] (each pulse at its place in the pattern,
    with the attenuator and receiver margins and the phase code) and the
    sample line is a beginning of [sample_wave]: the two are superposed
    without disturbing each other.  [out] ends within sample number
    [N_sample].  No write leaves the allocated blocks, the loop ends within
    its fuel, and the reported delay is that of the first sample. *)
Theorem TSGMake_waveform alloc idx t t1 prm tm pats codes :
  prepare alloc t = Ok (inr (prm, tm), t1) → feasible t1 tm pats codes →
  is_int (4 * buf_len t1 tm) → alloc 4 = true → alloc 5 = true →
  ∃ buf out,
    TSGMake alloc idx t =
      Ok ((TSG_OK, Some (buf, prm)),
          t1 <| smdelay := sample_delay (10 * (1 + stdelay t1 + s_time0 tm)) (rsep t1) |>) ∧
    ticks (seq_code buf) (seq_rep buf) = whole t1 out ∧
    seq_len buf = zlen (seq_code buf) ∧ seq_index buf = idx ∧ seq_step buf = CLOCK_PERIOD ∧
    Forall2 entry_ok (seq_code buf) (seq_rep buf) ∧
    map rf_lines out `prefix_of` rf_wave t1 tm pats codes (Z.to_nat (mppul t1)) 0 ∧
    map sample_line out `prefix_of` sample_wave tm (Z.to_nat (N_sample tm)) (s_time0 tm) ∧
    s_time0 tm + 2 * smsp tm * (N_sample tm - 1) < zlen out ≤
      s_time0 tm + 2 * smsp tm * (N_sample tm - 1) + smsp tm.
Proof. intros Hp Hf Hint H4 H5. exact (TSGMake_run _ _ _ _ _ _ _ _ Hp Hf Hint H4 H5). Qed.

(** ** Theorems: the interlock *)

(** Whatever the parameters, a code with the transmitter on has the receiver
    off and the attenuators on. *)
Definition interlocked (c : Z) : bool :=
  implb (bits_any c X_bit) (bits_set c AR_code).

Definition safe_writer (w : Writer) : Prop := Forall (fun c => interlocked c = true) (w_code w).

(** Every result of [m] from a safe writer is safe; a property of its value. *)
Definition keeps_safe {A} (P : A → Prop) (m : WM A) : Prop :=
  ∀ w a w', safe_writer w → m w = Ok (a, w') → safe_writer w' ∧ P a.

Lemma keeps_safe_bind {A B} (P : A → Prop) (Q : B → Prop) (m : WM A) (f : A → WM B) :
  keeps_safe P m → (∀ a, P a → keeps_safe Q (f a)) → keeps_safe Q (m ≫= f).
Proof.
  intros Hm Hf w b w' Hw (a & w1 & E1 & E2)%bind_inv.
  destruct (Hm _ _ _ Hw E1) as [Hw1 Ha]. by eapply Hf.
Qed.

Lemma keeps_safe_same {A} (P : A → Prop) (m : WM A) :
  (∀ w a w', m w = Ok (a, w') → w_code w' = w_code w ∧ P a) → keeps_safe P m.
Proof. intros H w a w' Hw [E Ha]%H. unfold safe_writer. by rewrite E. Qed.

Lemma keeps_safe_put c r : interlocked (u8 c) = true → keeps_safe (fun _ => True) (put c r).
Proof.
  intros Hc w [] w' Hw E. split; [|done]. unfold put in E.
  apply bind_inv in E as (w0 & w1 & [= <- <-] & E). destruct (_ && _); [|done].
  apply bind_inv in E as ([] & w2 & [= <-] & E). injection E as <-.
  destruct w. unfold safe_writer in *. simpl in *.
  apply Forall_app. split; [done|]. by constructor.
Qed.

Lemma keeps_safe_chunks fuel c d :
  interlocked (u8 c) = true → keeps_safe (fun _ => True) (put_chunks fuel c d).
Proof.
  intros Hc. revert d. induction fuel as [|fuel IH]; intros d; simpl; destruct (255 <? d).
  - done.
  - by apply keeps_safe_same; intros w a w' [= _ <-].
  - eapply keeps_safe_bind; [by apply keeps_safe_put|intros [] _; apply IH].
  - by apply keeps_safe_same; intros w a w' [= _ <-].
Qed.

Lemma keeps_safe_write c d :
  interlocked (u8 c) = true → keeps_safe (fun _ => True) (TSGWrBuf c d).
Proof.
  intros Hc. unfold TSGWrBuf.
  eapply keeps_safe_bind; [by apply keeps_safe_chunks|intros rest _].
  eapply keeps_safe_bind; [by apply keeps_safe_put|intros [] _].
  apply keeps_safe_same. intros w [] w' E. split; [|done].
  apply bind_inv in E as (w0 & w1 & [= <- <-] & E).
  apply bind_inv in E as ([] & w2 & E1 & E). injection E as <-.
  destruct (_ && _); injection E1 as <-; by destruct w.
Qed.

Lemma interlocked_state st : interlocked (u8 (rfvect st)) = true.
Proof. by destruct st. Qed.

Lemma keeps_safe_entry t tm g :
  scope g = 0 →
  keeps_safe (fun e => interlocked (u8 (e.1.1)) = true ∧ scope e.2 = 0) (next_entry t tm g).
Proof.
  intros Hs. apply keeps_safe_same. intros w e w' E. unfold next_entry in E.
  rewrite Hs, Z.lor_0_r in E.
  assert ((if (gort t =? 1) && bits_any (rfvect (state g)) X_bit then 0 else 0) = 0) as Esc
    by (by destruct ((gort t =? 1) && _)).
  rewrite Esc in E. destruct (_ && _).
  - apply bind_inv in E as (v & w1 & E1 & E). injection E as <- <-.
    assert (w1 = w) as ->.
    { revert E1. unfold read_code. destruct (code t); mrun; [|done].
      destruct (zget _ _); [|done]. by intros [= _ <-]. }
    split_and!; try done. simpl. by destruct (state g), (v <? 0).
  - injection E as <- <-. split_and!; try done. apply interlocked_state.
Qed.

Lemma scope_transition g : scope (transition g) = scope g.
Proof.
  unfold transition. destruct (next_state _) as [[]].
  by destruct (_ && _), (s_time g <? p_time g), (s_time g =? p_time g).
Qed.

Lemma keeps_safe_advance t tm d g :
  scope g = 0 → keeps_safe (fun g' => scope g' = 0) (advance t tm d g).
Proof.
  intros Hs. apply keeps_safe_same. intros w g' w' E. unfold advance in E.
  assert (∀ i x w1, read_pat t i w = Ok (x, w1) → w1 = w) as Hr.
  { intros i x w1. unfold read_pat. destruct (pat t); mrun; [|done].
    destruct (zget _ _); [|done]. by intros [= _ <-]. }
  destruct (_ =? 0); [destruct (_ <? _)|]; [|by injection E as <- <-..].
  apply bind_inv in E as (x & w1 & ->%Hr & E). apply bind_inv in E as (y & w1 & ->%Hr & E).
  by injection E as <- <-.
Qed.

Lemma keeps_safe_loop t tm fuel g :
  scope g = 0 → keeps_safe (fun _ => True) (make_loop t tm fuel g).
Proof.
  revert g. induction fuel as [|fuel IH]; intros g Hs w [] w' Hw E; simpl in E;
    apply bind_inv in E as (w0 & w1 & [= <- <-] & E); (destruct (_ <? _); [|by injection E as <-]).
  - done.
  - revert E. apply (keeps_safe_bind (fun g' => scope g' = 0) (fun _ => True)); [|apply IH|done].
    unfold make_step.
    eapply keeps_safe_bind; [by apply keeps_safe_entry|intros [[c d] g1] [Hc Hg1]].
    eapply keeps_safe_bind; [by apply keeps_safe_write|intros [] _].
    apply keeps_safe_advance. by rewrite scope_transition.
Qed.

Lemma keeps_safe_generate t tm : keeps_safe (fun _ => True) (generate t tm).
Proof.
  unfold generate. eapply keeps_safe_bind; [by apply keeps_safe_write|intros [] _].
  eapply keeps_safe_bind; [by apply keeps_safe_write|intros [] _].
  eapply keeps_safe_bind; [by apply keeps_safe_loop|intros [] _].
  by apply keeps_safe_write.
Qed.

(** The result of [TSGMake] by cases. *)
Lemma TSGMake_inv alloc idx t r t' :
  TSGMake alloc idx t = Ok (r, t') →
  (∃ f, r = (f, None)) ∨
  (∃ t1 prm tm w, prepare alloc t = Ok (inr (prm, tm), t1) ∧
     generate t1 tm (writer0 (buf_len t1 tm)) = Ok (tt, w) ∧
     r = (TSG_OK, Some (mk_TSGbuf idx (zlen (w_code w)) CLOCK_PERIOD (w_code w) (w_rep w), prm))).
Proof.
  intros H. unfold TSGMake in H. apply bind_inv in H as ([[f|]|[prm tm]] & t1 & Ep & H);
    [injection H as <- _; by left; eexists..|].
  apply bind_inv in H as (t2 & t3 & [= <- <-] & H).
  apply bind_inv in H as (n & t3 & (-> & -> & _)%int_op_inv & H).
  apply bind_inv in H as (m & t3 & (-> & -> & _)%int_op_inv & H).
  destruct (_ || _); [injection H as <- _; left; by eexists|].
  destruct (generate _ _ _) as [[[] w]|] eqn:Eg; [|done].
  apply bind_inv in H as (us & t3 & _ & H). apply bind_inv in H as ([] & t4 & _ & H).
  injection H as <- _. right. naive_solver.
Qed.

(** C13: Whatever the parameters, no code of a sequence turns the transmitter
    on without the attenuators and with the receiver not disabled. *)
Theorem interlock alloc idx t f buf prm t' :
  TSGMake alloc idx t = Ok ((f, Some (buf, prm)), t') →
  Forall (fun c => interlocked c = true) (seq_code buf).
Proof.
  intros [(? & [=])|(t1 & p & tm & w & _ & E & [= -> -> ->])]%TSGMake_inv.
  by eapply (keeps_safe_generate t1 tm) in E as [Hw _]; [|constructor].
Qed.

(** ** Witnesses *)

Definition all_memory (n : Z) : bool := true.

Definition prepared (t : TSGprm) : TSGprm * TSGprm * Timing :=
  match prepare all_memory t with
  | Ok (inr (prm, tm), t1) => (t1, prm, tm)
  | _ => (t, t, mk_Timing 0 0 0 0 0 0 0 0 0 0 0 0 0 0)
  end.

Definition example_codes : list Z := [1; -1; 1; 1; 1; -1; 1; 1].

Lemma accepted_params_witness :
  let '(t1, prm, tm) := prepared example_coded in
  prepare all_memory example_coded = Ok (inr (prm, tm), t1) ∧
  smsep t1 = 2 * smsp tm * CLOCK_PERIOD ∧ N_sample tm = 165.
Proof.
  assert (prepare all_memory example_coded =
    Ok (inr ((prepared example_coded).1.2, (prepared example_coded).2),
        (prepared example_coded).1.1)) as E by (vm_compute; reflexivity).
  pose proof (accepted_params _ _ _ _ _ E) as (_ & _ & _ & H & _).
  split; [exact E|]. split; [exact H|reflexivity].
Defined.

Lemma example_feasible :
  feasible (prepared example_coded).1.1 (prepared example_coded).2 [0; 3] example_codes.
Proof.
  constructor; try (vm_compute; done); try (vm_compute; intros; done).
  - intros k Hk. change (mppul _) with 2 in Hk.
    assert (k = 0 ∨ k = 1) as [-> | ->] by lia; vm_compute; done.
Qed.

Lemma TSGMake_waveform_witness :
  ∃ buf out, TSGMake all_memory 3 example_coded =
    Ok ((TSG_OK, Some (buf, (prepared example_coded).1.2)),
        (prepared example_coded).1.1 <| smdelay := 6 |>) ∧
    ticks (seq_code buf) (seq_rep buf) = whole (prepared example_coded).1.1 out.
Proof.
  assert (prepare all_memory example_coded =
    Ok (inr ((prepared example_coded).1.2, (prepared example_coded).2),
        (prepared example_coded).1.1)) as E by (vm_compute; reflexivity).
  destruct (TSGMake_waveform all_memory 3 _ _ _ _ [0; 3] example_codes E example_feasible)
    as (buf & out & H1 & H2 & _); [by vm_compute|done|done|].
  exists buf, out. split; [rewrite H1; vm_compute; reflexivity|exact H2].
Defined.

Lemma interlock_witness :
  ∃ r t', TSGMake all_memory 3 example_pulses = Ok ((TSG_OK, Some r), t') ∧
    Forall (fun c => interlocked c = true) (seq_code r.1).
Proof.
  destruct (TSGMake all_memory 3 example_pulses) as [[[f [[buf prm]|]] t']|e] eqn:E;
    [|vm_compute in E; discriminate E..].
  assert (f = TSG_OK) as Ef by (vm_compute in E; by injection E).
  exists (buf, prm), t'. split; [by rewrite Ef|].
  exact (interlock all_memory 3 example_pulses f buf prm t' E).
Defined.

(** A sequence without pulses, for 1100 samples. *)
Definition receive_only : TSGprm :=
  mk_TSGprm 1100 180 45 300 0 0 0 0 0 1 0 0 2 1 360 0 None None.

Definition transmits (r : result ((Z * option (TSGbuf * TSGprm)) * TSGprm)) : bool :=
  match r with
  | Ok ((_, Some (buf, _)), _) => existsb (fun c => bits_any c X_bit) (seq_code buf)
  | _ => false
  end.

(** The quiet of 32767 ticks is not endless: a receive-only sequence that is
    longer turns the transmitter on. *)
Example receive_only_transmits :
  mppul receive_only = 0 ∧ transmits (TSGMake all_memory 0 receive_only) = true.
Proof. split; [reflexivity|vm_compute; reflexivity]. Qed.

(** A pulse shorter than its number of bauds divides by zero. *)
Example short_pulse_faults :
  TSGMake all_memory 0 (mk_TSGprm 10 0 45 0 0 3 2 300 0 4 0 0 2 1 0 0 (Some [0; 3])
    (Some example_codes)) = Fault BadArith.
Proof. vm_compute; reflexivity. Qed.
