(* ===== verification/TimingDriver.v ===== *)
(** * TimingDriver: the driver of the timing card (src/ros6/timing_tcp_driver)

    The state of main.c and one function per message of its [switch]: a
    client's sequence is unpacked to one word per tick of the card, the words
    of the ready clients are merged into a master sequence, the master is
    stamped for the FIFO and scanned for the times the transmitters are on,
    and the interrupt thread feeds it to the card.

    A request carries what the handler reads from the socket and the reply is
    the list of packets it sends.  [seq_buf] is the list of the words written
    so far ([seq_count] is its length, at most [MAX_TIME_SEQ_LEN]);
    [master_buf] is the block of the card, which keeps its words from one
    sequence to the next.  The registers of the card are not modelled: their
    effect is what the interrupt thread reads, an argument of [int_handler]
    and of [handle_wait].  [malloc] is taken to succeed, as the code does. *)

From Stdlib Require Import ZArith Lia Ascii String.
From stdpp Require Import base list.
From S2P Require Import Prelude Binary64 Types Tsg.
Open Scope Z_scope.
Open Scope cvr_scope.

(** ** Constants (timing_defs.h and main.c) *)

Definition MAX_TIME_SEQ_LEN : Z := 1048576.
Definition MAX_PULSES : Z := 100.
Definition FIFOLVL : Z := 8000.
Definition FIFOWIDTH : Z := 1.
Definition STATE_TIME : Z := 5.
Definition RX_OFFSET : Z := 0.
Definition DDS_OFFSET : Z := 0.
Definition maxclients : Z := MAX_RADARS * MAX_CHANNELS.

(** A radar and channel of the site. *)
Definition valid_client (p : ControlPRM) : Prop :=
  0 < radar p ≤ MAX_RADARS ∧ 0 < channel p ≤ MAX_CHANNELS.

(** ** State *)

(** What the driver keeps for a radar and channel. *)
Record Slot := mk_Slot {
  sl_seqs : list (option TSGbuf);
  seq_buf : list Z;
  ready_index : Z
}.

Record tdriver := mk_tdriver {
  slots_of : list (list Slot);
  clients : list ControlPRM;
  numclients : Z;
  master_buf : list Z;
  max_seq_count : Z;
  old_seq_id : Z;
  new_seq_id : Z;
  bt_length : Z;
  bt_start : list Z;
  bt_duration : list Z;
  xfercount : Z;
  writingFIFO : bool;
  dma_count : Z;
  dma : list (Z * Z)     (** the transfers to the card: first word, words *)
}.

#[export] Instance eta_Slot : Eta Slot := fun r =>
  mk_Slot (sl_seqs r) (seq_buf r) (ready_index r).
#[export] Instance eta_tdriver : Eta tdriver := fun r =>
  mk_tdriver (slots_of r) (clients r) (numclients r) (master_buf r) (max_seq_count r)
    (old_seq_id r) (new_seq_id r) (bt_length r) (bt_start r) (bt_duration r)
    (xfercount r) (writingFIFO r) (dma_count r) (dma r).

Abbreviation DM := (M tdriver).

Definition get_dslot (r c : Z) : DM Slot :=
  l ← gets slots_of; row ← deref OutOfBounds (zget l r); deref OutOfBounds (zget row c).

Definition set_dslot (r c : Z) (v : Slot) : DM unit :=
  l ← gets slots_of;
  row ← deref OutOfBounds (zget l r);
  row ← deref OutOfBounds (zset row c v);
  l ← deref OutOfBounds (zset l r row);
  modify (fun s => s <| slots_of := l |>).

Definition get_client (i : Z) : DM ControlPRM :=
  l ← gets clients; deref OutOfBounds (zget l i).

Definition set_client (i : Z) (p : ControlPRM) : DM unit :=
  l ← gets clients; l ← deref OutOfBounds (zset l i p);
  modify (fun s => s <| clients := l |>).

(** ** _decodestate.c: the word of the card for a code byte

    The bits of the radar and channel are [1 << (7 + k (r+1) (c+1))]; the
    result is stored in an unsigned word. *)

Definition _decodestate (r c state : Z) : Z :=
  let bit (m n : Z) := if bits_set state m then 1 <<c n else 0 in
  u32 (bit 128 (7 + (r + 1) * (c + 1))
       |c bit 2 (7 + 2 * (r + 1) * (c + 1))
       |c bit 16 (7 + 3 * (r + 1) * (c + 1))
       |c bit 128 0 |c bit 2 1).

(** ** Requests and replies *)

Inductive trequest :=
  | RegisterSeq (type : ascii) (client : ControlPRM) (index : Z) (buf : TSGbuf)
  | ClientEnd
  | ClientReady (type : ascii) (client : ControlPRM)
  | Pretrigger (type : ascii)
  | Trigger (type : ascii)
  | WaitFifo (type : ascii) (dead : bool)   (** the wait for the FIFO timed out *)
  | Posttrigger (type : ascii) (status : Z)
  | BadCode.

(** TIMING_REGISTER_SEQ. *)
Definition handle_register_seq (type : ascii) (client : ControlPRM) (index : Z)
    (buf : TSGbuf) : DM (list packet) :=
  let r := radar client - 1 in
  let c := channel client - 1 in
  sl ← get_dslot r c;
  l ← deref OutOfBounds (zset (sl_seqs sl) index (Some buf));
  set_dslot r c (sl <| sl_seqs := l |>);;
  modify (fun s => s <| old_seq_id := -10 |>);;
  modify (fun s => s <| new_seq_id := -1 |>);;
  mret [PDriver type 0].

(** TIMING_CtrlProg_END sends no reply. *)
Definition handle_end : DM (list packet) :=
  modify (fun s => s <| old_seq_id := -10 |>);;
  modify (fun s => s <| new_seq_id := -1 |>);;
  mret [].

(** Ticks of the card per step of a sequence: [(int)(step/STATE_TIME+0.5)]. *)
Definition ticks_per_step (step : Z) : Z :=
  d_to_int (dadd (ddiv (d_of_int step) (d_of_int STATE_TIME))
                 (ddiv (d_of_int 1) (d_of_int 2))).

(** [(int)(MIN(DDS_OFFSET,RX_OFFSET)/(STATE_TIME+0.5))-2]: the padding. *)
Definition offset_pad : Z :=
  d_to_int (ddiv (d_of_int (Z.min DDS_OFFSET RX_OFFSET))
    (dadd (d_of_int STATE_TIME) (ddiv (d_of_int 1) (d_of_int 2)))) - 2.

(** The unpacking loops; every code is repeated [step * rep] times. *)
Fixpoint unpack (r c step : Z) (codes reps : list Z) : list Z :=
  match codes, reps with
  | x :: codes, n :: reps =>
      (replicate (Z.to_nat (step * n)) (_decodestate r c x) ++ unpack r c step codes reps)%list
  | _, _ => []
  end.

Definition unpack_seq (r c : Z) (buf : TSGbuf) : DM (list Z) :=
  if (zlen (seq_code buf) <? seq_len buf) || (zlen (seq_rep buf) <? seq_len buf) then
    fail OutOfBounds
  else
    let n := Z.to_nat (seq_len buf) in
    let l := (replicate (Z.to_nat (- offset_pad)) 0 ++
              unpack r c (ticks_per_step (seq_step buf))
                (take n (seq_code buf)) (take n (seq_rep buf)))%list in
    if zlen l <=? MAX_TIME_SEQ_LEN then mret l else fail OutOfBounds.

(** TIMING_CtrlProg_READY. *)
Definition handle_ready (type : ascii) (client : ControlPRM) : DM (list packet) :=
  let r := radar client - 1 in
  let c := channel client - 1 in
  sl ← get_dslot r c;
  (if (0 <=? ready_index sl) && (ready_index sl <? maxclients) then
     set_client (ready_index sl) client
   else
     n ← gets numclients;
     set_client n client;;
     set_dslot r c (sl <| ready_index := n |>);;
     modify (fun s => s <| numclients := n + 1 |>));;
  sl ← get_dslot r c;
  o ← deref OutOfBounds (zget (sl_seqs sl) (current_pulseseq_index client));
  buf ← deref NullDeref o;
  l ← unpack_seq r c buf;
  set_dslot r c (sl <| seq_buf := l |>);;
  n ← gets numclients;
  modify (fun s => s <| numclients := n %c maxclients |>);;
  mret [PDriver type (if maxclients <=? n then -2 else 0)].

(** ** TIMING_PRETRIGGER *)

(** Lines 421-429: the identification of the set of sequences. *)
Definition sequence_id : DM Z :=
  n ← gets numclients;
  for_fold (seqZ 0 n) (fun i id =>
    p ← get_client i;
    mret (id + ((radar p - 1) * 1000 + (channel p - 1) * 100 +
                current_pulseseq_index p + 1))) (-1).

(** One client's words into the master: the first client's are copied, the
    others' are or-ed. *)
Fixpoint merge_words (first : bool) (words master : list Z) : option (list Z) :=
  match words, master with
  | [], _ => Some master
  | w :: words, m :: master =>
      l ← merge_words first words master;
      Some ((if first then w else m |c w) :: l)
  | _ :: _, [] => None
  end.

Definition merge_clients : DM unit :=
  modify (fun s => s <| max_seq_count := 0 |>);;
  n ← gets numclients;
  for_each (seqZ 0 n) (fun i =>
    p ← get_client i;
    sl ← get_dslot (radar p - 1) (channel p - 1);
    modify (fun s => if max_seq_count s <=? zlen (seq_buf sl)
                     then s <| max_seq_count := zlen (seq_buf sl) |> else s);;
    m ← gets master_buf;
    m ← deref OutOfBounds (merge_words (i =? 0) (seq_buf sl) m);
    modify (fun s => s <| master_buf := m |>)).

(** The variables of the scan of the master. *)
Record Scan := mk_Scan {
  sc_length : Z;
  sc_start : list Z;
  sc_duration : list Z;
  tr_event : bool;
  scope_event : bool;
  scope_start : Z
}.

(** Lines 464-468 ([FIFOWIDTH] is 1). *)
Definition fifo_stamp (i w : Z) : Z := if i %c FIFOLVL =? 0 then w |c 132 else w.

(** Lines 470-501, for word [w] at index [i]. *)
Definition scan_word (i w : Z) (sc : Scan) : option Scan :=
  sc1 ← (if bits_set w 2 then
           if negb (tr_event sc) then
             let n := sc_length sc + 1 in
             if (0 <? n) && (n <? MAX_PULSES) then
               a ← zset (sc_start sc) (n - 1) i;
               b ← zset (sc_duration sc) (n - 1) 1;
               Some (mk_Scan n a b true (scope_event sc) (scope_start sc))
             else Some (mk_Scan n (sc_start sc) (sc_duration sc) true (scope_event sc)
                                (scope_start sc))
           else
             d ← zget (sc_duration sc) (sc_length sc - 1);
             b ← zset (sc_duration sc) (sc_length sc - 1) (u32 (d + 1));
             Some (mk_Scan (sc_length sc) (sc_start sc) b true (scope_event sc) (scope_start sc))
         else Some (mk_Scan (sc_length sc) (sc_start sc) (sc_duration sc) false
                            (scope_event sc) (scope_start sc)));
  Some (if bits_set w 1 then
          mk_Scan (sc_length sc1) (sc_start sc1) (sc_duration sc1) (tr_event sc1) true
                  (if scope_event sc1 then scope_start sc1 else i)
        else
          mk_Scan (sc_length sc1) (sc_start sc1) (sc_duration sc1) (tr_event sc1) false
                  (scope_start sc1)).

(** The loop of line 462 over [n] words from index [i]; returns the stamped words. *)
Fixpoint scan_words (n : nat) (i : Z) (words : list Z) (sc : Scan) : option (list Z * Scan) :=
  match n, words with
  | O, _ => Some (words, sc)
  | S n, w :: words =>
      let w := fifo_stamp i w in
      sc ← scan_word i w sc;
      '(l, sc) ← scan_words n (i + 1) words sc;
      Some (w :: l, sc)
  | S _, [] => None
  end.

(** [scope_start + (int)(offset/(STATE_TIME+0.5))]. *)
Definition trigger_at (start offset : Z) : Z :=
  start + d_to_int (ddiv (d_of_int offset)
    (dadd (d_of_int STATE_TIME) (ddiv (d_of_int 1) (d_of_int 2)))).

(** [master_buf[i] |= bit] when [i] is inside the sequence. *)
Definition set_trigger (i bit : Z) : DM unit :=
  n ← gets max_seq_count;
  when ((0 <=? i) && (i <? n))
    (m ← gets master_buf;
     w ← deref OutOfBounds (zget m i);
     m ← deref OutOfBounds (zset m i (w |c bit));
     modify (fun s => s <| master_buf := m |>)).

Definition stamp_and_scan : DM unit :=
  s ← get_st;
  '(m, sc) ← deref OutOfBounds
    (scan_words (Z.to_nat (max_seq_count s)) 0 (master_buf s)
       (mk_Scan 0 (bt_start s) (bt_duration s) false false (-1)));
  modify (fun s => s <| master_buf := m |> <| bt_length := sc_length sc |>
                     <| bt_start := sc_start sc |> <| bt_duration := sc_duration sc |>);;
  let found := -1 <? scope_start sc in
  set_trigger (if found then trigger_at (scope_start sc) DDS_OFFSET else 0) 16384;;
  set_trigger (if found then trigger_at (scope_start sc) RX_OFFSET else 0) 32768.

(** A transfer of [n] words from [first]. *)
Definition DMAxfer (first n : Z) : DM unit :=
  modify (fun s => s <| dma := (dma s ++ [(first, n)])%list |>);;
  modify (fun s => s <| dma_count := dma_count s + 1 |>).

(** Lines 537-553: the FIFO is cleared and filled for the first time. *)
Definition first_transfer : DM unit :=
  modify (fun s => s <| dma_count := 0 |> <| dma := [] |>);;
  n ← gets max_seq_count;
  let x := if 16384 <? n then FIFOLVL + FIFOWIDTH + 2 else n in
  modify (fun s => s <| xfercount := x |>);;
  DMAxfer 0 x.

(** A [send_data] of an array: no words are no packet. *)
Definition words_packet (l : list Z) : list packet :=
  match l with [] => [] | _ => [PWords (Some l)] end.

(** The words of the reply: as many as [length] says, read from the arrays. *)
Definition tr_words (n : Z) (l : list Z) : DM (list packet) :=
  if n <=? zlen l then mret (words_packet (take (Z.to_nat n) l)) else fail OutOfBounds.

Definition handle_pretrigger (type : ascii) : DM (list packet) :=
  id ← sequence_id;
  modify (fun s => s <| new_seq_id := id |>);;
  old ← gets old_seq_id;
  when (negb (id =? old)) (merge_clients;; stamp_and_scan);;
  first_transfer;;
  modify (fun s => s <| old_seq_id := if id <? 0 then -10 else id |>
                     <| new_seq_id := -1 |>);;
  s ← get_st;
  a ← tr_words (bt_length s) (bt_start s);
  b ← tr_words (bt_length s) (bt_duration s);
  mret ([PInt (bt_length s)] ++ a ++ b ++ [PDriver type 0])%list.

(** TIMING_TRIGGER and TIMING_GPS_TRIGGER: the interrupt thread may write. *)
Definition handle_trigger (type : ascii) : DM (list packet) :=
  modify (fun s => s <| writingFIFO := true |>);; mret [PDriver type 0].

Definition handle_wait (type : ascii) (dead : bool) : DM (list packet) :=
  s ← get_st;
  mret [PDriver type ((if dead then -1 else 0) +
                      (if xfercount s <? max_seq_count s then -2 else 0))].

(** TIMING_POSTTRIGGER. *)
Definition handle_posttrigger (type : ascii) (status : Z) : DM (list packet) :=
  modify (fun s => s <| numclients := 0 |>);;
  modify (fun s => s <| slots_of ::= map (map (fun sl => sl <| ready_index := -1 |>)) |>);;
  mret [PDriver type status].

(** The [switch] on the message code. *)
Definition handle (q : trequest) : DM (list packet) :=
  match q with
  | RegisterSeq t p i b => handle_register_seq t p i b
  | ClientEnd => handle_end
  | ClientReady t p => handle_ready t p
  | Pretrigger t => handle_pretrigger t
  | Trigger t => handle_trigger t
  | WaitFifo t d => handle_wait t d
  | Posttrigger t st => handle_posttrigger t st
  | BadCode => mret []
  end.

(** One turn of the interrupt thread, when the FIFO asks for words; [error] is
    the state of the empty and underflow flags. *)
Definition int_handler (error : bool) : DM unit :=
  s ← get_st;
  when (writingFIFO s)
    (if xfercount s <? max_seq_count s then
       let n := if FIFOLVL <? max_seq_count s - xfercount s then FIFOLVL
                else max_seq_count s - xfercount s in
       DMAxfer (xfercount s) n;;
       modify (fun s => s <| xfercount := xfercount s + n |>);;
       s ← get_st;
       when (max_seq_count s <=? xfercount s)
         (modify (fun s => s <| writingFIFO := false |>));;
       when error (modify (fun s => s <| writingFIFO := false |>))
     else modify (fun s => s <| writingFIFO := false |>)).

Definition slot0 : Slot := mk_Slot (replicate 4 None) [] (-1).

(** The state when main starts to accept: [junk] is what the uninitialised
    arrays hold. *)
Definition tdriver0 (junk : ControlPRM) (words pulses : list Z) : tdriver :=
  mk_tdriver (replicate 2 (replicate 4 slot0)) (replicate 8 junk) 0 words 0 (-10) (-1) 0
    pulses pulses 0 false 0 [].

(** ** Specifications *)

(** The TR line of a word of the card, the times the transmitters are on. *)
Definition tr_line (w : Z) : bool := bits_set w 2.

(** A list of runs [(start, duration)] painted on [n] ticks. *)
Fixpoint paint (pos : Z) (runs : list (Z * Z)) (n : Z) : list bool :=
  match runs with
  | [] => replicate (Z.to_nat (n - pos)) false
  | (s, d) :: runs =>
      (replicate (Z.to_nat (s - pos)) false ++ replicate (Z.to_nat d) true ++
       paint (s + d) runs n)%list
  end.

(** Runs in order, not empty, separated by at least a tick, within [n] ticks. *)
Inductive runs_upto : list (Z * Z) → Z → Prop :=
  | runs_nil n : -1 ≤ n → runs_upto [] n
  | runs_snoc l s d n :
      runs_upto l (s - 1) → 0 ≤ s → 1 ≤ d → s + d ≤ n → runs_upto (l ++ [(s, d)]) n.

(** The number of runs of [true]. *)
Fixpoint rising (before : bool) (l : list bool) : Z :=
  match l with
  | [] => 0
  | b :: l => (if b && negb before then 1 else 0) + rising b l
  end.

Definition slot_at (s : tdriver) (r c : Z) : option Slot :=
  row ← zget (slots_of s) r; zget row c.

(** Client [i] of the state is ready with the words [q]. *)
Definition client_words (s : tdriver) (i : Z) (q : list Z) : Prop :=
  ∃ p sl, zget (clients s) i = Some p ∧
    slot_at s (radar p - 1) (channel p - 1) = Some sl ∧ seq_buf sl = q.

(** The words of the ready clients, in their order. *)
Definition programmed (s : tdriver) (seqs : list (list Z)) : Prop :=
  numclients s = zlen seqs ∧
  (∀ k q, seqs !! k = Some q → client_words s (Z.of_nat k) q ∧ zlen q ≤ zlen (master_buf s)).

Fixpoint overlay (first : bool) (q m : list Z) : list Z :=
  match q, m with
  | w :: q, x :: m => (if first then w else x |c w) :: overlay first q m
  | _, _ => m
  end.

Fixpoint merged (i : Z) (seqs : list (list Z)) (m : list Z) : list Z :=
  match seqs with
  | [] => m
  | q :: seqs => merged (i + 1) seqs (overlay (i =? 0) q m)
  end.

Definition longest (seqs : list (list Z)) : Z :=
  foldr (fun q n => Z.max (zlen q) n) 0 seqs.

Definition word (j : nat) (q : list Z) : Z := default 0 (q !! j).

(** The identification of the ready set, as line 425 adds it up. *)
Definition client_id (p : ControlPRM) : Z :=
  (radar p - 1) * 1000 + (channel p - 1) * 100 + current_pulseseq_index p + 1.

Definition ids (s : tdriver) : Z :=
  foldl (fun n p => n + client_id p) (-1) (take (Z.to_nat (numclients s)) (clients s)).

(** ** Theorems: runs *)

Lemma paint_snoc pos l s d n :
  paint pos (l ++ [(s, d)]) n =
    (paint pos l s ++ replicate (Z.to_nat d) true ++ replicate (Z.to_nat (n - (s + d))) false)%list.
Proof.
  revert pos. induction l as [|[s0 d0] l IH]; intros pos; simpl; [done|].
  rewrite IH. by rewrite <- !app_assoc.
Qed.

Lemma runs_mono l n m : runs_upto l n → n ≤ m → runs_upto l m.
Proof. intros H Hm. inversion H; subst; constructor; try done; lia. Qed.

Lemma paint_grow l i : runs_upto l i → 0 ≤ i →
  paint 0 l (i + 1) = (paint 0 l i ++ [false])%list.
Proof.
  intros H Hi. inversion H as [|l' s d n Hl Hs Hd Hn]; subst.
  - simpl. rewrite !Z.sub_0_r. replace (Z.to_nat (i + 1)) with (Z.to_nat i + 1)%nat by lia.
    by rewrite replicate_add.
  - rewrite !paint_snoc, <- !app_assoc. do 2 f_equal.
    replace (Z.to_nat (i + 1 - (s + d))) with (Z.to_nat (i - (s + d)) + 1)%nat by lia.
    by rewrite replicate_add.
Qed.

(** What the scan has found after the bits [bs]. *)
Record scan_inv (i : Z) (bs : list bool) (sc : Scan) (l : list (Z * Z)) : Prop := mk_scan_inv {
  si_length : sc_length sc = zlen l;
  si_start : zlen (sc_start sc) = MAX_PULSES;
  si_duration : zlen (sc_duration sc) = MAX_PULSES;
  si_stored : ∀ k s d, l !! k = Some (s, d) →
    sc_start sc !! k = Some s ∧ sc_duration sc !! k = Some d;
  si_runs : runs_upto l i;
  si_bits : paint 0 l i = bs;
  si_event : if tr_event sc then ∃ l' s d, l = (l' ++ [(s, d)])%list ∧ s + d = i
             else runs_upto l (i - 1)
}.

Lemma stored_snoc (l : list (Z * Z)) (a b : list Z) s d k s' d' :
  (∀ k s d, l !! k = Some (s, d) → a !! k = Some s ∧ b !! k = Some d) →
  a !! length l = Some s → b !! length l = Some d →
  (l ++ [(s, d)])%list !! k = Some (s', d') → a !! k = Some s' ∧ b !! k = Some d'.
Proof.
  intros H Ha Hb E. destruct (decide (k < length l)%nat) as [Hk|Hk].
  - rewrite lookup_app_l in E by done. by apply H.
  - assert (k = length l) as ->.
    { apply lookup_lt_Some in E. rewrite length_app in E. simpl in E. lia. }
    rewrite lookup_app_r, Nat.sub_diag in E by lia. simpl in E. injection E as <- <-. done.
Qed.

(** The part of an iteration about the TR line. *)
Lemma scan_word_step i w sc bs l :
  scan_inv i bs sc l → 0 ≤ i < MAX_TIME_SEQ_LEN →
  zlen l + rising (tr_event sc) [tr_line w] < MAX_PULSES →
  ∃ sc' l', scan_word i w sc = Some sc' ∧ scan_inv (i + 1) (bs ++ [tr_line w])%list sc' l' ∧
    zlen l' = zlen l + rising (tr_event sc) [tr_line w] ∧ tr_event sc' = tr_line w.
Proof.
  intros [Hl Hs Hd Hst Hr Hb He] Hi Hlt. unfold scan_word. unfold tr_line in *.
  unfold MAX_PULSES, MAX_TIME_SEQ_LEN in *. pose proof (zlen_nonneg l) as Hnn.
  destruct (bits_set w 2) eqn:Ew; [destruct (tr_event sc) eqn:Et|].
  - destruct He as (l' & s & d & -> & Hsd). simpl in Hlt.
    pose proof (Hst (length l') s d) as Hk.
    rewrite lookup_app_r, Nat.sub_diag in Hk by lia. destruct (Hk eq_refl) as [Ks Kd].
    assert (sc_length sc - 1 = Z.of_nat (length l')) as En
      by (rewrite Hl, zlen_app; unfold zlen; simpl; lia).
    inversion Hr as [|l0 s0 d0 n0 Hl' H0 H1 H2 E0]; [destruct l'; discriminate|].
    apply app_inj_tail in E0 as [-> [= -> ->]]. subst n0.
    simpl. rewrite En, zget_nat, Kd. simpl.
    rewrite zset_Some by (rewrite Hd; rewrite zlen_app in Hlt; unfold zlen in Hlt; simpl in Hlt; lia).
    simpl. rewrite Nat2Z.id, u32_id by lia.
    eexists _, (l' ++ [(s, d + 1)])%list. split; [reflexivity|].
    assert (zlen (l' ++ [(s, d + 1)])%list = zlen (l' ++ [(s, d)])%list) as Ez
      by (by rewrite !zlen_app).
    split; [|split; [rewrite Ez; lia|by destruct (bits_set w 1)]].
    assert (scan_inv (i + 1) (bs ++ [true])%list
      (mk_Scan (sc_length sc) (sc_start sc) (<[length l' := d + 1]> (sc_duration sc)) true
         (scope_event sc) (scope_start sc)) (l' ++ [(s, d + 1)])%list) as HI.
    { constructor; simpl; try done.
      - by rewrite Ez.
      - unfold zlen. by rewrite length_insert.
      - intros k s' d'. apply stored_snoc; [|done|].
        + intros k' s1 d1 E1. destruct (Hst k' s1 d1) as [A B].
          { rewrite lookup_app_l; [done|]. by eapply lookup_lt_Some. }
          split; [done|]. rewrite list_lookup_insert_ne; [done|].
          apply lookup_lt_Some in E1. lia.
        + apply list_lookup_insert_eq. by eapply lookup_lt_Some.
      - constructor; [done|lia|lia|lia].
      - rewrite <- Hb, !paint_snoc, <- !app_assoc. f_equal.
        replace (i + 1 - (s + (d + 1))) with 0 by lia. replace (i - (s + d)) with 0 by lia.
        simpl. rewrite app_nil_r. replace (Z.to_nat (d + 1)) with (Z.to_nat d + 1)%nat by lia.
        by rewrite replicate_add.
      - exists l', s, (d + 1). split; [done|lia]. }
    destruct HI. destruct (bits_set w 1); by constructor.
  - simpl in Hlt. simpl. rewrite Hl.
    rewrite (proj2 (Z.ltb_lt 0 (zlen l + 1))), (proj2 (Z.ltb_lt (zlen l + 1) 100)) by lia. simpl.
    replace (zlen l + 1 - 1) with (zlen l) by lia.
    rewrite !zset_Some by lia. simpl.
    eexists _, (l ++ [(i, 1)])%list. split; [reflexivity|].
    assert (zlen (l ++ [(i, 1)])%list = zlen l + 1) as Ez by (by rewrite zlen_app).
    split; [|split; [lia|by destruct (bits_set w 1)]].
    assert (scan_inv (i + 1) (bs ++ [true])%list
      (mk_Scan (zlen l + 1) (<[Z.to_nat (zlen l) := i]> (sc_start sc))
         (<[Z.to_nat (zlen l) := 1]> (sc_duration sc)) true (scope_event sc) (scope_start sc))
      (l ++ [(i, 1)])%list) as HI.
    { assert (Z.to_nat (zlen l) = length l) as El by (unfold zlen; lia). rewrite El.
      constructor; simpl; try done.
      - unfold zlen. by rewrite length_insert.
      - unfold zlen. by rewrite length_insert.
      - intros k s' d'. apply stored_snoc.
        + intros k' s1 d1 E1. destruct (Hst k' s1 d1 E1) as [A B].
          apply lookup_lt_Some in E1. rewrite !list_lookup_insert_ne by lia. done.
        + apply list_lookup_insert_eq. unfold zlen in *. lia.
        + apply list_lookup_insert_eq. unfold zlen in *. lia.
      - constructor; [done|lia|lia|lia].
      - rewrite paint_snoc, Hb. replace (i + 1 - (i + 1)) with 0 by lia. done.
      - exists l, i, 1. done. }
    destruct HI. destruct (bits_set w 1); by constructor.
  - simpl in Hlt. simpl.
    eexists _, l. split; [reflexivity|]. split; [|split; [simpl; lia|by destruct (bits_set w 1)]].
    assert (scan_inv (i + 1) (bs ++ [false])%list
      (mk_Scan (sc_length sc) (sc_start sc) (sc_duration sc) false (scope_event sc)
         (scope_start sc)) l) as HI.
    { constructor; simpl; try done.
      - apply (runs_mono l i); [done|lia].
      - rewrite paint_grow, Hb by (done || lia). done.
      - by replace (i + 1 - 1) with i by lia. }
    destruct HI. destruct (bits_set w 1); by constructor.
Qed.

Lemma fifo_stamp_tr i w : tr_line (fifo_stamp i w) = tr_line w.
Proof.
  unfold fifo_stamp. destruct (_ =? 0); [|done]. unfold tr_line.
  rewrite !(bits_set_testbit _ 1) by lia. rewrite Z.lor_spec.
  change (Z.testbit 132 1) with false. apply orb_false_r.
Qed.

Lemma rising_nonneg b l : 0 ≤ rising b l.
Proof.
  revert b. induction l as [|b l IH]; intros b0; simpl; [done|].
  specialize (IH b). destruct (b && negb b0); lia.
Qed.

Lemma scan_words_ok n i words sc bs l :
  scan_inv i bs sc l → 0 ≤ i → i + Z.of_nat n ≤ MAX_TIME_SEQ_LEN → (n ≤ length words)%nat →
  zlen l + rising (tr_event sc) (map tr_line (take n words)) < MAX_PULSES →
  ∃ words' sc' l', scan_words n i words sc = Some (words', sc') ∧
    scan_inv (i + Z.of_nat n) (bs ++ map tr_line (take n words))%list sc' l' ∧
    length words' = length words ∧ map tr_line words' = map tr_line words ∧
    zlen l' < MAX_PULSES ∧
    (∀ k w, words !! k = Some w →
       words' !! k = Some (if decide (k < n)%nat then fifo_stamp (i + Z.of_nat k) w else w)).
Proof.
  revert i words sc bs l. induction n as [|n IH]; intros i words sc bs l Hi H0 Hn Hl Hr.
  - exists words, sc, l. simpl in *. rewrite Z.add_0_r, app_nil_r. split_and!; try done; try lia; by destruct words.
  - destruct words as [|w words]; simpl in Hl; [lia|]. simpl in Hr |- *.
    assert (0 ≤ rising (tr_line w) (map tr_line (take n words))) as Hnn.
    { apply rising_nonneg. }
    destruct (scan_word_step i (fifo_stamp i w) sc bs l Hi) as (sc1 & l1 & E & Hi1 & Hz & Ht);
      [lia|rewrite fifo_stamp_tr; simpl; lia|].
    rewrite E. simpl. rewrite fifo_stamp_tr in *.
    destruct (IH (i + 1) words sc1 (bs ++ [tr_line w])%list l1 Hi1) as (ws & sc2 & l2 & E2 & Hi2 & Hln & Hm & Hlt & Hw);
      [lia|lia|lia|rewrite Ht, Hz; simpl; lia|].
    rewrite E2. simpl. exists (fifo_stamp i w :: ws), sc2, l2. split_and!; try done.
    + replace (i + Z.of_nat (S n)) with (i + 1 + Z.of_nat n) by lia.
      by rewrite <- app_assoc in Hi2.
    + simpl. by rewrite Hln.
    + simpl. by rewrite Hm, fifo_stamp_tr.
    + intros [|k] w0 Ek; simpl in *.
      * injection Ek as <-. by rewrite Z.add_0_r.
      * rewrite (Hw k w0 Ek). destruct (decide (k < n)%nat), (decide (S k < S n)%nat); try lia; try done.
        by replace (i + 1 + Z.of_nat k) with (i + Z.of_nat (S k)) by lia.
Qed.

(** ** Theorems: the merge *)

Lemma merge_words_overlay first q m :
  zlen q ≤ zlen m → merge_words first q m = Some (overlay first q m).
Proof.
  revert m. induction q as [|w q IH]; intros [|x m] H; try done.
  simpl. rewrite IH; [done|]. rewrite !zlen_cons in H. lia.
Qed.

Lemma length_overlay first q m : length (overlay first q m) = length m.
Proof.
  revert m. induction q as [|w q IH]; intros [|x m]; try done. simpl. by rewrite IH.
Qed.

Lemma overlay_lookup first q m j :
  overlay first q m !! j =
    (fun x => match q !! j with
              | Some w => if first then w else x |c w
              | None => x end) <$> m !! j.
Proof.
  revert m j. induction q as [|w q IH]; intros m j; simpl.
  - by destruct (m !! j).
  - destruct m as [|x m]; [done|]. destruct j as [|j]; simpl; [done|]. apply IH.
Qed.

Lemma length_merged i seqs m : length (merged i seqs m) = length m.
Proof.
  revert i m. induction seqs as [|q seqs IH]; intros i m; simpl; [done|].
  by rewrite IH, length_overlay.
Qed.

(** The clients after the first are or-ed in. *)
Lemma merged_rest i seqs m j :
  0 < i →
  merged i seqs m !! j =
    (fun x => fold_left (fun a q => a |c word j q) seqs x) <$> m !! j.
Proof.
  revert i m. induction seqs as [|q seqs IH]; intros i m Hi; simpl; [by destruct (m !! j)|].
  rewrite IH, overlay_lookup, (proj2 (Z.eqb_neq i 0)) by lia.
  destruct (m !! j) as [x|]; simpl; [|done].
  change (word j q) with (default 0 (q !! j)).
  destruct (q !! j); simpl; [done|]. by rewrite Z.lor_0_r.
Qed.

Lemma merge_client_run s i q :
  client_words s i q → zlen q ≤ zlen (master_buf s) →
  (p ← get_client i;
   sl ← get_dslot (radar p - 1) (channel p - 1);
   modify (fun s => if max_seq_count s <=? zlen (seq_buf sl)
                    then s <| max_seq_count := zlen (seq_buf sl) |> else s);;
   m ← gets master_buf;
   m ← deref OutOfBounds (merge_words (i =? 0) (seq_buf sl) m);
   modify (fun s => s <| master_buf := m |>)) s =
  Ok (tt, s <| max_seq_count := Z.max (zlen q) (max_seq_count s) |>
            <| master_buf := overlay (i =? 0) q (master_buf s) |>).
Proof.
  intros (p & sl & Ep & Es & <-) Hle. unfold get_client, get_dslot. mrun. rewrite Ep. mrun.
  unfold slot_at in Es. destruct (zget (slots_of s) (radar p - 1)) as [row|]; [|done].
  mrun. simpl in Es. rewrite Es. mrun.
  destruct (Z.leb_spec (max_seq_count s) (zlen (seq_buf sl))) as [H|H].
  - change (master_buf (s <| max_seq_count := _ |>)) with (master_buf s).
    rewrite merge_words_overlay by done. mrun. by rewrite Z.max_l by lia.
  - rewrite merge_words_overlay by done. mrun. rewrite Z.max_r by lia. by destruct s.
Qed.

Lemma merge_loop_run seqs : ∀ a s,
  (∀ k q, seqs !! k = Some q →
     client_words s (a + Z.of_nat k) q ∧ zlen q ≤ zlen (master_buf s)) →
  for_each (seqZ a (zlen seqs)) (fun i =>
    p ← get_client i;
    sl ← get_dslot (radar p - 1) (channel p - 1);
    modify (fun s => if max_seq_count s <=? zlen (seq_buf sl)
                     then s <| max_seq_count := zlen (seq_buf sl) |> else s);;
    m ← gets master_buf;
    m ← deref OutOfBounds (merge_words (i =? 0) (seq_buf sl) m);
    modify (fun s => s <| master_buf := m |>)) s =
  Ok (tt, s <| max_seq_count := foldl (fun n q => Z.max (zlen q) n) (max_seq_count s) seqs |>
            <| master_buf := merged a seqs (master_buf s) |>).
Proof.
  induction seqs as [|q seqs IH]; intros a s H.
  - simpl. by destruct s.
  - rewrite zlen_cons, seqZ_cons' by (pose proof (zlen_nonneg seqs); lia).
    replace (zlen seqs + 1 - 1) with (zlen seqs) by lia. cbn [for_each].
    destruct (H O q eq_refl) as [Hq Hle]. rewrite Z.add_0_r in Hq.
    rewrite (bind_ok _ _ _ _ _ (merge_client_run s a q Hq Hle)).
    rewrite IH; [done|]. intros k q' Ek. destruct (H (S k) q' Ek) as [Hc Hl].
    replace (a + 1 + Z.of_nat k) with (a + Z.of_nat (S k)) by lia. split.
    + destruct Hc as (p & sl & ?). by exists p, sl.
    + simpl. unfold zlen in *. by rewrite length_overlay.
Qed.

Lemma longest_foldl seqs n :
  0 ≤ n → foldl (fun n q => Z.max (zlen q) n) n seqs = Z.max n (longest seqs).
Proof.
  revert n. induction seqs as [|q seqs IH]; intros n Hn; simpl; [lia|].
  pose proof (zlen_nonneg q). rewrite IH by lia. lia.
Qed.

Lemma merge_clients_run s seqs :
  programmed s seqs →
  merge_clients s = Ok (tt, s <| max_seq_count := longest seqs |>
                             <| master_buf := merged 0 seqs (master_buf s) |>).
Proof.
  intros [Hn Hs]. unfold merge_clients. mrun.
  change (numclients (s <| max_seq_count := 0 |>)) with (numclients s). rewrite Hn.
  rewrite (merge_loop_run seqs 0 (s <| max_seq_count := 0 |>)).
  - change (max_seq_count (s <| max_seq_count := 0 |>)) with 0.
    rewrite longest_foldl by done.
    assert (0 ≤ longest seqs).
    { clear. induction seqs as [|q seqs IH]; simpl; [done|]. lia. }
    rewrite Z.max_r by done. done.
  - intros k q Ek. destruct (Hs k q Ek) as [(p & sl & ?) Hl]. split; [by exists p, sl|done].
Qed.

Lemma sequence_loop l : ∀ a acc s,
  (∀ k p, l !! k = Some p → zget (clients s) (a + Z.of_nat k) = Some p) →
  for_fold (seqZ a (zlen l)) (fun i id =>
    p ← get_client i;
    mret (id + ((radar p - 1) * 1000 + (channel p - 1) * 100 +
                current_pulseseq_index p + 1))) acc s =
  Ok (foldl (fun n p => n + client_id p) acc l, s).
Proof.
  induction l as [|p l IH]; intros a acc s H; [done|].
  rewrite zlen_cons, seqZ_cons' by (pose proof (zlen_nonneg l); lia).
  replace (zlen l + 1 - 1) with (zlen l) by lia. cbn [for_fold].
  pose proof (H O p eq_refl) as Hp. rewrite Z.add_0_r in Hp.
  assert (get_client a s = Ok (p, s)) as Eg by (unfold get_client; mrun; by rewrite Hp).
  rewrite bind_assoc, (bind_ok _ _ _ _ _ Eg), ret_then.
  rewrite IH; [done|]. intros k q Ek. specialize (H (S k) q Ek).
  by replace (a + 1 + Z.of_nat k) with (a + Z.of_nat (S k)) by lia.
Qed.

Lemma sequence_id_run s seqs :
  programmed s seqs → sequence_id s = Ok (ids s, s).
Proof.
  intros [Hn Hs]. unfold sequence_id, ids. mrun. rewrite Hn.
  assert (length seqs ≤ length (clients s))%nat as Hl.
  { destruct seqs as [|q seqs _] using rev_ind; [simpl; lia|].
    destruct (Hs (length seqs) q) as [(p & sl & Ep & _) _].
    { by rewrite lookup_app_r, Nat.sub_diag by lia. }
    rewrite zget_nat in Ep. apply lookup_lt_Some in Ep. rewrite length_app. simpl. lia. }
  unfold zlen. rewrite Nat2Z.id.
  rewrite <- (length_take_le (clients s) (length seqs) Hl) at 1.
  apply (sequence_loop (take (length seqs) (clients s)) 0 (-1) s).
  intros k p Ek. rewrite Z.add_0_l, zget_nat. by apply lookup_take_Some in Ek as [Ek _].
Qed.

(** ** Theorems: PRETRIGGER *)

Lemma set_trigger_run i bit s :
  0 ≤ max_seq_count s ≤ zlen (master_buf s) → tr_line bit = false →
  ∃ m, set_trigger i bit s = Ok (tt, s <| master_buf := m |>) ∧
    length m = length (master_buf s) ∧ map tr_line m = map tr_line (master_buf s).
Proof.
  intros Hn Hb. unfold set_trigger. mrun.
  destruct ((0 <=? i) && (i <? max_seq_count s)) eqn:E; mrun.
  - apply andb_true_iff in E as [H1%Z.leb_le H2%Z.ltb_lt].
    destruct (zget_range (master_buf s) i) as [w Ew]; [lia|]. rewrite Ew. mrun.
    rewrite zset_Some by lia. mrun. eexists. split; [reflexivity|].
    split; [by rewrite length_insert|].
    apply list_eq. intros k. rewrite !list_lookup_fmap.
    destruct (decide (k = Z.to_nat i)) as [->|Hne].
    + unfold zget in Ew. rewrite decide_True in Ew by lia. rewrite Ew.
      rewrite list_lookup_insert_eq by (by eapply lookup_lt_Some). simpl. f_equal.
      revert Hb. unfold tr_line. rewrite !(bits_set_testbit _ 1) by lia.
      rewrite Z.lor_spec. intros ->. apply orb_false_r.
    + by rewrite list_lookup_insert_ne.
  - exists (master_buf s). split; [by destruct s|done].
Qed.

(** The block of the times after a scan that stored the runs [l]. *)
Lemma stored_take (l : list (Z * Z)) (a b : list Z) :
  (∀ k s d, l !! k = Some (s, d) → a !! k = Some s ∧ b !! k = Some d) →
  take (length l) a = map fst l ∧ take (length l) b = map snd l.
Proof.
  intros H. split; apply list_eq; intros k; rewrite list_lookup_fmap;
    (destruct (decide (k < length l)%nat) as [Hk|Hk];
     [rewrite lookup_take_lt by done; destruct (lookup_lt_is_Some_2 _ _ Hk) as [[s d] E];
      rewrite E; destruct (H k s d E) as [Ha Hb]; rewrite ?Ha, ?Hb; done
     |rewrite lookup_take_ge by lia; by rewrite lookup_ge_None_2 by lia]).
Qed.

(** The fixed sizes of the blocks. *)
Definition blocks_ok (s : tdriver) : Prop :=
  zlen (master_buf s) ≤ MAX_TIME_SEQ_LEN ∧
  zlen (bt_start s) = MAX_PULSES ∧ zlen (bt_duration s) = MAX_PULSES.

(** The TR line of the merged sequence. *)
Definition merged_tr (s : tdriver) (seqs : list (list Z)) : list bool :=
  map tr_line (take (Z.to_nat (longest seqs)) (merged 0 seqs (master_buf s))).

Lemma stamp_and_scan_run s :
  blocks_ok s → 0 ≤ max_seq_count s ≤ zlen (master_buf s) →
  rising false (map tr_line (take (Z.to_nat (max_seq_count s)) (master_buf s))) < MAX_PULSES →
  ∃ runs m a b, stamp_and_scan s =
      Ok (tt, s <| master_buf := m |> <| bt_length := zlen runs |>
                <| bt_start := a |> <| bt_duration := b |>) ∧
    length m = length (master_buf s) ∧ map tr_line m = map tr_line (master_buf s) ∧
    zlen a = MAX_PULSES ∧ zlen b = MAX_PULSES ∧ zlen runs < MAX_PULSES ∧
    take (length runs) a = map fst runs ∧ take (length runs) b = map snd runs ∧
    runs_upto runs (max_seq_count s) ∧
    paint 0 runs (max_seq_count s) =
      map tr_line (take (Z.to_nat (max_seq_count s)) (master_buf s)).
Proof.
  intros (Hm & Ha & Hb) Hn Hr. unfold stamp_and_scan. mrun.
  destruct (scan_words_ok (Z.to_nat (max_seq_count s)) 0 (master_buf s)
    (mk_Scan 0 (bt_start s) (bt_duration s) false false (-1)) [] [])
    as (ws & sc & l & E & Hi & Hl & Htr & Hlt & _).
  - constructor; simpl; try done; constructor; lia.
  - lia.
  - lia.
  - unfold zlen in Hn. lia.
  - simpl. exact Hr.
  - rewrite E. mrun. rewrite Z2Nat.id, Z.add_0_l in Hi by lia. destruct Hi as [I1 I2 I3 I4 I5 I6 I7].
    set (s1 := set_field bt_duration _ _).
    match goal with |- context [set_trigger ?i 16384 ≫= _] =>
      destruct (set_trigger_run i 16384 s1) as (m1 & E1 & L1 & T1) end; [|done|].
    { change (max_seq_count s1) with (max_seq_count s). change (master_buf s1) with ws.
      unfold zlen in *. by rewrite Hl. }
    rewrite (bind_ok _ _ _ _ _ E1).
    match goal with |- context [set_trigger ?i 32768] =>
      destruct (set_trigger_run i 32768 (s1 <| master_buf := m1 |>)) as (m2 & E2 & L2 & T2) end;
      [|done|].
    { change (max_seq_count (s1 <| master_buf := m1 |>)) with (max_seq_count s).
      change (master_buf (s1 <| master_buf := m1 |>)) with m1.
      change (master_buf s1) with ws in L1. unfold zlen in *. by rewrite L1, Hl. }
    rewrite E2. change (master_buf (s1 <| master_buf := m1 |>)) with m1 in *.
    change (master_buf s1) with ws in *.
    pose proof (stored_take l _ _ I4) as [S1 S2].
    exists l, m2, (sc_start sc), (sc_duration sc). split_and!; try done; try congruence.
    + unfold s1. rewrite I1. by destruct s.
Qed.

Lemma longest_bound s seqs :
  programmed s seqs → 0 ≤ longest seqs ≤ zlen (master_buf s).
Proof.
  intros [_ H]. assert (∀ q, q ∈ seqs → zlen q ≤ zlen (master_buf s)) as Hq.
  { intros q [k Ek]%list_elem_of_lookup. by destruct (H k q Ek). }
  clear H. pose proof (zlen_nonneg (master_buf s)). induction seqs as [|q seqs IH]; simpl; [lia|].
  pose proof (Hq q ltac:(by left)). pose proof (zlen_nonneg q).
  assert (0 ≤ longest seqs ≤ zlen (master_buf s)); [|lia].
  apply IH. intros q' Hq'. apply Hq. by right.
Qed.

Lemma first_transfer_run s :
  first_transfer s =
    Ok (tt, s <| dma := [(0, if 16384 <? max_seq_count s then FIFOLVL + FIFOWIDTH + 2
                             else max_seq_count s)] |>
              <| dma_count := 1 |>
              <| xfercount := if 16384 <? max_seq_count s then FIFOLVL + FIFOWIDTH + 2
                              else max_seq_count s |>).
Proof. unfold first_transfer, DMAxfer. mrun. by destruct s. Qed.

Lemma send_words_run n l s :
  n ≤ zlen l → tr_words n l s = Ok (words_packet (take (Z.to_nat n) l), s).
Proof. intros H. unfold tr_words. by rewrite (proj2 (Z.leb_le _ _)). Qed.

(** The handler on a new set of sequences. *)
Lemma handle_pretrigger_run type s seqs :
  programmed s seqs → blocks_ok s → ids s ≠ old_seq_id s →
  rising false (merged_tr s seqs) < MAX_PULSES →
  ∃ runs s', handle_pretrigger type s =
      Ok ([PInt (zlen runs)] ++ words_packet (map fst runs) ++ words_packet (map snd runs) ++
          [PDriver type 0], s')%list ∧
    max_seq_count s' = longest seqs ∧ runs_upto runs (longest seqs) ∧
    paint 0 runs (longest seqs) = merged_tr s seqs ∧
    map tr_line (take (Z.to_nat (longest seqs)) (master_buf s')) = merged_tr s seqs.
Proof.
  intros Hp (Hm & Ha & Hb) Hid Hr. unfold handle_pretrigger.
  pose proof (longest_bound s seqs Hp) as Hlong.
  rewrite (bind_ok _ _ _ _ _ (sequence_id_run s seqs Hp)). mrun.
  set (s1 := s <| new_seq_id := ids s |>). change (old_seq_id s1) with (old_seq_id s).
  rewrite (proj2 (Z.eqb_neq _ _) Hid). mrun.
  assert (programmed s1 seqs) as Hp1 by exact Hp.
  rewrite (bind_ok _ _ _ _ _ (merge_clients_run s1 seqs Hp1)).
  set (s2 := set_field master_buf _ _).
  assert (zlen (master_buf s2) = zlen (master_buf s)) as Hz.
  { unfold zlen. change (master_buf s2) with (merged 0 seqs (master_buf s)).
    by rewrite length_merged. }
  destruct (stamp_and_scan_run s2) as (runs & m & a & b & E & L & T & Za & Zb & Hlt & S1 & S2 & R & P).
  { split; [by rewrite Hz|done]. }
  { rewrite Hz. exact Hlong. }
  { exact Hr. }
  rewrite (bind_ok _ _ _ _ _ E), (bind_ok _ _ _ _ _ (first_transfer_run _)). mrun.
  set (s3 := set_field new_seq_id _ _).
  change (bt_length s3) with (zlen runs). change (bt_start s3) with a.
  change (bt_duration s3) with b.
  rewrite (bind_ok _ _ _ _ _ (send_words_run (zlen runs) a s3 ltac:(lia))).
  rewrite (bind_ok _ _ _ _ _ (send_words_run (zlen runs) b s3 ltac:(lia))).
  unfold zlen at 2 3. rewrite Nat2Z.id, S1, S2.
  exists runs, s3. split; [done|]. split; [done|]. split; [exact R|].
  split; [exact P|]. change (master_buf s3) with m. by rewrite <- firstn_map, T, firstn_map.
Qed.

(** C15: PRETRIGGER for a new set of sequences returns the times the
    transmitters are on: runs of ticks in order, none empty, separated, whose
    painting on the length of the longest sequence is exactly the TR line of
    the master sequence, which is that of the merged words (the stamps and the
    trigger bits leave it alone). *)
Theorem pretrigger_report type s seqs :
  programmed s seqs → blocks_ok s → ids s ≠ old_seq_id s →
  rising false (merged_tr s seqs) < MAX_PULSES →
  ∃ runs s', handle_pretrigger type s =
      Ok ([PInt (zlen runs)] ++ words_packet (map fst runs) ++ words_packet (map snd runs) ++
          [PDriver type 0], s')%list ∧
    max_seq_count s' = longest seqs ∧ runs_upto runs (longest seqs) ∧
    paint 0 runs (longest seqs) = merged_tr s seqs ∧
    map tr_line (take (Z.to_nat (longest seqs)) (master_buf s')) = merged_tr s seqs.
Proof. intros Hp Hb Hid Hr. exact (handle_pretrigger_run type s seqs Hp Hb Hid Hr). Qed.

(** C18: When no sequence is longer than the first client's, the master the
    merge leaves is, tick by tick, the bitwise or of the ready clients'
    sequences. *)
Theorem merge_superposes s q0 rest :
  programmed s (q0 :: rest) → Forall (fun q => zlen q ≤ zlen q0) rest →
  ∃ s', merge_clients s = Ok (tt, s') ∧ max_seq_count s' = zlen q0 ∧
    ∀ j w, q0 !! j = Some w →
      master_buf s' !! j = Some (fold_left (fun a q => a |c word j q) rest w).
Proof.
  intros Hp Hf. eexists. split; [by apply merge_clients_run|]. split.
  - change (longest (q0 :: rest) = zlen q0). clear Hp. simpl.
    assert (longest rest ≤ zlen q0); [|lia].
    pose proof (zlen_nonneg q0). induction Hf; simpl; lia.
  - intros j w Ej.
    change (merged 0 (q0 :: rest) (master_buf s) !! j =
      Some (fold_left (fun a q => a |c word j q) rest w)). simpl.
    rewrite merged_rest, overlay_lookup, Ej by lia.
    destruct Hp as [_ H]. destruct (H O q0 eq_refl) as [_ Hl].
    apply lookup_lt_Some in Ej. unfold zlen in Hl.
    destruct (lookup_lt_is_Some_2 (master_buf s) j) as [x ->]; [lia|done].
Qed.

(** ** Theorems: READY *)

Lemma concat_replicate {A} (n k : nat) (l : list A) :
  concat (replicate n (concat (replicate k l))) = concat (replicate (k * n) l).
Proof.
  induction n as [|n IH]; simpl; [by rewrite Nat.mul_0_r|].
  rewrite IH, Nat.mul_succ_r, Nat.add_comm, replicate_add, concat_app. done.
Qed.

(** The unpacked words are the ticks of the sequence, each decoded and held
    for the ticks of a step. *)
Lemma unpack_ticks r c step codes reps :
  0 ≤ step → Forall (fun n => 0 ≤ n) reps →
  unpack r c step codes reps =
    concat (map (fun x => hold step (_decodestate r c x)) (ticks codes reps)).
Proof.
  intros Hs Hf. revert codes. induction Hf as [|n reps Hn _ IH]; intros [|x codes]; try done.
  change (ticks (x :: codes) (n :: reps)) with (hold n x ++ ticks codes reps)%list.
  simpl. rewrite map_app, concat_app, <- IH, map_hold. f_equal.
  generalize (_decodestate r c x). intros w. unfold hold.
  rewrite Z2Nat.inj_mul by lia.
  assert (∀ k (v : Z), replicate k v = concat (replicate k [v])) as Hc.
  { intros k v. induction k; simpl; congruence. }
  rewrite (Hc (Z.to_nat step * Z.to_nat n)%nat), <- concat_replicate. do 2 f_equal. symmetry. apply Hc.
Qed.

(** The table with slot [(r, c)] replaced. *)
Definition put_slot (r c : Z) (v : Slot) (l : list (list Slot)) : list (list Slot) :=
  alter (fun row => <[Z.to_nat c := v]> row) (Z.to_nat r) l.

Lemma zget_pos {A} (l : list A) i x : zget l i = Some x → 0 ≤ i ∧ l !! Z.to_nat i = Some x.
Proof. unfold zget. case_decide; [done|discriminate]. Qed.

Lemma zget_Some {A} (l : list A) i x : 0 ≤ i → l !! Z.to_nat i = Some x → zget l i = Some x.
Proof. intros. unfold zget. by rewrite decide_True. Qed.

Lemma slot_at_inv s r c sl :
  slot_at s r c = Some sl →
  ∃ row, 0 ≤ r ∧ 0 ≤ c ∧ slots_of s !! Z.to_nat r = Some row ∧ row !! Z.to_nat c = Some sl.
Proof.
  unfold slot_at. destruct (zget (slots_of s) r) as [row|] eqn:E; [|discriminate].
  intros E2. apply zget_pos in E as [? ?]. apply zget_pos in E2 as [? ?]. by exists row.
Qed.

Lemma get_dslot_run s r c sl : slot_at s r c = Some sl → get_dslot r c s = Ok (sl, s).
Proof.
  unfold slot_at, get_dslot. mrun. destruct (zget (slots_of s) r) as [row|]; [|discriminate].
  simpl. intros E. mrun. by rewrite E.
Qed.

Lemma set_dslot_run s r c sl v :
  slot_at s r c = Some sl →
  set_dslot r c v s = Ok (tt, s <| slots_of ::= put_slot r c v |>).
Proof.
  intros (row & Hr & Hc & E1 & E2)%slot_at_inv. unfold set_dslot. mrun.
  rewrite (zget_Some _ _ _ Hr E1). mrun.
  rewrite zset_Some by (apply lookup_lt_Some in E2; unfold zlen; lia). mrun.
  rewrite zset_Some by (apply lookup_lt_Some in E1; unfold zlen; lia). mrun.
  unfold modify, put_slot. do 2 f_equal. unfold set_field. simpl. f_equal.
  apply list_eq. intros k. destruct (decide (k = Z.to_nat r)) as [->|Hne].
  - rewrite list_lookup_alter_eq, E1, list_lookup_insert_eq; [done|]. by eapply lookup_lt_Some.
  - by rewrite list_lookup_alter_ne, list_lookup_insert_ne by done.
Qed.

Lemma slot_at_put s r c sl v r' c' :
  slot_at s r c = Some sl →
  slot_at (s <| slots_of ::= put_slot r c v |>) r' c' =
    if bool_decide (r' = r ∧ c' = c) then Some v else slot_at s r' c'.
Proof.
  intros (row & Hr & Hc & E1 & E2)%slot_at_inv.
  unfold slot_at. change (slots_of (s <| slots_of ::= put_slot r c v |>)) with
    (put_slot r c v (slots_of s)). unfold put_slot.
  destruct (bool_decide_reflect (r' = r ∧ c' = c)) as [[-> ->]|Hne].
  - rewrite (zget_Some _ r (<[Z.to_nat c := v]> row)); [|done|by rewrite list_lookup_alter_eq, E1].
    simpl. apply zget_Some; [done|]. apply list_lookup_insert_eq. by eapply lookup_lt_Some.
  - destruct (decide (0 ≤ r')) as [Hr'|Hr']; [|unfold zget; by rewrite !decide_False].
    destruct (decide (r' = r)) as [->|Hrr].
    + rewrite (zget_Some _ r (<[Z.to_nat c := v]> row)), (zget_Some (slots_of s) r row);
        [|done|done|done|by rewrite list_lookup_alter_eq, E1].
      simpl. unfold zget. case_decide; [|done].
      apply list_lookup_insert_ne. intros E. apply Hne. split; [done|]. lia.
    + unfold zget. rewrite list_lookup_alter_ne; [done|]. lia.
Qed.

(** The state READY leaves. *)
Lemma handle_ready_run type p s sl buf :
  let r := radar p - 1 in
  let c := channel p - 1 in
  let words := (hold 2 0 ++ concat (map (fun x => hold (ticks_per_step (seq_step buf))
                 (_decodestate r c x)) (ticks (seq_code buf) (seq_rep buf))))%list in
  slot_at s r c = Some sl → ready_index sl = -1 →
  zget (sl_seqs sl) (current_pulseseq_index p) = Some (Some buf) →
  seq_len buf = zlen (seq_code buf) → seq_len buf = zlen (seq_rep buf) →
  Forall (fun n => 0 ≤ n) (seq_rep buf) → 0 ≤ ticks_per_step (seq_step buf) →
  zlen words ≤ MAX_TIME_SEQ_LEN →
  zlen (clients s) = maxclients → 0 ≤ numclients s < maxclients - 1 →
  ∃ s' sl', handle_ready type p s = Ok ([PDriver type 0], s') ∧
    numclients s' = numclients s + 1 ∧
    clients s' = <[Z.to_nat (numclients s) := p]> (clients s) ∧
    slot_at s' r c = Some sl' ∧ seq_buf sl' = words ∧
    master_buf s' = master_buf s ∧ bt_start s' = bt_start s ∧
    bt_duration s' = bt_duration s ∧ old_seq_id s' = old_seq_id s.
Proof.
  intros r c words Hsl Hri Hseq Hl1 Hl2 Hrep Hstep Hfit Hcl Hn.
  assert (maxclients = 8) as Hmax by reflexivity.
  unfold handle_ready. fold r c. rewrite (bind_ok _ _ _ _ _ (get_dslot_run _ _ _ _ Hsl)).
  rewrite Hri. cbn [Z.leb Z.compare andb]. mrun.
  unfold set_client at 1. mrun. rewrite (zset_Some (clients s)) by lia. mrun.
  set (s1 := s <| clients := _ |>).
  assert (slot_at s1 r c = Some sl) as Hsl1 by exact Hsl.
  rewrite (bind_ok _ _ _ _ _ (set_dslot_run _ _ _ _ _ Hsl1)). mrun.
  set (sl1 := sl <| ready_index := numclients s |>).
  set (s2 := set_field numclients _ _).
  assert (slot_at s2 r c = Some sl1) as Hsl2.
  { change (slot_at s2 r c) with (slot_at (s1 <| slots_of ::= put_slot r c sl1 |>) r c).
    rewrite (slot_at_put _ _ _ _ _ _ _ Hsl1). by rewrite bool_decide_true. }
  rewrite (bind_ok _ _ _ _ _ (get_dslot_run _ _ _ _ Hsl2)).
  change (sl_seqs sl1) with (sl_seqs sl). rewrite Hseq. mrun.
  assert (unpack_seq r c buf s2 = Ok (words, s2)) as Eu.
  { unfold unpack_seq. rewrite <- Hl1, <- Hl2, Z.ltb_irrefl. cbn [orb].
    replace (take (Z.to_nat (seq_len buf)) (seq_code buf)) with (seq_code buf)
      by (rewrite take_ge; [done|]; rewrite Hl1; unfold zlen; lia).
    replace (take (Z.to_nat (seq_len buf)) (seq_rep buf)) with (seq_rep buf)
      by (rewrite take_ge; [done|]; rewrite Hl2; unfold zlen; lia).
    rewrite unpack_ticks by done.
    change (replicate (Z.to_nat (- offset_pad)) 0) with (hold 2 0).
    fold words. by rewrite (proj2 (Z.leb_le _ _) Hfit). }
  rewrite (bind_ok _ _ _ _ _ Eu).
  rewrite (bind_ok _ _ _ _ _ (set_dslot_run _ _ _ _ _ Hsl2)). mrun.
  change (numclients (s2 <| slots_of ::= _ |>)) with (numclients s + 1).
  rewrite (proj2 (Z.leb_gt _ _)) by lia.
  eexists _, (sl1 <| seq_buf := words |>). split; [reflexivity|].
  split; [change ((numclients s + 1) %c maxclients = numclients s + 1); apply Z.rem_small; lia|].
  split; [done|]. split; [|by destruct sl].
  match goal with |- slot_at ?s' r c = _ =>
    change (slot_at s' r c) with
      (slot_at (s2 <| slots_of ::= put_slot r c (sl1 <| seq_buf := words |>) |>) r c) end.
  rewrite (slot_at_put _ _ _ _ _ _ _ Hsl2). by rewrite bool_decide_true.
Qed.

(** C16: READY of a client with a registered sequence that fits: the client
    joins the ready set, and the words kept for its radar and channel are two
    ticks of padding and then every tick of its sequence, decoded for that
    radar and channel and held for the card ticks of a step. *)
Theorem ready_unpacks type p s sl buf :
  let r := radar p - 1 in
  let c := channel p - 1 in
  let words := (hold 2 0 ++ concat (map (fun x => hold (ticks_per_step (seq_step buf))
                 (_decodestate r c x)) (ticks (seq_code buf) (seq_rep buf))))%list in
  slot_at s r c = Some sl → ready_index sl = -1 →
  zget (sl_seqs sl) (current_pulseseq_index p) = Some (Some buf) →
  seq_len buf = zlen (seq_code buf) → seq_len buf = zlen (seq_rep buf) →
  Forall (fun n => 0 ≤ n) (seq_rep buf) → 0 ≤ ticks_per_step (seq_step buf) →
  zlen words ≤ MAX_TIME_SEQ_LEN →
  zlen (clients s) = maxclients → 0 ≤ numclients s < maxclients - 1 →
  ∃ s', handle_ready type p s = Ok ([PDriver type 0], s') ∧
    numclients s' = numclients s + 1 ∧ client_words s' (numclients s) words.
Proof.
  intros r c words Hsl Hri Hseq Hl1 Hl2 Hrep Hstep Hfit Hcl Hn.
  destruct (handle_ready_run type p s sl buf Hsl Hri Hseq Hl1 Hl2 Hrep Hstep Hfit Hcl Hn)
    as (s' & sl' & E & En & Ec & Es & Eb & _).
  exists s'. split; [done|]. split; [done|]. exists p, sl'. split; [|done].
  assert (maxclients = 8) as Hmax by reflexivity.
  rewrite Ec. apply zget_Some; [lia|]. apply list_lookup_insert_eq. unfold zlen in Hcl. lia.
Qed.

(** ** Theorems: the transfers to the card *)

(** [n] turns of the interrupt thread without an error flag. *)
Fixpoint int_turns (n : nat) : DM unit :=
  match n with
  | O => mret tt
  | S n => int_handler false;; int_turns n
  end.

(** Transfers one after the other that cover the words from 0 to [n], none
    larger than the FIFO of the card. *)
Inductive transfers : list (Z * Z) → Z → Prop :=
  | transfers_nil : transfers [] 0
  | transfers_snoc l a n :
      transfers l a → 0 ≤ n ≤ 16384 → transfers (l ++ [(a, n)]) (a + n).

(** What stays true of the thread's variables. *)
Definition feeding (s : tdriver) : Prop :=
  0 ≤ xfercount s ≤ max_seq_count s ∧ transfers (dma s) (xfercount s) ∧
  (writingFIFO s = false → xfercount s = max_seq_count s).

Lemma int_handler_step s :
  feeding s →
  ∃ s', int_handler false s = Ok (tt, s') ∧ feeding s' ∧
    max_seq_count s' = max_seq_count s ∧ master_buf s' = master_buf s ∧
    (writingFIFO s' = true →
     max_seq_count s' - xfercount s' = max_seq_count s - xfercount s - FIFOLVL).
Proof.
  intros Hf. pose proof Hf as (Hx & Ht & Hw). unfold int_handler. mrun.
  destruct (writingFIFO s) eqn:Ew; mrun; [|exists s; split_and!; try done; congruence].
  assert (FIFOLVL = 8000) as EF by reflexivity.
  destruct (Z.ltb_spec (xfercount s) (max_seq_count s)) as [Hlt|Hge].
  - set (n := if FIFOLVL <? _ then _ else _). unfold DMAxfer. mrun.
    set (s1 := set_field dma_count _ _).
    change (xfercount s1) with (xfercount s).
    set (s2 := s1 <| xfercount := _ |>).
    change (max_seq_count s2) with (max_seq_count s).
    change (xfercount s2) with (xfercount s + n).
    assert (0 ≤ n ≤ 8000 ∧ xfercount s + n ≤ max_seq_count s ∧
            (n < 8000 → xfercount s + n = max_seq_count s)) as (Hn & Hle & Hlast).
    { unfold n. destruct (Z.ltb_spec FIFOLVL (max_seq_count s - xfercount s)); lia. }
    assert (transfers (dma s2) (xfercount s + n)) as Ht2.
    { change (dma s2) with (dma s ++ [(xfercount s, n)])%list. constructor; [done|lia]. }
    destruct (Z.leb_spec (max_seq_count s) (xfercount s + n)) as [Hd|Hd]; mrun.
    + eexists. split; [reflexivity|]. split_and!; try done.
      split; [change (0 ≤ xfercount s + n ≤ max_seq_count s); lia|]. split; [exact Ht2|].
      intros _. change (xfercount s + n = max_seq_count s). lia.
    + exists s2. split; [reflexivity|]. split_and!; try done.
      * split; [change (0 ≤ xfercount s + n ≤ max_seq_count s); lia|]. split; [exact Ht2|].
        intros Ef. change (writingFIFO s = false) in Ef. congruence.
      * intros _. change (max_seq_count s - (xfercount s + n) =
          max_seq_count s - xfercount s - FIFOLVL).
        assert (¬ n < 8000) by (intros ?; lia). lia.
  - eexists. split; [reflexivity|]. split_and!; try done.
    split; [exact Hx|]. split; [exact Ht|]. intros _.
    change (xfercount s = max_seq_count s). lia.
Qed.

Lemma int_turns_ok n : ∀ s,
  feeding s → max_seq_count s - xfercount s < FIFOLVL * Z.of_nat n →
  ∃ s', int_turns n s = Ok (tt, s') ∧ feeding s' ∧ writingFIFO s' = false ∧
    max_seq_count s' = max_seq_count s ∧ master_buf s' = master_buf s.
Proof.
  induction n as [|n IH]; intros s Hf Hn; [destruct Hf; lia|].
  destruct (int_handler_step s Hf) as (s1 & E & Hf1 & Hm & Hb & Hw).
  simpl. rewrite (bind_ok _ _ _ _ _ E).
  destruct (writingFIFO s1) eqn:Ew.
  - specialize (Hw eq_refl). assert (FIFOLVL = 8000) by reflexivity.
    destruct (IH s1 Hf1 ltac:(lia)) as (s2 & ? & ? & ? & ? & ?).
    exists s2. split_and!; try done; congruence.
  - assert (∀ k, int_turns k s1 = Ok (tt, s1)) as Hk.
    { assert (int_handler false s1 = Ok (tt, s1)) as Eh
        by (unfold int_handler; mrun; by rewrite Ew).
      induction k as [|k IHk]; [done|]. cbn [int_turns]. by rewrite (bind_ok _ _ _ _ _ Eh). }
    exists s1. rewrite Hk. split_and!; try done.
Qed.

(** C17: After a PRETRIGGER and a TRIGGER, enough turns of the interrupt
    thread without an error flag end the transfers: they cover the whole
    master sequence, in order, without gap or repetition, and WAIT answers
    without an error. *)
Theorem card_gets_sequence type n s :
  0 ≤ max_seq_count s < FIFOLVL * Z.of_nat n →
  ∃ s', (first_transfer;; _ ← handle_trigger type; int_turns n) s = Ok (tt, s') ∧
    writingFIFO s' = false ∧ master_buf s' = master_buf s ∧
    transfers (dma s') (max_seq_count s) ∧
    handle_wait type false s' = Ok ([PDriver type 0], s').
Proof.
  intros Hn. rewrite (bind_ok _ _ _ _ _ (first_transfer_run s)).
  unfold handle_trigger. rewrite bind_assoc. mrun.
  set (s1 := set_field writingFIFO _ _).
  assert (feeding s1) as Hf.
  { unfold feeding. change (max_seq_count s1) with (max_seq_count s).
    set (x := if 16384 <? max_seq_count s then FIFOLVL + FIFOWIDTH + 2 else max_seq_count s).
    change (xfercount s1) with x. change (dma s1) with ([] ++ [(0, x)])%list.
    assert (0 ≤ x ≤ max_seq_count s ∧ x ≤ 16384) as [H1 H2].
    { unfold x. assert (FIFOLVL + FIFOWIDTH + 2 = 8003) as -> by reflexivity.
      destruct (Z.ltb_spec 16384 (max_seq_count s)); lia. }
    split; [done|]. split; [|done].
    replace (transfers ([] ++ [(0, x)]) x) with (transfers ([] ++ [(0, x)]) (0 + x)) by done.
    constructor; [constructor|lia]. }
  destruct (int_turns_ok n s1 Hf) as (s' & E & (Hx & Ht & Hw) & Hwf & Hm & Hb).
  { destruct Hf as (H1 & _). change (max_seq_count s1) with (max_seq_count s) in *. lia. }
  exists s'. rewrite E. specialize (Hw Hwf). rewrite Hw, Hm in Ht.
  split_and!; try done. unfold handle_wait. mrun. by rewrite Hw, Z.ltb_irrefl.
Qed.

(** ** Examples *)

(** The requests of a connection, in order; the replies are appended. *)
Fixpoint serve (l : list trequest) : DM (list packet) :=
  match l with
  | [] => mret []
  | q :: l => a ← handle q; b ← serve l; mret (a ++ b)%list
  end.

Definition after_requests (l : list trequest) (s : tdriver) : tdriver :=
  match serve l s with Ok (_, s') => s' | Fault _ => s end.

Definition client_of (ch index : Z) : ControlPRM :=
  prm0 <| radar := 1 |> <| channel := ch |> <| current_pulseseq_index := index |>.

(** Two sequences: a scope pulse and a TR pulse at different ticks. *)
Definition seq_a : TSGbuf := mk_TSGbuf 0 4 10 [128; 0; 2; 0] [1; 2; 3; 1].
Definition seq_b : TSGbuf := mk_TSGbuf 1 3 10 [0; 2; 0] [8; 1; 1].

Definition driver_start : tdriver :=
  tdriver0 prm0 (replicate 64 0) (replicate 100 0).

(** Both channels have both sequences. *)
Definition driver_registered : tdriver :=
  after_requests
    [RegisterSeq "+"%char (client_of 1 0) 0 seq_a;
     RegisterSeq "+"%char (client_of 1 0) 1 seq_b;
     RegisterSeq "+"%char (client_of 2 0) 0 seq_a;
     RegisterSeq "+"%char (client_of 2 0) 1 seq_b] driver_start.

Definition ready_pair (i j : Z) : list trequest :=
  [ClientReady "1"%char (client_of 1 i); ClientReady "1"%char (client_of 2 j)].

Definition driver_ready_pair : tdriver := after_requests (ready_pair 1 0) driver_registered.

Definition pair_words (s : tdriver) : list (list Z) :=
  match slots_of s with
  | (a :: b :: _) :: _ => [seq_buf a; seq_buf b]
  | _ => []
  end.

Definition round (s : tdriver) : list trequest :=
  [Pretrigger "3"%char; Posttrigger "5"%char 0].

Lemma example_programmed : programmed driver_ready_pair (pair_words driver_ready_pair).
Proof.
  split; [vm_compute; reflexivity|]. intros k q Ek.
  destruct k as [|[|k]]; vm_compute in Ek; [| |destruct k; discriminate Ek];
    injection Ek as <-; (split; [|vm_compute; congruence]); do 2 eexists;
    (split; [vm_compute; reflexivity|]); split; vm_compute; reflexivity.
Qed.

Lemma pretrigger_report_witness :
  ∃ runs s', handle_pretrigger "3"%char driver_ready_pair =
    Ok ([PInt (zlen runs)] ++ words_packet (map fst runs) ++ words_packet (map snd runs) ++
        [PDriver "3"%char 0], s')%list ∧ runs = [(8, 6); (18, 2)].
Proof.
  destruct (pretrigger_report "3"%char driver_ready_pair _ example_programmed)
    as (runs & s' & E & _).
  - split; [vm_compute; congruence|split; vm_compute; reflexivity].
  - vm_compute. congruence.
  - vm_compute. reflexivity.
  - exists runs, s'. split; [exact E|]. destruct runs as [|[a b] [|[c d] [|? ?]]];
      vm_compute in E; try discriminate. by injection E as <- <- <- <-.
Defined.

Lemma merge_superposes_witness : ∃ s',
  merge_clients driver_ready_pair = Ok (tt, s') ∧ max_seq_count s' = 22.
Proof.
  destruct (merge_superposes driver_ready_pair (nth 0 (pair_words driver_ready_pair) [])
    [nth 1 (pair_words driver_ready_pair) []]) as (s' & E & H & _).
  - exact example_programmed.
  - constructor; [vm_compute; congruence|constructor].
  - exists s'. split; [exact E|]. rewrite H. reflexivity.
Defined.

Lemma ready_unpacks_witness : ∃ s',
  handle_ready "1"%char (client_of 1 0) driver_registered =
    Ok ([PDriver "1"%char 0], s') ∧ numclients s' = 1.
Proof.
  destruct (ready_unpacks "1"%char (client_of 1 0) driver_registered
    (slot0 <| sl_seqs := [Some seq_a; Some seq_b; None; None] |>) seq_a)
    as (s' & E & H & _); try (vm_compute; reflexivity).
  - repeat constructor; lia.
  - vm_compute. congruence.
  - vm_compute. congruence.
  - vm_compute. split; congruence.
  - exists s'. split; [exact E|exact H].
Defined.

Lemma card_gets_sequence_witness : ∃ s',
  (first_transfer;; _ ← handle_trigger "4"%char; int_turns 3)
    (driver_start <| max_seq_count := 20000 |>) = Ok (tt, s') ∧
  dma s' = [(0, 8003); (8003, 8000); (16003, 3997)].
Proof.
  destruct (card_gets_sequence "4"%char 3 (driver_start <| max_seq_count := 20000 |>))
    as (s' & E & _).
  - change (0 ≤ 20000 < 8000 * 3). lia.
  - exists s'. split; [exact E|]. vm_compute in E. by injection E as <-.
Defined.

(** ** What the model shows of the driver *)

(** The bits of a word that name a radar and channel are not its own: the
    second channel of the first radar and the first channel of the second
    have the same. *)
Lemma channel_bits_collide x : _decodestate 0 1 x = _decodestate 1 0 x.
Proof. done. Qed.

(** The TR bit of the fourth channel is the trigger bit of the receivers. *)
Lemma tr_bit_is_trigger_bit : bits_set (_decodestate 0 3 2) 32768 = true.
Proof. reflexivity. Qed.

(** The identification adds up: two channels that exchange their sequences have
    the same, and the master of the old pair is sent to the card again. *)
Example exchanged_sequences_replayed :
  let s1 := after_requests (ready_pair 1 0 ++ round driver_start) driver_registered in
  let s2 := after_requests (ready_pair 0 1) s1 in
  ids s2 = old_seq_id s2 ∧
  max_seq_count (after_requests [Pretrigger "3"%char] s2) = 22 ∧
  master_buf (after_requests [Pretrigger "3"%char] s2) = master_buf s1 ∧
  master_buf (after_requests [ClientEnd; Pretrigger "3"%char] s2) ≠ master_buf s1.
Proof. vm_compute. split_and!; congruence. Qed.

(** A first sequence shorter than the second is merged into what the master
    held before: the end of an earlier sequence is sent again. *)
Example stale_tail :
  let s1 := after_requests [ClientReady "1"%char (client_of 1 1); Pretrigger "3"%char;
    Posttrigger "5"%char 0; ClientReady "1"%char (client_of 1 0);
    ClientReady "1"%char (client_of 2 1); Pretrigger "3"%char] driver_registered in
  let s2 := after_requests [ClientReady "1"%char (client_of 1 0);
    ClientReady "1"%char (client_of 2 1); Pretrigger "3"%char] driver_registered in
  master_buf s1 ≠ master_buf s2.
Proof. vm_compute. congruence. Qed.

(** When all eight radar channels are ready the count wraps to zero, and the
    master sequence is empty. *)
Example eight_clients_none :
  let all := flat_map (fun r => map (fun c => prm0 <| radar := r |> <| channel := c |>)
                                    [1; 2; 3; 4]) [1; 2] in
  let s := after_requests (map (fun p => RegisterSeq "+"%char p 0 seq_a) all ++
                           map (ClientReady "1"%char) all) driver_start in
  numclients s = 0 ∧ max_seq_count (after_requests [Pretrigger "3"%char] s) = 0.
Proof. vm_compute. split; reflexivity. Qed.
