(* ===== verification/Dio.v ===== *)
(** * Dio: the driver of the digital I/O card (src/ros6/dio_tcp_driver)

    The beam code and card address of a radar, the status of its transmitters
    and the settings of the receiver front end go through the ports of the
    card.  [ports] holds the byte last written to each port; what a port reads
    back is the parameter [card] of the development, a function of the bytes
    written, with the two hypotheses the properties that read need: an output
    port returns what was written ([latches]) and the status port returns its
    own address nibble with the inputs of the addressed transmitter
    ([transmitters]).  The QNX branches are modelled, with DEVICE_ID 0x0c78,
    [configured] 1, [IMAGING] 0 and [TX_BEAM_PRIORITY] 1.  A request carries
    what the handler reads from the socket. *)

From Stdlib Require Import ZArith Lia Ascii String.
From stdpp Require Import base list gmap.
From S2P Require Import Prelude Binary64 Types Registry Tsg TimingDriver.
Open Scope Z_scope.
Open Scope cvr_scope.

(** ** plx_defines.h *)

Definition MAX_BEAM : Z := 23.

Definition PA_GRP_0 : Z := 0.
Definition PB_GRP_0 : Z := 1.
Definition PC_GRP_0 : Z := 2.
Definition PA_GRP_1 : Z := 4.
Definition PB_GRP_1 : Z := 5.
Definition PC_GRP_1 : Z := 6.
Definition PA_GRP_2 : Z := 8.
Definition PB_GRP_2 : Z := 9.
Definition PC_GRP_2 : Z := 10.
Definition PA_GRP_3 : Z := 12.
Definition PB_GRP_3 : Z := 13.
Definition PC_GRP_3 : Z := 14.
Definition PA_GRP_4 : Z := 16.
Definition PB_GRP_4 : Z := 17.
Definition PC_GRP_4 : Z := 18.
Definition CNTRL_GRP_0 : Z := 3.
Definition CNTRL_GRP_1 : Z := 7.
Definition CNTRL_GRP_2 : Z := 11.
Definition CNTRL_GRP_3 : Z := 15.
Definition CNTRL_GRP_4 : Z := 19.

(** ** State *)

(** The part of a radar's beam table the driver looks up. *)
Record BeamTable := mk_BeamTable {
  freqs : option (list double);
  num_freqs : Z;
  num_std_angles : Z;
  std_angle_index_offset : Z
}.

Record dio := mk_dio {
  ports : gmap Z Z;
  tables : list BeamTable;
  dio_clients : list ControlPRM;
  dio_numclients : Z;
  dio_ready : list (list Z);
  dio_ifmode : Z;
  rf_addr : Z;
  if_addr : Z;
  dio_tx : tx_status
}.

#[export] Instance eta_dio : Eta dio := fun r =>
  mk_dio (ports r) (tables r) (dio_clients r) (dio_numclients r) (dio_ready r)
    (dio_ifmode r) (rf_addr r) (if_addr r) (dio_tx r).

Abbreviation IOM := (M dio).

(** ** Pure parts *)

(** [_rxfe_commands.c]: the address of the front end's EEPROM. *)
Definition build_RXFE_EEPROM_address (s : RXFESettings) : Z :=
  let sub (b : bool) n c := if b then c - n else c in
  let add (b : bool) n c := if b then c + n else c in
  add (rx_ifmode s =? 1) 32
    (add (amp3 s =? 1) 128 (add (amp2 s =? 1) 64 (add (amp1 s =? 1) 16
      (sub (att4 s =? 1) 8 (sub (att3 s =? 1) 4 (sub (att2 s =? 1) 2
        (sub (att1 s =? 1) 1 15))))))).

(** [_select_beam.c]: the beam code with its 13 bits reversed. *)
Definition reverse_bits (data : Z) : Z :=
  ((data &c 1) <<c 12) + ((data &c 2) <<c 10) + ((data &c 4) <<c 8) +
  ((data &c 8) <<c 6) + ((data &c 16) <<c 4) + ((data &c 32) <<c 2) +
  ((data &c 64) <<c 0) + ((data &c 128) >>c 2) + ((data &c 256) >>c 4) +
  ((data &c 512) >>c 6) + ((data &c 1024) >>c 8) + ((data &c 2048) >>c 10) +
  ((data &c 4096) >>c 12).

(** The C [int] of a [double] index, clamped to a table of [n] entries. *)
Definition clamp_index (i n : Z) : Z :=
  let i := if n <=? i then n - 1 else i in if i <? 0 then 0 else i.

(** [lookup_beamnm] with the beam number as an [int]; the frequency steps are
    taken from the first two entries of the table. *)
Definition lookup_beamnm (r : Z) (f : double) (beamnm : Z) : IOM Z :=
  l ← gets tables;
  t ← deref OutOfBounds (zget l r);
  match freqs t with
  | None => mret 0
  | Some fs =>
      f1 ← deref OutOfBounds (zget fs 1);
      f0 ← deref OutOfBounds (zget fs 0);
      let df := dsub f1 f0 in
      let fi := d_to_int (ddiv (d_of_int (d_to_int (dsub f f0))) df) in
      mret (clamp_index beamnm (num_std_angles t) + clamp_index fi (num_freqs t) * num_freqs t +
            std_angle_index_offset t)
  end.

Section Dio.
Context (card : gmap Z Z → Z → Z).

Definition out8 (port v : Z) : IOM unit :=
  modify (fun s => s <| ports ::= <[port := u8 v]> |>).

Definition in8 (port : Z) : IOM Z := gets (fun s => card (ports s) port).

(** [_select_beam.c]: the beam code of the client on its radar's ports. *)
Definition _select_beam (p : ControlPRM) : IOM Z :=
  let beamnm := if (MAX_BEAM <? tbeam p) || (tbeam p <? 0) then 0 else tbeam p in
  _ ← lookup_beamnm (radar p - 1) (dmul (d_of_int (tfreq p)) (d_of_int 1000)) beamnm;
  let code := reverse_bits beamnm in
  if (8192 <? code) || (code <? 0) then mret (-1) else
  '(portA, portB) ← (if radar p =? 1 then mret (PA_GRP_0, PB_GRP_0)
                     else if radar p =? 2 then mret (PA_GRP_2, PB_GRP_2)
                     else fail OutOfBounds);
  out8 portA (code &c 255);;
  out8 portB ((code &c 7936) >>c 8);;
  b ← in8 portB;
  a ← in8 portA;
  mret (if ((b &c 31) <<c 8) + a =? code then 0 else -1).

(** [_select_card.c]. *)
Definition _select_card (p : ControlPRM) : IOM Z :=
  let portC := if radar p =? 2 then PC_GRP_2 else PC_GRP_0 in
  let address := tbeam p in
  if (31 <? address) || (address <? 0) then mret (-1) else
  let address := (address <<c 1) &c 62 in
  t ← in8 portC;
  let address := address + (t &c 193) in
  out8 portC address;;
  t ← in8 portC;
  mret (if t =? address then 0 else -1).

(** [_get_status.c]: the address of a transmitter on the status port. *)
Definition status_port (radar : Z) : Z := if radar =? 2 then PC_GRP_3 else PC_GRP_1.

Definition _select_tx (radar address : Z) : IOM Z :=
  if (MAX_RADARS <? radar) || (radar <=? 0) then mret (-1)
  else if (MAX_TRANSMITTERS <=? address) || (address <? 0) then mret (-1)
  else
    let portC := status_port radar in
    t ← in8 portC;
    out8 portC ((address <<c 4) + (t &c 15));;
    t ← in8 portC;
    mret (if (t >>c 4) &c 15 =? address then 0 else -2).

(** One entry of the three arrays of [txstatus]. *)
Definition set_tx (i v agc low : Z) : IOM unit :=
  t ← gets dio_tx;
  a ← deref OutOfBounds (zset (tx_stat t) i v);
  b ← deref OutOfBounds (zset (AGC t) i agc);
  c ← deref OutOfBounds (zset (LOWPWR t) i low);
  modify (fun s => s <| dio_tx := mk_tx_status c b a |>).

Definition _get_status (radar : Z) : IOM Z :=
  if (MAX_RADARS <? radar) || (radar <=? 0) then mret (-1)
  else
    for_fold (seqZ 0 MAX_TRANSMITTERS) (fun i status =>
      ok ← _select_tx radar i;
      if ok =? 0 then
        t ← in8 (status_port radar);
        set_tx i (t &c 15) ((t &c 4) >>c 2) ((t &c 2) >>c 1);;
        mret status
      else mret (-1)) 0.

Definition set_RXFE_EEPROM_address (address : Z) : IOM unit := out8 PB_GRP_4 address.

(** ** Requests *)

Inductive dio_request :=
  | DioReady (type : ascii) (client : ControlPRM)
  | DioTxStatus (type : ascii) (radar : Z)
  | DioPretrigger (type : ascii)
  | DioClrfreq (type : ascii) (client : ControlPRM)
  | DioRxfeReset (type : ascii)
  | DioRxfeSettings (type : ascii) (status : Z) (ifmode : Z) (rf_s if_s : RXFESettings)
  | DioBadCode.

(** Entry [(r, c)] of [ready_index], and its update. *)
Definition get_ready (r c : Z) : IOM Z :=
  l ← gets dio_ready; row ← deref OutOfBounds (zget l r); deref OutOfBounds (zget row c).

Definition set_ready (r c v : Z) : IOM unit :=
  l ← gets dio_ready;
  row ← deref OutOfBounds (zget l r);
  row ← deref OutOfBounds (zset row c v);
  l ← deref OutOfBounds (zset l r row);
  modify (fun s => s <| dio_ready := l |>).

Definition set_dio_client (i : Z) (p : ControlPRM) : IOM unit :=
  l ← gets dio_clients; l ← deref OutOfBounds (zset l i p);
  modify (fun s => s <| dio_clients := l |>).

(** DIO_CtrlProg_READY. *)
Definition dio_ready_client (type : ascii) (p : ControlPRM) : IOM (list packet) :=
  let r := radar p - 1 in
  let c := channel p - 1 in
  k ← get_ready r c;
  (if (0 <=? k) && (k <? maxclients) then set_dio_client k p
   else
     n ← gets dio_numclients;
     set_dio_client n p;;
     set_ready r c n;;
     modify (fun s => s <| dio_numclients := n + 1 |>));;
  modify (fun s => s <| dio_numclients ::= fun n => n %c maxclients |>);;
  mret [PDriver type 1].

Definition dio_tx_status (type : ascii) (radar : Z) : IOM (list packet) :=
  st ← _get_status radar;
  t ← gets dio_tx;
  mret [PTx t; PDriver type st].

(** Lines 337-348: the first ready client of radar [r] of the least priority
    value; [maxclients + 1] when there is none. *)
Definition best_client (r : Z) : IOM Z :=
  n ← gets dio_numclients;
  l ← gets dio_clients;
  for_fold (seqZ 0 n) (fun i best =>
    p ← deref OutOfBounds (zget l i);
    if radar p =? r then
      if maxclients <=? best then mret i
      else
        q ← deref OutOfBounds (zget l best);
        mret (if priority p <? priority q then i else best)
    else mret best) (maxclients + 1).

(** Lines 367-372. *)
Definition clear_ready : IOM unit :=
  modify (fun s => s <| dio_ready ::= map (map (fun _ => -1)) |>);;
  modify (fun s => s <| dio_numclients := 0 |>).

(** DIO_PRETRIGGER: the beam of the best client of every radar. *)
Definition dio_pretrigger (type : ascii) : IOM (list packet) :=
  for_each (seqZ 1 MAX_RADARS) (fun r =>
    best ← best_client r;
    if best <? maxclients then
      l ← gets dio_clients;
      p ← deref OutOfBounds (zget l best);
      _ ← _select_card p;
      _ ← _select_beam p;
      mret tt
    else mret tt);;
  clear_ready;;
  mret [PDriver type 1].

(** DIO_CLRFREQ, DIO_RXFE_RESET and DIO_RXFE_SETTINGS. *)
Definition dio_clrfreq (type : ascii) (p : ControlPRM) : IOM (list packet) :=
  _ ← _select_card p;
  _ ← _select_beam p;
  s ← get_st;
  when (negb (dio_ifmode s =? 0)) (set_RXFE_EEPROM_address (rf_addr s));;
  mret [PDriver type 1].

Definition front_end : IOM unit :=
  s ← get_st;
  set_RXFE_EEPROM_address (if negb (dio_ifmode s =? 0) then if_addr s else rf_addr s).

Definition dio_rxfe_reset (type : ascii) : IOM (list packet) :=
  front_end;; mret [PDriver type 1].

Definition dio_rxfe_configure (type : ascii) (status ifmode : Z)
    (rf_s if_s : RXFESettings) : IOM (list packet) :=
  modify (fun s => s <| dio_ifmode := u32 ifmode |>);;
  modify (fun s => s <| rf_addr := u8 (build_RXFE_EEPROM_address rf_s) |>);;
  modify (fun s => s <| if_addr := u8 (build_RXFE_EEPROM_address if_s) |>);;
  front_end;;
  mret [PDriver type status].

(** The [switch] of main. *)
Definition dio_handle (q : dio_request) : IOM (list packet) :=
  match q with
  | DioReady t p => dio_ready_client t p
  | DioTxStatus t r => dio_tx_status t r
  | DioPretrigger t => dio_pretrigger t
  | DioClrfreq t p => dio_clrfreq t p
  | DioRxfeReset t => dio_rxfe_reset t
  | DioRxfeSettings t st m rf_s if_s => dio_rxfe_configure t st m rf_s if_s
  | DioBadCode => mret []
  end.

End Dio.

(** main before the first connection: the default front-end settings. *)
Definition default_rxfe (ifmode : Z) : RXFESettings := mk_RXFESettings ifmode 0 0 0 1 1 1 1.

Definition dio0 (t : list BeamTable) (junk : ControlPRM) : dio :=
  mk_dio ∅ t (replicate 8 junk) 0 (replicate 2 (replicate 4 (-1))) IF_ENABLED
    (u8 (build_RXFE_EEPROM_address (default_rxfe 0)))
    (u8 (build_RXFE_EEPROM_address (default_rxfe 1)))
    (mk_tx_status (replicate 16 1) (replicate 16 1) (replicate 16 15)).

(** The configuration of the card at start-up. *)
Definition dio_configure : IOM unit :=
  for_each [(CNTRL_GRP_0, 128); (CNTRL_GRP_1, 147); (PA_GRP_0, 0); (PB_GRP_0, 0);
            (PC_GRP_0, 0); (PA_GRP_1, 0); (PB_GRP_1, 0); (CNTRL_GRP_2, 128);
            (CNTRL_GRP_3, 147); (PA_GRP_2, 0); (PB_GRP_2, 0); (PC_GRP_2, 0);
            (PA_GRP_3, 0); (PB_GRP_3, 0); (CNTRL_GRP_4, 128); (PC_GRP_4, 0);
            (PA_GRP_4, 0); (PB_GRP_4, 255)] (fun w => out8 w.1 w.2);;
  front_end.

(** ** Specifications *)

(** The documented behaviour of the card: a port configured as output reads
    what was written to it; the high half of a status port is output, its low
    half the inputs of the transmitter [input radar address]. *)
Definition latches (card : gmap Z Z → Z → Z) (port : Z) : Prop :=
  ∀ m v, 0 ≤ v < 256 → card (<[port := v]> m) port = v.

Definition transmitters (card : gmap Z Z → Z → Z) (port : Z) (input : Z → Z) : Prop :=
  ∀ m, card m port = (default 0 (m !! port) &c 240) |c (input (default 0 (m !! port) >>c 4) &c 15).

(** The ports of a radar and the beam a receiver of the code reads off them. *)
Definition beam_port_a (r : Z) : Z := if r =? 1 then PA_GRP_0 else PA_GRP_2.
Definition beam_port_b (r : Z) : Z := if r =? 1 then PB_GRP_0 else PB_GRP_2.

Definition beam_on (m : gmap Z Z) (r : Z) : Z :=
  reverse_bits (default 0 (m !! beam_port_b r) * 256 + default 0 (m !! beam_port_a r)).

Definition beam_of (p : ControlPRM) : Z :=
  if (MAX_BEAM <? tbeam p) || (tbeam p <? 0) then 0 else tbeam p.

(** No client of radar [r] is among the first [n]; index [i] is the first of
    them of the least priority value. *)
Definition none_ready (l : list ControlPRM) (n r : Z) : Prop :=
  ∀ j q, j < n → zget l j = Some q → radar q ≠ r.

Definition is_best_ready (l : list ControlPRM) (n r i : Z) : Prop :=
  ∃ p, i < n ∧ zget l i = Some p ∧ radar p = r ∧
    ∀ j q, j < n → zget l j = Some q → radar q = r →
      priority p ≤ priority q ∧ (priority q = priority p → i ≤ j).

(** The table of each radar, when there is one, has two frequencies. *)
Definition tables_ok (s : dio) : Prop :=
  zlen (tables s) = MAX_RADARS ∧
  ∀ r t, zget (tables s) r = Some t → ∀ fs, freqs t = Some fs → 2 ≤ zlen fs.

(** The driver's arrays have their declared sizes; at every request the number
    of ready clients is an index of the client table. *)
Definition dio_arrays (s : dio) : Prop :=
  tables_ok s ∧ zlen (dio_clients s) = maxclients ∧
  zlen (dio_ready s) = MAX_RADARS ∧ Forall (fun row => zlen row = MAX_CHANNELS) (dio_ready s) ∧
  zlen (tx_stat (dio_tx s)) = MAX_TRANSMITTERS ∧ zlen (AGC (dio_tx s)) = MAX_TRANSMITTERS ∧
  zlen (LOWPWR (dio_tx s)) = MAX_TRANSMITTERS.

Definition dio_ok (s : dio) : Prop := dio_arrays s ∧ 0 ≤ dio_numclients s < maxclients.

(** [m'] carries the beam of the best ready client of radar [r], or that of [m]
    when the radar has none. *)
Definition radar_beam (s : dio) (m m' : gmap Z Z) (r : Z) : Prop :=
  (∃ i p, is_best_ready (dio_clients s) (dio_numclients s) r i ∧
     zget (dio_clients s) i = Some p ∧ beam_on m' r = beam_of p) ∨
  (none_ready (dio_clients s) (dio_numclients s) r ∧ beam_on m' r = beam_on m r).

(** ** Theorems: the pure parts *)

Lemma beam_code_split b :
  0 ≤ b < 24 →
  let c := reverse_bits b in
  reverse_bits (u8 ((c &c 7936) >>c 8) * 256 + u8 (c &c 255)) = b ∧ 0 ≤ c ≤ 8192.
Proof.
  intros Hb c. assert (forallb (fun b => let c := reverse_bits b in
    (reverse_bits (u8 ((c &c 7936) >>c 8) * 256 + u8 (c &c 255)) =? b) &&
    (0 <=? c) && (c <=? 8192)) (seqZ 0 24) = true) as H by (vm_compute; reflexivity).
  apply (forallb_seqZ _ _ _ H) in Hb. fold c in Hb.
  apply andb_true_iff in Hb as [[H1 H2]%andb_true_iff H3]. split; lia.
Qed.

Lemma beam_of_range p : 0 ≤ beam_of p < 24.
Proof.
  unfold beam_of, MAX_BEAM. destruct (Z.ltb_spec 23 (tbeam p)), (Z.ltb_spec (tbeam p) 0);
    simpl; lia.
Qed.

(** The eight lines of the front end: an attenuator switches its line off, an
    amplifier or the IF mode switches theirs on. *)
Definition front_end_lines (s : RXFESettings) : list bool :=
  [negb (att1 s =? 1); negb (att2 s =? 1); negb (att3 s =? 1); negb (att4 s =? 1);
   amp1 s =? 1; rx_ifmode s =? 1; amp2 s =? 1; amp3 s =? 1].

Definition lines_on (v : Z) : list bool := map (Z.testbit v) [0; 1; 2; 3; 4; 5; 6; 7].

Lemma rxfe_address_bits s :
  0 ≤ build_RXFE_EEPROM_address s < 256 ∧
  lines_on (build_RXFE_EEPROM_address s) = front_end_lines s.
Proof.
  unfold build_RXFE_EEPROM_address, front_end_lines.
  destruct (att1 s =? 1), (att2 s =? 1), (att3 s =? 1), (att4 s =? 1), (amp1 s =? 1),
    (amp2 s =? 1), (amp3 s =? 1), (rx_ifmode s =? 1); simpl; (split; [lia|reflexivity]).
Qed.

(** Case analysis of the numbers that start with the bits of [x], by evaluation. *)
Fixpoint all_bits (n : nat) (f : Z → bool) (x : Z) : bool :=
  match n with
  | O => f x
  | S n => all_bits n f (2 * x) && all_bits n f (2 * x + 1)
  end.

Lemma all_bits_spec n f x y :
  all_bits n f x = true → x * 2 ^ Z.of_nat n ≤ y < (x + 1) * 2 ^ Z.of_nat n → f y = true.
Proof.
  revert x. induction n as [|n IH]; intros x; cbn [all_bits].
  - intros Hf Hy. by replace y with x by (simpl in Hy; lia).
  - intros [H1 H2]%andb_true_iff Hy. rewrite Nat2Z.inj_succ, Z.pow_succ_r in Hy by lia.
    destruct (Z_lt_dec y ((2 * x + 1) * 2 ^ Z.of_nat n)).
    + apply (IH (2 * x)); [done|]. lia.
    + apply (IH (2 * x + 1)); [done|]. lia.
Qed.

(** The beam code of the broadcast bus: reversing the 13 bits twice gives
    the code back, so two beams never share a code. *)
Theorem reverse_bits_involutive x :
  0 ≤ x < 8192 → reverse_bits (reverse_bits x) = x.
Proof.
  intros Hx. assert (all_bits 13 (fun x => reverse_bits (reverse_bits x) =? x) 0 = true)
    as H by (vm_compute; reflexivity).
  by apply Z.eqb_eq, (all_bits_spec _ _ _ x H).
Qed.

(** ** Theorems: the ready clients *)

Section Driver.
Context (card : gmap Z Z → Z → Z).

(** Client [k] against the best of the clients before it. *)
Lemma best_next r l k p best (s : dio) :
  0 ≤ k → k < maxclients → zget l k = Some p →
  ((best = maxclients + 1 ∧ none_ready l k r) ∨
   (best < maxclients ∧ is_best_ready l k r best)) →
  wp (if radar p =? r then
        if maxclients <=? best then mret k
        else q ← deref OutOfBounds (zget l best);
             mret (if priority p <? priority q then k else best)
      else mret best) (fun b s' => s' = s ∧
    ((b = maxclients + 1 ∧ none_ready l (k + 1) r) ∨
     (b < maxclients ∧ is_best_ready l (k + 1) r b))) s.
Proof.
  intros Hk Hmax Ep Hb.
  assert (∀ (P : ControlPRM → Z → Prop), P p k → (∀ j q, j < k → zget l j = Some q → P q j) →
    ∀ j q, j < k + 1 → zget l j = Some q → P q j) as last.
  { intros P Hp HP j q Hj Hq. destruct (Z.eq_dec j k) as [->|]; [|apply HP; [lia|done]].
    by rewrite Ep in Hq; injection Hq as <-. }
  destruct (Z.eqb_spec (radar p) r) as [Hr|Hr].
  - destruct Hb as [[-> Hnone]|[Hlt (q & Hi & Eq & Hq & Hle)]].
    + apply wp_ret. split; [done|]. right. split; [done|]. exists p. split_and!; [lia|done|done|].
      apply (last (fun q j => radar q = r → _)); [lia|]. intros j q Hj Hq Hqr. by destruct (Hnone j q).
    + destruct (Z.leb_spec maxclients best); [lia|]. wp_step. eapply wp_deref; [done|]. apply wp_ret.
      split; [done|]. right. destruct (Z.ltb_spec (priority p) (priority q)).
      * split; [done|]. exists p. split_and!; [lia|done|done|].
        apply (last (fun q j => radar q = r → _)); [lia|]. intros j q' Hj Hq' Hr'.
        specialize (Hle j q' Hj Hq' Hr'). lia.
      * split; [done|]. exists q. split_and!; [lia|done|done|].
        refine (last (fun q' j => radar q' = r → _) _ Hle). lia.
  - apply wp_ret. split; [done|]. destruct Hb as [[-> Hnone]|[Hlt (q & Hi & Eq & Hq & Hle)]].
    + left. split; [done|]. exact (last (fun q _ => radar q ≠ r) Hr Hnone).
    + right. split; [done|]. exists q. split_and!; [lia|done|done|].
      by refine (last (fun q' j => radar q' = r → _) _ Hle).
Qed.

(** The search for the best client of a radar. *)
Lemma best_client_run r s :
  0 ≤ dio_numclients s ≤ zlen (dio_clients s) → dio_numclients s < maxclients →
  ∃ best, best_client r s = Ok (best, s) ∧
    ((best = maxclients + 1 ∧ none_ready (dio_clients s) (dio_numclients s) r) ∨
     (best < maxclients ∧ is_best_ready (dio_clients s) (dio_numclients s) r best)).
Proof.
  set (n := dio_numclients s). set (l := dio_clients s). intros Hn Hmax.
  enough (wp (best_client r) (fun best s' => s' = s ∧
    ((best = maxclients + 1 ∧ none_ready l n r) ∨
     (best < maxclients ∧ is_best_ready l n r best))) s) as H.
  { apply wp_run in H as (best & s' & E & -> & Hb). by exists best. }
  unfold best_client. repeat wp_step. fold n l.
  eapply wp_for_fold with (Inv := fun rest best s' => s' = s ∧ ∃ k, rest = seqZ k (n - k) ∧
    0 ≤ k ≤ n ∧ ((best = maxclients + 1 ∧ none_ready l k r) ∨
                 (best < maxclients ∧ is_best_ready l k r best))).
  - split; [done|]. exists 0. rewrite Z.sub_0_r. split_and!; try done; try lia.
    left. split; [done|]. intros j q Hj Hq%zget_Some_range. lia.
  - intros i rest best s' [-> (k & E & Hk & Hbest)].
    assert (k < n) as Hkn by (destruct (Z.eq_dec k n); [subst; rewrite Z.sub_diag in E; done|lia]).
    rewrite seqZ_cons' in E by lia. injection E as -> ->.
    destruct (zget_range l k) as [p Ep]; [lia|].
    wp_step. eapply wp_deref; [done|].
    enough (wp (if radar p =? r then
        if maxclients <=? best then mret k
        else q ← deref OutOfBounds (zget l best);
             mret (if priority p <? priority q then k else best)
      else mret best) (fun b s' => s' = s ∧
        ((b = maxclients + 1 ∧ none_ready l (k + 1) r) ∨
         (b < maxclients ∧ is_best_ready l (k + 1) r b))) s) as H.
    { eapply wp_mono; [exact H|]. intros b s' [-> Hb]. split; [done|]. exists (k + 1).
      split_and!; [f_equal; lia|lia|lia|done]. }
    apply (best_next r l k p best s); [lia|lia|done|done].
  - intros best s' [-> (k & E & Hk & Hbest)]. assert (k = n) as ->; [|by eauto].
    destruct (Z.eq_dec k n); [done|]. rewrite seqZ_cons' in E by lia. done.
Qed.

(** What the two selections write: the beam code of the client on the ports of
    its radar. *)
Lemma select_card_run p s :
  ∃ v m, _select_card card p s = Ok (v, s <| ports := m |>) ∧
    ∀ q, q ≠ PC_GRP_0 → q ≠ PC_GRP_2 → m !! q = ports s !! q.
Proof.
  unfold _select_card. destruct ((31 <? tbeam p) || (tbeam p <? 0)).
  { exists (-1), (ports s). by destruct s. }
  unfold in8, out8. mrun. do 2 eexists. split; [by destruct s|].
  intros q H0 H2. simpl. destruct (radar p =? 2); by apply lookup_insert_ne.
Qed.

Lemma lookup_beamnm_run r f b s :
  tables_ok s → 0 ≤ r < MAX_RADARS → ∃ v, lookup_beamnm r f b s = Ok (v, s).
Proof.
  intros [Hlen Hfs] Hr. destruct (zget_range (tables s) r) as [t Et]; [lia|].
  unfold lookup_beamnm. mrun. rewrite Et. mrun. destruct (freqs t) as [fs|] eqn:Efs; [|by eexists].
  specialize (Hfs r t Et fs Efs). destruct (zget_range fs 1) as [f1 E1]; [lia|].
  destruct (zget_range fs 0) as [f0 E0]; [lia|]. rewrite E1, E0. mrun. by eexists.
Qed.

Lemma select_beam_run p s :
  tables_ok s → 0 < radar p ≤ MAX_RADARS →
  ∃ v m, _select_beam card p s = Ok (v, s <| ports := m |>) ∧
    beam_on m (radar p) = beam_of p ∧
    ∀ q, q ≠ beam_port_a (radar p) → q ≠ beam_port_b (radar p) → m !! q = ports s !! q.
Proof.
  intros Ht Hr. unfold _select_beam. fold (beam_of p).
  destruct (lookup_beamnm_run (radar p - 1) (dmul (d_of_int (tfreq p)) (d_of_int 1000))
    (beam_of p) s Ht) as [x Ex]; [lia|].
  rewrite (bind_ok _ _ _ _ _ Ex). destruct (beam_code_split (beam_of p) (beam_of_range p)) as [Hb Hc].
  set (c := reverse_bits (beam_of p)) in *.
  destruct (Z.ltb_spec 8192 c), (Z.ltb_spec c 0); try lia. simpl.
  unfold in8, out8, beam_on, beam_port_a, beam_port_b, MAX_RADARS in *.
  assert (radar p = 1 ∨ radar p = 2) as [-> | ->] by lia; simpl; mrun;
    (do 2 eexists; split_and!; [by destruct s| |]; simpl;
     [by rewrite lookup_insert_eq, lookup_insert_ne, lookup_insert_eq
     |intros q Ha Hb'; by rewrite !lookup_insert_ne]).
Qed.

(** One radar of the loop of DIO_PRETRIGGER. *)
Lemma radar_step r s m :
  dio_ok s → 0 < r ≤ MAX_RADARS →
  ∃ m', (best ← best_client r;
     if best <? maxclients then
       l ← gets dio_clients; p ← deref OutOfBounds (zget l best);
       _ ← _select_card card p; _ ← _select_beam card p; mret tt
     else mret tt) (s <| ports := m |>) = Ok (tt, s <| ports := m' |>) ∧
    radar_beam s m m' r ∧
    ∀ q, q ≠ PC_GRP_0 → q ≠ PC_GRP_2 → q ≠ beam_port_a r → q ≠ beam_port_b r → m' !! q = m !! q.
Proof.
  intros Hok Hr. set (s1 := s <| ports := m |>).
  assert (dio_ok s1) as Hok1 by (revert Hok; by destruct s).
  destruct Hok1 as ((Ht & Hl & _) & Hn).
  destruct (best_client_run r s1) as (best & E & Hbest); [lia|lia|].
  rewrite (bind_ok _ _ _ _ _ E).
  destruct Hbest as [[-> Hnone]|[Hlt Hbest]].
  - exists m. split; [done|]. split; [by right|done].
  - destruct (Z.ltb_spec best maxclients); [|lia]. mrun.
    destruct Hbest as (p & Hi & Ep & Hp & Hle). rewrite Ep. mrun.
    destruct (select_card_run p s1) as (v & m1 & E1 & Hm1). rewrite (bind_ok _ _ _ _ _ E1).
    destruct (select_beam_run p (s1 <| ports := m1 |>)) as (w & m2 & E2 & Hb & Hm2);
      [revert Ht; by destruct s|lia|].
    rewrite (bind_ok _ _ _ _ _ E2). exists m2. rewrite Hp in *. split; [by destruct s|]. split.
    + left. exists best, p. split_and!; [by exists p|done|done].
    + intros q H0 H2 Ha Hb'. rewrite Hm2 by done. exact (Hm1 q H0 H2).
Qed.

Lemma beam_on_frame m m' r r' :
  0 < r ≤ MAX_RADARS → 0 < r' ≤ MAX_RADARS → r ≠ r' →
  (∀ q, q ≠ PC_GRP_0 → q ≠ PC_GRP_2 → q ≠ beam_port_a r → q ≠ beam_port_b r → m' !! q = m !! q) →
  beam_on m' r' = beam_on m r'.
Proof.
  unfold MAX_RADARS, beam_on. intros Hr Hr' Hne H.
  assert (r = 1 ∧ r' = 2 ∨ r = 2 ∧ r' = 1) as [[-> ->]|[-> ->]] by lia; by rewrite !H.
Qed.

(** C19: After DIO_PRETRIGGER the ports of each radar carry the beam number of
    the first of its ready clients of the least priority value, bit-reversed on
    13 lines (0 for an invalid beam), the ports of a radar without ready client
    keep their beam, and no client is ready any more. *)
Theorem pretrigger_beams t s :
  dio_ok s →
  ∃ s', dio_pretrigger card t s = Ok ([PDriver t 1], s') ∧
    radar_beam s (ports s) (ports s') 1 ∧ radar_beam s (ports s) (ports s') 2 ∧
    dio_numclients s' = 0 ∧ dio_ready s' = map (map (fun _ => -1)) (dio_ready s).
Proof.
  intros Hok. unfold dio_pretrigger, MAX_RADARS. change (seqZ 1 2) with [1; 2]. cbn [for_each].
  destruct (radar_step 1 s (ports s) Hok) as (m1 & E1 & H1 & F1); [done|].
  destruct (radar_step 2 s m1 Hok) as (m2 & E2 & H2 & F2); [done|].
  assert (s <| ports := ports s |> = s) as Es by (by destruct s). rewrite Es in E1.
  rewrite bind_assoc, (bind_ok _ _ _ _ _ E1), bind_assoc, (bind_ok _ _ _ _ _ E2).
  unfold clear_ready. mrun. eexists. split; [done|].
  pose proof (beam_on_frame _ _ 1 2 ltac:(done) ltac:(done) ltac:(done) F1) as B1.
  pose proof (beam_on_frame _ _ 2 1 ltac:(done) ltac:(done) ltac:(done) F2) as B2.
  unfold radar_beam in *. rewrite B1 in H2. simpl. rewrite B2. by destruct s.
Qed.

(** The status byte of transmitter [i] and the inputs read with it. *)
Lemma status_byte i x :
  0 ≤ i < 16 → 0 ≤ x < 16 →
  let y := (i <<c 4) + x in u8 y = y ∧ (y &c 240) = i <<c 4 ∧ (y >>c 4) = i ∧
    (((i <<c 4) |c x) >>c 4) &c 15 = i ∧ ((i <<c 4) |c x) &c 15 = x ∧
    ((((i <<c 4) |c x) &c 4) >>c 2) = Z.b2z (Z.testbit x 2) ∧
    ((((i <<c 4) |c x) &c 2) >>c 1) = Z.b2z (Z.testbit x 1).
Proof.
  intros Hi Hx y.
  assert (forallb (fun i => forallb (fun x => let y := (i <<c 4) + x in
    bool_decide (u8 y = y ∧ (y &c 240) = i <<c 4 ∧ (y >>c 4) = i ∧
    (((i <<c 4) |c x) >>c 4) &c 15 = i ∧ ((i <<c 4) |c x) &c 15 = x ∧
    ((((i <<c 4) |c x) &c 4) >>c 2) = Z.b2z (Z.testbit x 2) ∧
    ((((i <<c 4) |c x) &c 2) >>c 1) = Z.b2z (Z.testbit x 1))) (seqZ 0 16)) (seqZ 0 16) = true)
    as H by (vm_compute; reflexivity).
  apply (forallb_seqZ _ _ _ H) in Hi as Hi'. apply (forallb_seqZ _ _ _ Hi') in Hx.
  by apply bool_decide_eq_true in Hx.
Qed.

Lemma nibble x : 0 ≤ x &c 15 < 16.
Proof. change 15 with (Z.ones 4). rewrite Z.land_ones by lia. apply Z.mod_pos_bound. lia. Qed.

Lemma select_tx_run r input i s :
  transmitters card (status_port r) input → 0 < r ≤ MAX_RADARS → 0 ≤ i < MAX_TRANSMITTERS →
  ∃ m, _select_tx card r i s = Ok (0, s <| ports := m |>) ∧
    card m (status_port r) = (i <<c 4) |c (input i &c 15).
Proof.
  intros Hc Hr Hi. unfold _select_tx, MAX_RADARS, MAX_TRANSMITTERS in *.
  destruct (Z.ltb_spec 2 r), (Z.leb_spec r 0), (Z.leb_spec 16 i), (Z.ltb_spec i 0); try lia. simpl.
  unfold in8, out8. mrun. set (P := status_port r) in *. set (x := card (ports s) P &c 15).
  destruct (status_byte i x Hi (nibble _)) as (B1 & B2 & B3 & _).
  set (m := <[P := u8 ((i <<c 4) + x)]> (ports s)).
  assert (card m P = (i <<c 4) |c (input i &c 15)) as Em.
  { rewrite Hc. unfold m. rewrite lookup_insert_eq. simpl. by rewrite B1, B2, B3. }
  exists m. split; [|done].
  change (ports (s <| ports ::= <[P := u8 ((i <<c 4) + x)]> |>)) with m. rewrite Em.
  destruct (status_byte i (input i &c 15) Hi (nibble _)) as (_ & _ & _ & B4 & _).
  rewrite B4, Z.eqb_refl. by destruct s.
Qed.

(** What the driver returns for the transmitter inputs [input]. *)
Definition tx_inputs (input : Z → Z) (l : list Z) : tx_status :=
  mk_tx_status (map (fun i => Z.b2z (Z.testbit (input i &c 15) 1)) l)
    (map (fun i => Z.b2z (Z.testbit (input i &c 15) 2)) l) (map (fun i => input i &c 15) l).

Definition tx_app (t u : tx_status) : tx_status :=
  mk_tx_status (LOWPWR t ++ LOWPWR u) (AGC t ++ AGC u) (tx_stat t ++ tx_stat u).

Lemma zset_seqZ {A} (f : Z → A) k y rest :
  0 ≤ k → 0 < zlen rest →
  zset (map f (seqZ 0 k) ++ rest) k y = Some ((map f (seqZ 0 k) ++ [y]) ++ drop 1 rest).
Proof.
  intros Hk Hrest. destruct rest as [|x rest]; [done|]. simpl. rewrite drop_0, <- app_assoc.
  pose proof (zset_mid (map f (seqZ 0 k)) rest x y) as H. unfold zlen in H.
  by rewrite length_map, length_seqZ, Z2Nat.id in H by lia.
Qed.

Lemma seqZ_snoc k : 0 ≤ k → seqZ 0 (k + 1) = seqZ 0 k ++ [k].
Proof. intros. rewrite seqZ_app by lia. by rewrite Z.add_0_l. Qed.

Lemma status_loop r input n : ∀ k s rest,
  transmitters card (status_port r) input → 0 < r ≤ MAX_RADARS →
  0 ≤ k → k + Z.of_nat n = MAX_TRANSMITTERS →
  dio_tx s = tx_app (tx_inputs input (seqZ 0 k)) rest →
  zlen (LOWPWR rest) = Z.of_nat n → zlen (AGC rest) = Z.of_nat n →
  zlen (tx_stat rest) = Z.of_nat n →
  ∃ m, for_fold (seqZ k (Z.of_nat n)) (fun i status =>
      ok ← _select_tx card r i;
      if ok =? 0 then
        t ← in8 card (status_port r);
        set_tx i (t &c 15) ((t &c 4) >>c 2) ((t &c 2) >>c 1);;
        mret status
      else mret (-1)) 0 s =
    Ok (0, s <| ports := m |> <| dio_tx := tx_inputs input (seqZ 0 MAX_TRANSMITTERS) |>).
Proof.
  induction n as [|n IH]; intros k s rest Hc Hr Hk Hn Etx L1 L2 L3.
  - exists (ports s). replace k with MAX_TRANSMITTERS in * by lia. destruct rest as [[] [] []]; try done.
    unfold tx_app in Etx. cbn [LOWPWR AGC tx_stat tx_inputs] in Etx. rewrite !app_nil_r in Etx.
    fold (tx_inputs input (seqZ 0 MAX_TRANSMITTERS)) in Etx. rewrite <- Etx. by destruct s.
  - rewrite seqZ_cons' by lia. replace (Z.of_nat (S n) - 1) with (Z.of_nat n) by lia.
    cbn [for_fold]. destruct (select_tx_run r input k s Hc Hr) as (m & E & Em); [lia|].
    rewrite bind_assoc, (bind_ok _ _ _ _ _ E). simpl. unfold in8. mrun.
    change (ports (s <| ports := m |>)) with m. rewrite Em.
    destruct (status_byte k (input k &c 15)) as (_ & _ & _ & _ & B5 & B6 & B7);
      [unfold MAX_TRANSMITTERS in *; lia|apply nibble|]. rewrite B5, B6, B7.
    unfold set_tx. mrun. change (dio_tx (s <| ports := m |>)) with (dio_tx s). rewrite Etx.
    unfold tx_app, tx_inputs. cbn [LOWPWR AGC tx_stat].
    rewrite !zset_seqZ by lia. mrun.
    destruct (IH (k + 1) (s <| ports := m |> <| dio_tx :=
        tx_app (tx_inputs input (seqZ 0 (k + 1))) (mk_tx_status (drop 1 (LOWPWR rest))
          (drop 1 (AGC rest)) (drop 1 (tx_stat rest))) |>)
      (mk_tx_status (drop 1 (LOWPWR rest)) (drop 1 (AGC rest)) (drop 1 (tx_stat rest))))
      as [m' E']; [done|done|lia|lia|by destruct s| | | |].
    1-3: unfold zlen in *; cbn [LOWPWR AGC tx_stat]; rewrite length_drop; lia.
    exists m'. unfold tx_app, tx_inputs in E'. cbn [LOWPWR AGC tx_stat] in E'.
    rewrite seqZ_snoc, !map_app in E' by lia. simpl in E'. by destruct s.
Qed.

(** GET_TX_STATUS returns, for every one of the 16 transmitters of a radar,
    the four inputs the card reads when that transmitter is addressed, its AGC
    and low-power lines among them, and status 0. *)
Theorem tx_status_correct t r input s :
  dio_ok s → 0 < r ≤ MAX_RADARS → transmitters card (status_port r) input →
  ∃ s', dio_tx_status card t r s =
    Ok ([PTx (tx_inputs input (seqZ 0 MAX_TRANSMITTERS)); PDriver t 0], s').
Proof.
  intros ((_ & _ & _ & _ & L3 & L2 & L1) & _) Hr Hc. unfold dio_tx_status, _get_status.
  destruct (Z.ltb_spec MAX_RADARS r), (Z.leb_spec r 0); try lia. simpl.
  destruct (status_loop r input 16 0 s (dio_tx s)) as [m E]; try done.
  { by destruct s as [? ? ? ? ? ? ? ? []]. }
  change (Z.of_nat 16) with MAX_TRANSMITTERS in E. rewrite (bind_ok _ _ _ _ _ E). mrun.
  by eexists.
Qed.

(** ** Theorems: no request faults *)

Lemma dio_ok_ports m s : dio_ok s → dio_ok (s <| ports := m |>).
Proof. by destruct s. Qed.

Lemma out8_ok port v s : dio_ok s → wp (out8 port v) (fun _ => dio_ok) s.
Proof. intros H. unfold out8. wp_step. by destruct s. Qed.

Lemma select_card_ok p s : dio_ok s → wp (_select_card card p) (fun _ => dio_ok) s.
Proof.
  intros H. destruct (select_card_run p s) as (v & m & E & _). unfold wp. rewrite E.
  by apply dio_ok_ports.
Qed.

Lemma select_beam_ok p s :
  0 < radar p ≤ MAX_RADARS → dio_ok s → wp (_select_beam card p) (fun _ => dio_ok) s.
Proof.
  intros Hr H. destruct (select_beam_run p s) as (v & m & E & _); [apply H|done|].
  unfold wp. rewrite E. by apply dio_ok_ports.
Qed.

Lemma select_tx_ok r i s : dio_ok s → wp (_select_tx card r i) (fun _ => dio_ok) s.
Proof.
  intros H. unfold _select_tx, in8.
  destruct ((MAX_RADARS <? r) || (r <=? 0)); [by wp_step|].
  destruct ((MAX_TRANSMITTERS <=? i) || (i <? 0)); [by wp_step|].
  repeat wp_step. eapply wp_mono; [by apply out8_ok|]. intros [] s' H'. by repeat wp_step.
Qed.

Lemma set_tx_ok i v a l s :
  0 ≤ i < MAX_TRANSMITTERS → dio_ok s → wp (set_tx i v a l) (fun _ => dio_ok) s.
Proof.
  intros Hi (H & Hn). pose proof H as (_ & _ & _ & _ & L1 & L2 & L3). unfold set_tx.
  wp_step. wp_step. repeat (wp_step; eapply wp_deref; [apply zset_Some; lia|]). wp_step.
  destruct s. unfold dio_ok, dio_arrays in *. simpl in *. unfold zlen. rewrite !length_insert.
  tauto.
Qed.

Lemma get_status_ok r s : dio_ok s → wp (_get_status card r) (fun _ => dio_ok) s.
Proof.
  intros H. unfold _get_status. destruct ((MAX_RADARS <? r) || (r <=? 0)); [by wp_step|].
  apply wp_for_fold with (Inv := fun rest _ s' => dio_ok s' ∧
    Forall (fun i => 0 ≤ i < MAX_TRANSMITTERS) rest).
  - split; [done|]. apply Forall_forall. intros i Hi%elem_of_seqZ. lia.
  - intros i rest st s' [Hok [Hi Hrest]%Forall_cons]. wp_step.
    eapply wp_mono; [by apply select_tx_ok|]. intros ok s1 H1.
    destruct (ok =? 0); [|by wp_step]. unfold in8. repeat wp_step.
    eapply wp_mono; [by apply set_tx_ok|]. intros [] s2 H2. by wp_step.
  - intros _ s' [Hok _]. done.
Qed.

Lemma set_client_ok i p s :
  0 ≤ i < maxclients → dio_arrays s →
  wp (set_dio_client i p) (fun _ s' => dio_arrays s' ∧
    dio_numclients s' = dio_numclients s ∧ dio_ready s' = dio_ready s) s.
Proof.
  intros Hi H. unfold set_dio_client. wp_step. wp_step. wp_step.
  eapply wp_deref; [apply zset_Some; destruct H as (_ & -> & _); done|]. wp_step.
  destruct s. unfold dio_arrays in *. simpl in *. unfold zlen. rewrite length_insert. tauto.
Qed.

(** Entry [(r, c)] of the table of ready clients exists. *)
Lemma ready_entry s r c :
  dio_arrays s → 0 ≤ r < MAX_RADARS → 0 ≤ c < MAX_CHANNELS →
  ∃ row k, zget (dio_ready s) r = Some row ∧ zget row c = Some k ∧ zlen row = MAX_CHANNELS.
Proof.
  intros (_ & _ & H4 & H5 & _) Hr Hc. destruct (zget_range (dio_ready s) r) as [row E]; [lia|].
  assert (zlen row = MAX_CHANNELS) as Hrow.
  { rewrite Forall_forall in H5. apply H5. unfold zget in E. case_decide; [|done].
    by eapply list_elem_of_lookup_2. }
  destruct (zget_range row c) as [k Ek]; [lia|]. by exists row, k.
Qed.

Lemma set_ready_ok r c v s :
  0 ≤ r < MAX_RADARS → 0 ≤ c < MAX_CHANNELS → dio_arrays s →
  wp (set_ready r c v) (fun _ s' => dio_arrays s' ∧ dio_numclients s' = dio_numclients s) s.
Proof.
  intros Hr Hc H. destruct (ready_entry s r c H Hr Hc) as (row & k & E & _ & Hrow).
  unfold set_ready. wp_step. wp_step. wp_step. eapply wp_deref; [exact E|].
  wp_step. eapply wp_deref; [apply zset_Some; lia|].
  wp_step. eapply wp_deref; [apply zset_Some; destruct H as (_ & _ & -> & _); done|]. wp_step.
  destruct s. unfold dio_arrays in *. simpl in *. unfold zlen in *. rewrite length_insert.
  destruct H as (? & ? & ? & Hf & ?). split_and!; try tauto.
  apply Forall_insert; [done|]. by rewrite length_insert.
Qed.

Lemma ready_client_ok t p s :
  0 < radar p ≤ MAX_RADARS → 0 < channel p ≤ MAX_CHANNELS →
  dio_ok s → wp (dio_ready_client t p) (fun _ => dio_ok) s.
Proof.
  intros Hr Hc [Ha Hn]. unfold dio_ready_client, get_ready.
  destruct (ready_entry s (radar p - 1) (channel p - 1)) as (row & k & E & Ek & _); [done|lia|lia|].
  do 4 wp_step. eapply wp_deref; [exact E|]. eapply wp_deref; [exact Ek|]. wp_step.
  apply wp_mono with (Q := fun _ s' => dio_arrays s' ∧ 0 ≤ dio_numclients s').
  - destruct ((0 <=? k) && (k <? maxclients)) eqn:Hk.
    + apply andb_true_iff in Hk as [H1 H2]. eapply wp_mono; [apply set_client_ok; [lia|done]|].
      intros [] s' (Ha' & -> & _). split; [done|lia].
    + repeat wp_step. eapply wp_mono; [by apply set_client_ok|]. intros [] s1 (Ha1 & Hn1 & _).
      wp_step. eapply wp_mono; [apply set_ready_ok; [lia|lia|done]|]. intros [] s2 (Ha2 & Hn2).
      wp_step. split; [by destruct s2|]. change (0 ≤ dio_numclients s + 1). lia.
  - intros [] s1 (Ha1 & Hn1). repeat wp_step. split; [by destruct s1|].
    change (0 ≤ dio_numclients s1 %c maxclients < maxclients).
    apply Z.rem_bound_pos; [done|reflexivity].
Qed.

(** Requests whose radar and channel are numbers of the tables.  The server does
    not test them: SET_PARAMETERS stores what the client sends and SET_READY_FLAG
    forwards it. *)
Definition dio_valid (q : dio_request) : Prop :=
  match q with
  | DioReady _ p => 0 < radar p ≤ MAX_RADARS ∧ 0 < channel p ≤ MAX_CHANNELS
  | DioClrfreq _ p => 0 < radar p ≤ MAX_RADARS
  | _ => True
  end.

(** A ready request for a radar channel that is not in the table. *)
Lemma ready_client_faults t p s : dio_ok s → ¬ dio_valid (DioReady t p) →
  dio_ready_client t p s = Fault OutOfBounds.
Proof.
  intros [(_ & _ & H4 & H5 & _) _] Hv. unfold dio_ready_client, get_ready. rewrite !bind_assoc, gets_then.
  destruct (zget (dio_ready s) (radar p - 1)) as [row|] eqn:Er; [|done].
  rewrite bind_assoc, deref_then. destruct (zget row (channel p - 1)) as [k|] eqn:Ek; [|done].
  exfalso. apply Hv. apply zget_Some_range in Er as Hr. apply zget_Some_range in Ek as Hc.
  assert (zlen row = MAX_CHANNELS) as Hrow.
  { rewrite Forall_forall in H5. apply H5. unfold zget in Er. case_decide; [|done].
    by eapply list_elem_of_lookup_2. }
  simpl. lia.
Qed.

Lemma front_end_ok s : dio_ok s → wp front_end (fun _ => dio_ok) s.
Proof. intros H. unfold front_end, set_RXFE_EEPROM_address. repeat wp_step. by apply out8_ok. Qed.

Lemma pretrigger_ok t s : dio_ok s → wp (dio_pretrigger card t) (fun _ => dio_ok) s.
Proof.
  intros Hok. unfold dio_pretrigger, clear_ready. wp_step.
  apply wp_for_each with (Inv := fun rest s' => dio_ok s' ∧ Forall (fun r => 0 < r ≤ MAX_RADARS) rest).
  - split; [done|]. apply Forall_forall. intros r Hr%elem_of_seqZ. lia.
  - intros r rest s1 [H1 [Hr Hrest]%Forall_cons].
    destruct (radar_step r s1 (ports s1) H1 Hr) as (m & E & _).
    assert (s1 <| ports := ports s1 |> = s1) as Es by (by destruct s1). rewrite Es in E.
    unfold wp. rewrite E. split; [by apply dio_ok_ports|done].
  - intros s1 [(H & Hn) _]. repeat wp_step. split; [|done].
    destruct s1. unfold dio_arrays in *. simpl in *. unfold zlen in *. rewrite length_map.
    destruct H as (? & ? & ? & Hf & ?). split_and!; try tauto.
    apply Forall_map. eapply Forall_impl; [exact Hf|]. intros row. simpl. by rewrite length_map.
Qed.

(** C20: No request whose radar and channel are numbers of the tables makes the
    driver fault - no index out of range, whatever the card returns - and its
    arrays and number of ready clients stay in bounds.  The driver itself tests
    nothing: every ready request with another radar or channel indexes its table
    out of range. *)
Theorem dio_handle_safe q s :
  dio_ok s →
  (dio_valid q → ∃ out s', dio_handle card q s = Ok (out, s') ∧ dio_ok s') ∧
  (∀ t p, q = DioReady t p → ¬ dio_valid q → dio_handle card q s = Fault OutOfBounds).
Proof.
  intros Hok. split; [intros Hq|intros t p -> Hq; by apply ready_client_faults].
  apply (proj1 (wp_run _ (fun _ => dio_ok) _)).
  destruct q as [t p|t r|t|t p|t|t st m rf_s if_s|]; simpl in Hq |- *.
  - destruct Hq. by apply ready_client_ok.
  - unfold dio_tx_status. wp_step. eapply wp_mono; [by apply get_status_ok|].
    intros st s' H'. by repeat wp_step.
  - by apply pretrigger_ok.
  - unfold dio_clrfreq, set_RXFE_EEPROM_address. wp_step.
    eapply wp_mono; [by apply select_card_ok|]. intros x1 s1 H1. wp_step.
    eapply wp_mono; [by apply select_beam_ok|]. intros x2 s2 H2. repeat wp_step; [|done].
    eapply wp_mono; [by apply out8_ok|]. intros [] s3 Hs3. by wp_step.
  - unfold dio_rxfe_reset. wp_step. eapply wp_mono; [by apply front_end_ok|].
    intros [] s' H'. by wp_step.
  - unfold dio_rxfe_configure. repeat wp_step. eapply wp_mono; [apply front_end_ok; by destruct s|].
    intros [] s' H'. by wp_step.
  - by wp_step.
Qed.

(** After a RXFE_SETTINGS request the lines of the front end are those of
    the settings of the selected mode (attenuators off-lines, amplifiers and IF
    mode on-lines), no other port has changed, and a later RXFE_RESET - the
    reset that ends a clear-frequency search - writes the same lines again. *)
Theorem rxfe_settings_port t st m rf_s if_s s :
  ∃ s1 s2 v, dio_rxfe_configure t st m rf_s if_s s = Ok ([PDriver t st], s1) ∧
    dio_rxfe_reset t s1 = Ok ([PDriver t 1], s2) ∧
    ports s1 = <[PB_GRP_4 := v]> (ports s) ∧ ports s2 = ports s1 ∧
    lines_on v = front_end_lines (if u32 m =? 0 then rf_s else if_s).
Proof.
  unfold dio_rxfe_configure, dio_rxfe_reset, front_end, set_RXFE_EEPROM_address, out8. mrun.
  do 3 eexists. split; [done|]. split; [done|]. destruct s. simpl. rewrite insert_insert_eq.
  assert (∀ r, u8 (u8 (build_RXFE_EEPROM_address r)) = build_RXFE_EEPROM_address r) as Hu.
  { intros r. destruct (rxfe_address_bits r) as [Hr _]. by rewrite !(u8_id _ Hr). }
  split; [done|]. destruct (u32 m =? 0); simpl; rewrite Hu; (split; [done|]);
    by apply rxfe_address_bits.
Qed.

End Driver.

(** ** Witnesses *)

(** A card whose status ports read the low half of the transmitter number plus
    one, and whose other ports are latches. *)
Definition demo_input (i : Z) : Z := i + 1.

Definition demo_card (m : gmap Z Z) (port : Z) : Z :=
  let v := default 0 (m !! port) in
  if (port =? PC_GRP_1) || (port =? PC_GRP_3)
  then (v &c 240) |c (demo_input (v >>c 4) &c 15) else v.

Definition demo_tables : list BeamTable :=
  [mk_BeamTable (Some [d_of_int 8000000; d_of_int 8050000]) 2 16 0; mk_BeamTable None 0 0 0].

Definition demo_dio : dio := dio0 demo_tables prm0.

Definition demo_client (r c beam pri : Z) : ControlPRM :=
  prm0 <| radar := r |> <| channel := c |> <| tbeam := beam |> <| priority := pri |>.

(** Two clients of radar 1 and none of radar 2 are ready. *)
Definition demo_ready : dio :=
  match (_ ← dio_ready_client "2"%char (demo_client 1 1 5 20);
         dio_ready_client "2"%char (demo_client 1 2 11 3)) demo_dio with
  | Ok (_, s) => s
  | Fault _ => demo_dio
  end.

Lemma demo_tables_ok : tables_ok demo_dio.
Proof.
  split; [done|]. intros r t Ht fs Hfs. apply zget_Some_range in Ht as Hr.
  change (0 ≤ r < 2) in Hr. assert (r = 0 ∨ r = 1) as [-> | ->] by lia;
    vm_compute in Ht; injection Ht as <-; [|done]. simpl in Hfs. by injection Hfs as <-.
Qed.

Lemma demo_ok : dio_ok demo_dio.
Proof. split; [split; [exact demo_tables_ok|]|done]. repeat constructor. Qed.

Lemma demo_ready_ok : dio_ok demo_ready.
Proof.
  split; [split|by vm_compute].
  - replace (tables_ok demo_ready) with (tables_ok demo_dio) by (by vm_compute). exact demo_tables_ok.
  - split_and!; try (by vm_compute). repeat constructor.
Qed.

Lemma dio_handle_safe_witness :
  (∃ out s', dio_handle demo_card (DioReady "2"%char (demo_client 1 1 5 20)) demo_dio = Ok (out, s') ∧ dio_ok s') ∧
  dio_handle demo_card (DioReady "2"%char (demo_client 1 5 5 20)) demo_dio = Fault OutOfBounds.
Proof.
  split.
  - apply (dio_handle_safe demo_card); [exact demo_ok|by vm_compute].
  - eapply (dio_handle_safe demo_card); [exact demo_ok|reflexivity|]. vm_compute. intros [_ [_ H]]. by apply H.
Defined.

Lemma pretrigger_beams_witness : ∃ s',
  dio_pretrigger demo_card "3"%char demo_ready = Ok ([PDriver "3"%char 1], s') ∧
  radar_beam demo_ready (ports demo_ready) (ports s') 1 ∧
  radar_beam demo_ready (ports demo_ready) (ports s') 2 ∧
  dio_numclients s' = 0 ∧ dio_ready s' = map (map (fun _ => -1)) (dio_ready demo_ready).
Proof. apply (pretrigger_beams demo_card). exact demo_ready_ok. Defined.

Lemma tx_status_correct_witness : ∃ s',
  dio_tx_status demo_card "a"%char 1 demo_dio =
    Ok ([PTx (tx_inputs demo_input (seqZ 0 MAX_TRANSMITTERS)); PDriver "a"%char 0], s').
Proof.
  apply (tx_status_correct demo_card); [exact demo_ok|done|]. intros m. reflexivity.
Defined.

Lemma reverse_bits_involutive_witness : reverse_bits (reverse_bits 5) = 5.
Proof. apply reverse_bits_involutive. done. Defined.

(** The beam on the ports of radar 1 is that of the client of priority 3. *)
Example demo_beam : match dio_pretrigger demo_card "3"%char demo_ready with
  | Ok (_, s) => beam_on (ports s) 1 = 11 ∧ reverse_bits 11 = 6656
  | Fault _ => False
  end.
Proof. vm_compute. split; reflexivity. Qed.

(** The code looked up in the radar's beam table is not the one written: the
    beam number is, whatever the frequency. *)
Theorem beam_table_ignored card p s v m :
  _select_beam card p s = Ok (v, s <| ports := m |>) →
  tables_ok s → 0 < radar p ≤ MAX_RADARS → beam_on m (radar p) = beam_of p.
Proof.
  intros E Ht Hr. destruct (select_beam_run card p s Ht Hr) as (v' & m' & E' & Hb & _).
  rewrite E in E'. by injection E' as _ ->.
Qed.
