(* ===== verification/Dds.v ===== *)
(** * Dds: the driver of the transmit synthesizers (src/ros6/ddsserver_tcp_driver)

    For every radar channel the driver keeps the transmitter's part of the
    registered sequence; before a trigger it writes the samples of all ready
    clients, interleaved by output, to the bank of the ICS-660 card, and loads
    the frequency, phase and pulse shape of each output.  What the card does is
    outside the repository's driver: the state keeps the sequence of the
    commands ([devctl] calls and writes) it was given.  The functions of the C
    library's [math.h] that set the gain of the upconverter are parameters.  The
    QNX branches are modelled, with [IMAGING] 0 and one card.  A request carries what the handler
    reads from the socket. *)

From Stdlib Require Import ZArith Lia Ascii String.
From stdpp Require Import base list.
From S2P Require Import Prelude Binary64 Rounding Types Registry Tsg TimingDriver.
Open Scope Z_scope.
Open Scope cvr_scope.

(** ** dds_defs.h and ics660b.h *)

Definition DDS_MAX_CHANNELS : Z := 4.
Definition DDS_MAX_CARDS : Z := 1.
Definition DDS_MASTER_INDEX : Z := 0.
Definition DDS_TERM_INDEX : Z := 0.
Definition DDS_MAX_RADAR_OUTPUT : list Z := [28355; 26500].
Definition DDS_STATE_TIME : double := d_lit 5 6.
Definition STATE_DELAY : double := d_of_int 130.
Definition CLOCK_FREQ : double := d_of_int 100000000.
Definition SIGLEN : Z := 518400.
Definition PULSE : Z := 8.
Definition RESET_VALUE : Z := 4294967295.

(** ** The commands of the card *)

Inductive ics_param :=
  | CLOCK_SELECT | BOARD_RESET | CLEAR_IMASK | ICS_DAC_ENABLE | TRIGGER_SOURCE | MODE
  | UPCONVERTER_SELECT | DATA_SOURCE | SYNC_MASTER | SYNC_TERM | PERSISTENCE_REG
  | TRANS_LENGTH | BANK_LENGTH | BANK_WIDTH | DAC_RESET | SET_DC_READY | RELEASE_RESETS
  | MODULE_CONTROL_REG | SET_PAGE | SET_CHIP.

Inductive dc60m_param :=
  | DC60M_RESET | MISCELANEOUS | SYNC_MODE | INTERPOLATION_MODE
  | CHANNEL_A_SYNC | CHANNEL_B_SYNC | CHANNEL_C_SYNC | CHANNEL_D_SYNC | CHANNEL_FLUSH_MODE
  | INTERPOLATION_GAIN | INTERPOLATION_BYTE0 | INTERPOLATION_BYTE1
  | COUNTER_BYTE0 | COUNTER_BYTE1 | DC_STAT.

Inductive dcmd :=
  | SetParam (card : Z) (p : ics_param) (v : Z)
  | SetChip (card : Z) (p : dc60m_param) (chip v : Z)
  | SetPageReg (card chip page reg v : Z)
  | WriteSequencer (card offset v : Z)
  | LoadFrequency (card chip channel : Z) (freq : double)
  | LoadPhase (card chip channel : Z) (phase : double)
  | LoadFilter (card chip channel f_corner : Z) (state_time : double)
  | WriteBank (card : Z) (words : list Z).

(** ** State *)

(** What the driver keeps for a radar channel: the first [seq_count] words of
    its buffer are [dsl_buf]. *)
Record DSlot := mk_DSlot {
  dsl_seqs : list (option TSGbuf);
  dsl_buf : list Z;
  old_pulse_index : Z;
  dsl_ready : Z
}.

Record dds := mk_dds {
  dds_slots : list (list DSlot);
  dds_clients : list ControlPRM;
  dds_numclients : Z;
  dds_active : list (list Z);
  dds_old_id : Z;
  dds_ifmode : Z;
  cmds : list dcmd
}.

#[export] Instance eta_DSlot : Eta DSlot := fun r =>
  mk_DSlot (dsl_seqs r) (dsl_buf r) (old_pulse_index r) (dsl_ready r).
#[export] Instance eta_dds : Eta dds := fun r =>
  mk_dds (dds_slots r) (dds_clients r) (dds_numclients r) (dds_active r) (dds_old_id r)
    (dds_ifmode r) (cmds r).

Abbreviation XM := (M dds).

Definition command (c : dcmd) : XM unit := modify (fun s => s <| cmds ::= fun l => (l ++ [c])%list |>).

Definition ics660_set_parameter (card : Z) (p : ics_param) (v : Z) : XM unit :=
  command (SetParam card p v).

Definition load_frequency (card chip channel : Z) (fr : double) : XM unit :=
  command (LoadFrequency card chip channel fr).

Definition load_phase (card chip channel : Z) (ph : double) : XM unit :=
  command (LoadPhase card chip channel ph).

Definition load_filter_taps (card chip channel fc : Z) (t_in : double) : XM unit :=
  command (LoadFilter card chip channel fc t_in).

Definition one_shot_b (card : Z) : XM unit :=
  command (SetChip card SYNC_MODE 2 229);;
  command (SetChip card SYNC_MODE 2 101).

Definition set_xslot (r c : Z) (v : DSlot) : XM unit :=
  l ← gets dds_slots;
  l ← deref OutOfBounds (zset2 l r c v);
  modify (fun s => s <| dds_slots := l |>).

Definition get_xclient (i : Z) : XM ControlPRM :=
  l ← gets dds_clients; deref OutOfBounds (zget l i).

Definition set_xclient (i : Z) (p : ControlPRM) : XM unit :=
  l ← gets dds_clients; l ← deref OutOfBounds (zset l i p);
  modify (fun s => s <| dds_clients := l |>).

(** ** The sequences *)

(** [_decodestate.c]: the transmitter and its phase in a code byte. *)
Definition dds_decodestate (state : Z) : Z :=
  if bits_set state X_bit then if bits_set state P_bit then -1 else 1 else 0.

(** [(int)((step*1E-6)/STATE_TIME+.49999999)]. *)
Definition dds_ratio (step : Z) : Z :=
  d_to_int (dadd (ddiv (dmul (d_of_int step) (d_lit 1 6)) DDS_STATE_TIME) (d_lit 49999999 8)).

(** [STATE_TIME/1E-6]: the microseconds of a tick. *)
Definition tick_us : double := ddiv DDS_STATE_TIME (d_lit 1 6).

(** The unpacking loops: every decoded code is repeated [ratio*rep] times, and
    the ticks of the first [STATE_DELAY] microseconds are left out. *)
Fixpoint dds_held (ratio : Z) (codes reps : list Z) : list Z :=
  match codes, reps with
  | x :: codes, n :: reps =>
      (replicate (Z.to_nat (ratio * n)) (dds_decodestate x) ++ dds_held ratio codes reps)%list
  | _, _ => []
  end.

Fixpoint store_ticks (microseconds : double) (ticks : list Z) : list Z :=
  match ticks with
  | [] => []
  | w :: ticks =>
      let microseconds := dadd microseconds tick_us in
      if dltb STATE_DELAY microseconds then w :: store_ticks microseconds ticks
      else store_ticks microseconds ticks
  end.

Definition dds_unpack (buf : TSGbuf) : XM (list Z) :=
  if (zlen (seq_code buf) <? seq_len buf) || (zlen (seq_rep buf) <? seq_len buf) then
    fail OutOfBounds
  else
    let n := Z.to_nat (seq_len buf) in
    let l := store_ticks dzero (dds_held (dds_ratio (seq_step buf))
               (take n (seq_code buf)) (take n (seq_rep buf))) in
    if zlen l <=? MAX_TIME_SEQ_LEN then mret l else fail OutOfBounds.

(** ** The initialisation of the card *)

Section Card.
Context (c_log : double → double) (c_pow : double → double → double).

Definition two : double := d_of_int 2.

(** [BIG_SHIFT], [SCALE] and [cicgain] of an interpolation. *)
Definition big_shift (interp_val : Z) : Z :=
  if interp_val <? 23 then 0 else if interp_val <? 182 then 1 else 2.

Definition scale (interp_val : Z) : Z :=
  let l := ddiv (dmul (d_of_int 4) (c_log (d_of_int interp_val))) (c_log two) in
  let s := d_to_int (dadd (dsub (dsub (d_of_int (u32 (default 0 (d_floor l)))) (d_of_int 3))
    (dmul (d_of_int 12) (d_of_int (big_shift interp_val)))) (d_of_int 1)) in
  if 15 <? s then 15 else s.

Definition cicgain (interp_val : Z) : double :=
  let e := - (scale interp_val + 12 * big_shift interp_val + 3) in
  to_float (dmul (of_float (to_float (c_pow (d_of_int interp_val) (d_of_int 4))))
                 (c_pow two (d_of_int e))).

(** [dc60m_init]. *)
Definition dc60m_reset (card chip : Z) : XM unit :=
  ics660_set_parameter card SET_CHIP chip;;
  command (SetChip card DC60M_RESET chip 255);;
  command (SetChip card MISCELANEOUS chip 128);;
  command (SetChip card SYNC_MODE chip (if chip <=? 2 then 229 else 5)).

Definition dc60m_chip (card interp_val chip : Z) : XM unit :=
  ics660_set_parameter card SET_CHIP chip;;
  ics660_set_parameter card SET_PAGE 0;;
  command (SetChip card INTERPOLATION_MODE chip 196);;
  for_each [CHANNEL_A_SYNC; CHANNEL_B_SYNC; CHANNEL_C_SYNC; CHANNEL_D_SYNC; CHANNEL_FLUSH_MODE]
    (fun p => command (SetChip card p chip 85));;
  command (SetChip card INTERPOLATION_GAIN chip
    (u32 (((big_shift interp_val <<c 4) &c 48) |c scale interp_val)));;
  command (SetChip card INTERPOLATION_BYTE0 chip (u32 (interp_val - 1) &c 255));;
  command (SetChip card INTERPOLATION_BYTE1 chip (((interp_val - 1) >>c 8) &c 63));;
  command (SetChip card COUNTER_BYTE0 chip 4294967295);;
  command (SetChip card COUNTER_BYTE1 chip 4294967295);;
  command (SetChip card DC_STAT chip 0);;
  for_each (seqZ 0 4) (fun i =>
    command (SetPageReg card chip 2 i (d_to_int (of_float (fmul (f_of_int 80) (cicgain interp_val))))));;
  command (SetPageReg card chip 5 0 5);;
  command (SetPageReg card chip 5 3 176);;
  command (SetPageReg card chip 5 8 85);;
  ics660_set_parameter card SET_PAGE 0.

Definition dc60m_init (card interp_val : Z) : XM Z :=
  let special := if interp_val <? 11 then ((interp_val %c 7) &c 3) <<c 5 else 0 in
  ics660_set_parameter card MODULE_CONTROL_REG (8 |c special);;
  ics660_set_parameter card SET_PAGE 0;;
  for_each (seqZ 1 4) (dc60m_reset card);;
  for_each (seqZ 1 4) (dc60m_chip card interp_val);;
  ics660_set_parameter card SET_CHIP 0;;
  mret 1.

(** The word [i] of the write sequencer: the output of the [i]th sample, and
    the advance of the bank after every sixteenth. *)
Definition seq_word (i : Z) : Z :=
  let wr_addr := (31 - i) %c 16 in
  let bl_adv := if (i =? 15) || (i =? 31) then 1 else 0 in
  ((bl_adv <<c 6) |c (wr_addr <<c 2)) &c 124.

(** [(uint32_t)((state_time*CLOCK_FREQ)/4+0.499999)]. *)
Definition interp_val : Z :=
  d_to_int (dadd (ddiv (dmul DDS_STATE_TIME CLOCK_FREQ) (d_of_int 4)) (d_lit 499999 6)).

Definition ics660_init (card pci_ind : Z) : XM Z :=
  for_each [(CLOCK_SELECT, 1); (BOARD_RESET, 0); (CLEAR_IMASK, 0); (ICS_DAC_ENABLE, 0);
            (TRIGGER_SOURCE, 1); (CLOCK_SELECT, 1); (MODE, PULSE); (UPCONVERTER_SELECT, 1);
            (DATA_SOURCE, 0);
            (SYNC_MASTER, if pci_ind =? DDS_MASTER_INDEX then 1 else 0);
            (SYNC_TERM, if pci_ind =? DDS_TERM_INDEX then 1 else 0);
            (PERSISTENCE_REG, 0); (TRANS_LENGTH, SIGLEN); (BANK_LENGTH, SIGLEN); (BANK_WIDTH, 0)]
    (fun p => ics660_set_parameter card p.1 p.2);;
  for_each (seqZ 0 32) (fun i => command (WriteSequencer card (4 * i) (seq_word i)));;
  dc60m_init card interp_val.

(** ** msi_timing_sequence: the samples of the ready clients *)

(** [max_val[r][n]]: the amplitude of each of [n] active channels. *)
Definition max_val (r n : Z) : XM Z :=
  rf ← deref OutOfBounds (zget DDS_MAX_RADAR_OUTPUT r);
  if (n <? 0) || (DDS_MAX_CHANNELS <? n) then fail OutOfBounds
  else mret (if n =? 0 then 0 else if n =? 1 then rf else i16 (rf /c n)).

(** [dac_value.two_samp] with the sample [v] in both halves. *)
Definition dac_word (v : Z) : Z := i16 v mod 2 ^ 16 + 2 ^ 16 * (i16 v mod 2 ^ 16).

(** [SO]: the samples per output, 100 microseconds more than the sequence. *)
Definition samples_per_output (max_seq_length : Z) : Z :=
  d_to_int (dadd (d_of_int max_seq_length) (ddiv (d_lit 1 4) DDS_STATE_TIME)).

Definition dds_nchan : Z := 16.

(** The first loop over the clients: [active] and [num_active_chans]. *)
Definition activate : XM (list Z) :=
  modify (fun s => s <| dds_active :=
    replicate (Z.to_nat MAX_RADARS) (replicate (Z.to_nat DDS_MAX_CHANNELS) (-1)) |>);;
  n ← gets dds_numclients;
  for_fold (seqZ 0 n) (fun j num =>
    p ← get_xclient j;
    let r := radar p - 1 in
    let c := channel p - 1 in
    a ← gets dds_active;
    a ← deref OutOfBounds (zset2 a r c c);
    modify (fun s => s <| dds_active := a |>);;
    k ← deref OutOfBounds (zget num r);
    deref OutOfBounds (zset num r (k + 1)))
    (replicate (Z.to_nat MAX_RADARS) 0).

(** The samples of one client, and its IF signal. *)
Definition client_samples (r c amp : Z) (seq data_ar : list Z) : XM (list Z) :=
  for_fold (seqZ 0 (zlen seq)) (fun i data_ar =>
    for_fold (seqZ 0 DDS_MAX_CHANNELS) (fun cc data_ar =>
      a ← get2 dds_active r cc;
      if a =? c then
        w ← deref OutOfBounds (zget seq i);
        deref OutOfBounds (zset data_ar (i * dds_nchan + (r * DDS_MAX_CHANNELS + cc))
                             (dac_word (i16 w * amp)))
      else mret data_ar) data_ar) data_ar.

Definition if_samples (r max_seq_length SC : Z) (data_ar : list Z) : XM (list Z) :=
  for_fold (seqZ 0 (max_seq_length - 1)) (fun i data_ar =>
    let ind := i * dds_nchan + (r + 2) * DDS_MAX_CHANNELS in
    if ind <? SC then deref OutOfBounds (zset data_ar ind (dac_word 32767)) else mret data_ar)
    data_ar.

Definition sample_bank (max_seq_length SC : Z) (num : list Z) : XM (list Z) :=
  n ← gets dds_numclients;
  for_fold (seqZ 0 n) (fun j data_ar =>
    p ← get_xclient j;
    let r := radar p - 1 in
    let c := channel p - 1 in
    k ← deref OutOfBounds (zget num r);
    amp ← max_val r k;
    sl ← get2 dds_slots r c;
    data_ar ← client_samples r c amp (dsl_buf sl) data_ar;
    ifmode ← gets dds_ifmode;
    if ifmode =? 1 then if_samples r max_seq_length SC data_ar else mret data_ar)
    (replicate (Z.to_nat SC) 0).

Definition send_bank (SC : Z) (data_ar : list Z) : XM unit :=
  for_each (seqZ 0 DDS_MAX_CARDS) (fun card =>
    ics660_set_parameter card BANK_LENGTH (SC /c 2 - 1);;
    ics660_set_parameter card BANK_WIDTH 0;;
    ics660_set_parameter card TRANS_LENGTH (SC /c 2 - 1);;
    ics660_set_parameter card DAC_RESET RESET_VALUE;;
    command (WriteBank card data_ar);;
    command (WriteBank card data_ar));;
  for_each (seqZ 0 DDS_MAX_CARDS) (fun card => ics660_set_parameter card ICS_DAC_ENABLE 1);;
  for_each (seqZ 0 DDS_MAX_CARDS) (fun card => ics660_set_parameter card SET_DC_READY 1);;
  for_each (seqZ 0 DDS_MAX_CARDS) (fun card => ics660_set_parameter card RELEASE_RESETS 1).

Definition msi_timing_sequence (max_seq_length : Z) : XM unit :=
  let SC := dds_nchan * samples_per_output max_seq_length in
  for_each (seqZ 0 DDS_MAX_CARDS) (fun card => _ ← ics660_init card card; mret tt);;
  num ← activate;
  data_ar ← sample_bank max_seq_length SC num;
  send_bank SC data_ar.

(** ** Requests *)

Inductive dds_request :=
  | DdsRegisterSeq (type : ascii) (status : Z) (client : ControlPRM) (index : Z) (buf : TSGbuf)
  | DdsEnd
  | DdsRxfeSettings (type : ascii) (status : Z) (ifmode : Z)
  | DdsReady (type : ascii) (status : Z) (client : ControlPRM)
  | DdsPretrigger (type : ascii)
  | DdsBadCode.

(** DDS_REGISTER_SEQ. *)
Definition xdds_register_seq (type : ascii) (status : Z) (client : ControlPRM) (index : Z)
    (buf : TSGbuf) : XM (list packet) :=
  let r := radar client - 1 in
  let c := channel client - 1 in
  sl ← get2 dds_slots r c;
  l ← deref OutOfBounds (zset (dsl_seqs sl) index (Some buf));
  set_xslot r c (sl <| dsl_seqs := l |> <| old_pulse_index := -1 |>);;
  modify (fun s => s <| dds_old_id := -10 |>);;
  mret [PDriver type status].

(** DDS_CtrlProg_END sends no reply. *)
Definition xdds_end : XM (list packet) :=
  modify (fun s => s <| dds_old_id := -10 |>);; mret [].

(** DDS_CtrlProg_READY. *)
Definition xdds_ready (type : ascii) (status : Z) (client : ControlPRM) : XM (list packet) :=
  let r := radar client - 1 in
  let c := channel client - 1 in
  let index := current_pulseseq_index client in
  sl ← get2 dds_slots r c;
  (if (0 <=? dsl_ready sl) && (dsl_ready sl <? maxclients) then
     set_xclient (dsl_ready sl) client
   else
     n ← gets dds_numclients;
     set_xclient n client;;
     set_xslot r c (sl <| dsl_ready := n |>);;
     modify (fun s => s <| dds_numclients := n + 1 |>));;
  sl ← get2 dds_slots r c;
  (if index =? old_pulse_index sl then mret tt
   else
     o ← deref OutOfBounds (zget (dsl_seqs sl) index);
     buf ← deref NullDeref o;
     l ← dds_unpack buf;
     set_xslot r c (sl <| dsl_buf := l |>));;
  n ← gets dds_numclients;
  modify (fun s => s <| dds_numclients := n %c maxclients |>);;
  sl ← get2 dds_slots r c;
  set_xslot r c (sl <| old_pulse_index := index |>);;
  mret [PDriver type (if maxclients <=? n then -2 else status)].

(** DDS_PRETRIGGER, lines 422-434: the length and identification of the ready
    sequences. *)
Definition dds_sequence_id : XM (Z * Z) :=
  n ← gets dds_numclients;
  for_fold (seqZ 0 n) (fun i acc =>
    p ← get_xclient i;
    sl ← get2 dds_slots (radar p - 1) (channel p - 1);
    let '(len, id) := acc in
    let k := zlen (dsl_buf sl) in
    mret (if len <=? k then k else len,
          id + ((radar p - 1) * 1000 + (channel p - 1) * 100 + current_pulseseq_index p + 1)))
    (0, -1).

(** Every output silent. *)
Definition silence : XM unit :=
  for_each (seqZ 1 MAX_RADARS) (fun r =>
    for_each (seqZ 1 DDS_MAX_CHANNELS) (fun cc =>
      load_frequency 0 r cc dzero;; load_phase 0 r cc dzero)).

(** The tuning of one client: its transmit output, and its IF output. *)
Definition tune_client (p : ControlPRM) : XM unit :=
  let freq_in := dmul (d_of_int (tfreq p)) (d_of_int 1000) in
  for_each (seqZ 1 DDS_MAX_CHANNELS) (fun cc =>
    a ← get2 dds_active (radar p - 1) (cc - 1);
    if a =? channel p - 1 then
      load_frequency 0 (radar p) cc freq_in;;
      load_phase 0 (radar p) cc dzero;;
      load_filter_taps 0 (radar p) cc (trise p) DDS_STATE_TIME
    else mret tt);;
  ifmode ← gets dds_ifmode;
  when (ifmode =? 1)
    (load_frequency 0 (radar p + 2) (channel p)
       (ddiv (dmul (d_of_int (i32 (IF_FREQ - tfreq p))) (d_of_int 1000)) two);;
     load_filter_taps 0 (radar p + 2) (channel p) (trise p) DDS_STATE_TIME;;
     load_phase 0 (radar p + 2) (channel p) dzero).

Definition pretrigger_reset (new_seq_id : Z) : XM unit :=
  modify (fun s => s <| dds_numclients := 0 |>);;
  modify (fun s => s <| dds_slots ::= map (map (fun sl => sl <| dsl_ready := -1 |>)) |>);;
  modify (fun s => s <| dds_old_id := if new_seq_id <? 0 then -10 else new_seq_id |>).

Definition xdds_pretrigger (type : ascii) : XM (list packet) :=
  one_shot_b DDS_MASTER_INDEX;;
  ids ← dds_sequence_id;
  let '(max_seq_count, new_seq_id) := ids in
  old ← gets dds_old_id;
  when (negb (new_seq_id =? old)) (msi_timing_sequence max_seq_count);;
  silence;;
  n ← gets dds_numclients;
  for_each (seqZ 0 n) (fun i => p ← get_xclient i; tune_client p);;
  one_shot_b DDS_MASTER_INDEX;;
  pretrigger_reset new_seq_id;;
  mret [PDriver type 0].

Definition dds_handle (q : dds_request) : XM (list packet) :=
  match q with
  | DdsRegisterSeq t st p i buf => xdds_register_seq t st p i buf
  | DdsEnd => xdds_end
  | DdsRxfeSettings t st m =>
      modify (fun s => s <| dds_ifmode := u32 m |>);; mret [PDriver t st]
  | DdsReady t st p => xdds_ready t st p
  | DdsPretrigger t => xdds_pretrigger t
  | DdsBadCode => mret []
  end.

End Card.

(** The driver when it accepts its first connection. *)
Definition dds0 (junk_active : list (list Z)) (junk : ControlPRM) : dds :=
  mk_dds (replicate 2 (replicate 4 (mk_DSlot (replicate 4 None) [] (-1) (-1))))
    (replicate 8 junk) 0 junk_active (-10) IF_ENABLED [].

(** ** Specification *)

Definition xslot (s : dds) (r c : Z) : option DSlot := look2 (dds_slots s) r c.

(** The arrays have their declared sizes, the buffers hold the three decoded
    values, and the ready clients are those of distinct radar channels. *)
Definition xdds_ok (s : dds) : Prop :=
  zlen (dds_slots s) = MAX_RADARS ∧
  Forall (fun row => zlen row = MAX_CHANNELS) (dds_slots s) ∧
  zlen (dds_clients s) = maxclients ∧ 0 ≤ dds_numclients s < maxclients ∧
  (∀ r c sl, xslot s r c = Some sl →
     zlen (dsl_buf sl) ≤ MAX_TIME_SEQ_LEN ∧ Forall (fun w => -1 ≤ w ≤ 1) (dsl_buf sl)) ∧
  (∀ i p, i < dds_numclients s → zget (dds_clients s) i = Some p →
     valid_client p ∧ dsl_ready <$> xslot s (radar p - 1) (channel p - 1) = Some i).

(** ** Theorems: the unpacking of a sequence *)

Lemma tick_us_value : tick_us = SpecFloat.S754_finite false 5629499534213121 (-50).
Proof. vm_compute. reflexivity. Qed.

(** Ticks that stay within the delay are dropped. *)
Lemma store_skip n : ∀ us ws,
  forallb (fun k => negb (dltb STATE_DELAY (Nat.iter k (fun x => dadd x tick_us) us))) (seq 1 n) = true →
  store_ticks us ws = store_ticks (Nat.iter n (fun x => dadd x tick_us) us) (drop n ws).
Proof.
  induction n as [|n IH]; intros us ws H; [done|].
  rewrite seq_S, forallb_app in H. apply andb_true_iff in H as [H1 H2].
  rewrite (IH us ws H1). simpl in H2. rewrite andb_true_r in H2. apply negb_true_iff in H2.
  destruct (drop n ws) as [|w rest] eqn:E.
  - rewrite drop_ge; [done|]. apply (f_equal length) in E. rewrite length_drop in E. simpl in E. lia.
  - apply (f_equal (drop 1)) in E. rewrite drop_drop, Nat.add_1_r in E. simpl in E. rewrite drop_0 in E.
    rewrite E. cbn [store_ticks]. by rewrite H2.
Qed.

(** Once 131 microseconds are reached every tick is kept. *)
Lemma store_late us ws : at_least 131 us → store_ticks us ws = ws.
Proof.
  revert us. induction ws as [|w ws IH]; intros us H; [done|]. cbn [store_ticks].
  assert (at_least 131 (dadd us tick_us)) as H'.
  { rewrite tick_us_value. by apply dadd_at_least. }
  replace STATE_DELAY with (SpecFloat.S754_finite false 4573968371548160 (-45)) by (by vm_compute).
  rewrite (at_least_gt 131) by done. by rewrite IH.
Qed.

(** 25 ticks of 5 microseconds are dropped: in [double]s a tick is slightly
    longer, and the 26th is already after the delay. *)
Lemma store_ticks_drop ws : store_ticks dzero ws = drop 25 ws.
Proof.
  rewrite (store_skip 25) by (vm_compute; reflexivity).
  destruct (drop 25 ws) as [|w rest]; [done|]. cbn [store_ticks].
  set (x := dadd _ tick_us). assert (dltb STATE_DELAY x = true) as -> by (vm_compute; reflexivity).
  f_equal. destruct rest as [|w' rest]; [done|]. cbn [store_ticks].
  assert (dltb STATE_DELAY (dadd x tick_us) = true) as -> by (vm_compute; reflexivity).
  f_equal. apply store_late. right.
  exists 4749890231992321%positive, (-45). split; [vm_compute; reflexivity|].
  split; [done|]. by vm_compute.
Qed.

Lemma decode_range x : -1 ≤ dds_decodestate x ≤ 1.
Proof. unfold dds_decodestate. destruct (bits_set x X_bit), (bits_set x P_bit); lia. Qed.

Lemma held_range ratio codes reps : Forall (fun w => -1 ≤ w ≤ 1) (dds_held ratio codes reps).
Proof.
  revert reps. induction codes as [|x codes IH]; intros [|n reps]; simpl; try constructor.
  apply Forall_app. split; [|apply IH]. apply Forall_replicate, decode_range.
Qed.

(** The words READY keeps of a registered sequence. *)
Definition dds_words (buf : TSGbuf) : list Z :=
  drop 25 (dds_held (dds_ratio (seq_step buf)) (seq_code buf) (seq_rep buf)).

Lemma dds_unpack_run buf s :
  seq_len buf = zlen (seq_code buf) → seq_len buf = zlen (seq_rep buf) →
  zlen (dds_words buf) ≤ MAX_TIME_SEQ_LEN → dds_unpack buf s = Ok (dds_words buf, s).
Proof.
  intros H1 H2 Hfit. unfold dds_unpack. rewrite <- H1, <- H2, Z.ltb_irrefl. cbn [orb].
  rewrite !take_ge by (unfold zlen in *; lia). rewrite store_ticks_drop.
  fold (dds_words buf). by rewrite (proj2 (Z.leb_le _ _) Hfit).
Qed.

(** ** Theorems: DDS_CtrlProg_READY *)

Lemma set_xslot_run r c v sl s :
  xslot s r c = Some sl →
  ∃ l, set_xslot r c v s = Ok (tt, s <| dds_slots := l |>) ∧ zlen l = zlen (dds_slots s) ∧
    (∀ m, Forall (fun row => zlen row = m) (dds_slots s) → Forall (fun row => zlen row = m) l) ∧
    ∀ r' c', look2 l r' c' = if bool_decide (r' = r ∧ c' = c) then Some v else xslot s r' c'.
Proof.
  intros H. destruct (zset2_some (dds_slots s) r c v sl H) as (l & E & Hl).
  exists l. split; [|done]. unfold set_xslot. mrun. by rewrite E.
Qed.

(** The buffer READY keeps for a client of slot [sl]: that of the last READY if
    the sequence is the same, else the words of the registered sequence. *)
Definition ready_words (sl : DSlot) (index : Z) (words : list Z) : Prop :=
  if index =? old_pulse_index sl then words = dsl_buf sl
  else ∃ buf, zget (dsl_seqs sl) index = Some (Some buf) ∧
    seq_len buf = zlen (seq_code buf) ∧ seq_len buf = zlen (seq_rep buf) ∧
    words = dds_words buf ∧ zlen words ≤ MAX_TIME_SEQ_LEN.

(** The three fields READY changes. *)
Definition put_ready (s : dds) (l : list (list DSlot)) (cl : list ControlPRM) (n : Z) : dds :=
  s <| dds_slots := l |> <| dds_clients := cl |> <| dds_numclients := n |>.

(** [l] is the table of [s] with slot [(r, c)] replaced. *)
Definition slot_put (s : dds) (r c : Z) (v : DSlot) (l : list (list DSlot)) : Prop :=
  zlen l = zlen (dds_slots s) ∧
  (∀ m, Forall (fun row => zlen row = m) (dds_slots s) → Forall (fun row => zlen row = m) l) ∧
  ∀ r' c', look2 l r' c' = if bool_decide (r' = r ∧ c' = c) then Some v else xslot s r' c'.

Definition listed (sl : DSlot) : bool := (0 <=? dsl_ready sl) && (dsl_ready sl <? maxclients).

(** The index of a client that gets ready, and the count after it. *)
Definition ready_slot (s : dds) (sl : DSlot) : Z :=
  if listed sl then dsl_ready sl else dds_numclients s.
Definition ready_count_after (s : dds) (sl : DSlot) : Z :=
  if listed sl then dds_numclients s else dds_numclients s + 1.

Lemma set_xslot_put r c v w s l cl n :
  slot_put s r c w l →
  ∃ l', set_xslot r c v (put_ready s l cl n) = Ok (tt, put_ready s l' cl n) ∧ slot_put s r c v l'.
Proof.
  intros (H1 & H2 & H3). destruct (zset2_some l r c v w) as (l' & E & L1 & L2 & L3).
  { rewrite H3. by rewrite bool_decide_true. }
  exists l'. split.
  - unfold set_xslot. mrun. change (dds_slots (put_ready s l cl n)) with l. by rewrite E.
  - split; [lia|]. split; [by auto|]. intros r' c'. rewrite L3, H3.
    by destruct (bool_decide (r' = r ∧ c' = c)).
Qed.

Lemma slot_put_self s r c sl :
  xslot s r c = Some sl → slot_put s r c sl (dds_slots s).
Proof.
  intros H. split; [done|]. split; [done|]. intros r' c'. case_bool_decide as E; [|done].
  destruct E as [-> ->]. done.
Qed.

Lemma ready_first p r c sl s :
  xdds_ok s → xslot s r c = Some sl →
  ∃ l, (if (0 <=? dsl_ready sl) && (dsl_ready sl <? maxclients) then
     set_xclient (dsl_ready sl) p
   else
     n ← gets dds_numclients;
     set_xclient n p;;
     set_xslot r c (sl <| dsl_ready := n |>);;
     modify (fun s => s <| dds_numclients := n + 1 |>)) s =
    Ok (tt, put_ready s l (<[Z.to_nat (ready_slot s sl) := p]> (dds_clients s))
              (ready_count_after s sl)) ∧
    slot_put s r c (sl <| dsl_ready := ready_slot s sl |>) l.
Proof.
  intros (_ & _ & Hc & Hn & _) Hsl. unfold ready_slot, ready_count_after, listed.
  destruct ((0 <=? dsl_ready sl) && (dsl_ready sl <? maxclients)) eqn:E.
  - apply andb_true_iff in E as [E1 E2]. exists (dds_slots s). split.
    + unfold set_xclient. mrun. rewrite zset_Some by lia. mrun. by destruct s.
    + replace (sl <| dsl_ready := dsl_ready sl |>) with sl by (by destruct sl). by apply slot_put_self.
  - mrun. unfold set_xclient. mrun. rewrite zset_Some by lia. mrun.
    set (cl := <[_ := p]> _). set (n := dds_numclients s).
    destruct (set_xslot_put r c (sl <| dsl_ready := n |>) sl s (dds_slots s) cl n) as (l & El & Hl);
      [by apply slot_put_self|].
    exists l. split; [|done].
    replace (s <| dds_clients := cl |>) with (put_ready s (dds_slots s) cl n) by (by destruct s).
    rewrite (bind_ok _ _ _ _ _ El). done.
Qed.

Lemma put_ready_ok p v sl l s :
  let r := radar p - 1 in
  let c := channel p - 1 in
  xdds_ok s → valid_client p → xslot s r c = Some sl → slot_put s r c v l →
  dsl_ready v = ready_slot s sl → zlen (dsl_buf v) ≤ MAX_TIME_SEQ_LEN →
  Forall (fun w => -1 ≤ w ≤ 1) (dsl_buf v) →
  xdds_ok (put_ready s l (<[Z.to_nat (ready_slot s sl) := p]> (dds_clients s))
             (ready_count_after s sl %c maxclients)).
Proof.
  intros r c (H1 & H2 & H3 & Hn & Hbuf & Hcl) Hp Hsl (L1 & L2 & L3) Hv Hlen Hrange.
  set (k := ready_slot s sl) in *. set (n := ready_count_after s sl).
  assert (0 ≤ k < maxclients ∧ 0 ≤ n) as [Hk Hn0].
  { unfold k, n, ready_slot, ready_count_after. destruct (listed sl) eqn:E; [|lia].
    apply andb_true_iff in E as [E1 E2]. lia. }
  unfold xdds_ok, xslot in *. cbn [put_ready]. split; [change (zlen l = MAX_RADARS); lia|].
  split; [exact (L2 _ H2)|].
  split; [change (zlen (<[Z.to_nat k := p]> (dds_clients s)) = maxclients);
          unfold zlen; rewrite length_insert; exact H3|].
  split; [change (0 ≤ n %c maxclients < maxclients); by apply Z.rem_bound_pos|].
  split.
  - intros r' c' sl'. change (dds_slots (put_ready s l _ _)) with l. rewrite L3. case_bool_decide.
    + by intros [= <-].
    + apply Hbuf.
  - intros i q. change (dds_slots (put_ready s l _ _)) with l.
    change (dds_clients (put_ready s l ?cl _)) with cl.
    change (dds_numclients (put_ready s l _ ?m)) with m. intros Hi Hq.
    rewrite L3. destruct (decide (i = k)) as [->|Hik].
    + unfold zget in Hq. rewrite decide_True, list_lookup_insert_eq in Hq
        by (unfold zlen in H3; lia). injection Hq as <-. rewrite bool_decide_true by done.
      split; [done|]. simpl. by rewrite Hv.
    + pose proof (zget_Some_range _ _ _ Hq) as [Hi0 _].
      unfold zget in Hq. rewrite decide_True, list_lookup_insert_ne in Hq by lia.
      assert (zget (dds_clients s) i = Some q) as Hq' by (unfold zget; by rewrite decide_True).
      assert (i < dds_numclients s) as Hin.
      { unfold n, ready_count_after in Hi. unfold k, ready_slot in Hik. destruct (listed sl).
        - rewrite Z.rem_small in Hi by lia. done.
        - destruct (Z.eq_dec (dds_numclients s + 1) maxclients) as [E|E].
          + rewrite E in Hi. change (maxclients %c maxclients) with 0 in Hi. lia.
          + rewrite Z.rem_small in Hi by lia. lia. }
      destruct (Hcl i q Hin Hq') as [Hvq Hready]. split; [done|].
      case_bool_decide as E; [|done]. exfalso. apply Hik. destruct E as [Er Ec].
      rewrite Er, Ec in Hready. unfold xslot in Hready. rewrite Hsl in Hready. simpl in Hready.
      injection Hready as Hready. unfold k, ready_slot, listed. rewrite Hready.
      by rewrite (proj2 (Z.leb_le 0 i)), (proj2 (Z.ltb_lt i maxclients)) by lia.
Qed.

Lemma ready_unpack_run p sl k words s l cl n :
  let r := radar p - 1 in
  let c := channel p - 1 in
  let sl1 := sl <| dsl_ready := k |> in
  slot_put s r c sl1 l → ready_words sl (current_pulseseq_index p) words →
  ∃ l', (if current_pulseseq_index p =? old_pulse_index sl1 then mret tt
     else
       o ← deref OutOfBounds (zget (dsl_seqs sl1) (current_pulseseq_index p));
       buf ← deref NullDeref o;
       l ← dds_unpack buf;
       set_xslot r c (sl1 <| dsl_buf := l |>)) (put_ready s l cl n) =
     Ok (tt, put_ready s l' cl n) ∧ slot_put s r c (sl1 <| dsl_buf := words |>) l'.
Proof.
  intros r c sl1 Hl Hw. unfold ready_words in Hw.
  change (old_pulse_index sl1) with (old_pulse_index sl).
  change (dsl_seqs sl1) with (dsl_seqs sl).
  destruct (current_pulseseq_index p =? old_pulse_index sl).
  - exists l. split; [done|]. subst words. by destruct sl.
  - destruct Hw as (buf & Eb & B1 & B2 & -> & B3). rewrite Eb. mrun.
    rewrite (bind_ok _ _ _ _ _ (dds_unpack_run buf _ B1 B2 B3)). by eapply set_xslot_put.
Qed.

(** READY of a radar channel keeps, for each client, every tick of its
    registered sequence as the transmitter's 1, -1 or 0, held for the ticks of
    the card, less the first 25; the client has an index of the table of ready
    clients - its old one when it was ready before - and the driver's data stay
    well formed. *)
Theorem ready_drops_delay t st p sl words s :
  xdds_ok s → valid_client p → xslot s (radar p - 1) (channel p - 1) = Some sl →
  ready_words sl (current_pulseseq_index p) words →
  let k := ready_slot s sl in
  let n := ready_count_after s sl in
  ∃ s' sl', xdds_ready t st p s = Ok ([PDriver t (if maxclients <=? n then -2 else st)], s') ∧
    zget (dds_clients s') k = Some p ∧
    xslot s' (radar p - 1) (channel p - 1) = Some sl' ∧
    dsl_ready sl' = k ∧ dsl_buf sl' = words ∧
    dds_numclients s' = n %c maxclients ∧ xdds_ok s'.
Proof.
  intros Hok Hp Hsl Hw k n. set (r := radar p - 1) in *. set (c := channel p - 1) in *.
  unfold xdds_ready. fold r c. rewrite (bind_ok _ _ _ _ _ (get2_run dds_slots r c sl s Hsl)).
  destruct (ready_first p r c sl s Hok Hsl) as (l & E & Hl). fold k n in E, Hl.
  rewrite (bind_ok _ _ _ _ _ E). set (cl := <[Z.to_nat k := p]> (dds_clients s)) in *.
  assert (∀ v l m, slot_put s r c v l → get2 dds_slots r c (put_ready s l cl m) =
    Ok (v, put_ready s l cl m)) as Hget.
  { intros v l' m (_ & _ & H). apply get2_run.
    change (dds_slots (put_ready s l' cl m)) with l'. rewrite H. by rewrite bool_decide_true. }
  rewrite (bind_ok _ _ _ _ _ (Hget _ _ _ Hl)).
  set (sl1 := sl <| dsl_ready := k |>) in *.
  destruct (ready_unpack_run p sl k words s l cl n Hl Hw) as (l1 & E1 & Hl1).
  rewrite (bind_ok _ _ _ _ _ E1). mrun.
  change (dds_numclients (put_ready s l1 cl n)) with n.
  replace ((put_ready s l1 cl n) <| dds_numclients := n %c maxclients |>)
    with (put_ready s l1 cl (n %c maxclients)) by (by destruct s).
  rewrite (bind_ok _ _ _ _ _ (Hget _ _ _ Hl1)).
  set (sl2 := sl1 <| dsl_buf := words |> <| old_pulse_index := current_pulseseq_index p |>).
  destruct (set_xslot_put r c sl2 _ s l1 cl (n %c maxclients) Hl1) as (l2 & E2 & Hl2).
  rewrite (bind_ok _ _ _ _ _ E2). eexists _, sl2. split; [reflexivity|].
  pose proof Hok as (_ & _ & Hc & Hn & Hbuf & _).
  assert (zlen words ≤ MAX_TIME_SEQ_LEN ∧ Forall (fun w => -1 ≤ w ≤ 1) words) as [Hlen Hrange].
  { unfold ready_words in Hw. destruct (_ =? _); [subst words; by eapply Hbuf|].
    destruct Hw as (buf & _ & _ & _ & -> & ?). split; [done|]. apply Forall_drop, held_range. }
  split.
  { change (zget cl k = Some p). unfold cl, zget, k, ready_slot, listed.
    destruct (0 <=? dsl_ready sl) eqn:B1, (dsl_ready sl <? maxclients) eqn:B2; simpl;
      rewrite decide_True, list_lookup_insert_eq by (unfold zlen in Hc; lia); done. }
  split; [destruct Hl2 as (_ & _ & H); change (look2 l2 r c = Some sl2); rewrite H;
          by rewrite bool_decide_true|].
  split; [by destruct sl|]. split; [by destruct sl|]. split; [done|].
  apply (put_ready_ok p sl2); [done..|by destruct sl|by destruct sl|by destruct sl].
Qed.

(** ** What the card does with its commands

    [bank_of] is the bank of samples last written to card 0, and [output_of]
    the frequency, phase and pulse corner last loaded for an output. *)

Definition bank_step (b : option (list Z)) (c : dcmd) : option (list Z) :=
  match c with
  | WriteBank card words => if card =? 0 then Some words else b
  | _ => b
  end.

Definition bank_of (cs : list dcmd) : option (list Z) := fold_left bank_step cs None.

Record output := mk_output { o_freq : option double; o_phase : option double; o_corner : option Z }.

Definition output_step (r c : Z) (o : output) (cmd : dcmd) : output :=
  match cmd with
  | LoadFrequency card chip channel f =>
      if (card =? 0) && (chip =? r) && (channel =? c)
      then mk_output (Some f) (o_phase o) (o_corner o) else o
  | LoadPhase card chip channel ph =>
      if (card =? 0) && (chip =? r) && (channel =? c)
      then mk_output (o_freq o) (Some ph) (o_corner o) else o
  | LoadFilter card chip channel fc _ =>
      if (card =? 0) && (chip =? r) && (channel =? c)
      then mk_output (o_freq o) (o_phase o) (Some fc) else o
  | _ => o
  end.

Definition output_of (cs : list dcmd) (r c : Z) : output :=
  fold_left (output_step r c) cs (mk_output None None None).

(** ** The ready clients *)

Definition ready_list (s : dds) : list ControlPRM :=
  take (Z.to_nat (dds_numclients s)) (dds_clients s).

Definition is_client (r c : Z) (p : ControlPRM) : bool :=
  (radar p =? r) && (channel p =? c).

Definition has_client (l : list ControlPRM) (r c : Z) : bool := existsb (is_client r c) l.

Definition radar_count (l : list ControlPRM) (r : Z) : Z := countb (fun p => radar p =? r) l.

Definition buffer (s : dds) (r c : Z) : list Z := default [] (dsl_buf <$> xslot s (r - 1) (c - 1)).

Definition longest (s : dds) (l : list ControlPRM) : Z :=
  fold_right Z.max 0 (map (fun p => zlen (buffer s (radar p) (channel p))) l).

(** The identification of a set of sequences. *)
Definition sequences_id (l : list ControlPRM) : Z :=
  fold_right Z.add (-1) (map (fun p => (radar p - 1) * 1000 + (channel p - 1) * 100 +
    current_pulseseq_index p + 1) l).

(** The amplitude of each of [n] active channels of a radar. *)
Definition amplitude (r n : Z) : Z := default 0 (zget DDS_MAX_RADAR_OUTPUT (r - 1)) / n.

(** The two samples of a word of the bank. *)
Definition samples (w : Z) : Z * Z := (i16 (w mod 2 ^ 16), i16 (w / 2 ^ 16)).

(** Distinct channels in range: what [xdds_ok] gives of the ready clients. *)
Definition distinct_clients (l : list ControlPRM) : Prop :=
  Forall valid_client l ∧ NoDup (map (fun p => (radar p, channel p)) l).

Lemma ready_distinct s : xdds_ok s → distinct_clients (ready_list s).
Proof.
  intros (_ & _ & Hc & Hn & _ & Hcl).
  assert (∀ i p, ready_list s !! i = Some p → Z.of_nat i < dds_numclients s ∧
    zget (dds_clients s) (Z.of_nat i) = Some p) as Hget.
  { intros i p Hi. unfold ready_list in Hi. apply lookup_take_Some in Hi as [Hi Hlt].
    split; [lia|]. by rewrite zget_nat. }
  split.
  - apply Forall_lookup. intros i p Hi. destruct (Hget i p Hi) as [H1 H2]. by apply (Hcl _ _ H1 H2).
  - apply NoDup_alt. intros i j x Hi Hj. rewrite list_lookup_fmap in Hi, Hj.
    destruct (ready_list s !! i) as [p|] eqn:Ei; [|done].
    destruct (ready_list s !! j) as [q|] eqn:Ej; [|done]. simpl in Hi, Hj.
    destruct (Hget i p Ei) as [H1 H2], (Hget j q Ej) as [H3 H4].
    destruct (Hcl _ _ H1 H2) as [_ Hp], (Hcl _ _ H3 H4) as [_ Hq]. injection Hi as <-.
    injection Hj as Hr Hch. rewrite Hr, Hch in Hq. rewrite Hp in Hq. injection Hq. lia.
Qed.

Lemma distinct_mid l1 p l2 q :
  distinct_clients (l1 ++ p :: l2) → q ∈ l1 → is_client (radar p) (channel p) q = false.
Proof.
  intros [_ H] Hq. rewrite map_app in H. apply NoDup_app in H as (_ & H & _).
  unfold is_client. destruct (Z.eqb_spec (radar q) (radar p)) as [Er|]; [|done].
  destruct (Z.eqb_spec (channel q) (channel p)) as [Ec|]; [|done]. exfalso.
  apply (H (radar q, channel q)).
  - apply list_elem_of_In, in_map_iff. exists q. by rewrite <- list_elem_of_In.
  - rewrite Er, Ec. simpl. left.
Qed.

Lemma has_client_mid l1 p l2 :
  distinct_clients (l1 ++ p :: l2) → has_client l1 (radar p) (channel p) = false.
Proof.
  intros H. apply not_true_is_false. intros (q & Hq & E)%existsb_exists.
  apply list_elem_of_In in Hq. by rewrite (distinct_mid _ _ _ _ H Hq) in E.
Qed.

Lemma has_client_snoc l p r c :
  has_client (l ++ [p]) r c = has_client l r c || is_client r c p.
Proof. unfold has_client. rewrite existsb_app. simpl. by rewrite orb_false_r. Qed.

(** At most four clients of a radar are ready. *)
Lemma radar_count_bound l r : distinct_clients l → 0 ≤ radar_count l r ≤ 4.
Proof.
  intros [Hv Hd]. split; [apply countb_nonneg|]. unfold radar_count.
  assert (countb (fun p => radar p =? r) l = zlen (filter (fun p => radar p = r) l)) as ->.
  { clear. induction l as [|p l IH]; [done|]. simpl. rewrite filter_cons.
    destruct (Z.eqb_spec (radar p) r), (decide (radar p = r)); try done.
    rewrite zlen_cons, IH. lia. }
  assert (NoDup (map channel (filter (fun p => radar p = r) l))) as Hnd.
  { clear Hv. induction l as [|p l IH]; [by constructor|]. simpl in Hd.
    apply NoDup_cons in Hd as [Hp Hd]. rewrite filter_cons. case_decide as E; [|by auto].
    simpl. apply NoDup_cons. split; [|by auto]. intros Hin. apply Hp.
    apply list_elem_of_In, in_map_iff in Hin as (q & Eq & Hq). apply list_elem_of_In in Hq.
    apply list_elem_of_filter in Hq as [Eqr Hq]. apply list_elem_of_In, in_map_iff. exists q.
    rewrite <- list_elem_of_In. split; [congruence|done]. }
  assert (incl (map channel (filter (fun p => radar p = r) l)) [1; 2; 3; 4]) as Hincl.
  { intros c (q & <- & Hq)%in_map_iff. apply list_elem_of_In, list_elem_of_filter in Hq as [_ Hq].
    rewrite Forall_forall in Hv. destruct (Hv q Hq) as [_ Hc]. unfold MAX_CHANNELS in Hc. simpl. lia. }
  apply NoDup_ListNoDup in Hnd. apply NoDup_incl_length in Hincl; [|done].
  rewrite length_map in Hincl. simpl in Hincl. unfold zlen. lia.
Qed.

(** ** Theorems: the loops over the ready clients *)

Lemma wp_clients {A} (Inv : list ControlPRM → A → dds → Prop)
    (body : ControlPRM → A → XM A) acc (Q : A → dds → Prop) s n :
  n = dds_numclients s → 0 ≤ n ≤ zlen (dds_clients s) →
  (∀ l a s', Inv l a s' → dds_clients s' = dds_clients s) →
  Inv [] acc s →
  (∀ l p l' a s', ready_list s = l ++ p :: l' → Inv l a s' →
     wp (body p a) (Inv (l ++ [p])) s') →
  (∀ a s', Inv (ready_list s) a s' → Q a s') →
  wp (for_fold (seqZ 0 n) (fun j a => p ← get_xclient j; body p a) acc) Q s.
Proof.
  intros En Hn Hcl H0 Hbody HQ.
  apply wp_for_fold with (Inv := fun rest a s' => ∃ k, rest = seqZ k (n - k) ∧ 0 ≤ k ≤ n ∧
    Inv (take (Z.to_nat k) (dds_clients s)) a s').
  - exists 0. split; [by rewrite Z.sub_0_r|]. split; [lia|exact H0].
  - intros i rest a s' (k & E & Hk & HI).
    assert (k < n) as Hkn by (destruct (Z.eq_dec k n); [subst; rewrite Z.sub_diag in E; done|lia]).
    rewrite seqZ_cons' in E by lia. injection E as -> ->.
    destruct (zget_range (dds_clients s) k) as [p Ep]; [lia|].
    unfold get_xclient. wp_step. wp_step. wp_step. eapply wp_deref; [by rewrite (Hcl _ _ _ HI)|].
    assert (dds_clients s !! Z.to_nat k = Some p) as Ep'.
    { unfold zget in Ep. by rewrite decide_True in Ep by lia. }
    eapply wp_mono.
    + apply (Hbody (take (Z.to_nat k) (dds_clients s)) p (drop (S (Z.to_nat k)) (ready_list s)) a s'); [|exact HI].
      unfold ready_list. rewrite <- En. rewrite <- (take_drop_middle _ (Z.to_nat k) p) at 1.
      * rewrite take_take. by replace (Z.to_nat k `min` Z.to_nat n)%nat with (Z.to_nat k) by lia.
      * rewrite lookup_take. by rewrite decide_True by lia.
    + intros a' s2 H2. exists (k + 1). split; [f_equal; lia|]. split; [lia|].
      replace (Z.to_nat (k + 1)) with (S (Z.to_nat k)) by lia. by rewrite (take_S_r _ _ p).
  - intros a s' (k & E & Hk & HI). apply HQ. assert (k = n) as ->.
    { destruct (Z.eq_dec k n); [done|]. rewrite seqZ_cons' in E by lia. done. }
    unfold ready_list. by rewrite <- En.
Qed.

Lemma for_each_fold {S I} (l : list I) (body : I → M S unit) s :
  for_each l body s = for_fold l (fun i _ => body i) tt s.
Proof.
  revert s. induction l as [|i l IH]; intros s; [done|]. cbn [for_each for_fold].
  unfold mbind, m_bind. destruct (body i s) as [[[] s']|]; [apply IH|done].
Qed.

(** ** Theorems: the active channels *)

(** The table of active channels of a list of clients. *)
Definition active_table (l : list ControlPRM) (a : list (list Z)) : Prop :=
  ∀ r c, 0 < r ≤ MAX_RADARS → 0 < c ≤ DDS_MAX_CHANNELS →
    look2 a (r - 1) (c - 1) = Some (if has_client l r c then c - 1 else -1).

Definition counted (l : list ControlPRM) (num : list Z) : Prop :=
  zlen num = MAX_RADARS ∧
  ∀ r, 0 < r ≤ MAX_RADARS → zget num (r - 1) = Some (radar_count l r).

Lemma radar_count_snoc l p r :
  radar_count (l ++ [p]) r = radar_count l r + (if radar p =? r then 1 else 0).
Proof.
  unfold radar_count. induction l as [|q l IH]; simpl; [destruct (radar p =? r); lia|].
  rewrite IH. lia.
Qed.

Lemma activate_run s :
  xdds_ok s →
  wp activate (fun num s' => ∃ a, s' = s <| dds_active := a |> ∧
    active_table (ready_list s) a ∧ counted (ready_list s) num) s.
Proof.
  intros Hok. pose proof Hok as (_ & _ & Hc & Hn & _). pose proof (ready_distinct s Hok) as [Hv _].
  unfold activate. wp_step. wp_step. wp_step. wp_step. set (a0 := replicate _ _).
  set (s1 := s <| dds_active := a0 |>).
  apply wp_clients with (Inv := fun l num s' => ∃ a, s' = s <| dds_active := a |> ∧
    active_table l a ∧ counted l num); try done.
  - change (dds_clients s1) with (dds_clients s). change (dds_numclients s1) with (dds_numclients s). lia.
  - by intros l a s' (a' & -> & _).
  - exists a0. split; [done|]. split.
    + intros r c Hr Hch. unfold MAX_RADARS, DDS_MAX_CHANNELS in *.
      assert (r = 1 ∨ r = 2) as [-> | ->] by lia;
        (assert (c = 1 ∨ c = 2 ∨ c = 3 ∨ c = 4) as [-> |[-> |[-> | ->]]] by lia); done.
    + split; [done|]. intros r Hr. unfold MAX_RADARS in *.
      assert (r = 1 ∨ r = 2) as [-> | ->] by lia; done.
  - intros l p l' num s' E (a & -> & Ha & Hlen & Hnum).
    change (ready_list s1) with (ready_list s) in E. rewrite E in Hv.
    apply Forall_app in Hv as [_ [[Hr Hch] _]%Forall_cons].
    pose proof (Ha (radar p) (channel p) Hr Hch) as H0.
    destruct (zset2_some a (radar p - 1) (channel p - 1) (channel p - 1) _ H0) as (a' & Ea & _ & _ & La).
    wp_step. wp_step. wp_step. eapply wp_deref; [exact Ea|]. wp_step. wp_step. wp_step.
    eapply wp_deref; [by apply Hnum|]. eapply wp_deref; [by apply zset_Some; unfold MAX_RADARS in *; lia|].
    exists a'. split; [by destruct s|]. split.
    + intros r c Hr' Hc'. rewrite La, has_client_snoc. case_bool_decide as Erc.
      * destruct Erc as [Er Ec]. assert (r = radar p ∧ c = channel p) as [-> ->] by lia.
        unfold is_client. rewrite !Z.eqb_refl. by rewrite orb_true_r.
      * rewrite Ha by done. assert (is_client r c p = false) as ->; [|by rewrite orb_false_r].
        unfold is_client. destruct (Z.eqb_spec (radar p) r), (Z.eqb_spec (channel p) c); try done.
        exfalso. apply Erc. lia.
    + split; [unfold zlen in *; by rewrite length_insert|]. intros r Hr'. rewrite radar_count_snoc.
      destruct (Z.eqb_spec (radar p) r) as [->|Hne].
      * eapply zget_zset_eq. apply zset_Some. unfold MAX_RADARS in *; lia.
      * erewrite zget_zset_ne; [|apply zset_Some; unfold MAX_RADARS in *; lia|lia].
        rewrite Hnum by done. f_equal. lia.
Qed.

(** ** Theorems: the bank of samples *)

(** The index of sample [i] of output [(r, c)]. *)
Definition sample_index (r c i : Z) : Z := i * dds_nchan + ((r - 1) * DDS_MAX_CHANNELS + (c - 1)).

Lemma sample_index_inj r c i r' c' i' :
  0 < r ≤ MAX_RADARS → 0 < c ≤ DDS_MAX_CHANNELS →
  0 < r' ≤ MAX_RADARS → 0 < c' ≤ DDS_MAX_CHANNELS →
  sample_index r c i = sample_index r' c' i' → r = r' ∧ c = c' ∧ i = i'.
Proof. unfold sample_index, dds_nchan, MAX_RADARS, DDS_MAX_CHANNELS. lia. Qed.

(** Only the client's own channel of its radar is active as its own. *)
Definition own_channel (s : dds) (r c : Z) : Prop :=
  ∀ c', 0 < c' ≤ DDS_MAX_CHANNELS → ∃ a, look2 (dds_active s) (r - 1) (c' - 1) = Some a ∧
    (a =? c - 1) = (c' =? c).

Lemma active_own l s r c :
  active_table l (dds_active s) → 0 < r ≤ MAX_RADARS → 0 < c ≤ DDS_MAX_CHANNELS →
  has_client l r c = true → own_channel s r c.
Proof.
  intros Ha Hr Hc Hh c' Hc'. eexists. split; [by apply Ha|].
  destruct (has_client l r c') eqn:E.
  - destruct (Z.eqb_spec (c' - 1) (c - 1)), (Z.eqb_spec c' c); try done; lia.
  - destruct (Z.eqb_spec (-1) (c - 1)); [lia|]. destruct (Z.eqb_spec c' c) as [->|]; [|done].
    by rewrite Hh in E.
Qed.

(** One sample time of a client. *)
Lemma sample_time r c amp i w seq (data : list Z) s :
  0 < c ≤ DDS_MAX_CHANNELS → own_channel s r c →
  zget seq i = Some w → 0 ≤ sample_index r c i < zlen data →
  for_fold (seqZ 0 DDS_MAX_CHANNELS) (fun cc data_ar =>
      a ← get2 dds_active (r - 1) cc;
      if a =? c - 1 then
        w ← deref OutOfBounds (zget seq i);
        deref OutOfBounds (zset data_ar (i * dds_nchan + ((r - 1) * DDS_MAX_CHANNELS + cc))
                             (dac_word (i16 w * amp)))
      else mret data_ar) data s =
  Ok (<[Z.to_nat (sample_index r c i) := dac_word (i16 w * amp)]> data, s).
Proof.
  intros Hc Ha Hw Hi. set (body := fun cc data_ar => _). set (data' := <[_ := _]> data).
  assert (∀ cc, 0 ≤ cc < 4 → cc ≠ c - 1 → ∀ d, body cc d s = Ok (d, s)) as Hother.
  { intros cc Hcc Hne d. destruct (Ha (cc + 1)) as (a & Ea & E); [unfold DDS_MAX_CHANNELS; lia|].
    replace (cc + 1 - 1) with cc in Ea by lia. unfold body.
    rewrite (bind_ok _ _ _ _ _ (get2_run _ _ _ _ _ Ea)), E.
    destruct (Z.eqb_spec (cc + 1) c); [lia|done]. }
  assert (body (c - 1) data s = Ok (data', s)) as Hown.
  { destruct (Ha c Hc) as (a & Ea & E). unfold body.
    rewrite (bind_ok _ _ _ _ _ (get2_run _ _ _ _ _ Ea)), E, Z.eqb_refl, Hw. mrun.
    by rewrite (zset_Some data _ _ Hi). }
  assert (∀ l, (∀ cc, cc ∈ l → 0 ≤ cc < 4 ∧ cc ≠ c - 1) → ∀ d, for_fold l body d s = Ok (d, s)) as Hl.
  { induction l as [|cc l IH]; intros H d; [done|]. cbn [for_fold].
    rewrite (bind_ok _ _ _ _ _ (Hother cc ltac:(apply H; left) ltac:(apply H; left) d)).
    apply IH. intros x Hx. apply H. by right. }
  assert (seqZ 0 DDS_MAX_CHANNELS = seqZ 0 (c - 1) ++ (c - 1) :: seqZ c (4 - c)) as ->.
  { unfold DDS_MAX_CHANNELS in *. replace 4 with ((c - 1) + (5 - c)) at 1 by lia.
    rewrite seqZ_app by lia. rewrite (seqZ_cons' _ (5 - c)) by lia. do 2 f_equal; f_equal; lia. }
  rewrite for_fold_app, (bind_ok _ _ _ data s).
  2: { apply Hl. intros cc Hcc%elem_of_seqZ. unfold DDS_MAX_CHANNELS in *. lia. }
  cbn [for_fold]. rewrite (bind_ok _ _ _ _ _ Hown). apply Hl.
  intros cc Hcc%elem_of_seqZ. unfold DDS_MAX_CHANNELS in *. lia.
Qed.

(** The samples of one client at their indices, the others unchanged. *)
Definition samples_put (r c amp : Z) (seq data data' : list Z) : Prop :=
  zlen data' = zlen data ∧
  (∀ i w, zget seq i = Some w → zget data' (sample_index r c i) = Some (dac_word (i16 w * amp))) ∧
  ∀ k, (∀ i, 0 ≤ i < zlen seq → k ≠ sample_index r c i) → zget data' k = zget data k.

Lemma client_samples_run r c amp seq data s :
  0 < r ≤ MAX_RADARS → 0 < c ≤ DDS_MAX_CHANNELS → own_channel s r c →
  dds_nchan * zlen seq ≤ zlen data →
  wp (client_samples (r - 1) (c - 1) amp seq data) (fun data' s' =>
    s' = s ∧ samples_put r c amp seq data data') s.
Proof.
  intros Hr Hc Ha Hlen. unfold client_samples.
  apply wp_for_fold with (Inv := fun rest d s' => s' = s ∧ ∃ k, rest = seqZ k (zlen seq - k) ∧
    0 ≤ k ≤ zlen seq ∧ samples_put r c amp (take (Z.to_nat k) seq) data d).
  - split; [done|]. exists 0. split; [f_equal; lia|]. pose proof (zlen_nonneg seq).
    split; [lia|]. split; [done|]. split; [|done]. intros i w Hi%zget_Some_range.
    change (0 ≤ i < 0) in Hi. lia.
  - intros i rest d s' [-> (k & E & Hk & Hd1 & Hd2 & Hd3)].
    assert (k < zlen seq) as Hkn
      by (destruct (Z.eq_dec k (zlen seq)); [subst; rewrite Z.sub_diag in E; done|lia]).
    rewrite seqZ_cons' in E by lia. injection E as -> ->.
    destruct (zget_range seq k) as [w Ew]; [lia|].
    assert (0 ≤ sample_index r c k < zlen d) as Hi.
    { rewrite Hd1. unfold sample_index, dds_nchan, MAX_RADARS, DDS_MAX_CHANNELS in *. nia. }
    unfold wp. rewrite (sample_time r c amp k w seq d s Hc Ha Ew Hi). split; [done|].
    exists (k + 1). split; [f_equal; lia|]. split; [lia|].
    replace (Z.to_nat (k + 1)) with (S (Z.to_nat k)) by lia.
    assert (seq !! Z.to_nat k = Some w) as Ew' by (unfold zget in Ew; by rewrite decide_True in Ew by lia).
    rewrite (take_S_r _ _ w Ew').
    assert (zlen (take (Z.to_nat k) seq) = k) as Htk
      by (unfold zlen in *; rewrite length_take; lia).
    split; [unfold zlen in *; by rewrite length_insert|]. split.
    + intros j w' Hj. pose proof (zget_Some_range _ _ _ Hj) as Hjr.
      rewrite zlen_app, Htk in Hjr. change (zlen [w]) with 1 in Hjr.
      destruct (Z.eq_dec j k) as [->|Hne].
      * pose proof (zget_mid (take (Z.to_nat k) seq) [] w) as Hm. rewrite Htk, Hj in Hm. injection Hm as ->.
        unfold zget. rewrite decide_True by lia. apply list_lookup_insert_eq. unfold zlen in Hi. lia.
      * unfold zget. rewrite decide_True by (unfold sample_index, dds_nchan, DDS_MAX_CHANNELS in *; lia).
        rewrite list_lookup_insert_ne by (unfold sample_index, dds_nchan, DDS_MAX_CHANNELS in *; lia).
        specialize (Hd2 j w'). unfold zget in Hd2, Hj. rewrite decide_True in Hj by lia.
        rewrite lookup_app_l in Hj by (unfold zlen in Htk; lia).
        rewrite !decide_True in Hd2 by (unfold sample_index, dds_nchan, DDS_MAX_CHANNELS in *; lia).
        by apply Hd2.
    + intros j Hj. rewrite zlen_app, Htk in Hj. change (zlen [w]) with 1 in Hj.
      rewrite <- Hd3 by (intros x Hx; apply Hj; rewrite Htk in Hx; lia).
      unfold zget. case_decide; [|done]. apply list_lookup_insert_ne.
      specialize (Hj k ltac:(lia)). lia.
  - intros d s' [-> (k & E & Hk & Hd)]. split; [done|]. assert (k = zlen seq) as ->.
    { destruct (Z.eq_dec k (zlen seq)); [done|]. rewrite seqZ_cons' in E by lia. done. }
    rewrite take_ge in Hd by (unfold zlen; lia). done.
Qed.

(** The IF signal is on the outputs of chips 3 and 4. *)
Lemma if_samples_run r M SC (data : list Z) s :
  0 < r ≤ MAX_RADARS → zlen data = SC →
  wp (if_samples (r - 1) M SC data) (fun data' s' => s' = s ∧ zlen data' = SC ∧
    ∀ r' c' i, 0 < r' ≤ MAX_RADARS → 0 < c' ≤ DDS_MAX_CHANNELS →
      zget data' (sample_index r' c' i) = zget data (sample_index r' c' i)) s.
Proof.
  intros Hr Hlen. unfold if_samples.
  apply wp_for_fold with (Inv := fun rest d s' => s' = s ∧ zlen d = SC ∧
    Forall (fun i => 0 ≤ i) rest ∧
    ∀ r' c' i, 0 < r' ≤ MAX_RADARS → 0 < c' ≤ DDS_MAX_CHANNELS →
      zget d (sample_index r' c' i) = zget data (sample_index r' c' i)).
  - split_and!; try done. apply Forall_forall. intros i Hi%elem_of_seqZ. lia.
  - intros i rest d s' (-> & Hd & [Hi Hrest]%Forall_cons & Hsame).
    set (ind := i * dds_nchan + (r - 1 + 2) * DDS_MAX_CHANNELS).
    destruct (Z.ltb_spec ind SC) as [Hlt|]; [|by apply wp_ret].
    assert (0 ≤ ind) as Hind by (unfold ind, dds_nchan, DDS_MAX_CHANNELS in *; lia).
    eapply wp_deref; [apply zset_Some; lia|]. split_and!; try done.
    + unfold zlen in *. by rewrite length_insert.
    + intros r' c' j Hr' Hc'. rewrite <- Hsame by done. unfold zget. case_decide as Hj; [|done].
      apply list_lookup_insert_ne. intros E. apply Z2Nat.inj in E; [|done|done].
      unfold ind, sample_index, dds_nchan, DDS_MAX_CHANNELS, MAX_RADARS in *. lia.
  - intros d s' (-> & Hd & _ & Hsame). done.
Qed.

(** The word of sample [i] of output [(r, c)], for the clients [l]. *)
Definition out_word (s : dds) (num l : list ControlPRM) (r c i : Z) : Z :=
  if has_client l r c
  then dac_word (default 0 (zget (buffer s r c) i) * amplitude r (radar_count num r)) else 0.

Lemma max_val_run r n s :
  0 < r ≤ MAX_RADARS → 0 < n ≤ DDS_MAX_CHANNELS → max_val (r - 1) n s = Ok (amplitude r n, s).
Proof.
  unfold MAX_RADARS, DDS_MAX_CHANNELS. intros Hr Hn.
  assert (r = 1 ∨ r = 2) as [-> | ->] by lia;
    (assert (n = 1 ∨ n = 2 ∨ n = 3 ∨ n = 4) as [-> |[-> |[-> | ->]]] by lia); reflexivity.
Qed.

Lemma i16_small w : -1 ≤ w ≤ 1 → i16 w = w.
Proof. intros H. assert (w = -1 ∨ w = 0 ∨ w = 1) as [-> |[-> | ->]] by lia; reflexivity. Qed.

Lemma radar_count_pos l p : p ∈ l → 0 < radar_count l (radar p).
Proof.
  unfold radar_count. intros H. induction H as [p l|p q l H IH]; simpl.
  - rewrite Z.eqb_refl. pose proof (countb_nonneg (fun q => radar q =? radar p) l). lia.
  - destruct (radar q =? radar p); lia.
Qed.

Lemma buffer_at s p :
  xdds_ok s → valid_client p →
  ∃ sl, get2 dds_slots (radar p - 1) (channel p - 1) s = Ok (sl, s) ∧
    buffer s (radar p) (channel p) = dsl_buf sl ∧ Forall (fun w => -1 ≤ w ≤ 1) (dsl_buf sl) ∧
    zlen (dsl_buf sl) ≤ MAX_TIME_SEQ_LEN.
Proof.
  intros (H1 & H2 & _ & _ & Hb & _) [Hr Hc].
  destruct (look2_dims _ _ _ (radar p - 1) (channel p - 1) H1 H2) as [sl E]; [lia|lia|].
  exists sl. split; [by apply get2_run|]. destruct (Hb _ _ _ E) as [Hl Hf].
  split; [|done]. unfold buffer, xslot. by rewrite E.
Qed.

(** The samples of a further client. *)
Lemma out_word_snoc s num l p l' data data' SO :
  distinct_clients (l ++ p :: l') → valid_client p →
  zlen (buffer s (radar p) (channel p)) ≤ SO →
  Forall (fun w => -1 ≤ w ≤ 1) (buffer s (radar p) (channel p)) →
  samples_put (radar p) (channel p) (amplitude (radar p) (radar_count num (radar p)))
    (buffer s (radar p) (channel p)) data data' →
  (∀ r c i, 0 < r ≤ MAX_RADARS → 0 < c ≤ DDS_MAX_CHANNELS → 0 ≤ i < SO →
     zget data (sample_index r c i) = Some (out_word s num l r c i)) →
  ∀ r c i, 0 < r ≤ MAX_RADARS → 0 < c ≤ DDS_MAX_CHANNELS → 0 ≤ i < SO →
     zget data' (sample_index r c i) = Some (out_word s num (l ++ [p]) r c i).
Proof.
  intros Hd [Hpr Hpc] Hlen Hf (_ & Hin & Hout) Hl r c i Hr Hc Hi.
  unfold out_word. rewrite has_client_snoc. unfold is_client.
  destruct (decide (r = radar p ∧ c = channel p)) as [[-> ->]|Hne].
  - rewrite !Z.eqb_refl, orb_true_r. set (buf := buffer _ _ _) in *.
    destruct (Z.lt_ge_cases i (zlen buf)) as [Hib|Hib].
    + destruct (zget_range buf i) as [w Ew]; [lia|]. rewrite (Hin i w Ew), Ew. simpl.
      rewrite i16_small; [done|]. rewrite Forall_lookup in Hf. apply (Hf (Z.to_nat i)).
      unfold zget in Ew. by rewrite decide_True in Ew by lia.
    + rewrite Hout, Hl by (try done; intros j Hj E;
        apply sample_index_inj in E as (_ & _ & ->); try done; lia).
      unfold out_word. rewrite (has_client_mid _ _ _ Hd). f_equal.
      assert (zget buf i = None) as ->; [|done].
      unfold zget. rewrite decide_True by lia. apply lookup_ge_None. unfold zlen in Hib. lia.
  - rewrite Hout, Hl by (try done; intros j Hj E;
      apply sample_index_inj in E as (? & ? & _); try done; naive_solver).
    unfold out_word. assert ((radar p =? r) && (channel p =? c) = false) as ->; [|by rewrite orb_false_r].
    destruct (Z.eqb_spec (radar p) r), (Z.eqb_spec (channel p) c); try done. naive_solver.
Qed.

Lemma sample_bank_run s a num M SO :
  xdds_ok s → let s1 := s <| dds_active := a |> in
  active_table (ready_list s) a → counted (ready_list s) num →
  Forall (fun p => zlen (buffer s (radar p) (channel p)) ≤ SO) (ready_list s) → 0 ≤ SO →
  wp (sample_bank M (dds_nchan * SO) num) (fun data s' => s' = s1 ∧
    zlen data = dds_nchan * SO ∧
    ∀ r c i, 0 < r ≤ MAX_RADARS → 0 < c ≤ DDS_MAX_CHANNELS → 0 ≤ i < SO →
      zget data (sample_index r c i) = Some (out_word s (ready_list s) (ready_list s) r c i)) s1.
Proof.
  intros Hok s1 Ha [_ Hnum] Hlens HSO. pose proof (ready_distinct s Hok) as Hd.
  assert (xdds_ok s1) as Hok1 by (revert Hok; by destruct s).
  pose proof Hok as (_ & _ & Hc & Hn & _). unfold sample_bank. wp_step. wp_step.
  apply wp_clients with (Inv := fun l d s' => s' = s1 ∧ zlen d = dds_nchan * SO ∧
    ∀ r c i, 0 < r ≤ MAX_RADARS → 0 < c ≤ DDS_MAX_CHANNELS → 0 ≤ i < SO →
      zget d (sample_index r c i) = Some (out_word s (ready_list s) l r c i)); try done.
  - change (dds_clients s1) with (dds_clients s). change (dds_numclients s1) with (dds_numclients s). lia.
  - by intros l d s' (-> & _).
  - split; [done|]. split.
    + unfold zlen. rewrite length_replicate. unfold dds_nchan. lia.
    + intros r c i Hr Hch Hi. unfold zget. unfold sample_index, dds_nchan, DDS_MAX_CHANNELS, MAX_RADARS in *.
      rewrite decide_True by lia. apply lookup_replicate. split; [done|]. lia.
  - intros l p l' d s' E (-> & Hlen & Hsofar). change (ready_list s1) with (ready_list s) in E.
    assert (p ∈ ready_list s) as Hin by (rewrite E; apply elem_of_app; right; left).
    pose proof Hd as [Hv _]. rewrite Forall_forall in Hv, Hlens.
    specialize (Hv p Hin) as Hvp. pose proof Hvp as [Hr Hch]. specialize (Hlens p Hin).
    destruct (buffer_at s1 p Hok1 Hvp) as (sl & Esl & Eb & Hf & _).
    change (buffer s1 (radar p) (channel p)) with (buffer s (radar p) (channel p)) in Eb.
    wp_step. eapply wp_deref; [by apply Hnum|].
    wp_step. unfold wp at 1. rewrite max_val_run by
      (try done; pose proof (radar_count_pos _ _ Hin);
       pose proof (radar_count_bound (ready_list s) (radar p) (ready_distinct s Hok));
       unfold DDS_MAX_CHANNELS; lia).
    wp_step. unfold wp at 1. rewrite Esl. wp_step.
    eapply wp_mono; [apply client_samples_run; try done|].
    { eapply active_own; [exact Ha|done|done|]. apply existsb_exists. exists p.
      rewrite <- list_elem_of_In. split; [done|]. unfold is_client. by rewrite !Z.eqb_refl. }
    { rewrite <- Eb, Hlen. unfold dds_nchan. lia. }
    intros d' s' [-> Hput]. rewrite <- Eb in Hput, Hf.
    assert (∀ r c i, 0 < r ≤ MAX_RADARS → 0 < c ≤ DDS_MAX_CHANNELS → 0 ≤ i < SO →
      zget d' (sample_index r c i) = Some (out_word s (ready_list s) (l ++ [p]) r c i)) as Hnext.
    { rewrite E in Hd. by eapply out_word_snoc. }
    destruct Hput as (Hl' & _). wp_step. wp_step. destruct (_ =? 1); [|wp_step; split_and!; try done; lia].
    eapply wp_mono; [apply if_samples_run; [done|lia]|]. intros d2 s2 (-> & Hl2 & Hsame).
    split; [done|]. split; [done|]. intros r c i Hr' Hc' Hi. rewrite Hsame by done. by apply Hnext.
Qed.

(** ** Theorems: the length and identification of the ready sequences *)

Lemma dds_longest_bound s l p : p ∈ l → zlen (buffer s (radar p) (channel p)) ≤ longest s l.
Proof.
  unfold longest. intros H. induction H as [p l|p q l H IH]; simpl; lia.
Qed.

Lemma longest_range s l : 0 ≤ longest s l.
Proof. unfold longest. induction l as [|p l IH]; simpl; lia. Qed.

Lemma longest_max s l B : 
  0 ≤ B → Forall (fun p => zlen (buffer s (radar p) (channel p)) ≤ B) l → longest s l ≤ B.
Proof. unfold longest. intros HB H. induction H; simpl; lia. Qed.

Lemma longest_snoc s l p :
  longest s (l ++ [p]) = Z.max (longest s l) (zlen (buffer s (radar p) (channel p))).
Proof.
  unfold longest. induction l as [|q l IH]; simpl; [|rewrite IH; lia].
  pose proof (zlen_nonneg (buffer s (radar p) (channel p))). lia.
Qed.

Lemma sequences_id_snoc l p :
  sequences_id (l ++ [p]) = sequences_id l + ((radar p - 1) * 1000 + (channel p - 1) * 100 +
    current_pulseseq_index p + 1).
Proof. unfold sequences_id. induction l as [|q l IH]; simpl; [lia|rewrite IH; lia]. Qed.

(** Only the commands of the driver change. *)
Definition same_but_cmds (s s' : dds) : Prop := ∃ cs, s' = s <| cmds := cs |>.

Lemma dds_sequence_id_run s cs :
  xdds_ok s →
  dds_sequence_id (s <| cmds := cs |>) =
    Ok ((longest s (ready_list s), sequences_id (ready_list s)), s <| cmds := cs |>).
Proof.
  intros Hok. set (s1 := s <| cmds := cs |>). pose proof Hok as (_ & _ & Hc & Hn & _).
  pose proof (ready_distinct s Hok) as [Hv _]. rewrite Forall_forall in Hv.
  enough (wp dds_sequence_id (fun x s' => s' = s1 ∧
    x = (longest s (ready_list s), sequences_id (ready_list s))) s1) as H.
  { apply wp_run in H as (x & s' & E & -> & ->). exact E. }
  unfold dds_sequence_id. wp_step. wp_step.
  apply wp_clients with (Inv := fun l x s' => s' = s1 ∧ x = (longest s l, sequences_id l)); try done.
  - change (dds_clients s1) with (dds_clients s). change (dds_numclients s1) with (dds_numclients s). lia.
  - by intros l x s' [-> _].
  - intros l p l' x s' E [-> ->]. change (ready_list s1) with (ready_list s) in E.
    assert (valid_client p) as Hp by (apply Hv; rewrite E; apply elem_of_app; right; left).
    destruct (buffer_at s1 p) as (sl & Esl & Eb & _); [by destruct s|done|].
    wp_step. unfold wp at 1. rewrite Esl. wp_step. split; [done|].
    rewrite longest_snoc, sequences_id_snoc.
    change (buffer s1 (radar p) (channel p)) with (buffer s (radar p) (channel p)) in Eb. rewrite Eb.
    f_equal. destruct (Z.leb_spec (longest s l) (zlen (dsl_buf sl))); lia.
Qed.

(** [SO]: the 100 microseconds are 20 samples. *)
Lemma samples_per_output_eq M :
  0 ≤ M ≤ MAX_TIME_SEQ_LEN → samples_per_output M = M + 20.
Proof.
  intros HM. change MAX_TIME_SEQ_LEN with 1048576 in HM. unfold samples_per_output.
  replace (ddiv (d_lit 1 4) DDS_STATE_TIME) with (d_of_int 20) by (by vm_compute).
  apply d_to_int_represents; [|unfold int_max; lia].
  apply dadd_represents; [apply d_of_int_represents; lia|apply d_of_int_represents; lia|lia].
Qed.

(** ** Theorems: the commands *)

(** [m] only appends commands, and [P] holds of what it appends. *)
Definition appends {A} (P : list dcmd → Prop) (m : XM A) : Prop :=
  ∀ s, ∃ a L, m s = Ok (a, s <| cmds := (cmds s ++ L)%list |>) ∧ P L.

(** What is appended concerns no output of chips 1 and 2, or no bank. *)
Definition no_tuning (L : list dcmd) : Prop :=
  Forall (fun c => match c with
    | LoadFrequency _ _ _ _ | LoadPhase _ _ _ _ | LoadFilter _ _ _ _ _ => False | _ => True end) L.
Definition no_bank (L : list dcmd) : Prop :=
  Forall (fun c => match c with WriteBank _ _ => False | _ => True end) L.

Lemma bank_of_app cs L : no_bank L → bank_of (cs ++ L) = bank_of cs.
Proof.
  unfold bank_of. rewrite fold_left_app. generalize (fold_left bank_step cs None). intros b H.
  revert b. induction H as [ | cmd L Hcmd H IH]; intros b; [done|]. simpl. rewrite IH. by destruct cmd.
Qed.

Lemma appends_command (P : list dcmd → Prop) c : P [c] → appends P (command c).
Proof. intros H s. exists tt, [c]. split; [by destruct s|done]. Qed.

Lemma appends_ret {A} (P : list dcmd → Prop) (a : A) : P [] → appends P (mret a).
Proof. intros H s. exists a, []. split; [|done]. rewrite app_nil_r. by destruct s. Qed.

Lemma appends_bind {A B} (P : dcmd → Prop) (m : XM A) (f : A → XM B) :
  appends (Forall P) m → (∀ a, appends (Forall P) (f a)) → appends (Forall P) (m ≫= f).
Proof.
  intros Hm Hf s. destruct (Hm s) as (a & L & E & H). rewrite (bind_ok _ _ _ _ _ E).
  destruct (Hf a (s <| cmds := (cmds s ++ L)%list |>)) as (b & L' & E' & H').
  exists b, (L ++ L')%list. rewrite E'. split; [|by apply Forall_app].
  rewrite app_assoc. by destruct s.
Qed.

Lemma appends_for_each {I} (P : dcmd → Prop) (l : list I) (body : I → XM unit) :
  (∀ i, appends (Forall P) (body i)) → appends (Forall P) (for_each l body).
Proof.
  intros H. induction l as [|i l IH]; cbn [for_each]; [by apply appends_ret; constructor|].
  apply appends_bind; [done|]. by intros _.
Qed.

Ltac appends :=
  repeat (intros; lazymatch goal with
  | |- appends _ (_ ≫= _) => apply appends_bind
  | |- appends _ (for_each _ _) => apply appends_for_each
  | |- appends _ (mret _) => apply appends_ret; constructor
  | |- appends _ _ => apply appends_command; constructor; [exact I|constructor]
  end).

Section Commands.
Context (c_log : double → double) (c_pow : double → double → double).

Lemma init_appends card i : appends no_tuning (ics660_init c_log c_pow card i).
Proof.
  unfold no_tuning, ics660_init, dc60m_init, dc60m_chip, dc60m_reset.
  appends.
Qed.

Lemma one_shot_run card s :
  one_shot_b card s = Ok (tt, s <| cmds := (cmds s ++
    [SetChip card SYNC_MODE 2 229; SetChip card SYNC_MODE 2 101])%list |>).
Proof. destruct s as [? ? ? ? ? ? cs]. cbv -[app]. by rewrite <- app_assoc. Qed.

End Commands.

(** ** Theorems: the tuning of the outputs *)

(** Output [(r, c)] after the commands [cs] is tuned for client [p]. *)
Definition tuned (cs : list dcmd) (p : ControlPRM) : Prop :=
  output_of cs (radar p) (channel p) =
    mk_output (Some (dmul (d_of_int (tfreq p)) (d_of_int 1000))) (Some dzero) (Some (trise p)).

Definition silent (cs : list dcmd) (r c : Z) : Prop :=
  o_freq (output_of cs r c) = Some dzero ∧ o_phase (output_of cs r c) = Some dzero.

Lemma output_of_app cs L r c : output_of (cs ++ L) r c = fold_left (output_step r c) L (output_of cs r c).
Proof. unfold output_of. apply fold_left_app. Qed.

Lemma silence_run s :
  ∃ L, silence s = Ok (tt, s <| cmds := (cmds s ++ L)%list |>) ∧ no_bank L ∧
    ∀ r c, 0 < r ≤ MAX_RADARS → 0 < c ≤ DDS_MAX_CHANNELS → silent (cmds s ++ L) r c.
Proof.
  set (L := flat_map (fun r => flat_map (fun cc => [LoadFrequency 0 r cc dzero; LoadPhase 0 r cc dzero])
    [1; 2; 3; 4]) [1; 2]). exists L. split; [|split].
  - unfold silence, MAX_RADARS, DDS_MAX_CHANNELS. change (seqZ 1 2) with [1; 2].
    change (seqZ 1 4) with [1; 2; 3; 4]. cbn [for_each]. unfold load_frequency, load_phase, command. mrun.
    destruct s. cbv -[app dzero]. do 2 f_equal. by rewrite <- !app_assoc.
  - repeat constructor.
  - intros r c Hr Hc. unfold silent. rewrite output_of_app. generalize (output_of (cmds s) r c).
    unfold MAX_RADARS, DDS_MAX_CHANNELS in *. intros o.
    assert (r = 1 ∨ r = 2) as [-> | ->] by lia;
      (assert (c = 1 ∨ c = 2 ∨ c = 3 ∨ c = 4) as [-> |[-> |[-> | ->]]] by lia);
      (split; reflexivity).
Qed.

Section Tuning.

Lemma command_run c s cs :
  command c (s <| cmds := cs |>) = Ok (tt, s <| cmds := (cs ++ [c])%list |>).
Proof. by destruct s. Qed.

(** What loading the transmit output of client [p] appends. *)
Definition transmit_cmds (p : ControlPRM) : list dcmd :=
  [LoadFrequency 0 (radar p) (channel p) (dmul (d_of_int (tfreq p)) (d_of_int 1000));
   LoadPhase 0 (radar p) (channel p) dzero;
   LoadFilter 0 (radar p) (channel p) (trise p) DDS_STATE_TIME].

Lemma transmit_run p s cs :
  valid_client p → own_channel s (radar p) (channel p) →
  for_each (seqZ 1 DDS_MAX_CHANNELS) (fun cc =>
    a ← get2 dds_active (radar p - 1) (cc - 1);
    if a =? channel p - 1 then
      load_frequency 0 (radar p) cc (dmul (d_of_int (tfreq p)) (d_of_int 1000));;
      load_phase 0 (radar p) cc dzero;;
      load_filter_taps 0 (radar p) cc (trise p) DDS_STATE_TIME
    else mret tt) (s <| cmds := cs |>) = Ok (tt, s <| cmds := (cs ++ transmit_cmds p)%list |>).
Proof.
  intros [_ Hc] Ha. set (body := fun cc => _).
  assert (∀ cc cs, 0 < cc ≤ DDS_MAX_CHANNELS → body cc (s <| cmds := cs |>) =
    Ok (tt, if cc =? channel p then s <| cmds := (cs ++ transmit_cmds p)%list |>
            else s <| cmds := cs |>)) as Hbody.
  { intros cc cs' Hcc. destruct (Ha cc Hcc) as (a & Ea & E). unfold body.
    rewrite (bind_ok _ _ _ a (s <| cmds := cs' |>)) by (by apply get2_run). rewrite E.
    destruct (Z.eqb_spec cc (channel p)) as [->|]; [|done].
    unfold load_frequency, load_phase, load_filter_taps.
    do 2 rewrite (bind_ok _ _ _ _ _ (command_run _ _ _)). rewrite command_run.
    unfold transmit_cmds. by rewrite <- !app_assoc. }
  unfold MAX_CHANNELS, DDS_MAX_CHANNELS in *. change (seqZ 1 4) with [1; 2; 3; 4].
  assert (channel p = 1 ∨ channel p = 2 ∨ channel p = 3 ∨ channel p = 4) as Hcs by lia.
  cbn [for_each].
  destruct Hcs as [E|[E|[E|E]]]; rewrite E in Hbody;
    rewrite (bind_ok _ _ _ _ _ (Hbody 1 cs ltac:(lia))); simpl;
    rewrite (bind_ok _ _ _ _ _ (Hbody 2 _ ltac:(lia))); simpl;
    rewrite (bind_ok _ _ _ _ _ (Hbody 3 _ ltac:(lia))); simpl;
    by rewrite (bind_ok _ _ _ _ _ (Hbody 4 _ ltac:(lia))).
Qed.

Lemma tune_client_run p s cs :
  valid_client p → own_channel s (radar p) (channel p) →
  ∃ L, tune_client p (s <| cmds := cs |>) = Ok (tt, s <| cmds := (cs ++ L)%list |>) ∧
    no_bank L ∧ tuned (cs ++ L) p ∧
    ∀ r c, 0 < r ≤ MAX_RADARS → 0 < c ≤ DDS_MAX_CHANNELS → is_client r c p = false →
      output_of (cs ++ L) r c = output_of cs r c.
Proof.
  intros Hp Ha. unfold tune_client. rewrite (bind_ok _ _ _ _ _ (transmit_run p s cs Hp Ha)).
  destruct Hp as [Hr Hc]. mrun. change (dds_ifmode (s <| cmds := ?l |>)) with (dds_ifmode s).
  set (L2 := [LoadFrequency 0 (radar p + 2) (channel p)
      (ddiv (dmul (d_of_int (i32 (IF_FREQ - tfreq p))) (d_of_int 1000)) two);
    LoadFilter 0 (radar p + 2) (channel p) (trise p) DDS_STATE_TIME;
    LoadPhase 0 (radar p + 2) (channel p) dzero]).
  assert (∀ r c o, 0 < r ≤ MAX_RADARS → fold_left (output_step r c) L2 o = o) as HL2.
  { intros r c o Hr'. unfold L2. cbn [fold_left output_step].
    destruct (Z.eqb_spec (radar p + 2) r); [unfold MAX_RADARS in *; lia|]. by rewrite !andb_false_r. }
  assert (∀ o, fold_left (output_step (radar p) (channel p)) (transmit_cmds p) o =
    mk_output (Some (dmul (d_of_int (tfreq p)) (d_of_int 1000))) (Some dzero) (Some (trise p))) as Hown.
  { intros o. unfold transmit_cmds. cbn [fold_left output_step]. by rewrite !Z.eqb_refl. }
  assert (∀ r c o, is_client r c p = false →
    fold_left (output_step r c) (transmit_cmds p) o = o) as Hother.
  { intros r c o Hf. unfold transmit_cmds. cbn [fold_left output_step].
    unfold is_client in Hf. by rewrite <- !andb_assoc, !Hf. }
  destruct (dds_ifmode s =? 1).
  - exists (transmit_cmds p ++ L2)%list. split_and!.
    + unfold load_frequency, load_phase, load_filter_taps. cbn [when].
      do 2 rewrite (bind_ok _ _ _ _ _ (command_run _ _ _)). rewrite command_run.
      unfold L2. by rewrite <- !app_assoc.
    + repeat constructor.
    + unfold tuned. rewrite output_of_app, fold_left_app, Hown. by apply HL2.
    + intros r c Hr' Hc' Hf. rewrite output_of_app, fold_left_app, Hother by done. by apply HL2.
  - exists (transmit_cmds p). split_and!; [done|repeat constructor|by unfold tuned; rewrite output_of_app|].
    intros r c Hr' Hc' Hf. by rewrite output_of_app, Hother.
Qed.

(** The loop over the ready clients. *)
Lemma tune_clients_run s cs :
  xdds_ok s → active_table (ready_list s) (dds_active s) →
  (∀ r c, 0 < r ≤ MAX_RADARS → 0 < c ≤ DDS_MAX_CHANNELS → silent cs r c) →
  ∃ L, for_each (seqZ 0 (dds_numclients s)) (fun i => p ← get_xclient i; tune_client p)
      (s <| cmds := cs |>) = Ok (tt, s <| cmds := (cs ++ L)%list |>) ∧ no_bank L ∧
    Forall (tuned (cs ++ L)) (ready_list s) ∧
    ∀ r c, 0 < r ≤ MAX_RADARS → 0 < c ≤ DDS_MAX_CHANNELS →
      has_client (ready_list s) r c = false → silent (cs ++ L) r c.
Proof.
  intros Hok Ha Hcs. set (s1 := s <| cmds := cs |>). pose proof Hok as (_ & _ & Hc & Hn & _).
  pose proof (ready_distinct s Hok) as Hd. rewrite for_each_fold.
  enough (wp (for_fold (seqZ 0 (dds_numclients s))
      (fun i (_ : unit) => p ← get_xclient i; tune_client p) tt)
    (fun _ s' => ∃ L, s' = s <| cmds := (cs ++ L)%list |> ∧ no_bank L ∧
      Forall (tuned (cs ++ L)) (ready_list s) ∧
      ∀ r c, 0 < r ≤ MAX_RADARS → 0 < c ≤ DDS_MAX_CHANNELS →
        has_client (ready_list s) r c = false → silent (cs ++ L) r c) s1) as H.
  { apply wp_run in H as ([] & s' & E & L & -> & H). by exists L. }
  apply (wp_clients (fun l (_ : unit) s' => ∃ L, s' = s <| cmds := (cs ++ L)%list |> ∧ no_bank L ∧
    Forall (tuned (cs ++ L)) l ∧ ∀ r c, 0 < r ≤ MAX_RADARS → 0 < c ≤ DDS_MAX_CHANNELS →
      has_client l r c = false → silent (cs ++ L) r c) (fun p _ => tune_client p)); try done.
  - change (dds_clients s1) with (dds_clients s). lia.
  - by intros l _ s' (L & -> & _).
  - exists []. rewrite app_nil_r. split_and!; [done|constructor|constructor|by auto].
  - intros l p l' _ s' E (L & -> & Hb & Ht & Hs). change (ready_list s1) with (ready_list s) in E.
    assert (p ∈ ready_list s) as Hin by (rewrite E; apply elem_of_app; right; left).
    pose proof Hd as [Hv _]. rewrite Forall_forall in Hv. specialize (Hv p Hin).
    assert (own_channel s (radar p) (channel p)) as Hown.
    { destruct Hv. eapply active_own; [exact Ha|done|done|]. apply existsb_exists. exists p.
      rewrite <- list_elem_of_In. split; [done|]. unfold is_client. by rewrite !Z.eqb_refl. }
    destruct (tune_client_run p s (cs ++ L) Hv Hown) as (L' & E' & Hb' & Ht' & Hs').
    unfold wp. rewrite E'. exists (L ++ L')%list. rewrite app_assoc.
    split; [done|]. split; [by apply Forall_app|]. split.
    + apply Forall_app. split; [|by constructor]. rewrite Forall_forall in Ht |- *. intros q Hq.
      rewrite E in Hd. pose proof Hd as [Hvl _]. rewrite Forall_forall in Hvl.
      destruct (Hvl q) as [Hqr Hqc]; [apply elem_of_app; by left|].
      unfold tuned. rewrite Hs'; [by apply Ht|done|done|].
      unfold is_client. pose proof (distinct_mid _ _ _ _ Hd Hq) as Hdm. unfold is_client in Hdm.
      by rewrite (Z.eqb_sym (radar p)), (Z.eqb_sym (channel p)).
    + intros r c Hr Hch. rewrite has_client_snoc. intros [Hl Hp]%orb_false_iff.
      unfold silent. rewrite (Hs' r c Hr Hch Hp). by apply Hs.
Qed.

End Tuning.

(** ** Theorems: DDS_PRETRIGGER *)

Section Pretrigger.
Context (c_log : double → double) (c_pow : double → double → double).

Lemma send_bank_run SC data s cs :
  ∃ L, send_bank SC data (s <| cmds := cs |>) = Ok (tt, s <| cmds := (cs ++ L)%list |>) ∧
    bank_of (cs ++ L) = Some data.
Proof.
  exists ([SetParam 0 BANK_LENGTH (SC /c 2 - 1); SetParam 0 BANK_WIDTH 0;
    SetParam 0 TRANS_LENGTH (SC /c 2 - 1); SetParam 0 DAC_RESET RESET_VALUE;
    WriteBank 0 data; WriteBank 0 data; SetParam 0 ICS_DAC_ENABLE 1;
    SetParam 0 SET_DC_READY 1; SetParam 0 RELEASE_RESETS 1]). split.
  - unfold send_bank. change (seqZ 0 DDS_MAX_CARDS) with [0]. cbn [for_each].
    unfold ics660_set_parameter.
    repeat first [rewrite bind_assoc | rewrite (bind_ok _ _ _ _ _ (command_run _ _ _)) | rewrite ret_then].
    by rewrite <- !app_assoc.
  - unfold bank_of. by rewrite fold_left_app.
Qed.

Lemma msi_run s cs :
  xdds_ok s → let M := longest s (ready_list s) in
  ∃ a cs' bank, msi_timing_sequence c_log c_pow M (s <| cmds := cs |>) =
      Ok (tt, s <| dds_active := a |> <| cmds := cs' |>) ∧
    active_table (ready_list s) a ∧ bank_of cs' = Some bank ∧ zlen bank = dds_nchan * (M + 20) ∧
    ∀ r c i, 0 < r ≤ MAX_RADARS → 0 < c ≤ DDS_MAX_CHANNELS → 0 ≤ i < M + 20 →
      zget bank (sample_index r c i) = Some (out_word s (ready_list s) (ready_list s) r c i).
Proof.
  intros Hok M. unfold msi_timing_sequence. change (seqZ 0 DDS_MAX_CARDS) with [0]. cbn [for_each].
  assert (0 ≤ M ≤ MAX_TIME_SEQ_LEN) as HM.
  { split; [apply longest_range|]. apply longest_max; [done|]. apply Forall_forall. intros p Hp.
    pose proof (ready_distinct s Hok) as [Hv _]. rewrite Forall_forall in Hv.
    destruct (buffer_at s p Hok (Hv p Hp)) as (sl & _ & -> & _ & H). done. }
  rewrite samples_per_output_eq by done. rewrite !bind_assoc.
  destruct (init_appends c_log c_pow 0 0 (s <| cmds := cs |>)) as (x & L & E & _).
  rewrite (bind_ok _ _ _ _ _ E), !ret_then. set (s1 := set_field cmds _ _).
  assert (s1 = s <| cmds := (cs ++ L)%list |>) as Es1 by (by destruct s).
  assert (xdds_ok s1) as Hok1 by (rewrite Es1; revert Hok; by destruct s).
  pose proof (activate_run s1 Hok1) as Hact. apply wp_run in Hact as (num & s2 & E2 & a & -> & Ha & Hnum).
  rewrite (bind_ok _ _ _ _ _ E2).
  assert (Forall (fun p => zlen (buffer s1 (radar p) (channel p)) ≤ M + 20) (ready_list s1)) as Hlens.
  { rewrite Es1. apply Forall_forall. intros p Hp.
    pose proof (dds_longest_bound s (ready_list s) p Hp). change (buffer (s <| cmds := ?l |>)) with (buffer s).
    fold M in H. lia. }
  pose proof (sample_bank_run s1 a num M (M + 20) Hok1 Ha Hnum Hlens ltac:(lia)) as Hbank.
  apply wp_run in Hbank as (bank & s3 & E3 & -> & Hlen & Hw).
  rewrite (bind_ok _ _ _ _ _ E3). rewrite Es1.
  change (s <| cmds := (cs ++ L)%list |> <| dds_active := a |>)
    with (s <| dds_active := a |> <| cmds := (cs ++ L)%list |>).
  destruct (send_bank_run (dds_nchan * (M + 20)) bank (s <| dds_active := a |>) (cs ++ L)) as (L' & E4 & Hb).
  rewrite E4. do 3 eexists. split; [reflexivity|]. rewrite Es1 in Ha, Hw.
  split; [exact Ha|]. split; [exact Hb|]. split; [exact Hlen|exact Hw].
Qed.

Lemma samples_word v : - 2 ^ 15 ≤ v < 2 ^ 15 → samples (dac_word v) = (v, v).
Proof.
  intros Hv. unfold samples, dac_word. assert (i16 v = v) as ->.
  { unfold i16. rewrite Z.mod_small; lia. }
  assert (i16 (v mod 2 ^ 16) = v) as E.
  { unfold i16. rewrite Z.add_mod_idemp_l by lia. rewrite Z.mod_small; lia. }
  pose proof (Z.mod_pos_bound v (2 ^ 16) ltac:(lia)) as Hm.
  rewrite (Z.mul_comm (2 ^ 16)), Z.mod_add, Z.mod_mod by lia.
  rewrite Z.div_add, (Z.div_small (v mod 2 ^ 16)) by lia. by rewrite Z.add_0_l, E.
Qed.

Lemma out_word_samples s num l r c i :
  xdds_ok s → distinct_clients num → 0 < r ≤ MAX_RADARS →
  let v := if has_client l r c
           then default 0 (zget (buffer s r c) i) * amplitude r (radar_count num r) else 0 in
  samples (out_word s num l r c i) = (v, v).
Proof.
  intros (_ & _ & _ & _ & Hb & _) Hd Hr. cbv zeta. unfold out_word.
  destruct (has_client l r c); [|done].
  set (w := default 0 _). assert (-1 ≤ w ≤ 1) as Hw.
  { unfold w, buffer. destruct (xslot s (r - 1) (c - 1)) as [sl|] eqn:E.
    - destruct (Hb _ _ _ E) as [_ Hf]. simpl. destruct (zget (dsl_buf sl) i) as [x|] eqn:Ex; simpl; [|lia].
      rewrite Forall_lookup in Hf. apply (Hf (Z.to_nat i)). unfold zget in Ex. by case_decide.
    - unfold zget. case_decide; simpl; lia. }
  assert (0 ≤ amplitude r (radar_count num r) ≤ 28355) as Ha.
  { pose proof (radar_count_bound num r Hd) as Hn. unfold amplitude, MAX_RADARS in *.
    set (n := radar_count num r) in *.
    assert (r = 1 ∨ r = 2) as [-> | ->] by lia;
      (assert (n = 0 ∨ n = 1 ∨ n = 2 ∨ n = 3 ∨ n = 4) as [-> |[-> |[-> |[-> | ->]]]] by lia);
      vm_compute; split; congruence. }
  apply samples_word. nia.
Qed.

(** C21: When the ready sequences are not those of the last trigger,
    DDS_PRETRIGGER writes a bank in which every output of a radar and channel
    carries the sequence of its ready client, both samples of each word at the
    radar's amplitude divided by its number of ready clients - zero after the
    end of the sequence, for 20 samples more than the longest, and on every
    output without ready client - and tunes each such output to the client's
    frequency and pulse rise, all others to frequency zero.  No client is ready
    afterwards. *)
Theorem pretrigger_transmits t s :
  xdds_ok s → sequences_id (ready_list s) ≠ dds_old_id s →
  let M := longest s (ready_list s) in
  ∃ s' bank, xdds_pretrigger c_log c_pow t s = Ok ([PDriver t 0], s') ∧
    bank_of (cmds s') = Some bank ∧ zlen bank = dds_nchan * (M + 20) ∧
    (∀ r c, 0 < r ≤ MAX_RADARS → 0 < c ≤ DDS_MAX_CHANNELS → ∀ i, 0 ≤ i < M + 20 →
       let v := if has_client (ready_list s) r c
                then default 0 (zget (buffer s r c) i) * amplitude r (radar_count (ready_list s) r)
                else 0 in
       samples <$> zget bank (sample_index r c i) = Some (v, v)) ∧
    Forall (tuned (cmds s')) (ready_list s) ∧
    (∀ r c, 0 < r ≤ MAX_RADARS → 0 < c ≤ DDS_MAX_CHANNELS →
       has_client (ready_list s) r c = false → silent (cmds s') r c) ∧
    dds_numclients s' = 0 ∧ dds_old_id s' = (if sequences_id (ready_list s) <? 0 then -10
                                            else sequences_id (ready_list s)).
Proof.
  intros Hok Hid M. pose proof (ready_distinct s Hok) as Hd. unfold xdds_pretrigger.
  rewrite (bind_ok _ _ _ _ _ (one_shot_run _ _)), (bind_ok _ _ _ _ _ (dds_sequence_id_run s _ Hok)). mrun.
  change (dds_old_id (s <| cmds := ?l |>)) with (dds_old_id s).
  rewrite (proj2 (Z.eqb_neq _ _) Hid). cbn [negb]. mrun.
  set (cs0 := (cmds s ++ _)%list). destruct (msi_run s cs0 Hok) as (a & cs & bank & E1 & Ha & Hb & Hlen & Hw).
  fold M in E1, Hlen, Hw |- *. rewrite (bind_ok _ _ _ _ _ E1). set (s1 := s <| dds_active := a |>).
  assert (xdds_ok s1) as Hok1 by (revert Hok; by destruct s).
  destruct (silence_run (s1 <| cmds := cs |>)) as (L1 & E2 & Hb1 & Hs1).
  rewrite (bind_ok _ _ _ _ _ E2). change (cmds (s1 <| cmds := cs |>)) with cs in *.
  set (s2 := set_field cmds _ _). assert (s2 = s1 <| cmds := (cs ++ L1)%list |>) as -> by (by destruct s).
  mrun. change (dds_numclients (s1 <| cmds := ?l |>)) with (dds_numclients s1).
  destruct (tune_clients_run s1 (cs ++ L1) Hok1 Ha Hs1) as (L2 & E3 & Hb2 & Ht & Hs2).
  rewrite (bind_ok _ _ _ _ _ E3).
  rewrite (bind_ok _ _ _ _ _ (one_shot_run _ _)). unfold pretrigger_reset. mrun.
  do 2 eexists. split; [reflexivity|]. set (s4 := set_field dds_old_id _ _).
  assert (cmds s4 = ((cs ++ L1) ++ L2) ++ [SetChip 0 SYNC_MODE 2 229; SetChip 0 SYNC_MODE 2 101])%list
    as Ecs by (unfold s4; by destruct s).
  split; [rewrite Ecs, !bank_of_app; [exact Hb|done|done|by repeat constructor]|].
  split; [exact Hlen|]. split.
  { intros r c Hr Hc i Hi. rewrite (Hw r c i Hr Hc Hi). cbn [fmap option_fmap option_map].
    f_equal. by apply out_word_samples. }
  assert (∀ r c, output_of (cmds s4) r c = output_of ((cs ++ L1) ++ L2) r c) as Eout.
  { intros r c. by rewrite Ecs, output_of_app. }
  split; [|split; [|split]].
  - eapply Forall_impl; [exact Ht|]. intros p Hp. unfold tuned in *. by rewrite Eout.
  - intros r c Hr Hc Hh. unfold silent in *. rewrite Eout. by apply Hs2.
  - by destruct s.
  - by destruct s.
Qed.

End Pretrigger.

(** ** Concrete runs *)

(** [xdds_ok], decided. *)
Definition xdds_okb (s : dds) : bool :=
  (zlen (dds_slots s) =? MAX_RADARS) && forallb (fun row => zlen row =? MAX_CHANNELS) (dds_slots s) &&
  (zlen (dds_clients s) =? maxclients) && (0 <=? dds_numclients s) && (dds_numclients s <? maxclients) &&
  forallb (forallb (fun sl => (zlen (dsl_buf sl) <=? MAX_TIME_SEQ_LEN) &&
    forallb (fun w => (-1 <=? w) && (w <=? 1)) (dsl_buf sl))) (dds_slots s) &&
  forallb (fun i => match zget (dds_clients s) i with
    | Some p => bool_decide (valid_client p ∧
        dsl_ready <$> xslot s (radar p - 1) (channel p - 1) = Some i)
    | None => true end) (seqZ 0 (dds_numclients s)).

Lemma zget_elem {A} (l : list A) i x : zget l i = Some x → In x l.
Proof.
  unfold zget. case_decide; [|done]. intros H1%list_elem_of_lookup_2. by apply list_elem_of_In.
Qed.

Lemma xdds_okb_spec s : xdds_okb s = true → xdds_ok s.
Proof.
  unfold xdds_okb. rewrite !andb_true_iff. intros [[[[[[H1 H2] H3] H4] H5] H6] H7].
  split; [lia|]. split.
  { apply Forall_forall. intros row Hrow%list_elem_of_In. rewrite forallb_forall in H2.
    specialize (H2 row Hrow). lia. }
  split; [lia|]. split; [lia|]. split.
  - intros r c sl H. unfold xslot, look2 in H.
    destruct (zget (dds_slots s) r) as [row|] eqn:Er; [|done]. simpl in H.
    rewrite forallb_forall in H6. specialize (H6 row (zget_elem _ _ _ Er)).
    rewrite forallb_forall in H6. specialize (H6 sl (zget_elem _ _ _ H)).
    apply andb_true_iff in H6 as [Hl Hb]. split; [lia|].
    apply Forall_forall. intros w Hw%list_elem_of_In. rewrite forallb_forall in Hb.
    specialize (Hb w Hw). lia.
  - intros i p Hi Hp. pose proof (zget_Some_range _ _ _ Hp) as Hr.
    pose proof (forallb_seqZ _ _ _ H7 i ltac:(lia)) as H. cbn beta in H. rewrite Hp in H. by apply bool_decide_eq_true in H.
Qed.

(** 40 steps of 10 microseconds: two ticks each. *)
Definition demo_seq : TSGbuf :=
  mk_TSGbuf 0 3 10 [4; 0; 20] [20; 4; 16].
Definition demo_other : TSGbuf :=
  mk_TSGbuf 1 2 10 [0; 4] [20; 4].

Definition demo_dds_client (r c index f : Z) : ControlPRM :=
  prm0 <| radar := r |> <| channel := c |> <| current_pulseseq_index := index |> <| tfreq := f |>
       <| trise := 10 |>.

(** Runs the requests, with any [log], [pow] and IF frequency. *)
Definition after_dds (qs : list dds_request) (s : dds) : dds :=
  fold_left (fun s q => match dds_handle (fun x => x) (fun x _ => x) q s with
    | Ok (_, s') => s' | Fault _ => s end) qs s.

Definition dds_start : dds := dds0 [] prm0.

(** Both sequences registered for two channels of radar 1. *)
Definition dds_registered : dds :=
  after_dds (map (fun x => DdsRegisterSeq "+"%char 0 (demo_dds_client 1 x.1 0 0) x.2.1 x.2.2)
    [(1, (0, demo_seq)); (1, (1, demo_other)); (2, (0, demo_seq)); (2, (1, demo_other))]) dds_start.

Definition dds_both_ready : dds :=
  after_dds [DdsReady "1"%char 0 (demo_dds_client 1 1 0 10500);
             DdsReady "1"%char 0 (demo_dds_client 1 2 1 12000)] dds_registered.

Lemma ready_drops_delay_witness : ∃ s' sl',
  xdds_ready "1"%char 0 (demo_dds_client 1 1 0 10500) dds_registered = Ok ([PDriver "1"%char 0], s') ∧
  zget (dds_clients s') 0 = Some (demo_dds_client 1 1 0 10500) ∧
  xslot s' 0 0 = Some sl' ∧ dsl_ready sl' = 0 ∧ dsl_buf sl' = dds_words demo_seq ∧
  dds_numclients s' = 1 ∧ xdds_ok s'.
Proof.
  refine (ready_drops_delay "1"%char 0 (demo_dds_client 1 1 0 10500)
    (mk_DSlot [Some demo_seq; Some demo_other; None; None] [] (-1) (-1)) (dds_words demo_seq)
    dds_registered _ _ _ _).
  - apply xdds_okb_spec. vm_compute. reflexivity.
  - split; vm_compute; split; congruence.
  - vm_compute. reflexivity.
  - exists demo_seq. split; [vm_compute; reflexivity|]. split; [reflexivity|]. split; [reflexivity|].
    split; [reflexivity|]. vm_compute. congruence.
Defined.

Lemma pretrigger_transmits_witness : ∃ s' bank,
  xdds_pretrigger (fun x => x) (fun x _ => x) "3"%char dds_both_ready =
    Ok ([PDriver "3"%char 0], s') ∧
  bank_of (cmds s') = Some bank ∧ Forall (tuned (cmds s')) (ready_list dds_both_ready).
Proof.
  destruct (pretrigger_transmits (fun x => x) (fun x _ => x) "3"%char dds_both_ready)
    as (s' & bank & E & Hb & _ & _ & Ht & _).
  - apply xdds_okb_spec. vm_compute. reflexivity.
  - vm_compute. congruence.
  - exists s', bank. split; [exact E|]. split; [exact Hb|exact Ht].
Defined.

(** The words kept of 80 ticks, and the first words written for the outputs. *)
Example demo_words : dds_words demo_seq = replicate 15 1 ++ replicate 8 0 ++ replicate 32 (-1).
Proof. vm_compute. reflexivity. Qed.

(** The 26th tick is already after the 130 microseconds in [double]s. *)
Example delay_is_short : store_ticks dzero (replicate 26 1) = [1].
Proof. vm_compute. reflexivity. Qed.

(** Two clients exchange their sequences: the sum that identifies the set of
    sequences is the same, and the bank of the trigger before is kept. *)
Example exchanged_bank_kept :
  let s1 := after_dds [DdsPretrigger "3"%char] dds_both_ready in
  let s2 := after_dds [DdsReady "1"%char 0 (demo_dds_client 1 1 1 10500);
                       DdsReady "1"%char 0 (demo_dds_client 1 2 0 12000)] s1 in
  let s3 := after_dds [DdsPretrigger "3"%char] s2 in
  (buffer s2 1 1 = buffer s1 1 2 ∧ buffer s2 1 2 = buffer s1 1 1 ∧ buffer s1 1 1 ≠ buffer s1 1 2) ∧
  bank_of (cmds s3) = bank_of (cmds s1).
Proof. vm_compute. split_and!; try reflexivity. congruence. Qed.

(** In IF mode the frequency goes to the client's channel of chip 3 or 4, the
    samples to the first channel of that chip: a client of channel 2 has its IF
    frequency on an output that stays at zero. *)
Example if_output_mismatch :
  let s := after_dds [DdsRxfeSettings "x"%char 0 1;
                      DdsReady "1"%char 0 (demo_dds_client 1 2 0 12000);
                      DdsPretrigger "3"%char] dds_registered in
  o_freq (output_of (cmds s) 3 2) = Some (d_of_int 29500000) ∧
  o_freq (output_of (cmds s) 3 1) = None ∧
  (b ← bank_of (cmds s); zget b (5 * 16 + 8)) = Some (dac_word 32767) ∧
  (b ← bank_of (cmds s); zget b (5 * 16 + 9)) = Some 0.
Proof. vm_compute. split_and!; reflexivity. Qed.
