(* ===== verification/Receiver.v ===== *)
(** * Receiver: the driver of the GC314 receiver cards (src/ros6/gc316_tcp_driver)

    One card per radar.  A pre-trigger tunes the channel of every ready client
    and starts the collection; a clear-frequency search collects samples on
    channel A of the radar's card and answers with the power of every kHz
    around the centre of the band; GET_DATA tells where the samples of a
    collection are.

    The card is the record [gc_card], a parameter: whether it accepts a command
    (the driver exits when it does not), how a wait for data ends, the samples
    in its buffers and where they are, as functions of the commands it was
    given, which the state keeps.  FFTW's transform and the functions [log10]
    and [pow] of the C library are parameters.  The QNX branches are modelled, with
    [configured] 1 and [IMAGING] 0; the raw samples written to a file when
    /collect.now exists are left out.  A request carries what the handler reads
    from the socket. *)

From Stdlib Require Import ZArith Lia Ascii String SpecFloat.
From stdpp Require Import base list.
From S2P Require Import Prelude Binary64 Rounding Types Threads ServerIO TimingDriver.
Open Scope Z_scope.
Open Scope cvr_scope.

(** ** gc314FS_defines.h, gc314FS.h and main.c *)

Definition MAX_CARDS : Z := 2.
Definition MAX_INPUTS : Z := 3.
Definition RX_SAMPLE_FREQ : Z := 100000.
Definition REVERSE_IQ_ORDER : Z := 0.
Definition DMA_BUF_SIZE : Z := 1048576.
Definition GC314_ON : Z := 1.
Definition GC314_OFF : Z := 0.
Definition SYNC1_SIA_HOLD : Z := 14.
Definition RECV_SAMPLE_HEADER : Z := 2.
Definition CLR_SAMP_OFFSET : Z := 10.
Definition main_input : Z := 2.
Definition back_input : Z := 1.
Definition max_retries : Z := 10.

(** ** The commands of a card (the [devctl] calls of the gc314*.c files) *)

Inductive gc_cmd :=
  | ChannelAbort (card channel : Z)
  | ChannelOn (card channel : Z)
  | LoadGC4016s (card : Z)
  | SetExternalTrigger (card state : Z)
  | SetFilters (card : Z) (bandwidth : double) (channel match_ : Z)
  | SetFrequency (card frequency channel : Z)
  | SetGlobalReset (card state : Z)
  | SetOutputRate (card : Z) (rate : double) (channel : Z)
  | SetRDA (card channel : Z)
  | SetSamples (card samples channel : Z)
  | SetSync1 (card state : Z)
  | SetSyncMask (card mask : Z)
  | StartCollection (card : Z)
  | UpdateChannel (card channel : Z)
  | WaitForData (card channel : Z).

(** The card a command is given to. *)
Definition card_of (c : gc_cmd) : Z :=
  match c with
  | ChannelAbort card _ | ChannelOn card _ | LoadGC4016s card | SetExternalTrigger card _
  | SetFilters card _ _ _ | SetFrequency card _ _ | SetGlobalReset card _
  | SetOutputRate card _ _ | SetRDA card _ | SetSamples card _ _ | SetSync1 card _
  | SetSyncMask card _ | StartCollection card | UpdateChannel card _ | WaitForData card _ => card
  end.

Record gc_card := mk_gc_card {
  accepts : list gc_cmd → gc_cmd → bool;
  wait_status : list gc_cmd → Z → Z → Z;       (** card, channel *)
  dma : list gc_cmd → Z → Z → Z → Z → Z;       (** card, input, channel, index of a word *)
  physical : Z → Z → Z → Z                     (** card, input, channel *)
}.

(** ** State *)

(** [rx_main] is the local variable [main], a pointer to the buffer of a card,
    input and channel, [None] before its first assignment. *)
Record receiver := mk_receiver {
  armed : Z;
  post_clr : list Z;
  rx_clients : list ControlPRM;
  rx_numclients : Z;
  ready_index : list (list Z);
  recv_ifmode : Z;
  rx_main : option (Z * Z * Z);
  gc : list gc_cmd
}.

#[export] Instance eta_receiver : Eta receiver := fun r =>
  mk_receiver (armed r) (post_clr r) (rx_clients r) (rx_numclients r) (ready_index r)
    (recv_ifmode r) (rx_main r) (gc r).

Abbreviation RM := (M receiver).

(** ** Requests *)

Inductive rx_request :=
  | RxEnd (client : ControlPRM)
  | RxRxfeSettings (type : ascii) (status : Z) (ifmode : Z)
  | RxReady (type : ascii) (status : Z) (client : ControlPRM)
  | RxPretrigger (type : ascii) (status : Z)
  | RxPosttrigger (type : ascii)
  | RxGetData (type : ascii) (client : ControlPRM)
  | RxClrfreq (type : ascii) (clr : CLRFreqPRM) (client : ControlPRM)
  | RxBadCode (type : ascii).

(** ** Arithmetic of the search *)

Section Receiver.
Context (dev : gc_card).
(** [fftw_execute] of a forward plan of [N] points; [log10] and [pow]. *)
Context (fft : list (double * double) → list (double * double)).
Context (c_log10 : double → double) (c_pow : double → double → double).

(** The points of the transform for a band of [bandwidth] kHz:
    [(int)pow(2,ceil(log10(1.25*(float)bandwidth)/log10(2)))], or 512 when they
    are more than 1024. *)
Definition fft_points (bandwidth : Z) : Z :=
  let x := dmul (d_lit 125 2) (of_float (f_of_int bandwidth)) in
  let e := d_ceiling (ddiv (c_log10 x) (c_log10 (d_of_int 2))) in
  let N := d_to_int (c_pow (d_of_int 2) e) in
  if 1024 <? N then 512 else N.

(** [usable_bandwidth=N/1.3]. *)
Definition usable_bandwidth (N : Z) : Z := d_to_int (ddiv (d_of_int N) (d_lit 13 1)).

(** [(int)unusable_sideband]. *)
Definition unusable_sideband (N : Z) : Z :=
  d_to_int (ddiv (dsub (d_of_int N) (d_of_int (usable_bandwidth N))) (d_of_int 2)).

(** [start] and [end] of the search. *)
Definition search_start (centre N : Z) : Z :=
  d_to_int (dadd (dsub (d_of_int centre) (ddiv (d_of_int N) (d_of_int 2))) (d_lit 49999 5)).

Definition search_end (centre N : Z) : Z :=
  d_to_int (dadd (dadd (d_of_int centre) (ddiv (d_of_int N) (d_of_int 2))) (d_lit 49999 5)).

(** The complex sample of a word, as [in[j][0]] and [in[j][1]]. *)
Definition iq (w : Z) : double * double :=
  let high := i16 ((w &c 4294901760) >>c 16) in
  let low := i16 (w &c 65535) in
  if negb (REVERSE_IQ_ORDER =? 0) then (d_of_int high, d_of_int low)
  else (d_of_int low, d_of_int high).

(** The power of a bin of the transform. *)
Definition bin_power (N : Z) (o : double * double) : double :=
  ddiv (dadd (dmul o.1 o.1) (dmul o.2 o.2)) (d_of_int (N * N)).

(** ** The card *)

(** A [devctl] on the device of a card: the device file of [card] is an element
    of [gc314fs]. *)
Definition gc_command (c : gc_cmd) : RM unit :=
  if (card_of c <? 0) || (MAX_CARDS <=? card_of c) then fail OutOfBounds
  else
    l ← gets gc;
    modify (fun s => s <| gc := (l ++ [c])%list |>);;
    if accepts dev l c then mret tt else fail Exits.

Definition gc314WaitForData (card channel : Z) : RM Z :=
  gc_command (WaitForData card channel);;
  l ← gets gc;
  mret (wait_status dev l card channel).

Definition all_cards (f : Z → gc_cmd) : RM unit :=
  for_each (seqZ 0 MAX_CARDS) (fun card => gc_command (f card)).

(** [main[i]]. *)
Definition read_main (i : Z) : RM Z :=
  o ← gets rx_main;
  m ← deref NullDeref o;
  let '(card, input, channel) := m in
  l ← gets gc;
  if (0 <=? i) && (i <? DMA_BUF_SIZE / 4) then mret (dma dev l card input channel i)
  else fail OutOfBounds.

(** [main=virtual_addresses[card][main_input][c][b]]. *)
Definition set_main (card channel : Z) : RM unit :=
  if (0 <=? card) && (card <? MAX_CARDS) && (0 <=? channel) && (channel <? MAX_CHANNELS) then
    modify (fun s => s <| rx_main := Some (card, main_input, channel) |>)
  else fail OutOfBounds.

(** ** Clients *)

Definition get_rclient (i : Z) : RM ControlPRM :=
  l ← gets rx_clients; deref OutOfBounds (zget l i).

Definition set_rclient (i : Z) (p : ControlPRM) : RM unit :=
  l ← gets rx_clients; l ← deref OutOfBounds (zset l i p);
  modify (fun s => s <| rx_clients := l |>).

(** The loop over the ready clients, with [r], [c] and [card] as the loop sets
    them. *)
Definition ready_clients (body : ControlPRM → Z → Z → RM unit) : RM unit :=
  n ← gets rx_numclients;
  for_each (seqZ 0 n) (fun i => p ← get_rclient i; body p (radar p - 1) (channel p - 1)).

(** RECV_CtrlProg_END sends no reply. *)
Definition rx_end (client : ControlPRM) : RM (list packet) :=
  gc_command (ChannelAbort (radar client - 1) (channel client - 1));; mret [].

(** RECV_CtrlProg_READY. *)
Definition rx_ready (type : ascii) (status : Z) (client : ControlPRM) : RM (list packet) :=
  let r := radar client - 1 in
  let c := channel client - 1 in
  m ← gets recv_ifmode;
  let client := if m =? 0 then client else client <| rfreq := - RX_SAMPLE_FREQ + IF_FREQ |> in
  k ← get2 ready_index r c;
  (if (0 <=? k) && (k <? maxclients) then set_rclient k client
   else
     n ← gets rx_numclients;
     set_rclient n client;;
     l ← gets ready_index;
     l ← deref OutOfBounds (zset2 l r c n);
     modify (fun s => s <| ready_index := l |>);;
     modify (fun s => s <| rx_numclients := n + 1 |>));;
  n ← gets rx_numclients;
  modify (fun s => s <| rx_numclients := n %c maxclients |>);;
  mret [PDriver type (if maxclients <=? n then -2 else status)].

(** The filter, rate, frequency and samples of the channel of a client. *)
Definition tune_channel (p : ControlPRM) (card c : Z) : RM unit :=
  gc_command (SetFilters card (f_of_int (filter_bandwidth p)) c (match_filter p));;
  gc_command (SetOutputRate card (of_float (baseband_samplerate p)) c);;
  f ← int_op (rfreq p * 1000);
  gc_command (SetFrequency card f c);;
  gc_command (UpdateChannel card c);;
  n ← int_op (number_of_samples p + RECV_SAMPLE_HEADER);
  gc_command (SetSamples card n c).

(** RECV_PRETRIGGER. *)
Definition rx_pretrigger (type : ascii) (status : Z) : RM (list packet) :=
  all_cards (fun card => SetExternalTrigger card GC314_OFF);;
  ready_clients tune_channel;;
  all_cards (fun card => SetSyncMask card SYNC1_SIA_HOLD);;
  all_cards (fun card => SetGlobalReset card GC314_ON);;
  all_cards LoadGC4016s;;
  all_cards (fun card => SetGlobalReset card GC314_OFF);;
  all_cards (fun card => SetSync1 card GC314_OFF);;
  ready_clients (fun _ card c => gc_command (SetRDA card c));;
  all_cards (fun card => SetSyncMask card SYNC1_SIA_HOLD);;
  ready_clients (fun _ card c => gc_command (ChannelOn card c));;
  all_cards StartCollection;;
  all_cards (fun card => SetExternalTrigger card GC314_ON);;
  modify (fun s => s <| armed := 1 |>);;
  mret [PDriver type status].

(** RECV_POSTTRIGGER. *)
Definition rx_posttrigger (type : ascii) : RM (list packet) :=
  modify (fun s => s <| armed := 0 |>);;
  modify (fun s => s <| rx_numclients := 0 |>);;
  modify (fun s => s <| ready_index :=
    replicate (Z.to_nat MAX_RADARS) (replicate (Z.to_nat MAX_CHANNELS) (-1)) |>);;
  all_cards (fun card => SetExternalTrigger card GC314_OFF);;
  mret [PDriver type 0].

(** RECV_GET_DATA: [shm_memory] is 0, the only buffer is 0. *)
Definition rx_get_data (type : ascii) (client : ControlPRM) : RM (list packet) :=
  let r := radar client - 1 in
  let c := channel client - 1 in
  status ← gc314WaitForData r c;
  if status =? 0 then
    set_main r c;;
    mret [PInt status; PInt 0; PInt RECV_SAMPLE_HEADER; PInt 0; PInt (number_of_samples client);
          PInt (physical dev r main_input c); PInt (physical dev r back_input c);
          PDriver type status]
  else mret [PInt status; PDriver type status].

(** ** The clear-frequency search *)

(** One try: collect [nave] blocks of [N] samples around [centre], triggered
    through Sync1, on channel [c] of [card]. *)
Definition search_collect (card c centre N nave : Z) : RM Z :=
  gc_command (SetExternalTrigger card GC314_OFF);;
  gc_command (SetFilters card (f_of_int (N * 1000)) c 0);;
  gc_command (SetOutputRate card (dmul (d_of_int N) (d_of_int 1000)) c);;
  f ← int_op (centre * 1000);
  gc_command (SetFrequency card f c);;
  gc_command (UpdateChannel card c);;
  gc_command (SetSamples card (nave * N + RECV_SAMPLE_HEADER + CLR_SAMP_OFFSET) c);;
  gc_command (SetSyncMask card SYNC1_SIA_HOLD);;
  gc_command (SetSync1 card GC314_ON);;
  gc_command (SetGlobalReset card GC314_ON);;
  gc_command (LoadGC4016s card);;
  gc_command (SetGlobalReset card GC314_OFF);;
  gc_command (SetSync1 card GC314_OFF);;
  gc_command (SetRDA card c);;
  gc_command (SetSyncMask card SYNC1_SIA_HOLD);;
  gc_command (ChannelOn card c);;
  gc_command (StartCollection card);;
  gc_command (SetSync1 card GC314_ON);;
  gc_command (SetSync1 card GC314_OFF);;
  gc314WaitForData card c.

(** The retry loop: the status of the last try. *)
Definition search_tries (card c centre N nave : Z) : RM Z :=
  for_break (seqZ 0 max_retries) (fun _ _ =>
    status ← search_collect card c centre N nave;
    mret (if status <? 0 then Next status else Break status)) 0.

(** The search proper: [msg.status]. *)
Definition search (client : ControlPRM) (centre N nave : Z) : RM Z :=
  a ← gets armed;
  if a =? 0 then
    let card := radar client - 1 in
    status ← search_tries card 0 centre N nave;
    if 0 <=? status then set_main card 0;; mret 1 else mret (-1)
  else mret (-1).

(** The samples of block [ii]. *)
Definition search_block (N ii status : Z) : RM (list (double * double)) :=
  for_fold (seqZ 0 N) (fun j l =>
    if status =? 0 then mret (l ++ [(d_of_int 0, d_of_int (-1))])%list
    else
      w ← read_main (ii * N + j + RECV_SAMPLE_HEADER + CLR_SAMP_OFFSET);
      mret (l ++ [iq w])%list) [].

Definition add_powers (N : Z) (pwr : list double) (out : list (double * double)) : list double :=
  zip_with (fun p o => dadd p (bin_power N o)) pwr out.

Definition average_power (N nave status : Z) : RM (list double) :=
  pwr ← for_fold (seqZ 0 nave) (fun ii pwr =>
          block ← search_block N ii status;
          mret (add_powers N pwr (fft block))) (replicate (Z.to_nat N) dzero);
  mret (map (fun x => ddiv x (d_of_int nave)) pwr).

(** The loop that puts the bins in the order of their frequency; [pwr2] is
    uninitialised. *)
Definition fftshift (N : Z) (pwr : list double) : RM (list double) :=
  for_fold (seqZ 0 (N /c 2)) (fun i pwr2 =>
    x ← deref OutOfBounds (zget pwr i);
    pwr2 ← deref OutOfBounds (zset pwr2 (N /c 2 + i) x);
    y ← deref OutOfBounds (zget pwr (N /c 2 + i));
    deref OutOfBounds (zset pwr2 i y)) (replicate (Z.to_nat N) dzero).

(** RECV_CLRFREQ.  A transform of no points has no plan to execute. *)
Definition rx_clrfreq (type : ascii) (clr : CLRFreqPRM) (client : ControlPRM)
    : RM (list packet) :=
  sum ← int_op (clr_end clr + clr_start clr);
  let centre := sum /c 2 in
  width ← int_op (clr_end clr - clr_start clr);
  let N := fft_points (width /c 2 * 2) in
  when (N <=? 0) (fail NullDeref);;
  let n := usable_bandwidth N in
  let nave_ := 4 in
  let clr := clr <| clr_start := search_start centre N |> <| clr_end := search_end centre N |>
                 <| nave := nave_ |> in
  status ← search client centre N nave_;
  pwr ← average_power N nave_ status;
  pwr2 ← fftshift N pwr;
  modify (fun s => s <| post_clr := [1; 1; 1; 1] |>);;
  if zlen pwr2 <? unusable_sideband N + n then fail OutOfBounds
  else
    mret [PClr clr; PInt n;
          PDoubles (take (Z.to_nat n) (drop (Z.to_nat (unusable_sideband N)) pwr2));
          PDriver type status].

Definition rx_handle (q : rx_request) : RM (list packet) :=
  match q with
  | RxEnd p => rx_end p
  | RxRxfeSettings t st m => modify (fun s => s <| recv_ifmode := u32 m |>);; mret [PDriver t st]
  | RxReady t st p => rx_ready t st p
  | RxPretrigger t st => rx_pretrigger t st
  | RxPosttrigger t => rx_posttrigger t
  | RxGetData t p => rx_get_data t p
  | RxClrfreq t clr p => rx_clrfreq t clr p
  | RxBadCode t => mret [PDriver t 0]
  end.

End Receiver.

(** The driver when it accepts its first connection. *)
Definition receiver0 (junk : ControlPRM) : receiver :=
  mk_receiver 0 [0; 0; 0; 0] (replicate 8 junk) 0 (replicate 2 (replicate 4 (-1))) IF_ENABLED None [].

(** ** Specification *)

(** The arrays have their declared sizes, and the ready clients are those of
    distinct radar channels. *)
Definition rx_ok (s : receiver) : Prop :=
  zlen (rx_clients s) = maxclients ∧ 0 ≤ rx_numclients s < maxclients ∧
  zlen (ready_index s) = MAX_RADARS ∧
  Forall (fun row => zlen row = MAX_CHANNELS) (ready_index s) ∧
  (∀ i p, i < rx_numclients s → zget (rx_clients s) i = Some p →
     valid_client p ∧ look2 (ready_index s) (radar p - 1) (channel p - 1) = Some i).

(** The state of the external trigger of a card after some commands. *)
Definition trigger_step (card : Z) (t : option Z) (x : gc_cmd) : option Z :=
  match x with
  | SetExternalTrigger k v => if k =? card then Some v else t
  | _ => t
  end.

Definition trigger_of (l : list gc_cmd) (card : Z) : option Z :=
  fold_left (trigger_step card) l None.

(** The commands that set up a card and its channels. *)
Definition configures (x : gc_cmd) : bool :=
  match x with
  | ChannelAbort _ _ | SetExternalTrigger _ _ | SetSync1 _ _ | WaitForData _ _ => false
  | _ => true
  end.

(** Every command that sets up a card is given while its external trigger is
    off. *)
Definition guarded (l : list gc_cmd) : Prop :=
  ∀ l1 x l2, l = (l1 ++ x :: l2)%list → configures x = true →
    trigger_of l1 (card_of x) = Some GC314_OFF.

(** The requests of the server: the clients it sends have a radar channel. *)
Definition rx_request_ok (q : rx_request) : Prop :=
  match q with
  | RxReady _ _ p | RxClrfreq _ _ p | RxGetData _ p | RxEnd p => valid_client p
  | _ => True
  end.

(** What the commands leave on a channel of a card. *)
Record tuning := mk_tuning {
  t_filter : option (double * Z);
  t_rate : option double;
  t_freq : option Z;
  t_samples : option Z;
  t_on : bool
}.

#[export] Instance eta_tuning : Eta tuning := fun r =>
  mk_tuning (t_filter r) (t_rate r) (t_freq r) (t_samples r) (t_on r).

Definition untuned : tuning := mk_tuning None None None None false.

Definition tuning_step (card c : Z) (t : tuning) (x : gc_cmd) : tuning :=
  match x with
  | SetFilters k bw c' m => if (k =? card) && (c' =? c) then t <| t_filter := Some (bw, m) |> else t
  | SetOutputRate k v c' => if (k =? card) && (c' =? c) then t <| t_rate := Some v |> else t
  | SetFrequency k f c' => if (k =? card) && (c' =? c) then t <| t_freq := Some f |> else t
  | SetSamples k n c' => if (k =? card) && (c' =? c) then t <| t_samples := Some n |> else t
  | ChannelOn k c' => if (k =? card) && (c' =? c) then t <| t_on := true |> else t
  | ChannelAbort k c' => if (k =? card) && (c' =? c) then t <| t_on := false |> else t
  | _ => t
  end.

Definition tuning_of (l : list gc_cmd) (card c : Z) : tuning :=
  fold_left (tuning_step card c) l untuned.

(** The tuning a ready client asks for. *)
Definition tuning_for (p : ControlPRM) : tuning :=
  mk_tuning (Some (f_of_int (filter_bandwidth p), match_filter p))
    (Some (of_float (baseband_samplerate p))) (Some (rfreq p * 1000))
    (Some (number_of_samples p + RECV_SAMPLE_HEADER)) true.

(** The products of the tuning fit an [int]. *)
Definition tunable (p : ControlPRM) : Prop :=
  is_int (rfreq p * 1000) ∧ is_int (number_of_samples p + RECV_SAMPLE_HEADER).

Definition ready_list (s : receiver) : list ControlPRM :=
  take (Z.to_nat (rx_numclients s)) (rx_clients s).

(** ** Theorems: what every request preserves *)

(** [leads I m J]: a run of [m] from a state of [I] ends in a state of [J]. *)
Definition leads {A} (I : receiver → Prop) (m : RM A) (J : receiver → Prop) : Prop :=
  ∀ s a s', I s → m s = Ok (a, s') → J s'.

Abbreviation pres I m := (leads I m I).

Lemma leads_bind {A B} I J K (m : RM A) (f : A → RM B) :
  leads I m J → (∀ a, leads J (f a) K) → leads I (m ≫= f) K.
Proof.
  intros Hm Hf s b s' HI H. apply bind_inv in H as (a & s1 & H1 & H2).
  exact (Hf a s1 b s' (Hm s a s1 HI H1) H2).
Qed.

Lemma pres_bind {A B} I (m : RM A) (f : A → RM B) :
  pres I m → (∀ a, pres I (f a)) → pres I (m ≫= f).
Proof. apply leads_bind. Qed.

Lemma pres_ret {A} I (a : A) : pres I (mret a).
Proof. by intros s b s' HI [= <- <-]. Qed.

Lemma pres_fail {A} I e : pres I (fail e : RM A).
Proof. done. Qed.

Lemma pres_gets {A} I (f : receiver → A) : pres I (gets f).
Proof. by intros s b s' HI [= <- <-]. Qed.

Lemma pres_deref {A} I e (o : option A) : pres I (deref e o).
Proof. intros s b s' HI H. destruct o; [|done]. by injection H as <- <-. Qed.

Lemma pres_modify I f : (∀ s, I s → I (f s)) → pres I (modify f).
Proof. intros Hf s b s' HI [= <- <-]. by apply Hf. Qed.

Lemma pres_int_op I z : pres I (int_op z).
Proof. intros s b s' HI H. unfold int_op in H. case_bool_decide; [|done]. by injection H as <- <-. Qed.

Lemma pres_for_each {X} I (l : list X) body : (∀ x, pres I (body x)) → pres I (for_each l body).
Proof. intros H. induction l as [|x l IH]; [apply pres_ret|]. by apply pres_bind. Qed.

Lemma pres_for_fold {X A} I (l : list X) (body : X → A → RM A) a :
  (∀ x a, pres I (body x a)) → pres I (for_fold l body a).
Proof.
  intros H. revert a. induction l as [|x l IH]; intros a; [apply pres_ret|]. by apply pres_bind.
Qed.

Lemma pres_for_break {X A} I (l : list X) (body : X → A → RM (iter A)) a :
  (∀ x a, pres I (body x a)) → pres I (for_break l body a).
Proof.
  intros H. revert a. induction l as [|x l IH]; intros a; [apply pres_ret|].
  apply pres_bind; [done|]. intros [b|b]; [apply IH|apply pres_ret].
Qed.

Create HintDb pres.

#[local] Hint Resolve pres_ret pres_fail pres_gets pres_deref pres_int_op : pres.

(** Goes through the binds, tests and loops of a handler. *)
Ltac pres :=
  repeat match goal with
  | |- leads _ (match ?x with _ => _ end) _ => destruct x
  | |- leads ?I (mbind _ _) ?I => apply pres_bind; [|intros ?]
  | |- leads ?I (for_each _ _) ?I => apply pres_for_each; intros ?
  | |- leads ?I (for_fold _ _ _) ?I => apply pres_for_fold; intros ? ?
  | |- leads ?I (for_break _ _ _) ?I => apply pres_for_break; intros ? ?
  | |- leads _ _ _ => solve [auto with pres]
  end.

Lemma trigger_of_snoc l x card : trigger_of (l ++ [x]) card = trigger_step card (trigger_of l card) x.
Proof. unfold trigger_of. by rewrite fold_left_app. Qed.

Lemma guarded_snoc l x :
  guarded l → (configures x = true → trigger_of l (card_of x) = Some GC314_OFF) →
  guarded (l ++ [x]).
Proof.
  intros Hl Hx l1 y l2 E Hy. destruct l2 as [|z l2 _] using rev_ind.
  - apply app_inj_tail in E as [-> ->]. by apply Hx.
  - rewrite app_comm_cons, app_assoc in E. apply app_inj_tail in E as [-> _]. by eapply Hl.
Qed.

(** The state between two commands: the external triggers of the cards [K] are
    off. *)
Definition held (K : list Z) (s : receiver) : Prop :=
  rx_ok s ∧ guarded (gc s) ∧ ∀ k, k ∈ K → trigger_of (gc s) k = Some GC314_OFF.

Definition is_trigger (x : gc_cmd) : bool :=
  match x with SetExternalTrigger _ _ => true | _ => false end.

Lemma gc_command_inv dev x s u s' :
  gc_command dev x s = Ok (u, s') →
  0 ≤ card_of x < MAX_CARDS ∧ s' = s <| gc := (gc s ++ [x])%list |>.
Proof.
  unfold gc_command. destruct (Z.ltb_spec (card_of x) 0); [done|].
  destruct (Z.leb_spec MAX_CARDS (card_of x)); [done|]. cbn [orb]. intros H1.
  apply bind_inv in H1 as (l & s1 & [= <- <-] & H1).
  apply bind_inv in H1 as ([] & s2 & [= <-] & H1).
  destruct (accepts dev (gc s) x); [|done]. injection H1 as _ <-. split; [lia|done].
Qed.

Lemma held_command dev K x :
  is_trigger x = false → (configures x = true → card_of x ∈ K) → pres (held K) (gc_command dev x).
Proof.
  intros Ht Hc s u s' (Hok & Hg & HK) H. apply gc_command_inv in H as [_ ->].
  split; [exact Hok|]. split.
  - apply guarded_snoc; [done|]. intros Hx. by apply HK, Hc.
  - intros k Hk. change (trigger_of (gc s ++ [x]) k = Some GC314_OFF). rewrite trigger_of_snoc.
    destruct x; try (by apply HK). done.
Qed.

Lemma held_weaken {A} K K' (m : RM A) J :
  (∀ k, k ∈ K' → k ∈ K) → leads (held K') m J → leads (held K) m J.
Proof. intros HK Hm s a s' (H1 & H2 & H3) H. apply (Hm s a s'); [|done]. split_and!; auto. Qed.

(** The external trigger of a card is switched. *)
Lemma trigger_off dev K k :
  leads (held K) (gc_command dev (SetExternalTrigger k GC314_OFF)) (held (k :: K)).
Proof.
  intros s u s' (Hok & Hg & HK) H. apply gc_command_inv in H as [_ ->]. split; [exact Hok|].
  split; [by apply guarded_snoc|]. intros k' Hk'.
  change (trigger_of (gc s ++ [SetExternalTrigger k GC314_OFF]) k' = Some GC314_OFF).
  rewrite trigger_of_snoc. simpl. destruct (Z.eqb_spec k k'); [done|].
  apply elem_of_cons in Hk' as [->|Hk']; [done|]. by apply HK.
Qed.

Lemma trigger_any dev K k v :
  leads (held K) (gc_command dev (SetExternalTrigger k v)) (held []).
Proof.
  intros s u s' (Hok & Hg & HK) H. apply gc_command_inv in H as [_ ->]. split; [exact Hok|].
  split; [by apply guarded_snoc|]. intros k' Hk'. by apply elem_of_nil in Hk'.
Qed.

Lemma all_cards_unfold dev f s :
  all_cards dev f s = (gc_command dev (f 0);; gc_command dev (f 1);; mret tt) s.
Proof. reflexivity. Qed.

Lemma triggers_off dev : leads (held []) (all_cards dev (fun k => SetExternalTrigger k GC314_OFF)) (held [1; 0]).
Proof.
  intros s a s' HI H. rewrite all_cards_unfold in H. revert s a s' HI H.
  eapply leads_bind; [apply trigger_off|intros _].
  eapply leads_bind; [apply trigger_off|intros _]. apply pres_ret.
Qed.

Lemma triggers_on dev K v : leads (held K) (all_cards dev (fun k => SetExternalTrigger k v)) (held []).
Proof.
  intros s a s' HI H. rewrite all_cards_unfold in H. revert s a s' HI H.
  eapply leads_bind; [apply trigger_any|intros _].
  eapply leads_bind; [apply trigger_any|intros _]. apply pres_ret.
Qed.

(** With both triggers off any other command goes. *)
Lemma held_both dev x : is_trigger x = false → pres (held [1; 0]) (gc_command dev x).
Proof.
  intros Hx s u s' HI H. pose proof (gc_command_inv _ _ _ _ _ H) as [Hc _].
  apply (held_command dev [1; 0] x Hx) with (s := s) (a := u); [|done..]. intros _.
  unfold MAX_CARDS in Hc. rewrite !elem_of_cons. lia.
Qed.

Lemma held_all dev f : (∀ k, is_trigger (f k) = false) → pres (held [1; 0]) (all_cards dev f).
Proof. intros Hf. apply pres_for_each. intros k. by apply held_both. Qed.

Lemma held_clients K body :
  (∀ p r c, pres (held K) (body p r c)) → pres (held K) (ready_clients body).
Proof. intros H. unfold ready_clients, get_rclient. pres; auto. Qed.

#[local] Hint Resolve held_both held_all : pres.

Lemma held_modify K f :
  (∀ s, rx_ok s → rx_ok (f s)) → (∀ s, gc (f s) = gc s) → pres (held K) (modify f).
Proof.
  intros H1 H2. apply pres_modify. intros s (Hok & Hg & HK). unfold held. rewrite H2.
  split_and!; auto.
Qed.

Lemma held_pretrigger dev t st : pres (held []) (rx_pretrigger dev t st).
Proof.
  unfold rx_pretrigger. eapply leads_bind; [apply triggers_off|intros _].
  do 10 (eapply leads_bind; [first [apply held_all; done
    | apply held_clients; intros p r c; unfold tune_channel; pres; auto with pres]|intros _]).
  eapply leads_bind; [apply triggers_on|intros _]. apply pres_bind; [|intros _; apply pres_ret].
  by apply held_modify.
Qed.

(** With the trigger of [card] off the other commands to it go. *)
Lemma held_one dev x card :
  is_trigger x = false → card_of x = card → pres (held [card]) (gc_command dev x).
Proof. intros Hx <-. apply held_command; [done|]. intros _. by apply list_elem_of_singleton. Qed.

#[local] Hint Extern 2 (leads (held [_]) (gc_command _ _) _) => apply held_one; reflexivity : pres.

Lemma held_wait dev card c : pres (held [card]) (gc314WaitForData dev card c).
Proof. unfold gc314WaitForData. pres. Qed.

#[local] Hint Resolve held_wait : pres.

Lemma held_weaken_post {A} K (m : RM A) J : leads J m (held K) → leads J m (held []).
Proof.
  intros Hm s a s' HJ H. destruct (Hm s a s' HJ H) as (H1 & H2 & _). split_and!; [done..|].
  intros k Hk. by apply elem_of_nil in Hk.
Qed.

Lemma held_collect dev card c centre N n : leads (held []) (search_collect dev card c centre N n) (held []).
Proof.
  apply (held_weaken_post [card]). unfold search_collect.
  eapply leads_bind; [apply trigger_off|intros _]. pres.
Qed.

Lemma held_set_main K card c : pres (held K) (set_main card c).
Proof. unfold set_main. pres. by apply held_modify. Qed.

#[local] Hint Resolve held_collect held_set_main : pres.

Lemma held_clrfreq dev fft c_log10 c_pow t clr p :
  pres (held []) (rx_clrfreq dev fft c_log10 c_pow t clr p).
Proof.
  unfold rx_clrfreq, when, search, search_tries, average_power, search_block, read_main, fftshift.
  pres. by apply held_modify.
Qed.

Lemma held_nil dev x : configures x = false → pres (held []) (gc_command dev x).
Proof.
  intros Hx s u s' (Hok & Hg & HK) H. apply gc_command_inv in H as [_ ->]. split; [exact Hok|].
  split; [apply guarded_snoc; [done|congruence]|]. intros k Hk. by apply elem_of_nil in Hk.
Qed.

Lemma held_get_data dev t p : pres (held []) (rx_get_data dev t p).
Proof.
  unfold rx_get_data, gc314WaitForData. apply pres_bind; [|intros; pres].
  apply pres_bind; [by apply held_nil|intros; pres].
Qed.

Definition nobody_ready : list (list Z) :=
  replicate (Z.to_nat MAX_RADARS) (replicate (Z.to_nat MAX_CHANNELS) (-1)).

(** POSTTRIGGER and the start of the driver: no client is ready. *)
Lemma rx_ok_reset s a : rx_ok s →
  rx_ok (s <| armed := a |> <| rx_numclients := 0 |> <| ready_index := nobody_ready |>).
Proof.
  intros (H1 & _). split_and!; try done; [by repeat constructor|].
  intros i q Hi Hq. apply zget_Some_range in Hq. change (i < 0) in Hi. lia.
Qed.

Lemma held_posttrigger dev t : pres (held []) (rx_posttrigger dev t).
Proof.
  intros s a s' (Hok & Hg & HK) H.
  refine (_ (_ : leads (held []) (all_cards dev (fun k => SetExternalTrigger k GC314_OFF);;
    mret [PDriver t 0]) (held []))).
  - intros Hm. refine (Hm _ a s' _ H). split; [by apply rx_ok_reset|done].
  - apply pres_bind; [apply triggers_on|intros; pres].
Qed.

(** READY: the client is listed once. *)
Definition put_client (s : receiver) (l : list (list Z)) (cl : list ControlPRM) (n : Z) : receiver :=
  s <| ready_index := l |> <| rx_clients := cl |> <| rx_numclients := n |>.

Lemma rx_ok_put s k p l cl n :
  rx_ok s → valid_client p → zset (rx_clients s) k p = Some cl →
  zlen l = MAX_RADARS → Forall (fun row => zlen row = MAX_CHANNELS) l →
  look2 l (radar p - 1) (channel p - 1) = Some k →
  (∀ r c i, (r, c) ≠ (radar p - 1, channel p - 1) → look2 (ready_index s) r c = Some i →
     look2 l r c = Some i) →
  (∀ i q, i < n → i ≠ k → zget (rx_clients s) i = Some q → i < rx_numclients s ∧
     (radar q - 1, channel q - 1) ≠ (radar p - 1, channel p - 1)) →
  0 ≤ n < maxclients → rx_ok (put_client s l cl n).
Proof.
  intros (H1 & H2 & H3 & H4 & H5) Hp Hcl L1 L2 L3 L4 Hi Hn.
  split; [change (zlen cl = maxclients); by rewrite (zlen_zset _ _ _ _ Hcl)|].
  split_and!; try done; try apply Hn. intros i q Hin Hq. change (zget cl i = Some q) in Hq.
  change (i < n) in Hin. change (ready_index (put_client s l cl n)) with l.
  destruct (decide (i = k)) as [->|Hne].
  - rewrite (zget_zset_eq _ _ _ _ Hcl) in Hq. by injection Hq as <-.
  - rewrite (zget_zset_ne _ _ _ _ _ Hcl) in Hq by done.
    destruct (Hi i q Hin Hne Hq) as [Hlt Hd]. destruct (H5 i q Hlt Hq) as [Hv Hl]. auto.
Qed.

Lemma rx_ready_run t st p s :
  rx_ok s → valid_client p →
  ∃ k p' l cl n, rx_ready t st p s = Ok ([PDriver t (if maxclients <=? n then -2 else st)],
      put_client s l cl (n %c maxclients)) ∧
    p' = (if recv_ifmode s =? 0 then p else p <| rfreq := - RX_SAMPLE_FREQ + IF_FREQ |>) ∧
    zset (rx_clients s) k p' = Some cl ∧ look2 l (radar p - 1) (channel p - 1) = Some k ∧
    rx_ok (put_client s l cl (n %c maxclients)) ∧ gc (put_client s l cl (n %c maxclients)) = gc s ∧
    (n = rx_numclients s ∨ n = rx_numclients s + 1 ∧ k = rx_numclients s).
Proof.
  intros Hok Hp. pose proof Hok as (H1 & H2 & H3 & H4 & H5).
  set (r := radar p - 1). set (c := channel p - 1). destruct Hp as [Hr Hc].
  destruct (look2_dims _ _ _ r c H3 H4) as [k Ek]; [lia|lia|].
  unfold rx_ready. fold r c. rewrite gets_then, (bind_ok _ _ _ _ _ (get2_run _ _ _ _ _ Ek)).
  set (p' := if recv_ifmode s =? 0 then p else _).
  assert (radar p' = radar p ∧ channel p' = channel p) as [Er' Ec'] by (unfold p'; by destruct (_ =? _)).
  assert (valid_client p') as Hp' by (unfold valid_client; rewrite Er', Ec'; done).
  assert (∀ i q, i < rx_numclients s → i ≠ k → zget (rx_clients s) i = Some q →
    (radar q - 1, channel q - 1) ≠ (radar p' - 1, channel p' - 1)) as Hd.
  { intros i q Hi Hne Hq E. destruct (H5 i q Hi Hq) as [_ El]. injection E as E1 E2.
    rewrite E1, E2, Er', Ec' in El. fold r c in El. congruence. }
  destruct ((0 <=? k) && (k <? maxclients)) eqn:Elisted.
  - apply andb_true_iff in Elisted as [B1%Z.leb_le B2%Z.ltb_lt].
    set (cl := <[Z.to_nat k := p']> (rx_clients s)).
    assert (zset (rx_clients s) k p' = Some cl) as Ecl by (apply zset_Some; rewrite H1; lia).
    exists k, p', (ready_index s), cl, (rx_numclients s). split.
    { unfold set_rclient. mrun. rewrite Ecl. mrun. by destruct s. }
    split; [done|]. split; [done|]. split; [done|]. split; [|by auto].
    apply (rx_ok_put s k p'); try done.
    + by rewrite Er', Ec'.
    + intros i q Hi Hne Hq. rewrite Z.rem_small in Hi by done. split; [done|]. by apply (Hd i).
    + rewrite Z.rem_small by done. done.
  - set (n := rx_numclients s) in *. set (cl := <[Z.to_nat n := p']> (rx_clients s)).
    assert (zset (rx_clients s) n p' = Some cl) as Ecl by (apply zset_Some; rewrite H1; lia).
    destruct (zset2_some (ready_index s) r c n k Ek) as (l & El & L1 & L2 & L3).
    exists n, p', l, cl, (n + 1). split.
    { unfold set_rclient. mrun. fold n. rewrite Ecl. mrun.
      change (ready_index (s <| rx_clients := cl |>)) with (ready_index s). rewrite El. mrun.
      by destruct s. }
    assert (∀ r' c' i, (r', c') ≠ (radar p' - 1, channel p' - 1) →
      look2 (ready_index s) r' c' = Some i → look2 l r' c' = Some i) as L4.
    { intros r' c' i Hne Ei. rewrite L3, bool_decide_false; [done|]. intros [-> ->].
      apply Hne. by rewrite Er', Ec'. }
    assert (k < 0 ∨ maxclients ≤ k) as Hk
      by (apply andb_false_iff in Elisted as [B%Z.leb_gt|B%Z.ltb_ge]; lia).
    split; [done|]. split; [done|]. split; [by rewrite L3, bool_decide_true|].
    split; [|by auto].
    apply (rx_ok_put s n p'); try done; [by rewrite L1|by apply L2|by rewrite L3, Er', Ec', bool_decide_true| |].
    + intros i q Hi Hne Hq. assert (i < n) as Hin.
      { pose proof (Z.rem_bound_pos (n + 1) maxclients). destruct (decide (n + 1 < maxclients)).
        - rewrite Z.rem_small in Hi by lia. lia.
        - replace (n + 1) with maxclients in Hi by lia. unfold maxclients in Hi.
          change (i < 0) in Hi. apply zget_Some_range in Hq. lia. }
      pose proof (zget_Some_range _ _ _ Hq). split; [done|]. apply (Hd i); [done|lia|done].
    + apply Z.rem_bound_pos; unfold maxclients, MAX_RADARS, MAX_CHANNELS; lia.
Qed.

Lemma held_ready t st p : valid_client p → pres (held []) (rx_ready t st p).
Proof.
  intros Hp s a s' (Hok & Hg & HK) H.
  destruct (rx_ready_run t st p s Hok Hp) as (k & p' & l & cl & n & E & _ & _ & _ & Hok' & Egc & _).
  rewrite E in H. injection H as _ <-. split; [done|]. by rewrite Egc.
Qed.

Lemma rx_handle_held dev fft c_log10 c_pow q :
  rx_request_ok q → pres (held []) (rx_handle dev fft c_log10 c_pow q).
Proof.
  destruct q; simpl; intros Hq.
  - apply pres_bind; [by apply held_nil|intros; pres].
  - apply pres_bind; [by apply held_modify|intros; pres].
  - by apply held_ready.
  - apply held_pretrigger.
  - apply held_posttrigger.
  - apply held_get_data.
  - apply held_clrfreq.
  - pres.
Qed.

(** A run of requests; the replies are not kept. *)
Definition rx_run dev fft c_log10 c_pow (qs : list rx_request) : RM unit :=
  for_each qs (fun q => _ ← rx_handle dev fft c_log10 c_pow q; mret tt).

Lemma receiver0_ok junk : rx_ok (receiver0 junk).
Proof.
  split_and!; try done; [by repeat constructor|]. intros i p Hi Hp.
  apply zget_Some_range in Hp. change (i < 0) in Hi. lia.
Qed.

(** C30: whatever requests of registered clients the driver has served since its
    start, every command that set up a card was given while that card's external
    trigger was off, and the table of ready clients is well formed: as many
    clients as counted, with a radar and channel of the site, each listed at its
    own index. *)
Theorem setup_untriggered dev fft c_log10 c_pow junk qs s :
  Forall rx_request_ok qs →
  rx_run dev fft c_log10 c_pow qs (receiver0 junk) = Ok (tt, s) →
  guarded (gc s) ∧ rx_ok s.
Proof.
  intros Hqs H. assert (held [] s) as (H1 & H2 & _); [|done].
  assert (held [] (receiver0 junk)) as H0.
  { split; [apply receiver0_ok|]. split; [by intros []|]. intros k Hk. by apply elem_of_nil in Hk. }
  revert H0 H. generalize (receiver0 junk). unfold rx_run.
  induction Hqs as [|q qs Hq _ IH]; intros s0 H0 H; [by injection H as <-|].
  apply bind_inv in H as ([] & s1 & E & H). apply (IH s1); [|done].
  apply bind_inv in E as (a & s2 & E & [= <-]). by apply (rx_handle_held dev fft c_log10 c_pow q Hq s0 a s2).
Qed.

(** ** Theorems: RECV_PRETRIGGER *)

Section Accepting.
Context (dev : gc_card).
Hypothesis Hacc : ∀ l x, accepts dev l x = true.

(** [emits m L s]: whatever commands were given before, [m] gives the commands
    [L] and changes nothing else of [s]. *)
Definition emits (m : RM unit) (L : list gc_cmd) (s : receiver) : Prop :=
  ∀ cs, m (s <| gc := cs |>) = Ok (tt, s <| gc := (cs ++ L)%list |>).

Lemma emits_command x s : 0 ≤ card_of x < MAX_CARDS → emits (gc_command dev x) [x] s.
Proof.
  intros Hx cs. unfold gc_command. destruct (Z.ltb_spec (card_of x) 0); [lia|].
  destruct (Z.leb_spec MAX_CARDS (card_of x)); [lia|]. cbn [orb]. mrun. by rewrite Hacc.
Qed.

Lemma emits_then (m k : RM unit) L K s : emits m L s → emits k K s → emits (m;; k) (L ++ K) s.
Proof.
  intros Hm Hk cs. rewrite (bind_ok _ _ _ _ _ (Hm cs)), (Hk (cs ++ L)%list). by rewrite app_assoc.
Qed.

Lemma emits_int z k L s : is_int z → emits (k z) L s → emits (int_op z ≫= k) L s.
Proof. intros Hz Hk cs. unfold int_op, mbind, m_bind. by rewrite bool_decide_true. Qed.

Lemma emits_each {X} (l : list X) f (g : X → list gc_cmd) s :
  (∀ x, x ∈ l → emits (f x) (g x) s) → emits (for_each l f) (flat_map g l) s.
Proof.
  induction l as [|x l IH]; intros H.
  - intros cs. simpl. by rewrite app_nil_r.
  - apply emits_then; [apply H; left|apply IH; intros y Hy; apply H; by right].
Qed.

Definition cards (f : Z → gc_cmd) : list gc_cmd := [f 0; f 1].

Lemma emits_cards f s : (∀ k, card_of (f k) = k) → emits (all_cards dev f) (cards f) s.
Proof.
  intros Hf. apply (emits_each (seqZ 0 MAX_CARDS) (fun k => gc_command dev (f k)) (fun k => [f k])).
  intros k Hk%elem_of_seqZ. apply emits_command. rewrite Hf. lia.
Qed.

Lemma zget_elem_take {A} (l : list A) n i x :
  zget l i = Some x → i < n → x ∈ take (Z.to_nat n) l.
Proof.
  unfold zget. case_decide; [|done]. intros E Hi. eapply list_elem_of_lookup_2.
  rewrite lookup_take_Some. split; [exact E|lia].
Qed.

Lemma elem_ready s p : p ∈ ready_list s → ∃ i, 0 ≤ i < rx_numclients s ∧ zget (rx_clients s) i = Some p.
Proof.
  intros [i Hi]%list_elem_of_lookup. apply lookup_take_Some in Hi as [Hi Hlt].
  exists (Z.of_nat i). rewrite zget_nat. split; [lia|done].
Qed.

(** The loop over the ready clients. *)
Lemma emits_clients body (g : ControlPRM → list gc_cmd) s :
  rx_ok s → (∀ p, p ∈ ready_list s → emits (body p (radar p - 1) (channel p - 1)) (g p) s) →
  emits (ready_clients body) (flat_map g (ready_list s)) s.
Proof.
  intros (H1 & H2 & _) Hb cs. unfold ready_clients. mrun.
  change (rx_numclients (s <| gc := cs |>)) with (rx_numclients s).
  assert (flat_map g (ready_list s) =
    flat_map (fun i => match zget (rx_clients s) i with Some p => g p | None => [] end)
      (seqZ 0 (rx_numclients s))) as ->.
  { unfold ready_list. set (n := rx_numclients s) in *. clear Hb.
    assert (∀ k, (k ≤ Z.to_nat n)%nat → flat_map g (take k (rx_clients s)) =
      flat_map (fun i => match zget (rx_clients s) i with Some p => g p | None => [] end)
        (seqZ 0 (Z.of_nat k))) as Hk.
    { intros k Hk. induction k as [|k IH]; [done|].
      destruct (lookup_lt_is_Some_2 (rx_clients s) k) as [p Ep]; [unfold zlen in H1; lia|].
      rewrite (take_S_r _ _ _ Ep), seqZ_S, !flat_map_app, IH by lia. simpl.
      by rewrite Z.add_0_l, zget_nat, Ep, !app_nil_r. }
    rewrite Hk by lia. do 2 f_equal. lia. }
  revert cs. apply emits_each. intros i Hi%elem_of_seqZ.
  destruct (zget_range (rx_clients s) i) as [p Ep]; [lia|]. rewrite Ep. intros cs.
  unfold get_rclient. mrun. change (rx_clients (s <| gc := cs |>)) with (rx_clients s).
  rewrite Ep. mrun. apply Hb. apply (zget_elem_take _ _ i); [exact Ep|lia].
Qed.

Definition tune_commands (p : ControlPRM) : list gc_cmd :=
  let card := radar p - 1 in
  let c := channel p - 1 in
  [SetFilters card (f_of_int (filter_bandwidth p)) c (match_filter p);
   SetOutputRate card (of_float (baseband_samplerate p)) c; SetFrequency card (rfreq p * 1000) c;
   UpdateChannel card c; SetSamples card (number_of_samples p + RECV_SAMPLE_HEADER) c].

Lemma emits_tune p s :
  valid_client p → tunable p →
  emits (tune_channel dev p (radar p - 1) (channel p - 1)) (tune_commands p) s.
Proof.
  intros [Hr _] [Hf Hn]. unfold MAX_RADARS in Hr.
  assert (∀ x, card_of x = radar p - 1 → emits (gc_command dev x) [x] s) as Hx
    by (intros x E; apply emits_command; rewrite E; unfold MAX_CARDS; lia).
  unfold tune_channel, tune_commands. repeat first
    [ apply emits_int; [done|] | by apply Hx | apply (emits_then _ _ [_]); [by apply Hx|] ].
Qed.

(** What a command changes of the tuning of a channel. *)
Definition touches (k c : Z) (x : gc_cmd) : bool :=
  match x with
  | SetFilters k' _ c' _ | SetOutputRate k' _ c' | SetFrequency k' _ c' | SetSamples k' _ c'
  | ChannelOn k' c' | ChannelAbort k' c' => (k' =? k) && (c' =? c)
  | _ => false
  end.

Lemma tuning_skip k c L t :
  Forall (fun x => touches k c x = false) L → fold_left (tuning_step k c) L t = t.
Proof.
  intros H. induction H as [|x L Hx _ IH]; [done|]. simpl.
  assert (tuning_step k c t x = t) as -> by (destruct x; simpl in *; by rewrite ?Hx). done.
Qed.

Lemma tuning_app L K k c : tuning_of (L ++ K) k c = fold_left (tuning_step k c) K (tuning_of L k c).
Proof. unfold tuning_of. by rewrite fold_left_app. Qed.

Lemma cards_skip f k c :
  (∀ card, touches k c (f card) = false) → Forall (fun x => touches k c x = false) (cards f).
Proof. intros H. by repeat constructor. Qed.

Lemma trigger_app L K k : trigger_of (L ++ K) k = fold_left (trigger_step k) K (trigger_of L k).
Proof. unfold trigger_of. by rewrite fold_left_app. Qed.

Definition at_channel (k c : Z) (p : ControlPRM) : bool := (radar p - 1 =? k) && (channel p - 1 =? c).

(** The ready clients have distinct radar channels. *)
Lemma rx_ready_distinct s l1 p l2 :
  rx_ok s → ready_list s = (l1 ++ p :: l2)%list →
  Forall (fun q => at_channel (radar p - 1) (channel p - 1) q = false) (l1 ++ l2).
Proof.
  intros (_ & _ & _ & _ & H5) E.
  assert (∀ i q, ready_list s !! i = Some q →
    look2 (ready_index s) (radar q - 1) (channel q - 1) = Some (Z.of_nat i)) as Hidx.
  { intros i q Hq. apply lookup_take_Some in Hq as [Hq Hi].
    apply (H5 (Z.of_nat i) q); [lia|]. by rewrite zget_nat. }
  assert (ready_list s !! length l1 = Some p) as Ep by (by rewrite E, list_lookup_middle).
  assert (∀ i q, ready_list s !! i = Some q → i ≠ length l1 →
    at_channel (radar p - 1) (channel p - 1) q = false) as Hd.
  { intros i q Hq Hne. apply not_true_iff_false. intros [E1%Z.eqb_eq E2%Z.eqb_eq]%andb_true_iff.
    apply Hidx in Hq, Ep. rewrite E1, E2, Ep in Hq. injection Hq as Hq. lia. }
  apply Forall_lookup. intros i q Hq. destruct (decide (i < length l1)%nat) as [Hi|Hi].
  - apply (Hd i); [|lia]. rewrite E, lookup_app_l by done. by rewrite lookup_app_l in Hq.
  - rewrite lookup_app_r in Hq by lia. apply (Hd (S i)); [|lia].
    rewrite E, lookup_app_r by lia. by replace (S i - length l1)%nat with (S (i - length l1)) by lia.
Qed.

(** A loop over clients none of which is at [(k, c)] does not touch it. *)
Lemma others_skip (g : ControlPRM → list gc_cmd) k c ps :
  (∀ q, at_channel k c q = false → Forall (fun x => touches k c x = false) (g q)) →
  Forall (fun q => at_channel k c q = false) ps →
  Forall (fun x => touches k c x = false) (flat_map g ps).
Proof.
  intros Hg H. induction H as [|q ps Hq _ IH]; [constructor|]. simpl. apply Forall_app. auto.
Qed.

Lemma tune_skip k c q : at_channel k c q = false → Forall (fun x => touches k c x = false) (tune_commands q).
Proof. intros H. repeat constructor; try exact H. Qed.

Definition rda_command (p : ControlPRM) : list gc_cmd := [SetRDA (radar p - 1) (channel p - 1)].

Definition on_command (p : ControlPRM) : list gc_cmd := [ChannelOn (radar p - 1) (channel p - 1)].

Lemma on_skip k c q : at_channel k c q = false → Forall (fun x => touches k c x = false) (on_command q).
Proof. intros H. repeat constructor; try exact H. Qed.

(** A pre-trigger up to the start of the collection. *)
Definition setup_commands (ps : list ControlPRM) : list gc_cmd :=
  cards (fun k => SetExternalTrigger k GC314_OFF) ++ flat_map tune_commands ps ++
  cards (fun k => SetSyncMask k SYNC1_SIA_HOLD) ++ cards (fun k => SetGlobalReset k GC314_ON) ++
  cards LoadGC4016s ++ cards (fun k => SetGlobalReset k GC314_OFF) ++
  cards (fun k => SetSync1 k GC314_OFF) ++ flat_map rda_command ps ++
  cards (fun k => SetSyncMask k SYNC1_SIA_HOLD) ++ flat_map on_command ps.

Lemma rda_untouched k c ps : Forall (fun x => touches k c x = false) (flat_map rda_command ps).
Proof. induction ps as [|p ps IH]; [constructor|]. simpl. by constructor. Qed.

(** The tuning after the setup: two loops over the clients matter. *)
Lemma setup_tuning cs ps k c :
  tuning_of (cs ++ setup_commands ps) k c =
  fold_left (tuning_step k c) (flat_map on_command ps)
    (fold_left (tuning_step k c) (flat_map tune_commands ps) (tuning_of cs k c)).
Proof.
  rewrite tuning_app. unfold setup_commands. rewrite !fold_left_app.
  rewrite (tuning_skip k c (flat_map rda_command ps)) by apply rda_untouched.
  by rewrite !(tuning_skip k c (cards _)) by (by apply cards_skip).
Qed.

Lemma flat_map_cons {A B} (f : A → list B) x l : flat_map f (x :: l) = (f x ++ flat_map f l)%list.
Proof. done. Qed.

Lemma setup_tuned cs s l1 p l2 :
  rx_ok s → ready_list s = (l1 ++ p :: l2)%list →
  tuning_of (cs ++ setup_commands (ready_list s)) (radar p - 1) (channel p - 1) = tuning_for p.
Proof.
  intros Hok E. pose proof (rx_ready_distinct s l1 p l2 Hok E) as [H1 H2]%Forall_app.
  rewrite setup_tuning, E, !flat_map_app, !flat_map_cons, !fold_left_app.
  do 4 rewrite (tuning_skip _ _ (flat_map _ _)) by
    (apply others_skip; [apply tune_skip || apply on_skip|done]).
  unfold tune_commands, on_command. cbn [fold_left tuning_step]. by rewrite !Z.eqb_refl.
Qed.

Lemma setup_others cs s k c :
  (∀ p, p ∈ ready_list s → at_channel k c p = false) →
  tuning_of (cs ++ setup_commands (ready_list s)) k c = tuning_of cs k c.
Proof.
  intros H%Forall_forall. rewrite setup_tuning.
  rewrite (tuning_skip _ _ (flat_map tune_commands _)) by (apply others_skip; [apply tune_skip|done]).
  apply tuning_skip, others_skip; [apply on_skip|done].
Qed.

Definition start_commands : list gc_cmd :=
  cards StartCollection ++ cards (fun k => SetExternalTrigger k GC314_ON).

Lemma emits_run {B} m L (f : unit → RM B) s cs :
  emits m L s → (m ≫= f) (s <| gc := cs |>) = f tt (s <| gc := (cs ++ L)%list |>).
Proof. intros H. by rewrite (bind_ok _ _ _ _ _ (H cs)). Qed.

Lemma pretrigger_run t st s :
  rx_ok s → Forall tunable (ready_list s) →
  rx_pretrigger dev t st s = Ok ([PDriver t st],
    s <| gc := (gc s ++ setup_commands (ready_list s) ++ start_commands)%list |> <| armed := 1 |>).
Proof.
  intros Hok Ht. assert (∀ p, p ∈ ready_list s → valid_client p) as Hv.
  { intros p (i & Hi & Ep)%elem_ready. destruct Hok as (_ & _ & _ & _ & H5).
    by apply (H5 i p); [lia|]. }
  assert (∀ x p, p ∈ ready_list s → card_of x = radar p - 1 → emits (gc_command dev x) [x] s) as Hx.
  { intros x p Hp E. apply emits_command. rewrite E. destruct (Hv p Hp) as [Hr _].
    unfold MAX_RADARS in Hr. unfold MAX_CARDS. lia. }
  rewrite Forall_forall in Ht. assert (∀ f, (∀ k, card_of (f k) = k) →
    emits (all_cards dev f) (cards f) s) as Hc by (intros f Hf; by apply emits_cards).
  assert (emits (ready_clients (tune_channel dev)) (flat_map tune_commands (ready_list s)) s) as Htune
    by (apply emits_clients; [done|]; intros p Hp; apply emits_tune; auto).
  assert (∀ f, (∀ p, card_of (f (radar p - 1) (channel p - 1)) = radar p - 1) →
    emits (ready_clients (fun _ k c => gc_command dev (f k c)))
      (flat_map (fun p => [f (radar p - 1) (channel p - 1)]) (ready_list s)) s) as Hch
    by (intros f Hf; apply emits_clients; [done|]; intros p Hp; by apply (Hx _ p)).
  unfold rx_pretrigger. replace s with (s <| gc := gc s |>) at 1 by (by destruct s).
  repeat match goal with
  | |- (all_cards dev ?f ≫= _) _ = _ => rewrite (emits_run _ _ _ _ _ (Hc f (fun _ => eq_refl)))
  | |- (ready_clients (tune_channel dev) ≫= _) _ = _ => rewrite (emits_run _ _ _ _ _ Htune)
  | _ => rewrite (emits_run _ _ _ _ _ (Hch SetRDA (fun _ => eq_refl)))
  | _ => rewrite (emits_run _ _ _ _ _ (Hch ChannelOn (fun _ => eq_refl)))
  end.
  unfold setup_commands, start_commands. mrun. by rewrite <- !app_assoc.
Qed.

Lemma trigger_skip k L v :
  forallb (fun x => negb (is_trigger x)) L = true → fold_left (trigger_step k) L v = v.
Proof.
  revert v. induction L as [|x L IH]; intros v; [done|]. simpl. intros [Hx H]%andb_true_iff.
  rewrite IH by done. by destruct x.
Qed.

Lemma flat_map_no_trigger (g : ControlPRM → list gc_cmd) ps :
  (∀ p, forallb (fun x => negb (is_trigger x)) (g p) = true) →
  forallb (fun x => negb (is_trigger x)) (flat_map g ps) = true.
Proof.
  intros H. induction ps as [|p ps IH]; [done|]. rewrite flat_map_cons, forallb_app, H. exact IH.
Qed.

(** The setup leaves the external triggers off. *)
Lemma setup_off ps k v :
  k = 0 ∨ k = 1 → fold_left (trigger_step k) (setup_commands ps) v = Some GC314_OFF.
Proof.
  intros Hk. unfold setup_commands. rewrite fold_left_app, trigger_skip.
  - by destruct Hk as [-> | ->].
  - by rewrite !forallb_app, !flat_map_no_trigger.
Qed.

(** C26: RECV_PRETRIGGER gives the cards first the setup, then the start of the
    collection and last the external trigger.  When the collection starts the
    channel of every ready client is on and has that client's filter, rate,
    frequency and number of samples (with the header), every other channel has
    what it had before, and at the end the external trigger of every card is on
    and the driver armed. *)
Theorem pretrigger_tunes t st s :
  rx_ok s → Forall tunable (ready_list s) →
  ∃ L, rx_pretrigger dev t st s =
      Ok ([PDriver t st], s <| gc := (gc s ++ L ++ start_commands)%list |> <| armed := 1 |>) ∧
    (∀ p, p ∈ ready_list s → tuning_of (gc s ++ L) (radar p - 1) (channel p - 1) = tuning_for p) ∧
    (∀ k c, (∀ p, p ∈ ready_list s → (radar p, channel p) ≠ (k + 1, c + 1)) →
       tuning_of (gc s ++ L) k c = tuning_of (gc s) k c) ∧
    (∀ k, 0 ≤ k < MAX_CARDS → trigger_of (gc s ++ L) k = Some GC314_OFF ∧
       trigger_of (gc s ++ L ++ start_commands) k = Some GC314_ON).
Proof.
  intros Hok Ht. exists (setup_commands (ready_list s)). split_and!.
  - by apply pretrigger_run.
  - intros p [l1 [l2 E]]%list_elem_of_split. by eapply setup_tuned.
  - intros k c H. apply setup_others. intros p Hp. apply not_true_iff_false.
    intros [E1%Z.eqb_eq E2%Z.eqb_eq]%andb_true_iff. apply (H p Hp). f_equal; lia.
  - intros k Hk. unfold MAX_CARDS in Hk. assert (k = 0 ∨ k = 1) as Ek by lia.
    rewrite app_assoc, (trigger_app (_ ++ _)). split; [|by destruct Ek as [-> | ->]].
    rewrite trigger_app. by apply setup_off.
Qed.

End Accepting.

(** ** Theorems: the arithmetic of the search *)

(** The sizes of the transform a band of at least two kHz gives. *)
Definition search_sizes : list Z := [4; 8; 16; 32; 64; 128; 256; 512; 1024].

Lemma search_sizes_case (P : Z → Prop) :
  P 4 → P 8 → P 16 → P 32 → P 64 → P 128 → P 256 → P 512 → P 1024 → ∀ N, N ∈ search_sizes → P N.
Proof. intros. repeat (apply elem_of_cons in H8 as [->|H8]; [done|]). by apply elem_of_nil in H8. Qed.

(** The C library gives the exponent [k] of the transform for a band of [w] kHz. *)
Definition points_exponent (c_log10 : double → double) (c_pow : double → double → double)
    (w k : Z) : Prop :=
  d_ceiling (ddiv (c_log10 (dmul (d_lit 125 2) (of_float (f_of_int w)))) (c_log10 (d_of_int 2)))
    = d_of_int k ∧
  c_pow (d_of_int 2) (d_of_int k) = d_of_int (2 ^ k).

Lemma fft_points_size c_log10 c_pow w k :
  points_exponent c_log10 c_pow w k → 2 ≤ k ≤ 30 →
  fft_points c_log10 c_pow w = (if 10 <? k then 512 else 2 ^ k) ∧
  (if 10 <? k then 512 else 2 ^ k) ∈ search_sizes.
Proof.
  intros [E1 E2] Hk. unfold fft_points. rewrite E1, E2.
  assert (2 ^ 2 ≤ 2 ^ k ≤ 2 ^ 30) as Hp by (split; apply Z.pow_le_mono_r; lia).
  rewrite (d_to_int_represents _ (2 ^ k)); [|apply d_of_int_represents; lia|unfold int_max; lia].
  destruct (Z.ltb_spec 10 k) as [H|H].
  - assert (2 ^ 11 ≤ 2 ^ k) by (apply Z.pow_le_mono_r; lia).
    rewrite (proj2 (Z.ltb_lt _ _)) by lia. split; [done|]. apply list_elem_of_In. simpl. auto 12.
  - assert (2 ^ k ≤ 2 ^ 10) by (apply Z.pow_le_mono_r; lia).
    rewrite (proj2 (Z.ltb_ge _ _)) by lia. split; [done|].
    assert (k = 2 ∨ k = 3 ∨ k = 4 ∨ k = 5 ∨ k = 6 ∨ k = 7 ∨ k = 8 ∨ k = 9 ∨ k = 10) as Hc by lia.
    unfold search_sizes.
    repeat (destruct Hc as [-> |Hc]; [apply list_elem_of_In; simpl; auto 12|]). subst k.
    apply list_elem_of_In. simpl. auto 12.
Qed.

Lemma half_range N : N ∈ search_sizes → 0 < N / 2 ≤ 512 ∧ N = 2 * (N / 2).
Proof. revert N. apply search_sizes_case; vm_compute; split_and!; congruence. Qed.

Lemma half_represents N : N ∈ search_sizes → represents (ddiv (d_of_int N) (d_of_int 2)) (N / 2).
Proof.
  revert N. apply search_sizes_case; right; (split; [done|]); eexists _, _;
    (split; [vm_compute; reflexivity|]); split; done.
Qed.

Lemma fraction_lit : d_lit 49999 5 = S754_finite false 9007019110755897 (-54).
Proof. vm_compute. reflexivity. Qed.

Lemma search_start_exact centre N :
  N ∈ search_sizes → N / 2 ≤ centre < 2 ^ 30 → search_start centre N = centre - N / 2.
Proof.
  intros HN Hc. unfold search_start. rewrite fraction_lit.
  pose proof (half_represents N HN) as Hh.
  destruct (half_range N HN) as [Hr _].
  apply dadd_fraction; [|lia|done|by vm_compute].
  apply dsub_represents; [apply d_of_int_represents; lia|done|lia].
Qed.

Lemma search_end_exact centre N :
  N ∈ search_sizes → 0 ≤ centre < 2 ^ 30 → search_end centre N = centre + N / 2.
Proof.
  intros HN Hc. unfold search_end. rewrite fraction_lit.
  pose proof (half_represents N HN) as Hh.
  destruct (half_range N HN) as [Hr _].
  apply dadd_fraction; [|lia|done|by vm_compute].
  apply dadd_represents; [apply d_of_int_represents; lia|done|lia].
Qed.

(** The answered part of the spectrum: as many powers as promised, that start
    half of them below the centre, rounded up. *)
Lemma usable_part N : N ∈ search_sizes →
  0 ≤ unusable_sideband N ∧ 0 < usable_bandwidth N ∧ unusable_sideband N + usable_bandwidth N ≤ N ∧
  unusable_sideband N - N / 2 = - ((usable_bandwidth N + 1) / 2).
Proof. revert N. apply search_sizes_case; vm_compute; split_and!; congruence. Qed.

(** ** Theorems: the collection of a search *)

(** The commands of one try on channel A of [card]. *)
Definition collect_commands (card centre N : Z) : list gc_cmd :=
  [SetExternalTrigger card GC314_OFF; SetFilters card (f_of_int (N * 1000)) 0 0;
   SetOutputRate card (dmul (d_of_int N) (d_of_int 1000)) 0; SetFrequency card (centre * 1000) 0;
   UpdateChannel card 0; SetSamples card (4 * N + RECV_SAMPLE_HEADER + CLR_SAMP_OFFSET) 0;
   SetSyncMask card SYNC1_SIA_HOLD; SetSync1 card GC314_ON; SetGlobalReset card GC314_ON;
   LoadGC4016s card; SetGlobalReset card GC314_OFF; SetSync1 card GC314_OFF; SetRDA card 0;
   SetSyncMask card SYNC1_SIA_HOLD; ChannelOn card 0; StartCollection card;
   SetSync1 card GC314_ON; SetSync1 card GC314_OFF; WaitForData card 0].

(** The commands given after [t] tries. *)
Definition tried (card centre N : Z) (h : list gc_cmd) (t : nat) : list gc_cmd :=
  (h ++ concat (replicate t (collect_commands card centre N)))%list.

Lemma tried_S card centre N h t :
  tried card centre N (h ++ collect_commands card centre N) t = tried card centre N h (S t).
Proof. unfold tried. cbn [replicate concat]. by rewrite <- app_assoc. Qed.

Lemma tried_1 card centre N h : tried card centre N h 1 = (h ++ collect_commands card centre N)%list.
Proof. unfold tried. cbn [replicate concat]. by rewrite app_nil_r. Qed.

Section Search.
Context (dev : gc_card).
Hypothesis Hacc : ∀ l x, accepts dev l x = true.

(** The state of the wait for data after [t] tries. *)
Definition wait_after (card centre N : Z) (h : list gc_cmd) (t : nat) : Z :=
  wait_status dev (tried card centre N h t) card 0.

(** [t] tries of at most [n]: the last one only may end well. *)
Definition tries_taken (w : nat → Z) (n t : nat) : Prop :=
  (1 ≤ t ≤ n)%nat ∧ (∀ j, (1 ≤ j < t)%nat → w j < 0) ∧ (w t < 0 → t = n).

Lemma gc_command_next {B} x (f : unit → RM B) s cs :
  0 ≤ card_of x < MAX_CARDS →
  (gc_command dev x ≫= f) (s <| gc := cs |>) = f tt (s <| gc := (cs ++ [x])%list |>).
Proof. intros Hx. apply emits_run. by apply emits_command. Qed.

Lemma int_op_next {B} z (f : Z → RM B) s : is_int z → (int_op z ≫= f) s = f z s.
Proof. intros Hz. unfold int_op, mbind, m_bind. by rewrite bool_decide_true. Qed.

Lemma search_collect_run card centre N s cs :
  0 ≤ card < MAX_CARDS → is_int (centre * 1000) →
  search_collect dev card 0 centre N 4 (s <| gc := cs |>) =
    Ok (wait_after card centre N cs 1, s <| gc := (cs ++ collect_commands card centre N)%list |>).
Proof.
  intros Hc Hi. unfold search_collect, gc314WaitForData.
  do 3 rewrite gc_command_next by done.
  rewrite int_op_next by done.
  do 16 rewrite gc_command_next by done. mrun.
  unfold wait_after. rewrite tried_1. by rewrite <- !app_assoc.
Qed.

Lemma search_tries_run card centre N s : ∀ l cs acc,
  0 ≤ card < MAX_CARDS → is_int (centre * 1000) → l ≠ [] →
  ∃ t, tries_taken (wait_after card centre N cs) (length l) t ∧
    for_break l (fun (_ : Z) (_ : Z) =>
      status ← search_collect dev card 0 centre N 4;
      mret (if status <? 0 then Next status else Break status)) acc (s <| gc := cs |>) =
    Ok (wait_after card centre N cs t, s <| gc := tried card centre N cs t |>).
Proof.
  induction l as [|i l IH]; intros cs acc Hc Hi Hl; [done|].
  cbn [for_break]. rewrite bind_assoc, (bind_ok _ _ _ _ _ (search_collect_run _ _ _ s cs Hc Hi)).
  rewrite ret_then. destruct (Z.ltb_spec (wait_after card centre N cs 1) 0) as [Hw|Hw].
  - destruct l as [|i' l].
    + exists 1%nat. split; [split_and!; simpl; try lia; intros; lia|]. cbn [for_break].
      by rewrite tried_1.
    + destruct (IH (cs ++ collect_commands card centre N)%list (wait_after card centre N cs 1) Hc Hi)
        as (t & (H1 & H2 & H3) & E); [done|].
      unfold wait_after in H2, H3. rewrite tried_S in H3. exists (S t). split.
      * split; [simpl in *; lia|]. split.
        -- intros [|[|j]] Hj; [lia|done|]. unfold wait_after. rewrite <- tried_S. apply H2. lia.
        -- intros Hneg. by rewrite (H3 Hneg).
      * rewrite E. unfold wait_after. by rewrite tried_S.
  - exists 1%nat. split; [split_and!; simpl; try lia; intros; lia|].
    by rewrite tried_1.
Qed.

(** A search that is not refused: the status tells whether a try ended well,
    and then [main] is the buffer of the main antennas. *)
Lemma search_run p centre N s :
  armed s = 0 → valid_client p → is_int (centre * 1000) →
  let card := radar p - 1 in
  ∃ t, tries_taken (wait_after card centre N (gc s)) 10 t ∧
    search dev p centre N 4 s = Ok (
      if 0 <=? wait_after card centre N (gc s) t
      then (1, s <| gc := tried card centre N (gc s) t |> <| rx_main := Some (card, main_input, 0) |>)
      else (-1, s <| gc := tried card centre N (gc s) t |>)).
Proof.
  intros Ha [Hr _] Hi card. unfold MAX_RADARS in Hr.
  destruct (search_tries_run card centre N s (seqZ 0 max_retries) (gc s) 0) as (t & Ht & E);
    [unfold card, MAX_CARDS; lia|done|done|].
  change (length (seqZ 0 max_retries)) with 10%nat in Ht. exists t. split; [done|].
  unfold search. rewrite gets_then, Ha. cbn [Z.eqb]. fold card. unfold search_tries.
  replace (s <| gc := gc s |>) with s in E by (by destruct s).
  rewrite (bind_ok _ _ _ _ _ E). destruct (0 <=? wait_after card centre N (gc s) t); [|done].
  unfold set_main. assert ((0 <=? card) && (card <? MAX_CARDS) && (0 <=? 0) && (0 <? MAX_CHANNELS) = true)
    as -> by (unfold card, MAX_CARDS, MAX_CHANNELS; rewrite !andb_true_iff, !Z.leb_le, !Z.ltb_lt; lia).
  by mrun.
Qed.

(** The samples of block [ii] in the buffer of [card], [input] and [channel]. *)
Definition block_of (h : list gc_cmd) (m : Z * Z * Z) (N ii : Z) : list (double * double) :=
  let '(card, input, channel) := m in
  map (fun j => iq (dma dev h card input channel (ii * N + j + RECV_SAMPLE_HEADER + CLR_SAMP_OFFSET)))
    (seqZ 0 N).

Lemma search_block_run m N ii st s :
  st ≠ 0 → rx_main s = Some m → 0 ≤ ii < 4 → 0 < N ≤ 1024 →
  search_block dev N ii st s = Ok (block_of (gc s) m N ii, s).
Proof.
  intros Hst Hm Hii HN. destruct m as [[card input] channel]. unfold search_block.
  rewrite (proj2 (Z.eqb_neq st 0) Hst).
  apply (for_fold_map _ _ (fun j => iq (dma dev (gc s) card input channel
    (ii * N + j + RECV_SAMPLE_HEADER + CLR_SAMP_OFFSET))) s []).
  intros j l Hj%elem_of_seqZ. unfold read_main. mrun. rewrite Hm. mrun.
  set (i := ii * N + j + RECV_SAMPLE_HEADER + CLR_SAMP_OFFSET).
  assert ((0 <=? i) && (i <? DMA_BUF_SIZE / 4) = true) as ->; [|by mrun].
  rewrite andb_true_iff, Z.leb_le, Z.ltb_lt. change (DMA_BUF_SIZE / 4) with 262144.
  unfold i, RECV_SAMPLE_HEADER, CLR_SAMP_OFFSET. nia.
Qed.

(** The mean power of every bin over the four blocks. *)
Definition mean_powers (fft : list (double * double) → list (double * double)) (N : Z)
    (block : Z → list (double * double)) : list double :=
  map (fun x => ddiv x (d_of_int 4))
    (foldl (fun pwr ii => add_powers N pwr (fft (block ii))) (replicate (Z.to_nat N) dzero) (seqZ 0 4)).

Lemma average_power_run fft m N st s :
  st ≠ 0 → rx_main s = Some m → 0 < N ≤ 1024 →
  average_power dev fft N 4 st s = Ok (mean_powers fft N (block_of (gc s) m N), s).
Proof.
  intros Hst Hm HN. unfold average_power, mean_powers.
  assert (∀ l acc, (∀ ii, ii ∈ l → 0 ≤ ii < 4) →
    for_fold l (fun ii pwr => block ← search_block dev N ii st; mret (add_powers N pwr (fft block)))
      acc s = Ok (foldl (fun pwr ii => add_powers N pwr (fft (block_of (gc s) m N ii))) acc l, s)) as H.
  { induction l as [|ii l IH]; intros acc Hl; [done|]. cbn [for_fold foldl].
    rewrite bind_assoc, (bind_ok _ _ _ _ _ (search_block_run m N ii st s Hst Hm
      (Hl ii (list_elem_of_here _ _)) HN)), ret_then.
    apply IH. intros j Hj. apply Hl. by right. }
  rewrite (bind_ok _ _ _ _ _ (H (seqZ 0 4) _ (fun ii Hi => proj1 (elem_of_seqZ _ _ _) Hi))). done.
Qed.

End Search.

(** ** Theorems: the order of the frequencies *)

Lemma zget_replicate {A} n (x : A) i : 0 ≤ i < n → zget (replicate (Z.to_nat n) x) i = Some x.
Proof.
  intros Hi. unfold zget. rewrite decide_True by lia. apply lookup_replicate_2. lia.
Qed.

(** After [i] rounds of the loop: the entries below [i] of both halves are
    exchanged. *)
Definition shifted (h i : Z) (pwr pwr2 : list double) : Prop :=
  zlen pwr2 = 2 * h ∧
  ∀ j, 0 ≤ j < i → zget pwr2 j = zget pwr (h + j) ∧ zget pwr2 (h + j) = zget pwr j.

Lemma shifted_step h i pwr pwr2 x y l1 l2 :
  0 ≤ i < h → shifted h i pwr pwr2 → zget pwr i = Some x → zget pwr (h + i) = Some y →
  zset pwr2 (h + i) x = Some l1 → zset l1 i y = Some l2 → shifted h (i + 1) pwr l2.
Proof.
  intros Hi [H1 H2] Ex Ey E1 E2. split.
  - by rewrite (zlen_zset _ _ _ _ E2), (zlen_zset _ _ _ _ E1).
  - intros j Hj. destruct (decide (j = i)) as [->|Hne].
    + rewrite (zget_zset_eq _ _ _ _ E2), (zget_zset_ne _ _ _ _ _ E2) by lia.
      by rewrite (zget_zset_eq _ _ _ _ E1).
    + rewrite !(zget_zset_ne _ _ _ _ _ E2), !(zget_zset_ne _ _ _ _ _ E1) by lia. apply H2. lia.
Qed.

Lemma fftshift_run N pwr s :
  0 ≤ N → N = 2 * (N / 2) → zlen pwr = N →
  ∃ pwr2, fftshift N pwr s = Ok (pwr2, s) ∧ shifted (N / 2) (N / 2) pwr pwr2.
Proof.
  intros HN Heven Hlen. set (h := N / 2) in *. unfold fftshift.
  replace (N /c 2) with h by (symmetry; apply Z.quot_div_nonneg; lia).
  assert (wp (for_fold (seqZ 0 h) (fun i pwr2 =>
    x ← deref OutOfBounds (zget pwr i);
    pwr2 ← deref OutOfBounds (zset pwr2 (h + i) x);
    y ← deref OutOfBounds (zget pwr (h + i));
    deref OutOfBounds (zset pwr2 i y)) (replicate (Z.to_nat N) dzero))
    (fun pwr2 s' => s' = s ∧ shifted h h pwr pwr2) s) as H.
  { apply (wp_for_fold (fun l pwr2 s' => ∃ i, l = seqZ i (h - i) ∧ 0 ≤ i ≤ h ∧ s' = s ∧
      shifted h i pwr pwr2)).
    - exists 0. split; [by rewrite Z.sub_0_r|]. split; [lia|]. split; [done|].
      split; [rewrite zlen_replicate; lia|lia].
    - intros i' l' pwr2 s' (i & El & Hi & -> & Hs). destruct (decide (i = h)) as [->|Hne].
      { by rewrite Z.sub_diag in El. }
      rewrite seqZ_cons' in El by lia. injection El as -> ->. pose proof Hs as [Hl2 _].
      destruct (zget_range pwr i) as [x Ex]; [lia|]. destruct (zget_range pwr (h + i)) as [y Ey]; [lia|].
      pose proof (zset_Some pwr2 (h + i) x ltac:(lia)) as E1. set (l1 := <[_ := _]> _) in E1.
      pose proof (zset_Some l1 i y ltac:(rewrite (zlen_zset _ _ _ _ E1); lia)) as E2.
      apply wp_bind. eapply wp_deref; [exact Ex|]. apply wp_bind. eapply wp_deref; [exact E1|].
      apply wp_bind. eapply wp_deref; [exact Ey|]. eapply wp_deref; [exact E2|].
      exists (i + 1). split; [f_equal; lia|]. split; [lia|]. split; [done|].
      exact (shifted_step h i pwr pwr2 x y _ _ ltac:(lia) Hs Ex Ey E1 E2).
    - intros pwr2 s' (i & El & Hi & -> & Hs). split; [done|].
      assert (i = h) as ->; [|done]. destruct (decide (i = h)); [done|].
      rewrite seqZ_cons' in El by lia. done. }
  apply wp_run in H as (pwr2 & s' & E & -> & Hs). by exists pwr2.
Qed.

(** The power at [d] kHz above the centre: the bin of a negative frequency is in
    the upper half of the transform. *)
Definition power_at (N : Z) (powers : list double) (d : Z) : option double := zget powers (d mod N).

Lemma shifted_power h pwr pwr2 j :
  shifted h h pwr pwr2 → 0 ≤ j < 2 * h → zget pwr2 j = power_at (2 * h) pwr (j - h).
Proof.
  intros [H1 H2] Hj. unfold power_at. destruct (Z.lt_ge_cases j h).
  - rewrite (proj1 (H2 j ltac:(lia))). f_equal.
    rewrite <- (Z.mod_add _ 1) by lia. rewrite Z.mod_small; lia.
  - rewrite Z.mod_small by lia. pose proof (proj2 (H2 (j - h) ltac:(lia))) as E.
    by replace (h + (j - h)) with j in E by lia.
Qed.

(** ** Theorems: RECV_CLRFREQ *)

Definition search_centre (clr : CLRFreqPRM) : Z := (clr_end clr + clr_start clr) /c 2.

(** The width the transform is computed for: even. *)
Definition search_width (clr : CLRFreqPRM) : Z := (clr_end clr - clr_start clr) /c 2 * 2.

(** The size of the transform for the exponent [k]. *)
Definition transform_size (k : Z) : Z := if 10 <? k then 512 else 2 ^ k.

(** The band of a request: within the frequencies an [int] of Hz can name, and
    far enough from 0. *)
Definition band_ok (clr : CLRFreqPRM) (N : Z) : Prop :=
  is_int (clr_end clr + clr_start clr) ∧ is_int (clr_end clr - clr_start clr) ∧
  N / 2 ≤ search_centre clr ≤ 2000000.

(** The band the driver answers with. *)
Definition searched_band (clr : CLRFreqPRM) (N : Z) : CLRFreqPRM :=
  clr <| clr_start := search_centre clr - N / 2 |> <| clr_end := search_centre clr + N / 2 |>
      <| nave := 4 |>.

Section Answer.
Context (dev : gc_card) (fft : list (double * double) → list (double * double)).
Context (c_log10 : double → double) (c_pow : double → double → double).
Hypothesis Hfft : ∀ l, length (fft l) = length l.

Lemma mean_powers_length N block :
  0 ≤ N → (∀ ii, zlen (block ii) = N) → zlen (mean_powers fft N block) = N.
Proof.
  intros HN Hb. unfold mean_powers, zlen. rewrite length_map.
  assert (∀ l acc, zlen acc = N →
    zlen (foldl (fun pwr ii => add_powers N pwr (fft (block ii))) acc l) = N) as H.
  { induction l as [|ii l IH]; intros acc Ha; [done|]. simpl. apply IH. unfold add_powers, zlen.
    rewrite length_zip_with, Hfft. pose proof (Hb ii). unfold zlen in *. lia. }
  apply H. by apply zlen_replicate.
Qed.

Lemma block_length h m N ii : 0 ≤ N → zlen (block_of dev h m N ii) = N.
Proof. intros HN. destruct m as [[card i] c]. unfold block_of, zlen. rewrite length_map, length_seqZ. lia. Qed.

(** [l] is the answered part of the powers [P] of the bins. *)
Definition answers_powers (N : Z) (P l : list double) : Prop :=
  zlen P = N ∧ zlen l = usable_bandwidth N ∧
  ∀ i, 0 ≤ i < usable_bandwidth N → zget l i = power_at N P (i - (usable_bandwidth N + 1) / 2).

Lemma answered_part N P pwr2 :
  N ∈ search_sizes → zlen P = N → shifted (N / 2) (N / 2) P pwr2 →
  answers_powers N P (take (Z.to_nat (usable_bandwidth N)) (drop (Z.to_nat (unusable_sideband N)) pwr2)).
Proof.
  intros HN HP Hs. destruct (half_range N HN) as [Hh HNN].
  destruct (usable_part N HN) as (U1 & U2 & U3 & U4).
  set (us := unusable_sideband N) in *. pose proof (proj1 Hs) as Hl. split; [done|]. split.
  - unfold zlen in *. rewrite length_take, length_drop. lia.
  - intros i Hi. unfold zget at 1. rewrite decide_True, lookup_take_lt, lookup_drop by lia.
    pose proof (shifted_power (N / 2) P pwr2 (us + i) Hs ltac:(lia)) as E.
    unfold zget in E at 1. rewrite decide_True in E by lia.
    replace (Z.to_nat us + Z.to_nat i)%nat with (Z.to_nat (us + i)) by lia. rewrite E, <- HNN.
    f_equal. lia.
Qed.

Lemma clrfreq_run t clr p k s st s1 m :
  points_exponent c_log10 c_pow (search_width clr) k → 2 ≤ k ≤ 30 →
  let N := transform_size k in
  band_ok clr N → search dev p (search_centre clr) N 4 s = Ok (st, s1) → st ≠ 0 →
  rx_main s1 = Some m →
  ∃ l, rx_clrfreq dev fft c_log10 c_pow t clr p s =
      Ok ([PClr (searched_band clr N); PInt (usable_bandwidth N); PDoubles l; PDriver t st],
          s1 <| post_clr := [1; 1; 1; 1] |>) ∧
    answers_powers N (mean_powers fft N (block_of dev (gc s1) m N)) l.
Proof.
  intros Hk Hk2 N (Hsum & Hwidth & Hc) Hs Hst Hm.
  destruct (fft_points_size c_log10 c_pow (search_width clr) k Hk Hk2) as [EN HN].
  change (if 10 <? k then 512 else 2 ^ k) with N in EN, HN.
  destruct (half_range N HN) as [Hh HNN]. set (P := mean_powers _ _ _).
  assert (zlen P = N) as HP by (apply mean_powers_length; [lia|]; intros ii; apply block_length; lia).
  destruct (fftshift_run N P s1 ltac:(lia) HNN HP) as (pwr2 & Eshift & Hpwr2).
  eexists. split; [|by apply (answered_part N P pwr2)].
  unfold rx_clrfreq. rewrite int_op_next by done. fold (search_centre clr).
  rewrite int_op_next by done. fold (search_width clr). rewrite EN.
  rewrite (proj2 (Z.leb_gt N 0)) by lia. cbn [when]. mrun.
  rewrite (bind_ok _ _ _ _ _ Hs), (bind_ok _ _ _ _ _ (average_power_run dev fft m N st s1 Hst Hm ltac:(lia))).
  fold P. rewrite (bind_ok _ _ _ _ _ Eshift). mrun.
  destruct (usable_part N HN) as (U1 & U2 & U3 & U4). pose proof (proj1 Hpwr2) as Hl.
  rewrite (proj2 (Z.ltb_ge (zlen pwr2) _)) by lia. unfold searched_band.
  rewrite (search_start_exact _ N HN), (search_end_exact _ N HN) by lia. by mrun.
Qed.

End Answer.

(** ** Witnesses *)

(** A card whose first collection fails. *)
Definition demo_card : gc_card :=
  mk_gc_card (fun _ _ => true) (fun h _ _ => if (length h <? 20)%nat then -1 else 0)
    (fun _ card input _ i => 65536 * (i + card) + i * i + input)
    (fun card input channel => 4096 * (12 * card + 4 * input + channel)).

Definition demo_rx_client (r c f : Z) : ControlPRM :=
  prm0 <| radar := r |> <| channel := c |> <| rfreq := f |> <| number_of_samples := 300 |>
       <| filter_bandwidth := 3333 |> <| baseband_samplerate := d_of_int 3333 |>.

Definition demo_ready : receiver :=
  put_client (receiver0 prm0) [[0; -1; -1; -1]; [-1; -1; 1; -1]]
    (demo_rx_client 1 1 10500 :: demo_rx_client 2 3 12000 :: replicate 6 prm0) 2.

(** Two clients that got ready. *)
Example demo_ready_run :
  rx_run demo_card (fun l => l) (fun x => x) (fun x _ => x)
    [RxReady "1"%char 1 (demo_rx_client 1 1 10500); RxReady "1"%char 1 (demo_rx_client 2 3 12000)]
    (receiver0 prm0) = Ok (tt, demo_ready).
Proof. vm_compute. reflexivity. Qed.

Lemma demo_ready_rx_ok : rx_ok demo_ready.
Proof.
  split; [reflexivity|]. split; [split; [discriminate|reflexivity]|]. split; [reflexivity|].
  split; [by repeat constructor|]. intros i p Hi Hp. pose proof (zget_Some_range _ _ _ Hp) as Hr.
  change (i < 2) in Hi. assert (i = 0 ∨ i = 1) as [-> | ->] by lia; vm_compute in Hp;
    injection Hp as <-; (split; [split; split; reflexivity || discriminate|reflexivity]).
Defined.

Lemma demo_ready_list :
  ready_list demo_ready = [demo_rx_client 1 1 10500; demo_rx_client 2 3 12000].
Proof. vm_compute. reflexivity. Defined.

Lemma pretrigger_tunes_witness : ∃ L,
  rx_pretrigger demo_card "3"%char 1 demo_ready =
    Ok ([PDriver "3"%char 1], demo_ready <| gc := (L ++ start_commands)%list |> <| armed := 1 |>) ∧
  tuning_of L 1 2 = tuning_for (demo_rx_client 2 3 12000) ∧
  tuning_of L 1 0 = untuned ∧ trigger_of (L ++ start_commands) 1 = Some GC314_ON.
Proof.
  destruct (pretrigger_tunes demo_card (fun _ _ => eq_refl) "3"%char 1 demo_ready demo_ready_rx_ok)
    as (L & E & H1 & H2 & H3).
  - rewrite demo_ready_list. repeat constructor; vm_compute; discriminate.
  - rewrite demo_ready_list in H1, H2.
    assert (gc demo_ready = []) as G by (vm_compute; reflexivity). rewrite G in E, H1, H2, H3.
    rewrite app_nil_l in E. exists L. split; [exact E|]. split; [|split].
    + pose proof (H1 (demo_rx_client 2 3 12000) ltac:(right; left)) as H.
      assert (radar (demo_rx_client 2 3 12000) - 1 = 1) as Er by (vm_compute; reflexivity).
      assert (channel (demo_rx_client 2 3 12000) - 1 = 2) as Ec by (vm_compute; reflexivity).
      rewrite Er, Ec in H. exact H.
    + apply (H2 1 0), Forall_forall. repeat constructor; vm_compute; discriminate.
    + apply H3. split; [discriminate|reflexivity].
Defined.

Definition demo_requests : list rx_request :=
  [RxReady "1"%char 1 (demo_rx_client 1 1 10500); RxReady "1"%char 1 (demo_rx_client 2 3 12000);
   RxPretrigger "3"%char 1; RxPosttrigger "5"%char; RxEnd (demo_rx_client 1 1 10500)].

Lemma setup_untriggered_witness : ∃ s,
  rx_run demo_card (fun l => l) (fun x => x) (fun x _ => x) demo_requests (receiver0 prm0) = Ok (tt, s) ∧
  gc s ≠ [] ∧ guarded (gc s) ∧ rx_ok s.
Proof.
  destruct (rx_run demo_card (fun l => l) (fun x => x) (fun x _ => x) demo_requests (receiver0 prm0))
    as [[[] s]|e] eqn:E; [|vm_compute in E; discriminate].
  exists s. split; [reflexivity|]. split; [vm_compute in E; by injection E as <-|].
  apply (setup_untriggered demo_card (fun l => l) (fun x => x) (fun x _ => x) prm0 demo_requests); [|exact E].
  repeat constructor; discriminate.
Defined.
