(* ===== verification/Gc4016.v ===== *)
(** * Gc4016: the settings of the digital receiver chips
    (src/ros6/gc314FS_driver.1.31: _set_GC4016_vals.c, _config_GC4016.c)

    A channel of a receiver card is one of the four channels of its three GC4016
    chips: a numerically controlled oscillator tunes it, a CIC filter decimates,
    two FIR filters shape the spectrum and a resampler gives the exact output
    rate.  [_set_GC4016_vals] computes the registers of a channel, and
    [_config_GC4016] writes them to the chips.

    The functions of the C library are the parameter [libm]; the theorems hold
    for every result they may have.  A conversion of a double to [short] goes
    through [int] and is then cut, as on the target. *)

From Stdlib Require Import ZArith Lia SpecFloat.
From stdpp Require Import base list.
From S2P Require Import Prelude Binary64.
Open Scope Z_scope.
Open Scope cvr_scope.

(** ** _global.h and _regs_GC4016.h *)

Definition FCLOCK : Z := 100000000.
Definition GAIN_ADJ : Z := 10.
Definition PI : double := d_lit 314159265359 11.

Definition chan_control_map : list Z := [0; 128; 256; 384].
Definition GC314FS_GCoffset : list Z := [2048; 4096; 6144].

(** [struct channel_params]; [on] is never read. *)
Record channel_params := mk_channel_params {
  ch_channel : Z;
  ch_freq : Z;
  ch_samples : Z;
  ch_rate : double;
  ch_BW : Z;
  ch_matched : Z
}.

#[export] Instance eta_channel_params : Eta channel_params := fun r =>
  mk_channel_params (ch_channel r) (ch_freq r) (ch_samples r) (ch_rate r) (ch_BW r) (ch_matched r).

(** [struct GC4016_channel_regs]: the shorts and chars as the bytes they are,
    from 0 to 65535 and from 0 to 255; [FILL] and [FILL2] are all -1. *)
Record channel_regs := mk_channel_regs {
  rg_cfir_coeffs : list Z; rg_pfir_coeffs : list Z;
  rg_phase : Z; rg_freq_lsb : Z; rg_freq_msb : Z;
  rg_ch_reset : Z; rg_freq_sync : Z; rg_nco_sync : Z; rg_zero_pad_mode_ctrl : Z;
  rg_dec_flush_sync : Z; rg_dec_ratio_lsb : Z; rg_dec_ratio_msb : Z; rg_cic_scale : Z;
  rg_split_IQ : Z; rg_cfir : Z; rg_pfir : Z; rg_input : Z; rg_peak_ctrl : Z;
  rg_peak_count : Z; rg_fine_gain : Z
}.

(** The functions of math.h. *)
Record libm := mk_libm {
  c_log10 : double → double;
  c_pow : double → double → double;
  c_sin : double → double;
  c_cos : double → double
}.

Definition u16 (z : Z) : Z := z mod 2 ^ 16.

(** A double stored in a [short]. *)
Definition d_to_short (x : double) : Z := i16 (d_to_int x).

(** A limit on both sides: [if(x>hi) x=hi; if(x<lo) x=lo;]. *)
Definition limit (lo hi x : Z) : Z :=
  let x := if hi <? x then hi else x in if x <? lo then lo else x.

(** An [int] as a float, and a float as the double it is. *)
Abbreviation fl := f_of_int.
Abbreviation dbl := of_float.

Definition cfir_coeffs : list Z :=
  [-16; 48; 320; 355; -633; -2214; -2380; 988; 8474; 17206; 21238].

Section Values.
Context (m : libm).

(** ** The filters *)

(** Element [n] of [blackman(w,N)]; [M=(N-1)/2] is an [int] division. *)
Definition blackman (N n : Z) : double :=
  let M := fl ((N - 1) /c 2) in
  let angle k := dmul (dmul (d_of_int k) PI) (dbl (fsub (fl n) M)) in
  let c2 := c_cos m (ddiv (angle 2) (dbl (fadd (fmul (fl 2) M) (fl 1)))) in
  let c4 := c_cos m (ddiv (angle 4) (dbl (fsub (fmul (fl 2) M) (fl 1)))) in
  to_float (dadd (dadd (d_lit 42 2) (dmul (d_lit 5 1) c2)) (dmul (d_lit 8 2) c4)).

(** The gain of the first half of a symmetric filter, summed as floats. *)
Definition half_gain (l : list Z) : double :=
  fold_left (fun g c => fadd g (fl c)) l (fl 0).

(** [PFIRgain=2*PFIRgain+pfircoeffs[31]; PFIRgain=PFIRgain/65536;] *)
Definition pfir_gain (half : list Z) (centre : Z) : double :=
  fdiv (fadd (fmul (fl 2) (half_gain half)) (fl centre)) (fl 65536).

(** The coefficients scaled by the inverse of the gain. *)
Definition scaled (gain : double) (lit : double) (c : Z) : Z :=
  d_to_short (dadd (dbl (fmul (fdiv (fl 1) gain) (fl c))) lit).

(** The ideal filter of setPFIR and setresamp at [x], the distance to the centre
    of the filter: [n-31] is a float, [n-63.5] a double. *)
Definition sinc_pfir (wc : double) (n : Z) : Z :=
  let x := fsub (fl n) (fl 31) in
  d_to_short (dadd (ddiv (dmul (dmul (dbl (fmul (fl 32767) (blackman 63 n)))
                                     (ddiv (d_of_int 3) wc))
                               (c_sin m (dmul wc (dbl x))))
                         (dbl (fmul (fl 3) x)))
                   (d_lit 49999 5)).

Definition sinc_resamp (wc : double) (n : Z) : Z :=
  let x := dsub (dbl (fl n)) (d_lit 635 1) in
  d_to_short (dadd (ddiv (dmul (dmul (dbl (fmul (fl 2047) (blackman 128 n)))
                                     (ddiv (d_of_int 3) wc))
                               (c_sin m (dmul wc x)))
                         (dmul (d_of_int 3) x))
                   (d_lit 49999 5)).

(** [setPFIR]: the 32 coefficients and the gain; [int pi=PI] is 3. *)
Definition setPFIR (freq_in BW : double) (matched : Z) : list Z * double :=
  let half :=
    if negb (matched =? 0) then
      let wc := dbl (fdiv (fdiv freq_in BW) (fl 2)) in
      map (fun n => if dltb (d_ceiling (dsub (d_of_int 31) wc)) (d_of_int n) then 32767 else 0)
        (seqZ 0 31)
    else
      let wc := dbl (fdiv (fmul (fl 3) BW) freq_in) in
      map (sinc_pfir wc) (seqZ 0 31) in
  let gain := pfir_gain half 32767 in
  if dltb (dbl (fl 1)) (dbl gain) then
    let half := map (scaled gain (d_lit 499999 6)) half in
    let centre := scaled gain (d_lit 49999 5) 32767 in
    ((half ++ [centre])%list, pfir_gain half centre)
  else ((half ++ [32767])%list, gain).

(** [setresamp]: the 64 coefficients and the gain. *)
Definition setresamp (freq_in BW : double) : list Z * double :=
  let wc := dbl (fdiv (fmul (fl 3) BW) freq_in) in
  let half := map (sinc_resamp wc) (seqZ 0 64) in
  let gain := fdiv (fmul (fl 2) (half_gain half)) (fl 4096) in
  if dltb (dbl (fl 1)) (dbl gain) then
    let half := map (scaled gain (d_lit 499999 6)) half in
    (half, fdiv (fmul (fl 2) (half_gain half)) (fl 4096))
  else (half, gain).

(** ** The values of a channel *)

Definition decimation (c : channel_params) : Z :=
  let d := d_to_int (ddiv (dbl (fl FCLOCK)) (dmul (d_of_int 100) (ch_rate c))) in
  limit 8 4096 d.

(** The samples the chips delay their output by. *)
Definition sample_delay (c : channel_params) : Z :=
  let d := d_of_int (decimation c) in
  let Tdelay := ddiv (dadd (dadd (dadd (dadd (dmul (d_lit 25 1) d)
                                             (dmul (dmul (d_lit 5 1) d) (d_of_int 21)))
                                       (d_of_int (decimation c * 63)))
                                 (d_of_int (2 * decimation c * 8)))
                           (d_of_int 40)) (d_of_int FCLOCK) in
  let smpdlyF := dmul Tdelay (ch_rate c) in
  d_to_int (dadd smpdlyF (d_lit 5 1)) + 1.

Definition log2_of (x : double) : double := ddiv (c_log10 m x) (c_log10 m (d_of_int 2)).

Definition big_scale (dec shift : Z) : Z :=
  limit 0 7 (d_to_int (ddiv (dsub (dsub (dsub (d_of_int 62)
      (ddiv (dmul (d_of_int 5) (c_log10 m (d_of_int dec))) (c_log10 m (d_of_int 2))))
    (d_of_int shift)) (d_of_int 0)) (d_of_int 6))).

Definition cic_shift (dec : Z) : Z := if 3104 <? dec then 0 else 4.

Definition cicscale (dec : Z) : Z :=
  let b := big_scale dec (cic_shift dec) in
  if 3104 <? dec then ((b <<c 3) + 0) &c 63 else ((1 <<c 6) + (b <<c 3) + 0) &c 127.

Definition cicgain (dec : Z) : double :=
  let shift := cic_shift dec in
  to_float (dmul (c_pow m (dbl (fl dec)) (d_of_int 5))
    (c_pow m (d_of_int 2) (d_of_int (shift + 0 + 6 * big_scale dec shift - 62)))).

Definition coarse (dec : Z) : Z :=
  limit 0 7 (d_to_int (log2_of (ddiv (d_of_int 1) (dbl (cicgain dec)))) + 3).

Definition ndelay : Z := 16.

(** The gain of the resampler after its final shift. *)
Definition resampler_gain (resampgain : double) : double :=
  let finalshift := limit 0 15 (d_to_int (log2_of (dbl (fdiv (fl ndelay) resampgain))) + 1) in
  to_float (dmul (dbl (fdiv (fmul resampgain (fl 4096)) (fl (ndelay * 32768))))
                 (c_pow m (d_of_int 2) (d_of_int finalshift))).

(** The fine gain for the gain of the other stages; the final shift that the
    code adjusts with it is never written to the card. *)
Definition fine_gain (gain : double) : Z :=
  let first := d_to_int (dbl (fdiv (fl (2 * 1024)) gain)) in
  let gain_tmp := to_float (ddiv (d_of_int 16384) (dbl (fl first))) in
  let fine :=
    if dltb (dbl (fl GAIN_ADJ)) (dbl gain_tmp) then
      d_to_int (ddiv (dmul (dmul (d_of_int 2) (dbl (fl GAIN_ADJ))) (d_of_int 1024)) (dbl gain))
    else
      let gain_tmp := fsub (fl GAIN_ADJ) gain_tmp in
      let finalshift_adj := d_to_int (d_ceiling (log2_of (dbl gain_tmp))) in
      let gain_tmp := to_float (dsub (d_of_int GAIN_ADJ)
                        (c_pow m (d_of_int 2) (d_of_int finalshift_adj))) in
      d_to_int (ddiv (dmul (dmul (d_of_int 2) (dbl gain_tmp)) (d_of_int 1024)) (dbl gain)) in
  let fine := if 16384 <=? fine then 16384 else fine in
  if fine <=? 1 then 1 else fine.

(** The word of the oscillator: [4294967296*chanX->freq/FCLOCK] in 64 bits,
    stored in an [int]. *)
Definition nco (freq : Z) : Z := i32 (4294967296 * freq /c FCLOCK).

(** The ratio of the resampler. *)
Definition resamp_ratio (c : channel_params) : Z :=
  u32 (d_to_int (dbl (fmul (fdiv (fdiv (fl FCLOCK) (fmul (fl 4) (fl (decimation c))))
                                 (to_float (ch_rate c)))
                           (fl 67108864)))).

(** What [_set_GC4016_vals] computes: the registers of the channel, its
    resampler coefficients and ratio, and the returned number of samples. *)
Record gc4016_vals := mk_gc4016_vals {
  v_regs : channel_regs;
  v_resamp : list Z;
  v_ratio : Z;
  v_skip : Z
}.

Definition _set_GC4016_vals (c : channel_params) : gc4016_vals :=
  let dec := decimation c in
  let CFIRfreq := fdiv (fl FCLOCK) (fl dec) in
  let PFIRfreq := fdiv CFIRfreq (fl 2) in
  let resampfreq := fdiv (fmul (fl ndelay) PFIRfreq) (fl 2) in
  let CFIRgain := to_float (d_lit 999969482422 12) in
  let '(pfir_coeffs, PFIRgain) := setPFIR PFIRfreq (fl (ch_BW c)) (ch_matched c) in
  let '(resamp_coeffs, resampgain) := setresamp resampfreq (fl (ch_BW c)) in
  let resampgain := resampler_gain resampgain in
  let gain := to_float (dmul (dmul (dmul (dmul (dbl (cicgain dec))
                (c_pow m (d_of_int 2) (d_of_int (coarse dec)))) (dbl CFIRgain)) (dbl PFIRgain))
                (dbl resampgain)) in
  let FREQ := nco (ch_freq c) in
  mk_gc4016_vals
    (mk_channel_regs (map u16 cfir_coeffs) (map u16 pfir_coeffs) 0
       (u16 (FREQ &c 65535)) (u16 ((FREQ >>c 16) &c 65535))
       12 119 114 0 34
       (u8 ((dec - 1) &c 255)) (u8 (112 + u8 (((dec - 1) >>c 8) &c 15)))
       (u8 (cicscale dec)) 0 (u8 (0 |c (coarse dec <<c 4))) 0 0 0 0 (u16 (fine_gain gain)))
    resamp_coeffs (resamp_ratio c) (sample_delay c).

End Values.

(** ** The chips (_config_GC4016.c, _prog_conventions.c) *)

(** The 128 bytes of [struct GC4016_channel_regs], from the lowest address. *)
Definition bytes16 (z : Z) : list Z := [z &c 255; z >>c 8].

Definition regs_bytes (r : channel_regs) : list Z :=
  flat_map bytes16 (rg_cfir_coeffs r ++ replicate 5 65535 ++ rg_pfir_coeffs r ++
    [rg_phase r; rg_freq_lsb r; rg_freq_msb r] ++ replicate 5 65535) ++
  [rg_ch_reset r; rg_freq_sync r; rg_nco_sync r; rg_zero_pad_mode_ctrl r; rg_dec_flush_sync r;
   rg_dec_ratio_lsb r; rg_dec_ratio_msb r; rg_cic_scale r; rg_split_IQ r; rg_cfir r; rg_pfir r;
   rg_input r; rg_peak_ctrl r; rg_peak_count r] ++ bytes16 (rg_fine_gain r).

(** Element [i] of an array, and the word of the bytes from [4*j]. *)
Definition elem_at (l : list Z) (i : Z) : Z := nth (Z.to_nat i) l 0.

Definition word_of (l : list Z) (j : Z) : Z :=
  elem_at l (4 * j) + elem_at l (4 * j + 1) * 2 ^ 8 + elem_at l (4 * j + 2) * 2 ^ 16 +
  elem_at l (4 * j + 3) * 2 ^ 24.

(** [write08], [write16] and [write32] of a register. *)
Inductive reg_write :=
  | W8 (reg v : Z)
  | W16 (reg v : Z)
  | W32 (reg v : Z).

(** A [signed char]. *)
Definition i8 (z : Z) : Z := (z + 128) mod 256 - 128.

(** The word a write replaces, and what it replaces it with: a value below zero
    is shifted with its sign. *)
Definition write_reg (w : reg_write) : Z :=
  match w with
  | W8 reg _ | W16 reg _ => reg - reg mod 4
  | W32 reg _ => reg
  end.

Definition write_word (w : reg_write) (old : Z) : Z :=
  match w with
  | W8 reg v =>
      let byte := reg mod 4 in
      let bitmask := nth (Z.to_nat byte) [4294967040; 4294902015; 4278255615; 16777215] 0 in
      (old &c bitmask) |c u32 (i8 v <<c (8 * byte))
  | W16 reg v =>
      let byte := reg mod 4 in
      let bitmask := nth (Z.to_nat byte) [4294901760; 4278190335; 65535] 0 in
      (old &c bitmask) |c u32 (i16 v <<c (8 * byte))
  | W32 _ v => u32 v
  end.

(** The registers shared by the channels of a chip at [off]. *)
Definition general_writes (off : Z) (resampratio : list Z) : list reg_write :=
  [W8 (off + 1092) 0; W8 (off + 1024) 47; W8 (off + 1116) 2; W8 (off + 1025) 7; W8 (off + 1026) 228;
   W8 (off + 1027) 23; W8 (off + 1028) 228; W8 (off + 1029) 112; W8 (off + 1030) 0;
   W8 (off + 1031) 228;
   W32 (off + 1040) (elem_at resampratio 0); W32 (off + 1044) (elem_at resampratio 1);
   W32 (off + 1048) (elem_at resampratio 2); W32 (off + 1052) (elem_at resampratio 3);
   W8 (off + 1092) 0; W8 (off + 1093) 0; W16 (off + 1094) 65535; W8 (off + 1104) 255;
   W8 (off + 1105) 78; W8 (off + 1106) 108; W8 (off + 1107) 192; W8 (off + 1108) 232;
   W8 (off + 1109) 3; W8 (off + 1110) 228; W8 (off + 1111) 16; W8 (off + 1112) 50;
   W8 (off + 1113) 84; W8 (off + 1114) 118].

(** The 128 words of the 256 shorts of [resampcoeffs]. *)
Definition resamp_writes (off : Z) (resampcoeffs : list Z) : list reg_write :=
  map (fun i => W32 (off + 512 + 4 * i) (word_of (flat_map bytes16 (map u16 resampcoeffs)) i))
    (seqZ 0 128).

Definition channel_writes (off k i : Z) (r : channel_regs) : list reg_write :=
  let base := off + elem_at chan_control_map i in
  map (fun j => W32 (base + 4 * j) (word_of (regs_bytes r) j)) (seqZ 0 32) ++
  [W8 (base + 123) (k |c 16)].

Definition chip_writes (GC4016 : list channel_regs) (resampcoeffs resampratio : list Z) (k : Z)
    : list reg_write :=
  let off := elem_at GC314FS_GCoffset k in
  general_writes off resampratio ++ resamp_writes off resampcoeffs ++
  concat (imap (fun i r => channel_writes off k (Z.of_nat i) r) GC4016).

Definition _config_GC4016 (GC4016 : list channel_regs) (resampcoeffs resampratio : list Z)
    : list reg_write :=
  flat_map (chip_writes GC4016 resampcoeffs resampratio) (seqZ 0 3).

(** ** Theorems: the registers of the chips *)

(** The words of a memory after writes, and the byte at an address; the
    registers of the chips are read back as they were written. *)
Definition write_mem (m : Z → Z) (w : reg_write) : Z → Z :=
  fun a => if a =? write_reg w then write_word w (m a) else m a.

Definition writes (l : list reg_write) (m : Z → Z) : Z → Z := fold_left write_mem l m.

Definition byte_of (m : Z → Z) (a : Z) : Z := (m (a - a mod 4) >>c (8 * (a mod 4))) &c 255.

Lemma land_255 z : z &c 255 = z mod 256.
Proof. change 255 with (Z.ones 8). rewrite Z.land_ones by lia. reflexivity. Qed.

(** The sign extension of the low [h+1] bits. *)
Lemma signed_bits h v j : 0 ≤ h → 0 ≤ j →
  Z.testbit ((v + 2 ^ h) mod 2 ^ (h + 1) - 2 ^ h) j = Z.testbit v (Z.min j h).
Proof.
  intros Hh Hj. rewrite Z.pow_add_r by lia. change (2 ^ 1) with 2.
  pose proof (Z.pow_pos_nonneg 2 h ltac:(lia) Hh) as HB.
  assert (Hlow : v mod 2 ^ h = Z.land v (Z.ones h)) by (rewrite Z.land_ones by lia; reflexivity).
  assert (Hb : v / 2 ^ h mod 2 = Z.b2z (Z.testbit v h)) by (rewrite Z.testbit_spec' by lia; reflexivity).
  pose proof (Z.mod_pos_bound v (2 ^ h) HB) as Hr.
  pose proof (Z.div_mod v (2 ^ h) ltac:(lia)) as Hv.
  pose proof (Z.div_mod (v / 2 ^ h) 2 ltac:(lia)) as Hq. rewrite Hb in Hq.
  set (B := 2 ^ h) in *. set (r := v mod B) in *. set (q := v / B) in *. set (q2 := q / 2) in *.
  destruct (Z.testbit v h) eqn:Eh; cbn [Z.b2z] in Hq.
  - rewrite <- (Z.mod_unique (v + B) (B * 2) (q2 + 1) r) by nia.
    replace (r - B) with (Z.lor r (Z.lnot (Z.ones h))).
    + rewrite Z.lor_spec, Z.lnot_spec, Hlow, Z.land_spec by lia.
      destruct (decide (j < h)).
      * rewrite Z.ones_spec_low, andb_true_r, orb_false_r by lia. f_equal; lia.
      * rewrite Z.ones_spec_high, orb_true_r by lia. rewrite Z.min_r, Eh by lia. reflexivity.
    + pose proof (Z.add_lor_land r (Z.lnot (Z.ones h))) as Hs.
      assert (Hl : Z.land r (Z.lnot (Z.ones h)) = 0).
      { apply Z.bits_inj'. intros n Hn.
        rewrite Z.land_spec, Z.lnot_spec, Hlow, Z.land_spec, Z.bits_0 by lia.
        destruct (Z.testbit (Z.ones h) n); rewrite ?andb_false_r; reflexivity. }
      rewrite Hl in Hs. unfold Z.lnot in *. rewrite Z.ones_equiv in *. fold B in Hs |- *. lia.
  - rewrite <- (Z.mod_unique (v + B) (B * 2) q2 (r + B)) by nia.
    replace (r + B - B) with r by lia. rewrite Hlow, Z.land_spec.
    destruct (decide (j < h)).
    + rewrite Z.ones_spec_low, andb_true_r by lia. f_equal; lia.
    + rewrite Z.ones_spec_high, andb_false_r, Z.min_r, Eh by lia. reflexivity.
Qed.

Lemma i8_bits v j : 0 ≤ j → Z.testbit (i8 v) j = Z.testbit v (Z.min j 7).
Proof. apply (signed_bits 7 v j). lia. Qed.

Lemma i16_bits v j : 0 ≤ j → Z.testbit (i16 v) j = Z.testbit v (Z.min j 15).
Proof. apply (signed_bits 15 v j). lia. Qed.

(** What a write leaves in byte [q] of the word it replaces: [write08] of a value
    from 128, or [write16] of one from 32768, also sets the bytes above. *)
Definition written_byte (w : reg_write) (q old : Z) : Z :=
  match w with
  | W8 reg v =>
      let p := reg mod 4 in
      if q <? p then old else if q =? p then u8 v else if 128 <=? u8 v then 255 else old
  | W16 reg v =>
      let p := reg mod 4 in
      if q <? p then old
      else if q <? p + 2 then (u16 v >>c (8 * (q - p))) &c 255
      else if 32768 <=? u16 v then 255 else old
  | W32 _ v => (u32 v >>c (8 * q)) &c 255
  end.

Lemma byte_bits x n : Z.testbit (x &c 255) n = (Z.testbit x n && (0 <=? n) && (n <? 8))%bool.
Proof.
  rewrite Z.land_spec. destruct (Z.ltb_spec n 0) as [H | H].
  { rewrite (proj2 (Z.leb_gt _ _)) by lia. rewrite !Z.testbit_neg_r by lia. reflexivity. }
  rewrite (proj2 (Z.leb_le _ _)) by lia. change 255 with (Z.ones 8).
  rewrite andb_true_r. f_equal.
  destruct (Z.ltb_spec n 8); [apply Z.ones_spec_low | apply Z.ones_spec_high]; lia.
Qed.

Lemma high_bit8 v : (128 <=? u8 v) = Z.testbit v 7.
Proof.
  rewrite <- (Z.mod_pow2_bits_low v 8 7) by lia. unfold u8.
  pose proof (Z.mod_pos_bound v (2 ^ 8) ltac:(lia)) as H.
  destruct (Z.leb_spec 128 (v mod 2 ^ 8)) as [H1 | H1].
  - symmetry. apply Z.testbit_true; [lia |]. change (2 ^ 7) with 128. Z.div_mod_to_equations; lia.
  - symmetry. apply Z.testbit_false; [lia |]. change (2 ^ 7) with 128. Z.div_mod_to_equations; lia.
Qed.

Lemma u32_bits x n : 0 ≤ n < 32 → Z.testbit (u32 x) n = Z.testbit x n.
Proof. intros H. unfold u32. apply Z.mod_pow2_bits_low. lia. Qed.

Lemma u8_bits x n : 0 ≤ n < 8 → Z.testbit (u8 x) n = Z.testbit x n.
Proof. intros H. unfold u8. apply Z.mod_pow2_bits_low. lia. Qed.

Lemma byte_ext x y : (∀ n, 0 ≤ n < 8 → Z.testbit x n = Z.testbit y n) →
  0 ≤ y < 256 → x &c 255 = y.
Proof.
  intros H Hy. apply Z.bits_inj'. intros n Hn. rewrite byte_bits.
  destruct (Z.ltb_spec n 8).
  - rewrite (proj2 (Z.leb_le _ _)), !andb_true_r by lia. apply H. lia.
  - rewrite andb_false_r. symmetry. destruct (decide (y = 0)) as [-> | Hne]; [apply Z.bits_0 |].
    apply Z.bits_above_log2; [lia |]. apply Z.log2_lt_pow2; [lia |].
    apply Z.lt_le_trans with (2 ^ 8); [lia |]. apply Z.pow_le_mono_r; lia.
Qed.

Ltac byte_cases n := assert (n = 0 ∨ n = 1 ∨ n = 2 ∨ n = 3 ∨ n = 4 ∨ n = 5 ∨ n = 6 ∨ n = 7) by lia;
  destruct_or!; subst n.

Lemma write08_byte reg v old q : 0 ≤ q < 4 →
  (write_word (W8 reg v) old >>c (8 * q)) &c 255 = written_byte (W8 reg v) q ((old >>c (8 * q)) &c 255).
Proof.
  intros Hq. unfold write_word, written_byte.
  pose proof (Z.mod_pos_bound reg 4 ltac:(lia)) as Hp.
  set (p := reg mod 4) in *. clearbody p.
  apply byte_ext.
  2:{ pose proof (u8_range v). pose proof (land_255 (old >>c (8 * q))).
      pose proof (Z.mod_pos_bound (old >>c (8 * q)) 256 ltac:(lia)).
      repeat case_match; lia. }
  intros n Hn. rewrite Z.shiftr_spec, Z.lor_spec, Z.land_spec by lia.
  rewrite u32_bits, Z.shiftl_spec by lia.
  destruct (Z.ltb_spec q p) as [H1 | H1].
  - rewrite (Z.testbit_neg_r (i8 v)), orb_false_r by lia.
    rewrite byte_bits, Z.shiftr_spec by lia.
    rewrite (proj2 (Z.leb_le 0 n)), (proj2 (Z.ltb_lt n 8)), !andb_true_r by lia.
    assert (p = 1 ∨ p = 2 ∨ p = 3) by lia. assert (q = 0 ∨ q = 1 ∨ q = 2) by lia.
    destruct_or!; subst p q; try lia; byte_cases n; apply andb_true_r.
  - rewrite i8_bits by lia.
    destruct (Z.eqb_spec q p) as [-> | H2].
    + rewrite u8_bits by lia.
      replace (Z.min (n + 8 * p - 8 * p) 7) with n by lia.
      replace (Z.testbit (nth (Z.to_nat p) [4294967040; 4294902015; 4278255615; 16777215] 0) (n + 8 * p)) with false.
      { rewrite andb_false_r. reflexivity. }
      assert (p = 0 ∨ p = 1 ∨ p = 2 ∨ p = 3) by lia. destruct_or!; subst p; byte_cases n; reflexivity.
    + rewrite high_bit8. replace (Z.min (n + 8 * q - 8 * p) 7) with 7 by lia.
      destruct (Z.testbit v 7).
      * rewrite orb_true_r. byte_cases n; reflexivity.
      * rewrite orb_false_r, byte_bits, Z.shiftr_spec by lia.
        rewrite (proj2 (Z.leb_le 0 n)), (proj2 (Z.ltb_lt n 8)), !andb_true_r by lia.
        assert (p = 0 ∨ p = 1 ∨ p = 2) by lia. assert (q = 1 ∨ q = 2 ∨ q = 3) by lia.
        destruct_or!; subst p q; try lia; byte_cases n; apply andb_true_r.
Qed.

Lemma high_bit16 v : (32768 <=? u16 v) = Z.testbit v 15.
Proof.
  rewrite <- (Z.mod_pow2_bits_low v 16 15) by lia. unfold u16.
  pose proof (Z.mod_pos_bound v (2 ^ 16) ltac:(lia)) as H.
  destruct (Z.leb_spec 32768 (v mod 2 ^ 16)) as [H1 | H1].
  - symmetry. apply Z.testbit_true; [lia |]. change (2 ^ 15) with 32768. Z.div_mod_to_equations; lia.
  - symmetry. apply Z.testbit_false; [lia |]. change (2 ^ 15) with 32768. Z.div_mod_to_equations; lia.
Qed.

Lemma write16_byte reg v old q : reg mod 4 = 0 ∨ reg mod 4 = 2 → 0 ≤ q < 4 →
  (write_word (W16 reg v) old >>c (8 * q)) &c 255 = written_byte (W16 reg v) q ((old >>c (8 * q)) &c 255).
Proof.
  intros Hp Hq. unfold write_word, written_byte. set (p := reg mod 4) in *. clearbody p.
  apply byte_ext.
  2:{ pose proof (land_255 (old >>c (8 * q))). pose proof (land_255 (u16 v >>c (8 * (q - p)))).
      pose proof (Z.mod_pos_bound (old >>c (8 * q)) 256 ltac:(lia)).
      pose proof (Z.mod_pos_bound (u16 v >>c (8 * (q - p))) 256 ltac:(lia)).
      repeat case_match; lia. }
  intros n Hn. rewrite Z.shiftr_spec, Z.lor_spec, Z.land_spec by lia.
  rewrite u32_bits, Z.shiftl_spec by lia.
  destruct (Z.ltb_spec q p) as [H1 | H1].
  - rewrite (Z.testbit_neg_r (i16 v)), orb_false_r by lia.
    rewrite byte_bits, Z.shiftr_spec by lia.
    rewrite (proj2 (Z.leb_le 0 n)), (proj2 (Z.ltb_lt n 8)), !andb_true_r by lia.
    assert (p = 2) by lia. assert (q = 0 ∨ q = 1) by lia. subst p.
    destruct_or!; subst q; byte_cases n; apply andb_true_r.
  - rewrite i16_bits by lia.
    destruct (Z.ltb_spec q (p + 2)) as [H2 | H2].
    + rewrite byte_bits, Z.shiftr_spec by lia.
      rewrite (proj2 (Z.leb_le 0 n)), (proj2 (Z.ltb_lt n 8)), !andb_true_r by lia.
      replace (Z.testbit (u16 v) (n + 8 * (q - p))) with (Z.testbit v (n + 8 * (q - p)))
        by (symmetry; apply Z.mod_pow2_bits_low; lia).
      replace (Z.min (n + 8 * q - 8 * p) 15) with (n + 8 * (q - p)) by lia.
      replace (Z.testbit (nth (Z.to_nat p) [4294901760; 4278190335; 65535] 0) (n + 8 * q)) with false.
      { rewrite andb_false_r. reflexivity. }
      assert (q = p ∨ q = p + 1) by lia. destruct_or!; subst p q; byte_cases n; reflexivity.
    + rewrite high_bit16. replace (Z.min (n + 8 * q - 8 * p) 15) with 15 by lia.
      assert (p = 0) by lia. subst p. assert (q = 2 ∨ q = 3) by lia.
      destruct (Z.testbit v 15).
      * rewrite orb_true_r. byte_cases n; reflexivity.
      * rewrite orb_false_r, byte_bits, Z.shiftr_spec by lia.
        rewrite (proj2 (Z.leb_le 0 n)), (proj2 (Z.ltb_lt n 8)), !andb_true_r by lia.
        destruct_or!; subst q; byte_cases n; apply andb_true_r.
Qed.

(** The writes the code makes: whole words at multiples of 4, halves of words. *)
Definition aligned (w : reg_write) : bool :=
  match w with
  | W8 _ _ => true
  | W16 reg _ => (reg mod 4 =? 0) || (reg mod 4 =? 2)
  | W32 reg _ => reg mod 4 =? 0
  end.

(** A write seen from the bytes. *)
Lemma byte_write w m a : aligned w = true →
  byte_of (write_mem m w) a =
  if a - a mod 4 =? write_reg w then written_byte w (a mod 4) (byte_of m a) else byte_of m a.
Proof.
  intros Hw. unfold byte_of, write_mem. destruct (Z.eqb_spec (a - a mod 4) (write_reg w)) as [-> | H];
    [| reflexivity].
  pose proof (Z.mod_pos_bound a 4 ltac:(lia)).
  destruct w as [reg v | reg v | reg v].
  - apply write08_byte. lia.
  - apply write16_byte; [| lia]. cbn in Hw. lia.
  - reflexivity.
Qed.

(** The bytes after several writes, computed from the bytes before. *)
Definition write_bytes (b : Z → Z) (w : reg_write) : Z → Z :=
  fun a => if a - a mod 4 =? write_reg w then written_byte w (a mod 4) (b a) else b a.

Lemma bytes_writes l : ∀ m a, forallb aligned l = true →
  byte_of (writes l m) a = fold_left write_bytes l (byte_of m) a.
Proof.
  induction l as [| w l IH]; intros m a Hl; [reflexivity |].
  cbn in Hl. apply andb_prop in Hl as [Hw Hl].
  change (writes (w :: l) m) with (writes l (write_mem m w)).
  rewrite IH by done. cbn [fold_left].
  assert (H : ∀ l (b b' : Z → Z), (∀ a, b a = b' a) → ∀ a, fold_left write_bytes l b a = fold_left write_bytes l b' a).
  { clear. induction l as [| w l IH]; intros b b' H a; cbn; [apply H |].
    apply IH. intros a'. unfold write_bytes. rewrite H. reflexivity. }
  apply H. intros a'. apply byte_write. done.
Qed.

(** The bytes the general registers of a chip are meant to have. *)
Definition word_bytes (a w : Z) : list (Z * Z) :=
  map (fun q => (a + q, (u32 w >>c (8 * q)) &c 255)) (seqZ 0 4).

Definition general_bytes (resampratio : list Z) : list (Z * Z) :=
  [(1024, 47); (1025, 7); (1026, 228); (1027, 23); (1028, 228); (1029, 112); (1030, 0); (1031, 228)] ++
  flat_map (fun i => word_bytes (1040 + 4 * i) (elem_at resampratio i)) (seqZ 0 4) ++
  [(1092, 0); (1093, 0); (1094, 255); (1095, 255); (1104, 255); (1105, 78); (1106, 108); (1107, 192);
   (1108, 232); (1109, 3); (1110, 228); (1111, 16); (1112, 50); (1113, 84); (1114, 118); (1116, 2)].

Lemma general_written k ratios m : k = 0 ∨ k = 1 ∨ k = 2 →
  Forall (fun x => byte_of (writes (general_writes (elem_at GC314FS_GCoffset k) ratios) m)
                     (elem_at GC314FS_GCoffset k + x.1) = x.2) (general_bytes ratios).
Proof.
  intros Hk. unfold general_bytes. cbn [seqZ flat_map map app].
  destruct_or!; subst k.
  all: repeat constructor; rewrite bytes_writes by reflexivity; reflexivity.
Qed.

(** Writes to other words than [a]. *)
Definition within (lo hi : Z) (l : list reg_write) : Prop :=
  Forall (fun w => lo ≤ write_reg w < hi) l.

Lemma writes_app l l' m : writes (l ++ l') m = writes l' (writes l m).
Proof. apply fold_left_app. Qed.

Lemma writes_frame lo hi l : ∀ m a, within lo hi l → a < lo ∨ hi ≤ a → writes l m a = m a.
Proof.
  induction l as [| w l IH]; intros m a Hl Ha; [reflexivity |].
  inversion_clear Hl as [| ? ? Hw Hl'].
  change (writes (w :: l) m a) with (writes l (write_mem m w) a).
  rewrite IH by done. unfold write_mem. destruct (Z.eqb_spec a (write_reg w)); [lia | done].
Qed.

Lemma byte_frame lo hi l m a : within lo hi l → a - a mod 4 < lo ∨ hi ≤ a - a mod 4 →
  byte_of (writes l m) a = byte_of m a.
Proof. intros Hl Ha. unfold byte_of. rewrite (writes_frame lo hi) by done. reflexivity. Qed.

Lemma within_app lo hi l l' : within lo hi l → within lo hi l' → within lo hi (l ++ l').
Proof. intros. apply Forall_app_2; done. Qed.

Lemma within_weaken lo hi lo' hi' l : within lo hi l → lo' ≤ lo → hi ≤ hi' → within lo' hi' l.
Proof. intros H ? ?. eapply Forall_impl; [exact H |]. cbn. lia. Qed.

(** Consecutive words. *)
Definition words_from (base n : Z) (f : Z → Z) : list reg_write :=
  map (fun j => W32 (base + 4 * j) (f j)) (seqZ 0 n).

Lemma words_within base n f : within base (base + 4 * n) (words_from base n f).
Proof.
  unfold words_from, within. rewrite Forall_map. apply Forall_seqZ. cbn. intros j Hj. lia.
Qed.

Lemma seqZ_split n j : 0 ≤ j < n → seqZ 0 n = (seqZ 0 j ++ j :: seqZ (j + 1) (n - j - 1))%list.
Proof.
  intros Hj. transitivity (seqZ 0 (j + (1 + (n - j - 1)))); [f_equal; lia |].
  rewrite seqZ_app by lia. f_equal. rewrite seqZ_cons' by lia.
  f_equal; f_equal; lia.
Qed.

Lemma words_written base n f m j : 0 ≤ j < n → writes (words_from base n f) m (base + 4 * j) = u32 (f j).
Proof.
  intros Hj. unfold words_from.
  rewrite (seqZ_split n j), map_app, writes_app by done. cbn [map].
  change (writes (?w :: ?l) ?m) with (writes l (write_mem m w)).
  rewrite (writes_frame (base + 4 * (j + 1)) (base + 4 * n)).
  - unfold write_mem. cbn [write_reg write_word]. rewrite Z.eqb_refl. reflexivity.
  - apply Forall_map, Forall_seqZ. cbn. intros x Hx. lia.
  - lia.
Qed.

(** The bytes of the words of a block. *)
Definition is_byte (z : Z) : Prop := 0 ≤ z < 256.

Lemma word_byte l j q : Forall is_byte l → 0 ≤ q < 4 →
  (u32 (word_of l j) >>c (8 * q)) &c 255 = elem_at l (4 * j + q).
Proof.
  intros Hl Hq.
  assert (H : ∀ i, is_byte (elem_at l i)).
  { intros i. unfold elem_at. destruct (nth_in_or_default (Z.to_nat i) l 0) as [Hi | ->]; [| split; lia].
    rewrite Forall_forall in Hl. apply Hl. apply list_elem_of_In. done. }
  pose proof (H (4 * j)) as H0. pose proof (H (4 * j + 1)) as H1.
  pose proof (H (4 * j + 2)) as H2. pose proof (H (4 * j + 3)) as H3. unfold is_byte in *.
  unfold word_of. rewrite u32_id by lia. rewrite land_255, Z.shiftr_div_pow2 by lia.
  assert (q = 0 ∨ q = 1 ∨ q = 2 ∨ q = 3) by lia. destruct_or!; subst q.
  all: rewrite ?Z.add_0_r; match goal with |- context [2 ^ (8 * ?k)] =>
         let p := eval compute in (2 ^ (8 * k)) in change (2 ^ (8 * k)) with p end.
  all: change (2 ^ 8) with 256; change (2 ^ 16) with 65536; change (2 ^ 24) with 16777216.
  all: Z.div_mod_to_equations; lia.
Qed.

Lemma block_byte base n l m i : Forall is_byte l → base mod 4 = 0 → 0 ≤ i < 4 * n →
  byte_of (writes (words_from base n (word_of l)) m) (base + i) = elem_at l i.
Proof.
  intros Hl Hb Hi. unfold byte_of.
  assert (Hm : (base + i) mod 4 = i mod 4).
  { rewrite Z.add_mod, Hb by lia. rewrite Z.add_0_l, Z.mod_mod by lia. reflexivity. }
  rewrite Hm. pose proof (Z.mod_pos_bound i 4 ltac:(lia)) as Hr.
  pose proof (Z.div_mod i 4 ltac:(lia)) as Hd.
  replace (base + i - i mod 4) with (base + 4 * (i / 4)) by lia.
  rewrite words_written by lia. rewrite word_byte by (done || lia). f_equal. lia.
Qed.

(** The registers of a channel are bytes. *)
Definition regs_ok (r : channel_regs) : Prop := Forall is_byte (regs_bytes r).

(** The input of a channel is set after its other registers, to the input of
    the chip. *)
Definition channel_byte (k : Z) (r : channel_regs) (j : Z) : Z :=
  if j =? 123 then k |c 16 else elem_at (regs_bytes r) j.

Lemma channel_written off k i r m j : regs_ok r → (off + elem_at chan_control_map i) mod 4 = 0 →
  0 ≤ k < 3 → 0 ≤ j < 128 →
  byte_of (writes (channel_writes off k i r) m) (off + elem_at chan_control_map i + j) = channel_byte k r j.
Proof.
  intros Hr Hb Hk Hj. unfold channel_writes. set (base := off + elem_at chan_control_map i) in *.
  change (map (fun j => W32 (base + 4 * j) (word_of (regs_bytes r) j)) (seqZ 0 32))
    with (words_from base 32 (word_of (regs_bytes r))).
  rewrite writes_app. change (writes [?w] ?m) with (write_mem m w).
  rewrite byte_write by reflexivity. cbn [write_reg written_byte].
  rewrite block_byte by (done || lia). unfold channel_byte.
  assert (Hj4 : (base + j) mod 4 = j mod 4).
  { rewrite Z.add_mod, Hb, Z.add_0_l, Z.mod_mod by lia. reflexivity. }
  assert (H3 : (base + 123) mod 4 = 3) by (rewrite Z.add_mod, Hb by lia; reflexivity).
  rewrite Hj4, H3.
  assert (Hk8 : u8 (k |c 16) = k |c 16) by (assert (k = 0 ∨ k = 1 ∨ k = 2) by lia; destruct_or!; subst k; reflexivity).
  destruct (Z.eqb_spec j 123) as [-> | Hne].
  - replace (base + 123 - 123 mod 4 =? base + 123 - 3) with true by (symmetry; apply Z.eqb_eq; reflexivity).
    exact Hk8.
  - destruct (Z.eqb_spec (base + j - j mod 4) (base + 123 - 3)) as [He | He]; [| reflexivity].
    assert (j mod 4 < 3) by (Z.div_mod_to_equations; lia).
    rewrite (proj2 (Z.ltb_lt (j mod 4) 3)) by lia. reflexivity.
Qed.

Lemma channel_within off k i r : (off + elem_at chan_control_map i) mod 4 = 0 →
  within (off + elem_at chan_control_map i) (off + elem_at chan_control_map i + 128) (channel_writes off k i r).
Proof.
  intros Hb. unfold channel_writes. set (base := off + elem_at chan_control_map i) in *.
  apply within_app.
  - apply (words_within base 32 (word_of (regs_bytes r))).
  - constructor; [| constructor]. cbn [write_reg].
    replace ((base + 123) mod 4) with 3 by (rewrite Z.add_mod, Hb by lia; reflexivity). lia.
Qed.

(** What the configuration of a chip is meant to leave. *)
Definition chip_holds (m : Z → Z) (k : Z) (GC4016 : list channel_regs)
    (resampcoeffs resampratio : list Z) : Prop :=
  let off := elem_at GC314FS_GCoffset k in
  (∀ x, x ∈ general_bytes resampratio → byte_of m (off + x.1) = x.2) ∧
  (∀ j, 0 ≤ j < 512 → byte_of m (off + 512 + j) = elem_at (flat_map bytes16 (map u16 resampcoeffs)) j) ∧
  (∀ i r j, zget GC4016 i = Some r → 0 ≤ j < 128 →
     byte_of m (off + elem_at chan_control_map i + j) = channel_byte k r j).

Lemma bytes16_ok z : 0 ≤ z < 65536 → Forall is_byte (bytes16 z).
Proof.
  intros Hz. unfold bytes16, is_byte. repeat constructor; rewrite ?land_255, ?Z.shiftr_div_pow2 by lia.
  all: change (2 ^ 8) with 256; Z.div_mod_to_equations; lia.
Qed.

Lemma shorts_ok l : Forall (fun z => 0 ≤ z < 65536) l → Forall is_byte (flat_map bytes16 l).
Proof. intros H. induction H; cbn [flat_map]; [constructor |]. apply Forall_app_2; [apply bytes16_ok |]; done. Qed.

Lemma u16_shorts l : Forall (fun z => 0 ≤ z < 65536) (map u16 l).
Proof. apply Forall_map, Forall_true. intros z. apply Z.mod_pos_bound. lia. Qed.

Lemma general_within k ratios : k = 0 ∨ k = 1 ∨ k = 2 →
  within (elem_at GC314FS_GCoffset k + 1024) (elem_at GC314FS_GCoffset k + 1120)
    (general_writes (elem_at GC314FS_GCoffset k) ratios).
Proof.
  intros H. unfold within. destruct_or!; subst k.
  all: repeat apply Forall_cons_2; try apply Forall_nil_2; split; vm_compute; (discriminate || reflexivity).
Qed.

Lemma general_range ratios : Forall (fun x => 1024 ≤ x.1 < 1120) (general_bytes ratios).
Proof.
  unfold general_bytes. cbn.
  repeat apply Forall_cons_2; try apply Forall_nil_2; split; vm_compute; (discriminate || reflexivity).
Qed.

(** A byte written by one part of a list of writes and not by the later parts. *)
Lemma byte_after lo hi l l' m a v : within lo hi l' → a - a mod 4 < lo ∨ hi ≤ a - a mod 4 →
  byte_of (writes l m) a = v → byte_of (writes (l ++ l') m) a = v.
Proof. intros. rewrite writes_app, (byte_frame lo hi) by done. done. Qed.

Lemma channels_within off k l : ∀ n, off mod 4 = 0 → n + Z.of_nat (length l) ≤ 4 → 0 ≤ n →
  within (off + 128 * n) (off + 512)
    (concat (imap (fun i r => channel_writes off k (n + Z.of_nat i) r) l)).
Proof.
  induction l as [| r l IH]; intros n Hoff Hn H0; cbn [imap concat]; [constructor |].
  cbn [length] in Hn. apply within_app.
  - rewrite Z.add_0_r. assert (He : elem_at chan_control_map n = 128 * n).
    { assert (n = 0 ∨ n = 1 ∨ n = 2 ∨ n = 3) by lia. destruct_or!; subst n; reflexivity. }
    pose proof (channel_within off k n r) as H. rewrite He in H.
    eapply within_weaken; [apply H | lia | lia].
    rewrite Z.add_mod, Hoff by lia. rewrite Z.add_0_l, Z.mod_mod by lia. Z.div_mod_to_equations; lia.
  - replace (imap _ l) with (imap (fun i r => channel_writes off k (n + 1 + Z.of_nat i) r) l).
    + eapply within_weaken; [apply IH | |]; lia.
    + apply imap_ext. intros i x _. unfold compose. f_equal. lia.
Qed.

Lemma channels_written off k l : ∀ n m i r j, off mod 4 = 0 → 0 ≤ k < 3 →
  n + Z.of_nat (length l) ≤ 4 → 0 ≤ n → Forall regs_ok l → zget l i = Some r → 0 ≤ j < 128 →
  byte_of (writes (concat (imap (fun i r => channel_writes off k (n + Z.of_nat i) r) l)) m)
    (off + 128 * (n + i) + j) = channel_byte k r j.
Proof.
  induction l as [| r0 l IH]; intros n m i r j Hoff Hk Hn H0 Hl Hi Hj.
  { unfold zget in Hi. case_decide; [| done]. rewrite lookup_nil in Hi. done. }
  cbn [length] in Hn. inversion_clear Hl as [| ? ? Hr0 Hl']. cbn [imap concat].
  assert (Hshift : imap ((fun i r => channel_writes off k (n + Z.of_nat i) r) ∘ S) l =
                   imap (fun i r => channel_writes off k (n + 1 + Z.of_nat i) r) l).
  { apply imap_ext. intros x y _. unfold compose. f_equal. lia. }
  rewrite Hshift. rewrite zget_cons in Hi.
  pose proof (zget_Some_range l (i - 1) r) as Hrange.
  destruct (decide (i = 0)) as [-> | Hne].
  - injection Hi as ->. apply (byte_after (off + 128 * (n + 1)) (off + 512)).
    + apply channels_within; lia.
    + Z.div_mod_to_equations; lia.
    + rewrite Z.add_0_r. assert (He : elem_at chan_control_map n = 128 * n).
      { assert (n = 0 ∨ n = 1 ∨ n = 2 ∨ n = 3) by lia. destruct_or!; subst n; reflexivity. }
      change (Z.of_nat 0) with 0. rewrite Z.add_0_r, <- He. apply channel_written; [done | | done | done].
      rewrite He. Z.div_mod_to_equations; lia.
  - rewrite writes_app. replace (n + i) with (n + 1 + (i - 1)) by lia.
    apply IH; try done; try lia.
Qed.

Lemma chip_written k l coeffs ratios m : k = 0 ∨ k = 1 ∨ k = 2 → length l = 4%nat →
  Forall regs_ok l → chip_holds (writes (chip_writes l coeffs ratios k) m) k l coeffs ratios.
Proof.
  intros Hk Hlen Hl.
  assert (Hoff : elem_at GC314FS_GCoffset k mod 4 = 0) by (destruct_or!; subst k; reflexivity).
  pose proof (general_written k ratios m Hk) as Hgen.
  pose proof (general_range ratios) as Hgr.
  unfold chip_holds, chip_writes. cbv zeta.
  set (off := elem_at GC314FS_GCoffset k) in *. clearbody off.
  set (bytes := flat_map bytes16 (map u16 coeffs)).
  assert (Hbytes : Forall is_byte bytes) by apply shorts_ok, u16_shorts.
  change (resamp_writes off coeffs) with (words_from (off + 512) 128 (word_of bytes)).
  pose proof (words_within (off + 512) 128 (word_of bytes)) as Hrw.
  pose proof (channels_within off k l 0 Hoff ltac:(lia) ltac:(lia)) as Hcw. rewrite Z.mul_0_r in Hcw.
  split_and!.
  - intros x Hx. rewrite Forall_forall in Hgr, Hgen. pose proof (Hgr x Hx) as Hrange.
    rewrite app_assoc. apply (byte_after _ _ _ _ _ _ _ Hcw); [Z.div_mod_to_equations; lia |].
    apply (byte_after _ _ _ _ _ _ _ Hrw); [Z.div_mod_to_equations; lia |]. apply Hgen, Hx.
  - intros j Hj. rewrite app_assoc. apply (byte_after _ _ _ _ _ _ _ Hcw); [Z.div_mod_to_equations; lia |].
    rewrite writes_app. apply block_byte; [done | Z.div_mod_to_equations; lia | lia].
  - intros i r j Hi Hj. rewrite app_assoc, writes_app.
    pose proof (zget_Some_range l i r Hi) as Hir. unfold zlen in Hir.
    assert (He : elem_at chan_control_map i = 128 * (0 + i)).
    { assert (i = 0 ∨ i = 1 ∨ i = 2 ∨ i = 3) by lia. destruct_or!; subst i; reflexivity. }
    rewrite He. apply (channels_written off k l 0); try done; lia.
Qed.

Lemma chip_range k l coeffs ratios : k = 0 ∨ k = 1 ∨ k = 2 → length l = 4%nat →
  within (2048 * (k + 1)) (2048 * (k + 1) + 1120) (chip_writes l coeffs ratios k).
Proof.
  intros Hk Hlen. pose proof (general_within k ratios Hk) as Hg. unfold chip_writes. cbv zeta.
  assert (He : elem_at GC314FS_GCoffset k = 2048 * (k + 1)) by (destruct_or!; subst k; reflexivity).
  rewrite He in *. assert (Hoff : (2048 * (k + 1)) mod 4 = 0) by (destruct_or!; subst k; reflexivity).
  set (off := 2048 * (k + 1)) in *. clearbody off.
  apply within_app; [eapply within_weaken; [exact Hg | lia | lia] |].
  apply within_app.
  - eapply within_weaken; [apply (words_within (off + 512) 128) | lia | lia].
  - eapply within_weaken; [apply (channels_within off k l 0); [exact Hoff | lia | lia] | lia | lia].
Qed.

(** What a chip holds depends on its own registers. *)
Lemma chip_holds_kept k k' l l' coeffs ratios m : k < k' → 0 ≤ k → k' = 1 ∨ k' = 2 →
  within (2048 * (k' + 1)) (2048 * (k' + 1) + 1120) l' → length l = 4%nat →
  chip_holds m k l coeffs ratios → chip_holds (writes l' m) k l coeffs ratios.
Proof.
  intros Hlt Hk Hk' Hl' Hlen (Hg & Hc & Hr). pose proof (general_range ratios) as Hgr.
  assert (Hoff : elem_at GC314FS_GCoffset k = 2048 * (k + 1)).
  { assert (k = 0 ∨ k = 1) by lia. destruct_or!; subst k; try lia; reflexivity. }
  unfold chip_holds. rewrite Hoff in *. split_and!.
  - intros x Hx. rewrite Forall_forall in Hgr. pose proof (Hgr x Hx).
    rewrite (byte_frame _ _ _ _ _ Hl'); [apply Hg, Hx |]. Z.div_mod_to_equations; lia.
  - intros j Hj. rewrite (byte_frame _ _ _ _ _ Hl'); [apply Hc, Hj |]. Z.div_mod_to_equations; lia.
  - intros i r j Hi Hj. rewrite (byte_frame _ _ _ _ _ Hl'); [apply Hr; done |].
    pose proof (zget_Some_range l i r Hi) as Hir. unfold zlen in Hir.
    assert (elem_at chan_control_map i = 128 * i).
    { assert (i = 0 ∨ i = 1 ∨ i = 2 ∨ i = 3) by lia. destruct_or!; subst i; reflexivity. }
    Z.div_mod_to_equations; lia.
Qed.

Lemma config_holds l coeffs ratios m k : length l = 4%nat → Forall regs_ok l → 0 ≤ k < 3 →
  chip_holds (writes (_config_GC4016 l coeffs ratios) m) k l coeffs ratios.
Proof.
  intros Hlen Hl Hk. unfold _config_GC4016. cbn [seqZ]. change (seqZ 0 3) with [0; 1; 2].
  cbn [flat_map]. rewrite app_nil_r, !writes_app.
  assert (k = 0 ∨ k = 1 ∨ k = 2) by lia. destruct_or!; subst k.
  - apply (chip_holds_kept 0 2); try lia; [apply chip_range; auto |].
    apply (chip_holds_kept 0 1); try lia; [apply chip_range; auto |]. apply chip_written; auto.
  - apply (chip_holds_kept 1 2); try lia; [apply chip_range; auto |]. apply chip_written; auto.
  - apply chip_written; auto.
Qed.

(** ** Theorems: the values of a channel *)

Lemma limit_range lo hi x : lo ≤ hi → lo ≤ limit lo hi x ≤ hi.
Proof. unfold limit. intros. destruct (Z.ltb_spec hi x); case_match; lia. Qed.

Lemma decimation_range c : 8 ≤ decimation c ≤ 4096.
Proof. apply limit_range. lia. Qed.

(** The registers [_set_GC4016_vals] computes, whatever the filters are. *)
Lemma values_regs m c : ∃ pfir gain,
  let dec := decimation c in
  let FREQ := nco (ch_freq c) in
  v_regs (_set_GC4016_vals m c) =
  mk_channel_regs (map u16 cfir_coeffs) (map u16 pfir) 0
    (u16 (FREQ &c 65535)) (u16 ((FREQ >>c 16) &c 65535)) 12 119 114 0 34
    (u8 ((dec - 1) &c 255)) (u8 (112 + u8 (((dec - 1) >>c 8) &c 15)))
    (u8 (cicscale m dec)) 0 (u8 (0 |c (coarse m dec <<c 4))) 0 0 0 0 (u16 (fine_gain m gain)).
Proof.
  unfold _set_GC4016_vals. cbv zeta.
  destruct (setPFIR _ _ _ _) as [pfir pg]. destruct (setresamp _ _ _) as [rc rg].
  eexists pfir, _. reflexivity.
Qed.

Lemma fine_gain_range m g : 1 ≤ fine_gain m g ≤ 16384.
Proof.
  unfold fine_gain. cbv zeta.
  match goal with |- context [16384 <=? ?f] => generalize f end. intros f.
  destruct (Z.leb_spec 16384 f); [rewrite (proj2 (Z.leb_gt _ _)) by lia; lia |].
  destruct (Z.leb_spec f 1); lia.
Qed.

Lemma land_65535 z : z &c 65535 = z mod 65536.
Proof. change 65535 with (Z.ones 16). rewrite Z.land_ones by lia. reflexivity. Qed.

(** The two halves of the oscillator's word. *)
Definition nco_word (r : channel_regs) : Z := rg_freq_msb r * 65536 + rg_freq_lsb r.

Lemma nco_halves f : 0 ≤ f < FCLOCK →
  u16 ((nco f >>c 16) &c 65535) * 65536 + u16 (nco f &c 65535) = 4294967296 * f / FCLOCK.
Proof.
  unfold FCLOCK. intros Hf. unfold nco, u16, i32, FCLOCK. rewrite !land_65535, Z.shiftr_div_pow2 by lia.
  rewrite Z.quot_div_nonneg by lia. change (2 ^ 16) with 65536. change (2 ^ 31) with 2147483648.
  change (2 ^ 32) with 4294967296. rewrite !Z.mod_mod by lia.
  set (w := 4294967296 * f / 100000000).
  assert (0 ≤ w < 4294967296) by (unfold w; Z.div_mod_to_equations; lia).
  clearbody w. Z.div_mod_to_equations. lia.
Qed.

Lemma values_nco m c : 0 ≤ ch_freq c < FCLOCK →
  nco_word (v_regs (_set_GC4016_vals m c)) = 4294967296 * ch_freq c / FCLOCK.
Proof.
  intros Hf. destruct (values_regs m c) as (pfir & gain & ->). cbv zeta. apply nco_halves. done.
Qed.

Definition is_short (z : Z) : Prop := 0 ≤ z < 65536.

Lemma regs_bytes_ok r :
  Forall is_short (rg_cfir_coeffs r) → Forall is_short (rg_pfir_coeffs r) →
  Forall is_short [rg_phase r; rg_freq_lsb r; rg_freq_msb r] → is_short (rg_fine_gain r) →
  Forall is_byte [rg_ch_reset r; rg_freq_sync r; rg_nco_sync r; rg_zero_pad_mode_ctrl r;
    rg_dec_flush_sync r; rg_dec_ratio_lsb r; rg_dec_ratio_msb r; rg_cic_scale r; rg_split_IQ r;
    rg_cfir r; rg_pfir r; rg_input r; rg_peak_ctrl r; rg_peak_count r] → regs_ok r.
Proof.
  intros Hc Hp Hf Hg Hb. unfold regs_ok, regs_bytes. apply Forall_app_2.
  - apply shorts_ok. repeat apply Forall_app_2; try assumption.
    all: apply Forall_replicate; split; lia.
  - apply Forall_app_2; [exact Hb | apply bytes16_ok, Hg].
Qed.

Lemma values_regs_ok m c : regs_ok (v_regs (_set_GC4016_vals m c)).
Proof.
  assert (H16 : ∀ z, is_short (u16 z)) by (intros z; apply Z.mod_pos_bound; lia).
  destruct (values_regs m c) as (pfir & gain & ->). cbv zeta.
  apply regs_bytes_ok; cbn [rg_cfir_coeffs rg_pfir_coeffs rg_phase rg_freq_lsb rg_freq_msb rg_fine_gain
    rg_ch_reset rg_freq_sync rg_nco_sync rg_zero_pad_mode_ctrl rg_dec_flush_sync rg_dec_ratio_lsb
    rg_dec_ratio_msb rg_cic_scale rg_split_IQ rg_cfir rg_pfir rg_input rg_peak_ctrl rg_peak_count].
  - apply u16_shorts.
  - apply u16_shorts.
  - repeat apply Forall_cons_2; try apply Forall_nil_2; try apply H16. split; lia.
  - apply H16.
  - repeat apply Forall_cons_2; try apply Forall_nil_2; try apply u8_range; split; lia.
Qed.

Lemma dec_bytes dec : 8 ≤ dec ≤ 4096 →
  u8 ((dec - 1) &c 255) + 256 * (u8 (112 + u8 (((dec - 1) >>c 8) &c 15)) - 112) = dec - 1.
Proof.
  intros Hd. rewrite Z.shiftr_div_pow2 by lia. change 15 with (Z.ones 4). rewrite Z.land_ones, land_255 by lia.
  unfold u8. change (2 ^ 8) with 256. change (2 ^ 4) with 16. Z.div_mod_to_equations. lia.
Qed.

Lemma cicscale_encodes m dec : ∃ b, 0 ≤ b ≤ 7 ∧
  u8 (cicscale m dec) = (if 3104 <? dec then 0 else 64) + 8 * b.
Proof.
  unfold cicscale. set (b := big_scale m dec (cic_shift dec)).
  assert (Hb : 0 ≤ b ≤ 7) by (apply limit_range; lia). clearbody b. exists b. split; [done |].
  assert (b = 0 ∨ b = 1 ∨ b = 2 ∨ b = 3 ∨ b = 4 ∨ b = 5 ∨ b = 6 ∨ b = 7) by lia.
  destruct (3104 <? dec); destruct_or!; subst b; reflexivity.
Qed.

Lemma coarse_encodes m dec : ∃ g, 0 ≤ g ≤ 7 ∧ coarse m dec = g ∧ u8 (0 |c (coarse m dec <<c 4)) = 16 * g.
Proof.
  exists (coarse m dec). assert (Hb : 0 ≤ coarse m dec ≤ 7) by (apply limit_range; lia).
  split_and!; [lia | lia | done |]. set (b := coarse m dec) in *. clearbody b.
  assert (b = 0 ∨ b = 1 ∨ b = 2 ∨ b = 3 ∨ b = 4 ∨ b = 5 ∨ b = 6 ∨ b = 7) by lia.
  destruct_or!; subst b; reflexivity.
Qed.

(** C28: the registers of a channel stay in the ranges of the chip for every
    setting of the client and whatever the functions of math.h return: the
    decimation register is the decimation less one, which is between 8 and 4096;
    the scale of the CIC filter, the coarse gain and the fine gain fit their
    fields; and the word of the oscillator is the frequency in units of the
    clock over 2^32, rounded down. *)
Theorem registers_encode m c (Hf : 0 ≤ ch_freq c < FCLOCK) :
  let r := v_regs (_set_GC4016_vals m c) in
  8 ≤ decimation c ≤ 4096 ∧
  rg_dec_ratio_lsb r + 256 * (rg_dec_ratio_msb r - 112) = decimation c - 1 ∧
  (∃ b, 0 ≤ b ≤ 7 ∧ rg_cic_scale r = (if 3104 <? decimation c then 0 else 64) + 8 * b) ∧
  (∃ g, 0 ≤ g ≤ 7 ∧ rg_cfir r = 16 * g) ∧
  1 ≤ rg_fine_gain r ≤ 16384 ∧
  nco_word r * FCLOCK ≤ 4294967296 * ch_freq c < (nco_word r + 1) * FCLOCK ∧
  Forall is_byte (regs_bytes r).
Proof.
  cbv zeta. pose proof (values_regs_ok m c) as Hok. pose proof (values_nco m c Hf) as Hn.
  pose proof (decimation_range c) as Hd. rewrite Hn.
  destruct (values_regs m c) as (pfir & gain & Hr). cbv zeta in Hr. rewrite Hr in Hok |- *.
  cbn [rg_dec_ratio_lsb rg_dec_ratio_msb rg_cic_scale rg_cfir rg_fine_gain].
  split_and!; try exact Hok; try lia.
  - apply dec_bytes, Hd.
  - apply cicscale_encodes.
  - destruct (coarse_encodes m (decimation c)) as (g & Hg & _ & He). eauto.
  - pose proof (fine_gain_range m gain). unfold u16. rewrite Z.mod_small by lia. lia.
  - pose proof (fine_gain_range m gain). unfold u16. rewrite Z.mod_small by lia. lia.
  - unfold FCLOCK. Z.div_mod_to_equations; lia.
  - unfold FCLOCK. Z.div_mod_to_equations; lia.
Qed.

(** Constant functions in the place of those of math.h, and the settings of the
    start of the driver. *)
Definition demo_libm : libm :=
  mk_libm (fun _ => d_of_int 1) (fun _ _ => d_of_int 1) (fun _ => d_of_int 1) (fun _ => d_of_int 1).

Definition demo_channel : channel_params :=
  mk_channel_params 0 12000000 500 (d_of_int 10000) 10000 1.

Lemma registers_encode_witness :
  decimation demo_channel = 100 ∧
  Forall is_byte (regs_bytes (v_regs (_set_GC4016_vals demo_libm demo_channel))).
Proof.
  split; [vm_compute; reflexivity |].
  apply (registers_encode demo_libm demo_channel). split; vm_compute; [discriminate | reflexivity].
Defined.

(** [_config_GC4016] leaves in the chips what it means to, from whatever was
    there: the general registers, the coefficients and ratios of the resampler,
    and the registers of every channel, with the input of the chip.  [write08]
    of a value from 128 sets the bytes above it too; the order of the writes
    repairs each of them. *)
Theorem chips_configured GC4016 resampcoeffs resampratio m k
    (Hlen : length GC4016 = 4%nat) (Hok : Forall regs_ok GC4016) (Hk : 0 ≤ k < 3) :
  chip_holds (writes (_config_GC4016 GC4016 resampcoeffs resampratio) m) k
    GC4016 resampcoeffs resampratio.
Proof. apply config_holds; done. Qed.

Lemma chips_configured_witness :
  let r := v_regs (_set_GC4016_vals demo_libm demo_channel) in
  byte_of (writes (_config_GC4016 [r; r; r; r] (replicate 256 0) [0; 0; 0; 0]) (fun _ => 4294967295))
    (4096 + 128 + 123) = 17.
Proof.
  set (r := v_regs _). cbv zeta.
  assert (Hr : regs_ok r) by apply values_regs_ok. clearbody r.
  assert (H : Forall regs_ok [r; r; r; r]) by (repeat apply Forall_cons_2; done || apply Forall_nil_2).
  destruct (chips_configured [r; r; r; r] (replicate 256 0) [0; 0; 0; 0] (fun _ => 4294967295) 1
              eq_refl H ltac:(lia)) as (_ & _ & Hc).
  apply (Hc 1 r 123); [reflexivity | lia].
Defined.

(** ** Where [write08] does what it does not mean to *)

(** The global reset of a chip (0xf8 on, 0x08 off) also sets the status, page and
    checksum registers beside it, and leaves them set. *)
Example reset_spills :
  map (byte_of (writes [W8 1088 248; W8 1088 8] (fun _ => 0))) [1088; 1089; 1090; 1091] =
  [8; 255; 255; 255].
Proof. vm_compute. reflexivity. Qed.
