(* ===== verification/Gc314.v ===== *)
(** * Gc314: the driver of a receiver card (src/ros6/gc314FS_driver.1.31: main.c,
    _DMA_collect.c, _DMA_transfer_sg.c, _set_RDA.c)

    One process per card, a resource manager whose clients (the receiver driver,
    see Receiver) give it the commands [gc_cmd].  A command sets the parameters of
    one of the four channels, the registers of the card, or starts a helper thread
    per channel that waits for samples and moves them with the DMA engine of the
    PCI bridge into three buffers of main memory, one per GC4016 chip.

    The state holds the global variables of main.c, the helper threads and the
    accesses made to the card, each with the thread that made it.  An execution is
    a list of events: a request arrives, a blocked request goes on, or a helper
    takes its next step, which is one access to the card (a read and the write of
    [|=] count as one).  A request takes effect in one step, apart from the places
    where it waits for a helper.  What the card answers is a function of the
    accesses so far; the clock is part of the event.

    Creating a thread succeeds, and the helpers are only joined by the handlers. *)

From Stdlib Require Import ZArith Lia SpecFloat.
From stdpp Require Import base list.
From S2P Require Import Prelude Binary64 Receiver Gc4016.
Open Scope Z_scope.
Open Scope cvr_scope.

(** ** gc314FS.h, _regs_GC314FS.h, _regs_PLX9656.h, _prog_conventions.h *)

Definition FIFO_LVL : Z := 100.
Definition DMA_TIMEOUT : Z := 2.
Definition DMA_NSEC_TIMEOUT : Z := 1000000000.

Definition GC314_PULSE : Z := 3.
Definition SYNC1_SIA_ONETIME : Z := 11.
Definition SYNC1_SIB_ONETIME : Z := 12.
Definition SYNC1_RTSC_CLEAR : Z := 13.
Definition SYNC1_SIA_CONTINUOUS : Z := 15.

Definition GC314FS_GCSR : Z := 256.
Definition GC314FS_GSM : Z := 284.
Definition GC314FS_CPLL : Z := 368.
Definition GC314FS_PCI_ADD_0 : Z := 8192.
Definition GC314FS_LOC_ADD_0 : Z := 8196.
Definition GC314FS_TRANS_0 : Z := 8200.
Definition GC314FS_POINT_0 : Z := 8204.
Definition GC4016_GLOBAL_RESET : Z := 1088.

(** The registers of the data acquisition of chip [chip] (0 to 2) and channel [c]. *)
Definition rda (chip c : Z) : Z := 768 + 256 * chip + 64 * c.
Definition CSR (chip c : Z) : Z := rda chip c.
Definition DWS (chip c : Z) : Z := rda chip c + 4.
Definition SKIP (chip c : Z) : Z := rda chip c + 8.
Definition LVL (chip c : Z) : Z := rda chip c + 12.
Definition SM (chip c : Z) : Z := rda chip c + 16.
Definition FS (chip c : Z) : Z := rda chip c + 20.
Definition ID (chip c : Z) : Z := rda chip c + 24.

(** The registers of the DMA channels of the bridge. *)
Definition PLX9656_DMAMODE (d : Z) : Z := if d =? 0 then 128 else 148.
Definition PLX9656_DMADPR (d : Z) : Z := if d =? 0 then 144 else 164.
Definition PLX9656_DMACSR (d : Z) : Z := if d =? 0 then 168 else 169.

(** ** State *)

(** An access to the local bus ([BASE1]) or to the bridge ([BASE0]). *)
Inductive access :=
  | Rd (reg : Z)
  | Wr (reg v : Z)
  | PRd (reg : Z)
  | PWr (reg v : Z).

(** The thread that made it: the main thread or the helper of a channel. *)
Inductive who := Main | Helper (c : Z).

(** Where a helper is.  [start] is when the wait began, [wake] when its sleep
    ends.  A list is what is still to be written. *)
Inductive phase :=
  | Begin
  | EnterLevel
  | AwaitLevel (start wake st : Z)
  | EnterFrame
  | AwaitFrame (start wake : Z)
  | EnterTransfer
  | Program (start : Z) (todo : list access)
  | AwaitDone (start wake : Z)
  | Abandon (todo : list access)
  | Finish (todo : list Z)
  | Exited.

(** [h_i] counts the transfers; number [h_loops] is the last, partial transfer. *)
Record helper := mk_helper {
  ph : phase;
  h_i : Z;
  h_loops : Z;
  h_remaining : Z;
  h_scount : Z
}.

#[export] Instance eta_helper : Eta helper := fun r =>
  mk_helper (ph r) (h_i r) (h_loops r) (h_remaining r) (h_scount r).

(** Where the main thread is: waiting for a message, or blocked in
    [pthread_join] on the helper of channel A (START_COLLECTION) or of [c]
    (WAIT_FOR_DATA for [channel]). *)
Inductive handler_pc :=
  | Idle
  | JoinStart
  | JoinWait (c channel : Z).

Inductive reply :=
  | Done
  | Address (a : option Z)
  | Status (st : Z)
  | Refused.

(** [rx_data->...] of GC314_GET_BUFFER_ADDRESS comes with its own structure; any
    other request of a client is a command of Receiver. *)
Inductive request :=
  | Cmd (c : gc_cmd)
  | GetBufferAddress (channel chip : Z)
  | OtherRequest.

Record gc314 := mk_gc314 {
  chan : list channel_params;
  channel_on_off : list Z;
  channel_waiting : list Z;
  channel_stat : list Z;
  fifo_lvl : list Z;
  skip : list Z;
  GC4016 : list channel_regs;
  resampcoeffs : list Z;
  resampratios : list Z;
  DMA_in_use : list Z;
  helpers : list (option helper);
  handler : handler_pc;
  replies : list reply;
  io : list (who * access)
}.

#[export] Instance eta_gc314 : Eta gc314 := fun r =>
  mk_gc314 (chan r) (channel_on_off r) (channel_waiting r) (channel_stat r) (fifo_lvl r) (skip r)
    (GC4016 r) (resampcoeffs r) (resampratios r) (DMA_in_use r) (helpers r) (handler r) (replies r) (io r).

Abbreviation DM := (M gc314).

(** What lies outside: math.h, the card, the physical addresses of the twelve DMA
    buffers, and the version of the card ([_config_GC314FS]). *)
Record gc314_env := mk_gc314_env {
  math : libm;
  card : list access → Z;
  physical_addr : list Z;
  version : Z
}.

Section Driver.
Context (env : gc314_env).

(** ** Access to the state and to the card *)

Definition log (w : who) (a : access) : DM unit := modify (fun s => s <| io ::= fun l => (l ++ [(w, a)])%list |>).

(** A read gives what the card answers to the accesses so far. *)
Definition answer : DM Z := l ← gets io; mret (u32 (card env (map snd l))).

Definition rd32 (w : who) (reg : Z) : DM Z := log w (Rd reg);; answer.
Definition wr32 (w : who) (reg v : Z) : DM unit := log w (Wr reg (u32 v)).
Definition or32 (w : who) (reg m : Z) : DM unit := v ← rd32 w reg; wr32 w reg (v |c m).
Definition and32 (w : who) (reg m : Z) : DM unit := v ← rd32 w reg; wr32 w reg (v &c m).

(** [write08], [write16], [write32]. *)
Definition write (w : reg_write) : DM unit :=
  match w with
  | W32 reg v => wr32 Main reg v
  | _ => v ← rd32 Main (write_reg w); wr32 Main (write_reg w) (write_word w v)
  end.

Definition get_at {A} (f : gc314 → list A) (c : Z) : DM A := l ← gets f; deref OutOfBounds (zget l c).

Definition set_at {A} (f : gc314 → list A) (upd : list A → gc314 → gc314) (c : Z) (v : A) : DM unit :=
  l ← gets f; l ← deref OutOfBounds (zset l c v); modify (upd l).

Definition set_chan := set_at chan (fun l s => s <| chan := l |>).
Definition set_on_off := set_at channel_on_off (fun l s => s <| channel_on_off := l |>).
Definition set_waiting := set_at channel_waiting (fun l s => s <| channel_waiting := l |>).
Definition set_stat := set_at channel_stat (fun l s => s <| channel_stat := l |>).
Definition set_fifo_lvl := set_at fifo_lvl (fun l s => s <| fifo_lvl := l |>).
Definition set_skip := set_at skip (fun l s => s <| skip := l |>).
Definition set_helper := set_at helpers (fun l s => s <| helpers := l |>).

(** [_set_RDA]. *)
Definition chips : list Z := [0; 1; 2].

Definition _set_RDA (samples_to_collect skip_samples lvl channel : Z) : list reg_write :=
  map (fun k => W16 (CSR k channel) 2) chips ++
  map (fun k => W32 (LVL k channel) lvl) chips ++
  map (fun k => W32 (DWS k channel) samples_to_collect) chips ++
  map (fun k => W32 (SKIP k channel) skip_samples) chips ++
  map (fun k => W32 (FS k channel) samples_to_collect) chips ++
  map (fun k => W32 (ID k channel) ((1000 * (k + 1) + 100 * (channel + 1)) <<c 16)) chips ++
  map (fun k => W32 (SM k channel) 680) chips.

(** ** The commands *)

(** A [switch] over the four channels: nothing happens for another one. *)
Definition per_channel (c : Z) (body : DM unit) : DM unit := when ((0 <=? c) && (c <? 4)) body.

Definition upd_chan (c : Z) (f : channel_params → channel_params) : DM unit :=
  per_channel c (p ← get_at chan c; set_chan c (f p)).

(** GC314_SET_SAMPLES; channel D compares the samples of channel C. *)
Definition set_samples (c n : Z) : DM unit :=
  per_channel c (
    p ← get_at chan c;
    set_chan c (p <| ch_samples := n |>);;
    tested ← get_at chan (if c =? 3 then 2 else c);
    set_fifo_lvl c (if ch_samples tested <? FIFO_LVL then n else FIFO_LVL)).

(** [resampcoeffs[4*i+chanX->channel]=resamp_coeffs[i]] for [i] below 64. *)
Definition put_coeffs (channel : Z) (resamp_coeffs l : list Z) : list Z :=
  imap (fun n x => if Z.of_nat n mod 4 =? channel then elem_at resamp_coeffs (Z.of_nat n / 4) else x) l.

(** GC314_UPDATE_CHANNEL. *)
Definition update_channel (c : Z) : DM unit :=
  per_channel c (
    p ← get_at chan c;
    let v := _set_GC4016_vals (math env) p in
    l ← gets GC4016; l ← deref OutOfBounds (zset l c (v_regs v));
    modify (fun s => s <| GC4016 := l |>);;
    modify (fun s => s <| resampcoeffs ::= put_coeffs (ch_channel p) (v_resamp v) |>);;
    r ← gets resampratios; r ← deref OutOfBounds (zset r (ch_channel p) (v_ratio v));
    modify (fun s => s <| resampratios := r |>);;
    set_skip c (v_skip v)).

(** The commands that do not wait. *)
Definition command (x : gc_cmd) : DM unit :=
  match x with
  | ChannelOn _ c => per_channel c (set_on_off c 1)
  | SetFilters _ bandwidth c matched =>
      upd_chan c (fun p => p <| ch_BW := d_to_int bandwidth |> <| ch_matched := matched |>)
  | SetFrequency _ freq c => upd_chan c (fun p => p <| ch_freq := freq |>)
  | SetOutputRate _ rate c => upd_chan c (fun p => p <| ch_rate := rate |>)
  | SetSamples _ n c => set_samples c n
  | SetGlobalReset _ state =>
      if state =? GC314_ON then for_each GC314FS_GCoffset (fun off => write (W8 (off + GC4016_GLOBAL_RESET) 248))
      else when (state =? GC314_OFF)
             (for_each GC314FS_GCoffset (fun off => write (W8 (off + GC4016_GLOBAL_RESET) 8)))
  | LoadGC4016s _ =>
      g ← gets GC4016; cf ← gets resampcoeffs; r ← gets resampratios;
      for_each (_config_GC4016 g cf r) write
  | SetRDA _ c =>
      per_channel c (p ← get_at chan c; k ← get_at skip c; lvl ← get_at fifo_lvl c;
        for_each (_set_RDA (ch_samples p) k lvl c) write)
  | SetExternalTrigger _ state =>
      if state =? GC314_ON then or32 Main GC314FS_GCSR 8388608
      else when (state =? GC314_OFF) (and32 Main GC314FS_GCSR 4286578687)
  | SetSync1 _ state =>
      if state =? GC314_ON then or32 Main GC314FS_GCSR 2097152
      else if state =? GC314_OFF then and32 Main GC314FS_GCSR 4292870143
      else when (state =? GC314_PULSE) (or32 Main GC314FS_GCSR 4194304)
  | SetSyncMask _ state =>
      if state =? SYNC1_SIA_ONETIME then or32 Main GC314FS_GSM 32768
      else if state =? SYNC1_SIB_ONETIME then or32 Main GC314FS_GSM 8192
      else if state =? SYNC1_RTSC_CLEAR then or32 Main GC314FS_GSM 262144
      else if state =? SYNC1_SIA_HOLD then or32 Main GC314FS_GSM 1048576
      else when (state =? SYNC1_SIA_CONTINUOUS) (or32 Main GC314FS_GSM 16384)
  | UpdateChannel _ c => update_channel c
  | ChannelAbort _ c =>
      per_channel c (set_on_off c 0;; for_each chips (fun k => or32 Main (CSR k c) 4))
  | StartCollection _ | WaitForData _ _ => mret tt
  end.

(** ** Requests *)

Definition respond (r : reply) : DM unit := modify (fun s => s <| replies ::= fun l => (l ++ [r])%list |>).
Definition go (p : handler_pc) : DM unit := modify (fun s => s <| handler := p |>).

(** [pthread_create]. *)
Definition create (c : Z) : DM unit := set_helper c (Some (mk_helper Begin 0 0 0 0)).

(** GC314_START_COLLECTION after channel A: a helper that was not joined is not
    started again. *)
Definition start_rest : DM unit :=
  for_each [1; 2; 3] (fun c =>
    on ← get_at channel_on_off c; h ← get_at helpers c;
    when (negb (on =? 0) && bool_decide (h = None)) (create c)).

Definition buffer_address (channel chip : Z) : option Z :=
  if (0 <=? chip) && (chip <? 3) && (0 <=? channel) && (channel <? 4)
  then zget (physical_addr env) (3 * channel + chip) else None.

(** [io_devctl], up to its first wait. *)
Definition io_devctl (q : request) : DM unit :=
  match q with
  | Cmd (StartCollection _) =>
      rd32 Main GC314FS_CPLL;;
      on ← get_at channel_on_off 0; h ← get_at helpers 0;
      if on =? 0 then start_rest;; respond Done
      else if bool_decide (h = None) then create 0;; start_rest;; respond Done
      else go JoinStart
  | Cmd (WaitForData _ channel) => set_waiting 0 1;; go (JoinWait 0 channel)
  | Cmd x => command x;; respond Done
  | GetBufferAddress channel chip => respond (Address (buffer_address channel chip))
  | OtherRequest => respond Refused
  end.

(** ... and from a wait to the next. *)
Definition resume : DM unit :=
  p ← gets handler;
  match p with
  | Idle => mret tt
  | JoinStart => set_helper 0 None;; create 0;; start_rest;; go Idle;; respond Done
  | JoinWait c channel =>
      set_helper c None;; set_waiting c 0;; set_on_off c 0;;
      if c <? 3 then set_waiting (c + 1) 1;; go (JoinWait (c + 1) channel)
      else
        st ← (if (0 <=? channel) && (channel <? 4) then get_at channel_stat channel else mret (-10));
        go Idle;; respond (Status st)
  end.

(** ** The helpers *)

(** [get_available_DMA_channel] returns 1; the search after that is never
    reached. *)
Definition get_available_DMA_channel : Z := 1.

(** The writes of [_DMA_transfer_sg] on DMA channel [d]: three descriptors, one per
    chip, at [DMA_switch] 0, and the start. *)
Definition sg_descriptor (at_ pci loc size point : Z) : list access :=
  [Wr (GC314FS_PCI_ADD_0 + at_) pci; Wr (GC314FS_LOC_ADD_0 + at_) loc;
   Wr (GC314FS_TRANS_0 + at_) (u32 (size <<c 2)); Wr (GC314FS_POINT_0 + at_) point].

Definition _DMA_transfer_sg (d fifo_offset addr1 addr2 addr3 size : Z) : list access :=
  let p := if d =? 0 then 0 else 48 in
  [PWr (PLX9656_DMACSR d) 8; PWr (PLX9656_DMACSR d) 0; PWr (PLX9656_DMAMODE d) 2627] ++
  sg_descriptor p addr1 fifo_offset size (8216 + p) ++
  sg_descriptor (p + 16) addr2 (fifo_offset + 65536) size (8232 + p) ++
  sg_descriptor (p + 32) addr3 (fifo_offset + 131072) size (8250 + p) ++
  [PWr (PLX9656_DMADPR d) (8200 + p); PWr (PLX9656_DMACSR d) 1; PWr (PLX9656_DMACSR d) 3].

(** The fifo of channel [c] of the first chip. *)
Definition fifo_offset (c : Z) : Z := 262144 + 16384 * c.

(** The transfer of [size] samples of channel [c] to the samples from [scount]. *)
Definition transfer_program (c scount size : Z) : list access :=
  let addr chip := u32 (elem_at (physical_addr env) (3 * c + chip) + 4 * scount) in
  _DMA_transfer_sg get_available_DMA_channel (fifo_offset c) (addr 0) (addr 1) (addr 2) size.

(** [elapsed] of the two waits, in [unsigned long]. *)
Definition elapsed (start t : Z) : Z := u32 (t - start).

Definition frame_count : Z := if version env =? 314 then 1 else 0.

(** The stop bits are set for chips 2, 1 and 3. *)
Definition stop_registers (c : Z) : list Z := [CSR 1 c; CSR 0 c; CSR 2 c].

(** The head of the loop, and what follows it. *)
Definition next_phase (c : Z) (h : helper) : phase :=
  if h_i h <? h_loops h then EnterLevel
  else if (h_i h =? h_loops h) && (0 <? h_remaining h) then EnterFrame
  else Finish (stop_registers c).

Definition go_helper (c : Z) (h : helper) (p : phase) : DM unit := set_helper c (Some (h <| ph := p |>)).

(** A wait returns [st]. *)
Definition leave_wait (c : Z) (h : helper) (st : Z) : DM unit :=
  set_stat c st;;
  go_helper c h (if st =? 0 then EnterTransfer else Finish (stop_registers c)).

(** [_DMA_transfer_sg] returns [st]. *)
Definition transferred (c : Z) (h : helper) (st : Z) : DM unit :=
  set_stat c st;;
  modify (fun s => s <| DMA_in_use ::= fun l => list_insert (Z.to_nat get_available_DMA_channel) 0 l |>);;
  size ← (if h_i h <? h_loops h then get_at fifo_lvl c else mret (h_remaining h));
  n ← int_op (h_scount h + size);
  let h := h <| h_i ::= Z.succ |> <| h_scount := n |> in
  go_helper c h (if st =? 0 then next_phase c h else Finish (stop_registers c)).

(** One step of [WaitForChannelA] to [WaitForChannelD] at time [t]. *)
Definition wait_for_channel (c t : Z) : DM unit :=
  o ← get_at helpers c; h ← deref NullDeref o;
  match ph h with
  | Begin =>
      set_stat c 0;;
      p ← get_at chan c; lvl ← get_at fifo_lvl c;
      loops ← int_div (ch_samples p) lvl;
      remaining ← int_rem (ch_samples p) lvl;
      let h := mk_helper Begin 0 loops remaining 0 in
      go_helper c h (next_phase c h)
  | EnterLevel => go_helper c h (AwaitLevel t t 0)
  | AwaitLevel start _ st =>
      status ← rd32 (Helper c) (CSR 0 c);
      let st := if bits_set status 524288 then -1 else st in
      if bits_set status 131072 then leave_wait c h st
      else if DMA_NSEC_TIMEOUT <? elapsed start t then leave_wait c h (-1)
      else go_helper c h (AwaitLevel start (t + 50000) st)
  | EnterFrame => go_helper c h (AwaitFrame t t)
  | AwaitFrame start _ =>
      v ← rd32 (Helper c) (ID 0 c);
      let frame := if c =? 0 then i32 v else u16 v in
      if frame_count <? frame then
        status ← rd32 (Helper c) (CSR 0 0);
        leave_wait c h (if bits_set (u16 status) 524288 then -1 else 0)
      else if DMA_NSEC_TIMEOUT <? elapsed start t then
        rd32 (Helper c) 268;; leave_wait c h (-1)
      else go_helper c h (AwaitFrame start (t + 50000))
  | EnterTransfer =>
      int_op (4 * h_scount h);;
      size ← (if h_i h <? h_loops h then get_at fifo_lvl c else mret (h_remaining h));
      go_helper c h (Program t (transfer_program c (h_scount h) size))
  | Program start todo =>
      match todo with
      | [] => go_helper c h (AwaitDone start t)
      | a :: todo => log (Helper c) a;; go_helper c h (Program start todo)
      end
  | AwaitDone start _ =>
      log (Helper c) (PRd (PLX9656_DMACSR get_available_DMA_channel));; v ← answer;
      if bits_set (u8 v) 16 then transferred c h 0
      else if DMA_TIMEOUT <? t / 1000000000 - start / 1000000000 then
        go_helper c h (Abandon [PWr (PLX9656_DMACSR get_available_DMA_channel) 0;
                                PWr (PLX9656_DMACSR get_available_DMA_channel) 4])
      else go_helper c h (AwaitDone start (t + 1))
  | Abandon todo =>
      match todo with
      | [] => transferred c h (-1)
      | a :: todo => log (Helper c) a;; go_helper c h (Abandon todo)
      end
  | Finish todo =>
      match todo with
      | [] => set_on_off c 0;; go_helper c h Exited
      | reg :: todo => or32 (Helper c) reg 4;; go_helper c h (Finish todo)
      end
  | Exited => mret tt
  end.

(** ** Executions *)

Inductive event :=
  | Request (q : request)
  | Resume
  | Step (c : Z).

(** A sleeping helper runs from [wake] on. *)
Definition awake (t : Z) (p : phase) : bool :=
  match p with
  | AwaitLevel _ wake _ | AwaitFrame _ wake | AwaitDone _ wake => wake <=? t
  | Exited => false
  | _ => true
  end.

Definition exited (o : option helper) : bool :=
  match o with Some h => match ph h with Exited => true | _ => false end | None => false end.

Definition helper_of (s : gc314) (c : Z) : option helper :=
  match zget (helpers s) c with Some o => o | None => None end.

Definition enabled (t : Z) (e : event) (s : gc314) : bool :=
  match e with
  | Request _ => match handler s with Idle => true | _ => false end
  | Resume =>
      match handler s with
      | Idle => false
      | JoinStart => exited (helper_of s 0)
      | JoinWait c _ => bool_decide (helper_of s c = None) || exited (helper_of s c)
      end
  | Step c => match helper_of s c with Some h => awake t (ph h) | None => false end
  end.

Definition perform (t : Z) (e : event) : DM unit :=
  match e with
  | Request q => io_devctl q
  | Resume => resume
  | Step c => wait_for_channel c t
  end.

(** [exec D t s l s']: the events of [l] take [s] at time [t] to [s'], each of
    them as the discipline [D] allows. *)
Inductive exec (D : gc314 → Z → event → Prop) : Z → gc314 → list (Z * event) → gc314 → Prop :=
  | exec_nil t s : exec D t s [] s
  | exec_cons t s t' e s1 l s2 :
      t ≤ t' → enabled t' e s = true → D s t' e → perform t' e s = Ok (tt, s1) →
      exec D t' s1 l s2 → exec D t s ((t', e) :: l) s2.

(** The state [main] sets up: the registers of all four channels are computed from
    the settings of channel A. *)
Definition chan0 (c : Z) : channel_params := mk_channel_params c 12000000 500 (d_of_int 10000) 10000 1.

Definition gc314_0 : gc314 :=
  let v := _set_GC4016_vals (math env) (chan0 0) in
  mk_gc314 (map chan0 [0; 1; 2; 3]) [0; 0; 0; 0] [0; 0; 0; 0] [0; 0; 0; 0]
    [FIFO_LVL; FIFO_LVL; FIFO_LVL; FIFO_LVL] [0; 0; 0; 0]
    [v_regs v; v_regs v; v_regs v; v_regs v] (put_coeffs 0 (v_resamp v) (replicate 256 0))
    [v_ratio v; 67108864; 67108864; 67108864] [0; 0] [None; None; None; None] Idle [] [].

End Driver.

(** ** What a helper does on its own *)

Definition by_helper (c : Z) (w : who) : bool :=
  match w with Helper c' => c' =? c | Main => false end.

(** Writes to the bridge and to the descriptors. *)
Definition dma_write (a : access) : bool :=
  match a with PWr _ _ => true | Wr reg _ => 8192 <=? reg | _ => false end.

Definition own_write (c : Z) (x : who * access) : bool := by_helper c x.1 && dma_write x.2.

(** The DMA writes of the helper of channel [c], in order. *)
Definition own (c : Z) (s : gc314) : list access := map snd (List.filter (own_write c) (io s)).

(** What the other threads may not change of a channel. *)
Record chan_view := mk_view {
  v_own : list access;
  v_helper : option helper;
  v_stat : option Z;
  v_samples : option Z;
  v_lvl : option Z
}.

Definition view (c : Z) (s : gc314) : chan_view :=
  mk_view (own c s) (helper_of s c) (zget (channel_stat s) c) (ch_samples <$> zget (chan s) c)
    (zget (fifo_lvl s) c).

(** [keeps f m]: [m] does not change [f] of the state. *)
Definition keeps {B A} (f : gc314 → B) (m : DM A) : Prop := ∀ s a s', m s = Ok (a, s') → f s' = f s.

Section Keeps.
Context {B : Type} (f : gc314 → B).

Lemma keeps_ret {A} (a : A) : keeps f (mret a).
Proof. intros s x s' [= _ ->]. done. Qed.

Lemma gc_keeps_bind {A C} (m : DM A) (k : A → DM C) : keeps f m → (∀ a, keeps f (k a)) → keeps f (m ≫= k).
Proof. intros Hm Hk s a s' H. apply bind_inv in H as (x & s1 & H1 & H2). rewrite (Hk _ _ _ _ H2). eauto. Qed.

Lemma keeps_gets {A} (g : gc314 → A) : keeps f (gets g).
Proof. intros s x s' [= _ ->]. done. Qed.

Lemma keeps_deref {A} e (o : option A) : keeps f (deref e o).
Proof. intros s x s'. unfold deref. destruct o; intros [=]. congruence. Qed.

Lemma keeps_fail {A} e : keeps f (fail e : DM A).
Proof. intros s x s' [=]. Qed.

Lemma gc_keeps_modify g : (∀ s, f (g s) = f s) → keeps f (modify g).
Proof. intros H s x s' [= _ <-]. apply H. Qed.

Lemma keeps_when b (m : DM unit) : keeps f m → keeps f (when b m).
Proof. destruct b; [done |]. intros _. apply keeps_ret. Qed.

Lemma keeps_int_op z : keeps f (int_op z).
Proof. intros s x s'. unfold int_op. case_bool_decide; intros [=]. congruence. Qed.

Lemma keeps_div a b : keeps f (int_div a b).
Proof. unfold int_div. case_match; [apply keeps_fail | apply keeps_int_op]. Qed.

Lemma keeps_rem a b : keeps f (int_rem a b).
Proof. unfold int_rem. case_match; [apply keeps_fail | apply keeps_int_op]. Qed.

Lemma keeps_each {I} (l : list I) (body : I → DM unit) : (∀ x, keeps f (body x)) → keeps f (for_each l body).
Proof. intros H. induction l as [| x l IH]; cbn; [apply keeps_ret |]. apply gc_keeps_bind; auto. Qed.

Lemma keeps_get {A} (g : gc314 → list A) c : keeps f (get_at g c).
Proof. apply gc_keeps_bind; [apply keeps_gets |]. intros. apply keeps_deref. Qed.

Lemma keeps_set {A} (g : gc314 → list A) upd c v : (∀ s l, f (upd l s) = f s) → keeps f (set_at g upd c v).
Proof.
  intros H. unfold set_at. repeat (apply gc_keeps_bind; [apply keeps_gets || apply keeps_deref | intros ?]).
  apply gc_keeps_modify. auto.
Qed.
End Keeps.

(** Proves [keeps] by the structure of the computation; what is left is about
    single updates. *)
Create HintDb gcview.

Ltac keep_step :=
  lazymatch goal with
  | |- ∀ _, _ => intros ?
  | |- keeps _ (mret _) => apply keeps_ret
  | |- keeps _ (fail _) => apply keeps_fail
  | |- keeps _ (gets _) => apply keeps_gets
  | |- keeps _ (deref _ _) => apply keeps_deref
  | |- keeps _ (int_op _) => apply keeps_int_op
  | |- keeps _ (int_div _ _) => apply keeps_div
  | |- keeps _ (int_rem _ _) => apply keeps_rem
  | |- keeps _ (get_at _ _) => apply keeps_get
  | |- keeps _ (when _ _) => apply keeps_when
  | |- keeps _ (per_channel _ _) => apply keeps_when
  | |- keeps _ (for_each _ _) => apply keeps_each
  | |- keeps _ (_ ≫= _) => apply gc_keeps_bind
  | |- keeps _ (set_at _ _ _ _) => apply keeps_set; intros; reflexivity
  | |- keeps _ (set_on_off _ _) => apply keeps_set; intros; reflexivity
  | |- keeps _ (set_waiting _ _) => apply keeps_set; intros; reflexivity
  | |- keeps _ (set_skip _ _) => apply keeps_set; intros; reflexivity
  | |- keeps _ (set_chan _ _) => apply keeps_set; intros; reflexivity
  | |- keeps _ (set_stat _ _) => apply keeps_set; intros; reflexivity
  | |- keeps _ (set_fifo_lvl _ _) => apply keeps_set; intros; reflexivity
  | |- keeps _ (set_helper _ _) => apply keeps_set; intros; reflexivity
  | |- keeps _ (go_helper _ _ _) => apply keeps_set; intros; reflexivity
  | |- keeps _ (create _) => apply keeps_set; intros; reflexivity
  | |- keeps _ (modify _) => apply gc_keeps_modify; intros; reflexivity
  | |- keeps _ (log _ _) => apply gc_keeps_modify; intros; reflexivity
  | |- keeps _ (answer _) => unfold answer
  | |- keeps _ (rd32 _ _ _) => unfold rd32
  | |- keeps _ (wr32 _ _ _) => unfold wr32
  | |- keeps _ (or32 _ _ _ _) => unfold or32
  | |- keeps _ (and32 _ _ _ _) => unfold and32
  | |- keeps _ (write _ _) => unfold write
  | |- keeps _ (upd_chan _ _) => unfold upd_chan
  | |- keeps _ (set_samples _ _) => unfold set_samples
  | |- keeps _ (update_channel _ _) => unfold update_channel
  | |- keeps _ (respond _) => unfold respond
  | |- keeps _ (if ?b then _ else _) => destruct b
  | |- keeps _ (match ?x with _ => _ end) => destruct x
  | |- keeps _ (let _ := _ in _) => cbv zeta
  end.

Ltac keep := repeat first [ solve [auto 3 with gcview] | keep_step ].

(** A command and a step of a helper leave the main thread where it is. *)
Lemma handler_command env x : keeps handler (command env x).
Proof. destruct x; cbn [command]; keep. Qed.

Lemma handler_step env c t : keeps handler (wait_for_channel env c t).
Proof. unfold wait_for_channel, leave_wait, transferred. keep. Qed.

Lemma handler_rest : keeps handler start_rest.
Proof. unfold start_rest. keep. Qed.

(** A list updated at another index. *)
Lemma set_at_inv {A} (g : gc314 → list A) upd c v s s' :
  set_at g upd c v s = Ok (tt, s') → ∃ l, zset (g s) c v = Some l ∧ s' = upd l s.
Proof.
  unfold set_at. intros H. apply bind_inv in H as (l0 & s0 & [= <- <-] & H).
  apply bind_inv in H as (l & s1 & H1 & H2). unfold deref in H1.
  destruct (zset (g s) c v) as [l1 |] eqn:E; [| discriminate].
  injection H1 as <- <-. unfold modify in H2. injection H2 as <-. eauto.
Qed.

Lemma get_at_inv {A} (g : gc314 → list A) c s x s' :
  get_at g c s = Ok (x, s') → s' = s ∧ zget (g s) c = Some x.
Proof.
  unfold get_at. intros H. apply bind_inv in H as (l & s1 & [= <- <-] & H). unfold deref in H.
  destruct (zget (g s) c); [injection H as -> ->; done | discriminate].
Qed.

Lemma log_inv w a s u s' : log w a s = Ok (u, s') → s' = s <| io := (io s ++ [(w, a)])%list |>.
Proof. unfold log, modify. intros [= <- <-]. reflexivity. Qed.

Lemma own_app c s l : own c (s <| io := (io s ++ l)%list |>) =
  (own c s ++ map snd (List.filter (own_write c) l))%list.
Proof. unfold own. cbn. rewrite List.filter_app, map_app. reflexivity. Qed.

Section Views.
Context (env : gc314_env) (c : Z).

Lemma view_log w a : own_write c (w, a) = false → keeps (view c) (log w a).
Proof.
  intros Hw s u s' ->%log_inv. unfold view. rewrite own_app. cbn [List.filter]. rewrite Hw.
  cbn. rewrite app_nil_r. reflexivity.
Qed.

Lemma view_answer : keeps (view c) (answer env).
Proof. unfold answer. keep. Qed.

(** Reads and the writes of registers below the descriptors. *)
Lemma view_rd32 w reg : keeps (view c) (rd32 env w reg).
Proof.
  apply gc_keeps_bind; [| intros; apply view_answer].
  apply view_log. unfold own_write. cbn. apply andb_false_r.
Qed.

Lemma view_wr32 reg v : keeps (view c) (wr32 Main reg v).
Proof. apply view_log. reflexivity. Qed.

Lemma view_or32 w reg m : reg < 8192 → keeps (view c) (or32 env w reg m).
Proof.
  intros Hr. apply gc_keeps_bind; [apply view_rd32 | intros v]. apply view_log. unfold own_write. cbn.
  rewrite (proj2 (Z.leb_gt _ _)) by lia. apply andb_false_r.
Qed.

Lemma view_write w : keeps (view c) (write env w).
Proof.
  destruct w; cbn [write]; try apply view_wr32.
  all: apply gc_keeps_bind; [apply view_rd32 | intros; apply view_wr32].
Qed.

#[local] Hint Resolve view_answer view_rd32 view_wr32 view_or32 view_write : gcview.

(** An update of another channel. *)
Lemma view_set {A} (g : gc314 → list A) upd c' v :
  (∀ s l, zget l c = zget (g s) c → view c (upd l s) = view c s) → c ≠ c' → keeps (view c) (set_at g upd c' v).
Proof.
  intros H Hne s u s' Hs. destruct u. apply set_at_inv in Hs as (l & Hl & ->). apply H.
  apply (zget_zset_ne _ _ _ _ _ Hl). done.
Qed.

Lemma view_set_stat c' v : c ≠ c' → keeps (view c) (set_stat c' v).
Proof. apply view_set. intros s l H. unfold view. cbn. rewrite H. reflexivity. Qed.

Lemma view_set_fifo_lvl c' v : c ≠ c' → keeps (view c) (set_fifo_lvl c' v).
Proof. apply view_set. intros s l H. unfold view. cbn. rewrite H. reflexivity. Qed.

Lemma view_set_helper c' v : c ≠ c' → keeps (view c) (set_helper c' v).
Proof. apply view_set. intros s l H. unfold view, helper_of. cbn. rewrite H. reflexivity. Qed.

Lemma view_set_chan c' v : c ≠ c' → keeps (view c) (set_chan c' v).
Proof. apply view_set. intros s l H. unfold view. cbn. rewrite H. reflexivity. Qed.

#[local] Hint Resolve view_set_stat view_set_fifo_lvl view_set_helper view_set_chan : gcview.

(** A change of another parameter of a channel. *)
Lemma view_upd_chan c' f : (∀ p, ch_samples (f p) = ch_samples p) → keeps (view c) (upd_chan c' f).
Proof.
  intros Hf. apply keeps_when. intros s u s' H. apply bind_inv in H as (p & s1 & Hp & H).
  apply get_at_inv in Hp as [-> Hp]. destruct u. apply set_at_inv in H as (l & Hl & ->).
  unfold view. cbn. destruct (decide (c = c')) as [<- | Hne].
  - rewrite (zget_zset_eq _ _ _ _ Hl), Hp. cbn. rewrite Hf. reflexivity.
  - rewrite (zget_zset_ne _ _ _ _ _ Hl) by done. reflexivity.
Qed.

Lemma view_set_samples c' n : c ≠ c' → keeps (view c) (set_samples c' n).
Proof.
  intros Hne. apply keeps_when. keep.
Qed.

Lemma view_update_channel c' : keeps (view c) (update_channel env c').
Proof. apply keeps_when. cbv zeta. keep. Qed.
#[local] Hint Resolve view_upd_chan view_set_samples view_update_channel : gcview.

(** The stop of an acquisition. *)
Lemma view_stops c' : keeps (view c) (per_channel c' (set_on_off c' 0;; for_each chips (fun k => or32 env Main (CSR k c') 4))).
Proof.
  intros s u s'. unfold per_channel. destruct (_ && _) eqn:E; [| intros [= _ ->]; done].
  apply andb_prop in E as [E1 E2]. revert s u s'. cbn [when].
  apply gc_keeps_bind; [keep |]. intros _. unfold chips. cbn [for_each].
  repeat (apply gc_keeps_bind; [apply view_or32; unfold CSR, rda; lia | intros _]). apply keeps_ret.
Qed.

Lemma view_and32 w reg m : reg < 8192 → keeps (view c) (and32 env w reg m).
Proof.
  intros Hr. apply gc_keeps_bind; [apply view_rd32 | intros v]. apply view_log. unfold own_write. cbn.
  rewrite (proj2 (Z.leb_gt _ _)) by lia. apply andb_false_r.
Qed.

Lemma GCSR_low : GC314FS_GCSR < 8192.
Proof. unfold GC314FS_GCSR. lia. Qed.

Lemma GSM_low : GC314FS_GSM < 8192.
Proof. unfold GC314FS_GSM. lia. Qed.

#[local] Hint Resolve view_stops view_and32 GCSR_low GSM_low : gcview.

Lemma view_command x : (∀ k n, x ≠ SetSamples k n c) → keeps (view c) (command env x).
Proof.
  intros Hx. destruct x; cbn [command];
    lazymatch goal with
    | |- keeps _ (set_samples _ _) => apply view_set_samples; intros ->; exact (Hx _ _ eq_refl)
    | _ => keep
    end.
Qed.
#[local] Hint Resolve view_command : gcview.

Lemma view_create c' : c ≠ c' → keeps (view c) (create c').
Proof. apply view_set_helper. Qed.

(** A request that neither sets the samples of the channel nor starts helpers. *)
Definition leaves_channel (q : request) : bool :=
  match q with
  | Cmd (StartCollection _) => false
  | Cmd (SetSamples _ _ c') => negb (c' =? c)
  | _ => true
  end.

Lemma view_devctl q : leaves_channel q = true → keeps (view c) (io_devctl env q).
Proof.
  intros Hq. destruct q as [x | ch chip |]; cbn [io_devctl]; [| unfold respond; keep ..].
  destruct x; cbn [leaves_channel] in Hq; try discriminate Hq; unfold go, respond; keep.
  all: apply view_command; intros; try discriminate.
  intros [= -> -> ->]. rewrite Z.eqb_refl in Hq. discriminate.
Qed.

Lemma view_go_helper c' h p : c ≠ c' → keeps (view c) (go_helper c' h p).
Proof. apply view_set_helper. Qed.

Lemma view_log_other c' a : c ≠ c' → keeps (view c) (log (Helper c') a).
Proof.
  intros H. apply view_log. unfold own_write. cbn. rewrite (proj2 (Z.eqb_neq c' c)) by done. reflexivity.
Qed.

Lemma view_or32_other c' reg m : c ≠ c' → keeps (view c) (or32 env (Helper c') reg m).
Proof. intros H. apply gc_keeps_bind; [apply view_rd32 |]. intros v. apply view_log_other. done. Qed.

#[local] Hint Resolve view_go_helper view_log_other view_or32_other : gcview.

(** A step of another helper. *)
Lemma view_step c' t : c ≠ c' → keeps (view c) (wait_for_channel env c' t).
Proof. intros H. unfold wait_for_channel, leave_wait, transferred. keep. Qed.
End Views.

(** ** Reasoning about a channel through its view *)

(** From a state of which [f] is [v], [m] ends with a result and an [f] of [Q]. *)
Definition leads_view {V A} (f : gc314 → V) (v : V) (m : DM A) (Q : A → V → Prop) : Prop :=
  ∀ s a s', f s = v → m s = Ok (a, s') → Q a (f s').

Lemma lv_bind {V A B} (f : gc314 → V) v (m : DM A) (k : A → DM B) R Q :
  leads_view f v m R → (∀ a v', R a v' → leads_view f v' (k a) Q) → leads_view f v (m ≫= k) Q.
Proof.
  intros Hm Hk s b s' Hv H. apply bind_inv in H as (a & s1 & H1 & H2).
  exact (Hk a (f s1) (Hm s a s1 Hv H1) s1 b s' eq_refl H2).
Qed.

Lemma lv_keeps {V A B} (f : gc314 → V) v (m : DM A) (k : A → DM B) Q :
  keeps f m → (∀ a, leads_view f v (k a) Q) → leads_view f v (m ≫= k) Q.
Proof.
  intros Hm Hk. apply (lv_bind f v m k (fun _ v' => v' = v)).
  - intros s a s' Hv H. rewrite (Hm s a s' H). done.
  - intros a v' ->. apply Hk.
Qed.

Lemma lv_int_op {V B} (f : gc314 → V) v z (k : Z → DM B) Q :
  leads_view f v (k z) Q → leads_view f v (int_op z ≫= k) Q.
Proof.
  intros Hk. apply (lv_bind f v _ k (fun a v' => a = z ∧ v' = v)).
  - intros s a s' Hv. unfold int_op. case_bool_decide; intros [= <- <-]. done.
  - intros a v' [-> ->]. done.
Qed.

Section Triples.
Context (c : Z).

Lemma lv_get {A B} v (g : gc314 → list A) (k : A → DM B) x Q :
  (∀ s, view c s = v → zget (g s) c = Some x ∨ zget (g s) c = None) →
  leads_view (view c) v (k x) Q → leads_view (view c) v (get_at g c ≫= k) Q.
Proof.
  intros Hg Hk. apply (lv_bind (view c) v _ k (fun a v' => a = x ∧ v' = v)).
  - intros s a s' Hv [-> Ha]%get_at_inv. destruct (Hg s Hv); split; congruence.
  - intros a v' [-> ->]. done.
Qed.

Lemma lv_lvl {B} v (k : Z → DM B) lvl Q :
  v_lvl v = Some lvl → leads_view (view c) v (k lvl) Q → leads_view (view c) v (get_at fifo_lvl c ≫= k) Q.
Proof. intros Hl. apply lv_get. intros s <-. left. done. Qed.

Definition with_stat (v : chan_view) (st : Z) : chan_view :=
  mk_view (v_own v) (v_helper v) (Some st) (v_samples v) (v_lvl v).
Definition with_helper (v : chan_view) (o : option helper) : chan_view :=
  mk_view (v_own v) o (v_stat v) (v_samples v) (v_lvl v).
Definition with_own (v : chan_view) (l : list access) : chan_view :=
  mk_view (v_own v ++ l)%list (v_helper v) (v_stat v) (v_samples v) (v_lvl v).

Lemma lv_set_stat {B} v st (k : unit → DM B) Q :
  leads_view (view c) (with_stat v st) (k tt) Q → leads_view (view c) v (set_stat c st ≫= k) Q.
Proof.
  intros Hk. apply (lv_bind (view c) v _ k (fun _ v' => v' = with_stat v st)).
  - intros s [] s' <- (l & Hl & ->)%set_at_inv. unfold view, with_stat. cbn.
    rewrite (zget_zset_eq _ _ _ _ Hl). reflexivity.
  - intros [] v' ->. done.
Qed.

Lemma lv_go v h p (Q : unit → chan_view → Prop) :
  Q tt (with_helper v (Some (h <| ph := p |>))) → leads_view (view c) v (go_helper c h p) Q.
Proof.
  intros HQ s [] s' <- (l & Hl & ->)%set_at_inv. unfold view, with_helper, helper_of in *. cbn in *.
  rewrite (zget_zset_eq _ _ _ _ Hl). exact HQ.
Qed.

Lemma lv_log {B} v a (k : unit → DM B) Q : dma_write a = true →
  leads_view (view c) (with_own v [a]) (k tt) Q → leads_view (view c) v (log (Helper c) a ≫= k) Q.
Proof.
  intros Ha Hk. apply (lv_bind (view c) v _ k (fun _ v' => v' = with_own v [a])).
  - intros s [] s' <- ->%log_inv. unfold view, with_own. rewrite own_app. cbn [List.filter].
    unfold own_write. cbn [fst snd by_helper]. rewrite Z.eqb_refl, Ha. reflexivity.
  - intros [] v' ->. done.
Qed.

End Triples.

(** ** The transfers of a collection *)

(** The blocks of [n] samples moved at once: [lvl] samples each, and the rest. *)
Definition blocks (n lvl : Z) : list (Z * Z) :=
  map (fun k => (k * lvl, lvl)) (seqZ 0 (n / lvl)) ++
  (if 0 <? n mod lvl then [(n - n mod lvl, n mod lvl)] else []).

Lemma blocks_length n lvl : 0 < lvl → 0 ≤ n →
  zlen (blocks n lvl) = n / lvl + (if 0 <? n mod lvl then 1 else 0).
Proof.
  intros Hl Hn. unfold blocks, zlen. rewrite length_app, length_map, length_seqZ.
  pose proof (Z.div_pos n lvl Hn Hl). destruct (0 <? n mod lvl); cbn [length]; lia.
Qed.

Lemma blocks_at n lvl k : 0 < lvl → 0 ≤ n → 0 ≤ k < zlen (blocks n lvl) →
  zget (blocks n lvl) k = Some (k * lvl, if k <? n / lvl then lvl else n mod lvl).
Proof.
  intros Hl Hn Hk. rewrite blocks_length in Hk by done.
  pose proof (Z.div_pos n lvl Hn Hl) as Hd. unfold blocks, zget. rewrite decide_True by lia.
  destruct (Z.ltb_spec k (n / lvl)) as [H | H].
  - rewrite lookup_app_l by (rewrite length_map, length_seqZ; lia).
    rewrite list_lookup_fmap, lookup_seqZ_lt by lia. cbn. repeat f_equal; lia.
  - destruct (Z.ltb_spec 0 (n mod lvl)) as [Hr | Hr]; [| lia].
    rewrite lookup_app_r by (rewrite length_map, length_seqZ; lia).
    rewrite length_map, length_seqZ. replace (Z.to_nat k - Z.to_nat (n / lvl))%nat with 0%nat by lia.
    cbn. pose proof (Z.div_mod n lvl ltac:(lia)). replace k with (n / lvl) by lia. f_equal. f_equal. lia.
Qed.

(** The blocks are the samples, in order. *)
Lemma blocks_cover n lvl : 0 < lvl → 0 ≤ n →
  flat_map (fun b => seqZ b.1 b.2) (blocks n lvl) = seqZ 0 n.
Proof.
  intros Hl Hn. pose proof (Z.div_pos n lvl Hn Hl) as Hd. pose proof (Z.div_mod n lvl ltac:(lia)) as Hdm.
  pose proof (Z.mod_pos_bound n lvl Hl) as Hm.
  assert (Hfull : ∀ k : nat, flat_map (fun b => seqZ b.1 b.2) (map (fun k => (k * lvl, lvl)) (seqZ 0 (Z.of_nat k))) =
                    seqZ 0 (Z.of_nat k * lvl)).
  { induction k as [| k IH]; [reflexivity |].
    replace (Z.of_nat (S k)) with (Z.of_nat k + 1) by lia.
    rewrite seqZ_app by lia. rewrite map_app, flat_map_app, IH.
    replace ((Z.of_nat k + 1) * lvl) with (Z.of_nat k * lvl + lvl) by lia.
    rewrite seqZ_app by lia. f_equal. rewrite seqZ_cons' by lia. change (1 - 1) with 0.
    cbn [seqZ map flat_map fst snd]. change (seqZ ?x 0) with (@nil Z). cbn [map flat_map].
    rewrite app_nil_r. reflexivity. }
  unfold blocks. rewrite flat_map_app. replace (n / lvl) with (Z.of_nat (Z.to_nat (n / lvl))) by lia.
  rewrite Hfull. rewrite Z2Nat.id by done.
  transitivity (seqZ 0 (n / lvl * lvl + n mod lvl)); [| f_equal; lia]. rewrite seqZ_app by lia. f_equal.
  destruct (Z.ltb_spec 0 (n mod lvl)); cbn.
  - rewrite app_nil_r. f_equal. lia.
  - replace (n mod lvl) with 0 by lia. reflexivity.
Qed.

#[local] Arguments transfer_program : simpl never.

Section Collection.
Context (env : gc314_env) (c n lvl : Z).
Context (Hc : c < 4) (Hn : 0 ≤ n) (Hlvl : 0 < lvl).

(** The writes that program the transfers of some blocks. *)
Definition programs (l : list (Z * Z)) : list access :=
  flat_map (fun b => transfer_program env c b.1 b.2) l.

(** The writes that give up a transfer. *)
Definition abandon : list access :=
  [PWr (PLX9656_DMACSR get_available_DMA_channel) 0; PWr (PLX9656_DMACSR get_available_DMA_channel) 4].

Definition first_blocks (k : Z) : list (Z * Z) := take (Z.to_nat k) (blocks n lvl).

(** How a collection that wrote [w] may end with status [st]: every block was
    moved, or only the first ones. *)
Definition collected (w : list access) (st : option Z) : Prop :=
  (st = Some 0 ∧ w = programs (blocks n lvl)) ∨
  (st = Some (-1) ∧ ∃ k, 0 ≤ k ≤ zlen (blocks n lvl) ∧
     (w = programs (first_blocks k) ∨ w = (programs (first_blocks k) ++ abandon)%list)).

(** The counters of the loop. *)
Definition counted (h : helper) : Prop :=
  h_loops h = n / lvl ∧ h_remaining h = n mod lvl ∧ 0 ≤ h_i h ∧
  (h_i h ≤ n / lvl → h_scount h = h_i h * lvl).

(** What a helper has written, by where it is. *)
Definition progress (w : list access) (h : helper) (st : option Z) : Prop :=
  match ph h with
  | Begin => w = []
  | EnterLevel => counted h ∧ h_i h < n / lvl ∧ w = programs (first_blocks (h_i h))
  | AwaitLevel _ _ e =>
      counted h ∧ h_i h < n / lvl ∧ w = programs (first_blocks (h_i h)) ∧ (e = 0 ∨ e = -1)
  | EnterFrame | AwaitFrame _ _ =>
      counted h ∧ h_i h = n / lvl ∧ 0 < n mod lvl ∧ w = programs (first_blocks (h_i h))
  | EnterTransfer => counted h ∧ h_i h < zlen (blocks n lvl) ∧ w = programs (first_blocks (h_i h))
  | Program _ todo =>
      counted h ∧ h_i h < zlen (blocks n lvl) ∧ (∃ b d, zget (blocks n lvl) (h_i h) = Some b ∧
        transfer_program env c b.1 b.2 = (d ++ todo)%list ∧ w = (programs (first_blocks (h_i h)) ++ d)%list)
  | AwaitDone _ _ => counted h ∧ h_i h < zlen (blocks n lvl) ∧ w = programs (first_blocks (h_i h + 1))
  | Abandon todo =>
      counted h ∧ h_i h < zlen (blocks n lvl) ∧ ∃ d,
        abandon = (d ++ todo)%list ∧ w = (programs (first_blocks (h_i h + 1)) ++ d)%list
  | Finish todo => collected w st ∧ Forall (fun reg => reg < 8192) todo
  | Exited => collected w st
  end.

(** The view of a collection that began when the helper had written [base]. *)
Definition collecting (base : list access) (v : chan_view) : Prop :=
  v_samples v = Some n ∧ v_lvl v = Some lvl ∧ ∃ w, v_own v = (base ++ w)%list ∧
  match v_helper v with
  | Some h => progress w h (v_stat v)
  | None => collected w (v_stat v)
  end.

Lemma first_blocks_S k b : zget (blocks n lvl) k = Some b →
  first_blocks (k + 1) = (first_blocks k ++ [b])%list.
Proof.
  unfold zget, first_blocks. intros Hb. case_decide; [| discriminate].
  replace (Z.to_nat (k + 1)) with (S (Z.to_nat k)) by lia. apply take_S_r. done.
Qed.

Lemma programs_S k b : zget (blocks n lvl) k = Some b →
  programs (first_blocks (k + 1)) = (programs (first_blocks k) ++ transfer_program env c b.1 b.2)%list.
Proof.
  intros Hb. unfold programs. rewrite (first_blocks_S k b Hb), flat_map_app. cbn [flat_map].
  rewrite app_nil_r. reflexivity.
Qed.

Lemma first_blocks_all k : zlen (blocks n lvl) ≤ k → first_blocks k = blocks n lvl.
Proof. intros. apply take_ge. unfold zlen in *. lia. Qed.

(** Where the helper goes after [h_i h] transfers. *)
Lemma stop_registers_low : Forall (fun reg => reg < 8192) (stop_registers c).
Proof. unfold stop_registers, CSR, rda. repeat apply Forall_cons_2; try apply Forall_nil_2; lia. Qed.

Lemma progress_next w h st : counted h → h_i h ≤ zlen (blocks n lvl) → st = Some 0 →
  w = programs (first_blocks (h_i h)) → progress w (h <| ph := next_phase c h |>) st.
Proof.
  intros Hct Hi Hst Hw. pose proof Hct as (Hl & Hr & H0 & Hs).
  pose proof (blocks_length n lvl Hlvl Hn) as Hlen. unfold next_phase. rewrite Hl, Hr.
  destruct (Z.ltb_spec (h_i h) (n / lvl)) as [H | H].
  - unfold progress. cbn. auto.
  - destruct (Z.eqb_spec (h_i h) (n / lvl)) as [He | He], (Z.ltb_spec 0 (n mod lvl)) as [Hm | Hm];
      cbn [andb]; unfold progress; cbn; try (split_and!; done).
    all: split; [left; split; [done |]; rewrite Hw; f_equal; apply first_blocks_all; lia | apply stop_registers_low].
Qed.

Lemma progress_begin v base h st : v_samples v = Some n → v_lvl v = Some lvl →
  v_own v = base → v_helper v = Some h → ph h = Begin → v_stat v = st → collecting base v.
Proof.
  intros Hs Hl Ho Hh Hp Hst. split_and!; [done | done |]. exists []. rewrite app_nil_r. split; [done |].
  rewrite Hh. unfold progress. rewrite Hp. done.
Qed.

Abbreviation inv base := (fun (_ : unit) v => collecting base v).

(** The end of a wait. *)
Lemma leave_wait_collecting base v w h st : v_samples v = Some n → v_lvl v = Some lvl →
  v_own v = (base ++ w)%list → counted h → h_i h < zlen (blocks n lvl) →
  w = programs (first_blocks (h_i h)) → st = 0 ∨ st = -1 →
  leads_view (view c) v (leave_wait c h st) (inv base).
Proof.
  intros Hs Hl Ho Hct Hi Hw Hst. unfold leave_wait. apply lv_set_stat, lv_go.
  split_and!; [exact Hs | exact Hl |]. exists w. split; [exact Ho |]. cbn. destruct Hst as [-> | ->]; cbn.
  - split_and!; done.
  - split; [| apply stop_registers_low].
    right. split; [done |]. exists (h_i h). destruct Hct as (_ & _ & ? & _). split; [lia |]. left. done.
Qed.

(** The end of a transfer. *)
Lemma transferred_collecting base v w h st : v_samples v = Some n → v_lvl v = Some lvl →
  v_own v = (base ++ w)%list → counted h → h_i h < zlen (blocks n lvl) →
  (st = 0 ∧ w = programs (first_blocks (h_i h + 1)) ∨
   st = -1 ∧ w = (programs (first_blocks (h_i h + 1)) ++ abandon)%list) →
  leads_view (view c) v (transferred c h st) (inv base).
Proof.
  intros Hs Hl Ho Hct Hi Hst. pose proof Hct as (Hll & Hr & H0 & Hsc). unfold transferred.
  apply lv_set_stat, lv_keeps; [keep |]. intros _.
  apply (lv_bind (view c) _ _ _ (fun a v' => v' = with_stat v st ∧ (h_i h < n / lvl → a = lvl))).
  { rewrite Hll. destruct (Z.ltb_spec (h_i h) (n / lvl)).
    - intros s a s' Hv [-> Ha]%get_at_inv. split; [done |]. intros _.
      assert (Hv' : v_lvl (view c s) = Some lvl) by (rewrite Hv; exact Hl). cbn in Hv'. congruence.
    - intros s a s' Hv Ha. unfold mret, m_ret in Ha. injection Ha as <- <-. split; [done | lia]. }
  intros size v' [-> Hsize]. apply lv_int_op.
  set (h' := (h <| h_i ::= Z.succ |>) <| h_scount := h_scount h + size |>).
  assert (Hct' : counted h').
  { split_and!; cbn; done || lia. }
  cbv zeta. apply lv_go. split_and!; [exact Hs | exact Hl |]. exists w. split; [exact Ho |]. cbn.
  destruct Hst as [[-> Hw] | [-> Hw]]; cbn.
  - apply progress_next; [exact Hct' | cbn; lia | done |]. rewrite Hw. reflexivity.
  - split; [| apply stop_registers_low]. right. split; [done |]. exists (h_i h + 1). split; [lia |]. right. done.
Qed.

Lemma go_collecting base v w h p : v_samples v = Some n → v_lvl v = Some lvl →
  v_own v = (base ++ w)%list → progress w (h <| ph := p |>) (v_stat v) →
  leads_view (view c) v (go_helper c h p) (inv base).
Proof. intros Hs Hl Ho Hp. apply lv_go. split_and!; [done | done |]. exists w. done. Qed.

Lemma begin_collecting base v (h : helper) : v_samples v = Some n → v_lvl v = Some lvl →
  v_own v = (base ++ [])%list →
  leads_view (view c) v (
    set_stat c 0;;
    p ← get_at chan c; lvl ← get_at fifo_lvl c;
    loops ← int_div (ch_samples p) lvl;
    remaining ← int_rem (ch_samples p) lvl;
    let h := mk_helper Begin 0 loops remaining 0 in
    go_helper c h (next_phase c h)) (inv base).
Proof.
  intros Hs Hl Ho. apply lv_set_stat.
  apply (lv_bind (view c) _ _ _ (fun p v' => ch_samples p = n ∧ v' = with_stat v 0)).
  { intros s p s' Hv [-> Hp]%get_at_inv. split; [| done].
    assert (H : v_samples (view c s) = Some n) by (rewrite Hv; exact Hs). cbn in H.
    rewrite Hp in H. injection H as <-. done. }
  intros p v' [-> ->]. apply (lv_lvl c _ _ lvl); [exact Hl |].
  unfold int_div, int_rem. rewrite (proj2 (Z.eqb_neq lvl 0)) by lia. apply lv_int_op, lv_int_op.
  rewrite (Z.quot_div_nonneg n lvl Hn Hlvl), (Z.rem_mod_nonneg n lvl Hn Hlvl).
  pose proof (Z.div_pos n lvl Hn Hlvl).
  apply (go_collecting base _ []); [exact Hs | exact Hl | exact Ho |]. cbn [v_stat with_stat].
  apply progress_next; [split_and!; cbn; done || lia | apply zlen_nonneg | done | reflexivity].
Qed.

Lemma level_collecting base v w h start wake e t : v_samples v = Some n → v_lvl v = Some lvl →
  v_own v = (base ++ w)%list → ph h = AwaitLevel start wake e → progress w h (v_stat v) →
  leads_view (view c) v (
    status ← rd32 env (Helper c) (CSR 0 c);
    let st := if bits_set status 524288 then -1 else e in
    if bits_set status 131072 then leave_wait c h st
    else if DMA_NSEC_TIMEOUT <? elapsed start t then leave_wait c h (-1)
    else go_helper c h (AwaitLevel start (t + 50000) st)) (inv base).
Proof.
  intros Hs Hl Ho Eph Hp. unfold progress in Hp. rewrite Eph in Hp. destruct Hp as (Hct & Hi & Hw & He).
  pose proof (blocks_length n lvl Hlvl Hn) as Hlen.
  assert (Hb : h_i h < zlen (blocks n lvl)) by (rewrite Hlen; case_match; lia).
  apply lv_keeps; [apply view_rd32 |]. intros status. cbv zeta.
  set (st := if bits_set status 524288 then -1 else e).
  assert (Hst : st = 0 ∨ st = -1) by (subst st; destruct (bits_set status 524288); [right; reflexivity | exact He]).
  destruct (bits_set status 131072); [apply (leave_wait_collecting base v w); done |].
  destruct (DMA_NSEC_TIMEOUT <? elapsed start t); [apply (leave_wait_collecting base v w); first [done | right; done] |].
  apply (go_collecting base v w); [done | done | done |]. unfold progress. cbn. auto.
Qed.

Lemma frame_collecting base v w h start wake t : v_samples v = Some n → v_lvl v = Some lvl →
  v_own v = (base ++ w)%list → ph h = AwaitFrame start wake → progress w h (v_stat v) →
  leads_view (view c) v (
    r ← rd32 env (Helper c) (ID 0 c);
    let frame := if c =? 0 then i32 r else u16 r in
    if frame_count env <? frame then
      status ← rd32 env (Helper c) (CSR 0 0);
      leave_wait c h (if bits_set (u16 status) 524288 then -1 else 0)
    else if DMA_NSEC_TIMEOUT <? elapsed start t then
      rd32 env (Helper c) 268;; leave_wait c h (-1)
    else go_helper c h (AwaitFrame start (t + 50000))) (inv base).
Proof.
  intros Hs Hl Ho Eph Hp. unfold progress in Hp. rewrite Eph in Hp. destruct Hp as (Hct & Hi & Hm & Hw).
  pose proof (blocks_length n lvl Hlvl Hn) as Hlen.
  assert (Hb : h_i h < zlen (blocks n lvl)) by (rewrite Hlen, (proj2 (Z.ltb_lt _ _)) by done; lia).
  apply lv_keeps; [apply view_rd32 |]. intros r. cbv zeta.
  destruct (frame_count env <? (if c =? 0 then i32 r else u16 r)).
  - apply lv_keeps; [apply view_rd32 |]. intros status.
    apply (leave_wait_collecting base v w); try done. destruct (bits_set _ _); [right | left]; reflexivity.
  - destruct (DMA_NSEC_TIMEOUT <? elapsed start t).
    + apply lv_keeps; [apply view_rd32 |]. intros ?. apply (leave_wait_collecting base v w); first [done | right; done].
    + apply (go_collecting base v w); [done | done | done |]. unfold progress. cbn. auto.
Qed.

Lemma transfer_collecting base v w h t : v_samples v = Some n → v_lvl v = Some lvl →
  v_own v = (base ++ w)%list → ph h = EnterTransfer → progress w h (v_stat v) →
  leads_view (view c) v (
    int_op (4 * h_scount h);;
    size ← (if h_i h <? h_loops h then get_at fifo_lvl c else mret (h_remaining h));
    go_helper c h (Program t (transfer_program env c (h_scount h) size))) (inv base).
Proof.
  intros Hs Hl Ho Eph Hp. unfold progress in Hp. rewrite Eph in Hp. destruct Hp as (Hct & Hi & Hw).
  pose proof Hct as (Hll & Hr & H0 & Hsc). pose proof (blocks_length n lvl Hlvl Hn) as Hlen.
  pose proof (blocks_at n lvl (h_i h) Hlvl Hn ltac:(lia)) as Hb.
  assert (Hbound : h_i h ≤ n / lvl) by (destruct (0 <? n mod lvl); lia).
  apply lv_int_op.
  apply (lv_bind (view c) _ _ _ (fun size v' => size = (if h_i h <? n / lvl then lvl else n mod lvl) ∧ v' = v)).
  { rewrite Hll. destruct (h_i h <? n / lvl).
    - intros s a s' Hv [-> Ha]%get_at_inv. split; [| done].
      assert (H : v_lvl (view c s) = Some lvl) by (rewrite Hv; exact Hl). cbn in H. congruence.
    - intros s a s' Hv Ha. unfold mret, m_ret in Ha. injection Ha as <- <-. done. }
  intros size v' [-> ->]. rewrite Hsc by done.
  apply (go_collecting base v w); [done | done | done |]. unfold progress. cbn.
  split_and!; [exact Hct | done |]. eexists _, []. split_and!; [exact Hb | reflexivity |].
  rewrite app_nil_r. done.
Qed.

(** Every write a helper programs is one of the bridge or of a descriptor. *)
Lemma program_dma b : Forall (fun a => dma_write a = true) (transfer_program env c b.1 b.2).
Proof. repeat constructor. Qed.

Lemma program_collecting base v w h start todo t : v_samples v = Some n → v_lvl v = Some lvl →
  v_own v = (base ++ w)%list → ph h = Program start todo → progress w h (v_stat v) →
  leads_view (view c) v (
    match todo with
    | [] => go_helper c h (AwaitDone start t)
    | a :: todo => log (Helper c) a;; go_helper c h (Program start todo)
    end) (inv base).
Proof.
  intros Hs Hl Ho Eph Hp. unfold progress in Hp. rewrite Eph in Hp.
  destruct Hp as (Hct & Hi & b & d & Hb & Hd & Hw). destruct todo as [| a todo].
  - apply (go_collecting base v w); [done | done | done |]. unfold progress. cbn.
    rewrite app_nil_r in Hd. split_and!; [exact Hct | done |].
    rewrite (programs_S _ b Hb), Hd. done.
  - apply lv_log.
    { pose proof (program_dma b) as Hall. rewrite Hd, Forall_app, Forall_cons in Hall. tauto. }
    apply (go_collecting base _ (w ++ [a])); [done | done | cbn; rewrite Ho, app_assoc; done |].
    unfold progress. cbn. split_and!; [exact Hct | done |]. exists b, (d ++ [a])%list.
    split_and!; [done | rewrite Hd, <- app_assoc; done | rewrite Hw, <- app_assoc; done].
Qed.

Lemma done_collecting base v w h start wake t : v_samples v = Some n → v_lvl v = Some lvl →
  v_own v = (base ++ w)%list → ph h = AwaitDone start wake → progress w h (v_stat v) →
  leads_view (view c) v (
    log (Helper c) (PRd (PLX9656_DMACSR get_available_DMA_channel));; r ← answer env;
    if bits_set (u8 r) 16 then transferred c h 0
    else if DMA_TIMEOUT <? t / 1000000000 - start / 1000000000 then
      go_helper c h (Abandon [PWr (PLX9656_DMACSR get_available_DMA_channel) 0;
                              PWr (PLX9656_DMACSR get_available_DMA_channel) 4])
    else go_helper c h (AwaitDone start (t + 1))) (inv base).
Proof.
  intros Hs Hl Ho Eph Hp. unfold progress in Hp. rewrite Eph in Hp. destruct Hp as (Hct & Hi & Hw).
  apply lv_keeps; [apply view_log; unfold own_write; cbn; apply andb_false_r |]. intros _.
  apply lv_keeps; [apply view_answer |]. intros r.
  destruct (bits_set (u8 r) 16); [apply (transferred_collecting base v w); first [done | left; done] |].
  destruct (DMA_TIMEOUT <? t / 1000000000 - start / 1000000000); apply (go_collecting base v w); try done; unfold progress; cbn.
  split_and!; [exact Hct | done |]. exists []. rewrite app_nil_r. done.
Qed.

Lemma abandon_collecting base v w h todo : v_samples v = Some n → v_lvl v = Some lvl →
  v_own v = (base ++ w)%list → ph h = Abandon todo → progress w h (v_stat v) →
  leads_view (view c) v (
    match todo with
    | [] => transferred c h (-1)
    | a :: todo => log (Helper c) a;; go_helper c h (Abandon todo)
    end) (inv base).
Proof.
  intros Hs Hl Ho Eph Hp. unfold progress in Hp. rewrite Eph in Hp.
  destruct Hp as (Hct & Hi & d & Hd & Hw). destruct todo as [| a todo].
  - apply (transferred_collecting base v w); try done. right. rewrite app_nil_r in Hd. rewrite <- Hd in Hw. done.
  - apply lv_log.
    { assert (Hall : Forall (fun a => dma_write a = true) abandon) by repeat constructor.
      rewrite Hd, Forall_app, Forall_cons in Hall. tauto. }
    apply (go_collecting base _ (w ++ [a])); [done | done | cbn; rewrite Ho, app_assoc; done |].
    unfold progress. cbn. split_and!; [exact Hct | done |]. exists (d ++ [a])%list.
    split_and!; [rewrite Hd, <- app_assoc; done | rewrite Hw, <- app_assoc; done].
Qed.

(** Every step of the helper. *)
Lemma step_collecting base v h t : v_helper v = Some h → collecting base v →
  leads_view (view c) v (wait_for_channel env c t) (inv base).
Proof.
  intros Hh (Hs & Hl & w & Ho & Hp). rewrite Hh in Hp.
  unfold wait_for_channel. apply (lv_get c v helpers _ (Some h)).
  { intros s Hv. assert (Hhs : helper_of s c = Some h) by (rewrite <- Hv in Hh; exact Hh).
    unfold helper_of in Hhs. destruct (zget (helpers s) c); [left; congruence | discriminate]. }
  apply (lv_bind (view c) _ _ _ (fun a v' => a = h ∧ v' = v)).
  { intros s a s' Hv Hd. injection Hd as -> ->. done. }
  intros h0 v' [-> ->]. pose proof Hp as Hp'. unfold progress in Hp'.
  destruct (ph h) as [| | start wake e | | start wake | | start todo | start wake | todo | todo |] eqn:Eph.
  - subst w. apply begin_collecting; done.
  - apply (go_collecting base v w); [done | done | done |]. unfold progress. cbn.
    destruct Hp' as (Hct & Hi & Hw). auto.
  - eapply level_collecting; done.
  - apply (go_collecting base v w); [done | done | done |]. exact Hp'.
  - eapply frame_collecting; done.
  - eapply transfer_collecting; done.
  - eapply program_collecting; done.
  - eapply done_collecting; done.
  - eapply abandon_collecting; done.
  - destruct Hp' as [Hcol Htodo]. destruct todo as [| r todo].
    + apply lv_keeps; [keep |]. intros _. apply (go_collecting base v w); done.
    + inversion_clear Htodo as [| ? ? Hr Htodo']. apply lv_keeps; [apply view_or32; done |].
      intros _. apply (go_collecting base v w); done.
  - intros s a s' Hv [= _ <-]. rewrite Hv. split_and!; [done | done |]. exists w. rewrite Hh. done.
Qed.

(** The events between two starts: nobody sets the samples of the channel or
    starts a collection.  What happens otherwise is [samples_changed_midway] and
    [samples_zero_faults]. *)
Definition undisturbed (s : gc314) (t : Z) (e : event) : Prop :=
  match e with Request q => leaves_channel c q = true | _ => True end.

(** What holds while the helper of the channel works and after it was joined. *)
Definition watched (base : list access) (s : gc314) : Prop :=
  collecting base (view c s) ∧ handler s ≠ JoinStart.

Lemma watched_request base q s s' : leaves_channel c q = true → watched base s →
  io_devctl env q s = Ok (tt, s') → watched base s'.
Proof.
  intros Hq [Hv Hh] H. split; [rewrite (view_devctl env c q Hq s tt s' H); exact Hv |].
  destruct q as [x | ch chip |]; cbn [io_devctl] in H.
  2,3: unfold respond, modify in H; injection H as <-; exact Hh.
  assert (Hcmd : ∀ y, (command env y;; respond Done) s = Ok (tt, s') → handler s' ≠ JoinStart).
  { intros y Hy. revert Hh. replace (handler s) with (handler s'); [done |].
    assert (Hk : keeps handler (command env y;; respond Done)); [| exact (Hk s tt s' Hy)].
    apply gc_keeps_bind; [apply handler_command | intros; keep]. }
  destruct x; cbn [leaves_channel] in Hq; try discriminate Hq; try (eapply Hcmd; exact H).
  apply bind_inv in H as ([] & s1 & _ & H). unfold go, modify in H. injection H as <-. discriminate.
Qed.
(** The join of a helper that ended, or of none. *)
Lemma joined base s : collecting base (view c s) →
  helper_of s c = None ∨ exited (helper_of s c) = true → collecting base (with_helper (view c s) None).
Proof.
  intros (Hs & Hl & w & Ho & Hp) Hj. split_and!; [done | done |]. exists w. split; [done |]. cbn in Hp |- *.
  destruct (helper_of s c) as [h |]; [| done]. destruct Hj as [Hj | Hj]; [discriminate |].
  unfold exited in Hj. unfold progress in Hp. destruct (ph h); try discriminate. exact Hp.
Qed.

Lemma lv_join {B} v c' (k : unit → DM B) Q :
  leads_view (view c) (if c' =? c then with_helper v None else v) (k tt) Q →
  leads_view (view c) v (set_helper c' None ≫= k) Q.
Proof.
  destruct (Z.eqb_spec c' c) as [-> | Hne]; intros Hk.
  - apply (lv_bind (view c) v _ k (fun _ v' => v' = with_helper v None)); [| intros [] v' ->; exact Hk].
    intros s [] s' <- (l & Hl & ->)%set_at_inv. unfold view, with_helper, helper_of. cbn.
    rewrite (zget_zset_eq _ _ _ _ Hl). reflexivity.
  - apply lv_keeps; [apply view_set_helper; congruence |]. intros []. exact Hk.
Qed.

Lemma resume_view t s s' : enabled t Resume s = true → handler s ≠ JoinStart → resume s = Ok (tt, s') →
  view c s' = view c s ∨
  view c s' = with_helper (view c s) None ∧ (helper_of s c = None ∨ exited (helper_of s c) = true).
Proof.
  intros He Hh H. unfold resume in H. apply bind_inv in H as (p & s1 & [= <- <-] & H).
  cbn [enabled] in He. destruct (handler s) as [| | c' ch]; [discriminate | done |].
  assert (Hleads : leads_view (view c) (view c s)
    (set_helper c' None;; set_waiting c' 0;; set_on_off c' 0;;
     if c' <? 3 then set_waiting (c' + 1) 1;; go (JoinWait (c' + 1) ch)
     else
       st ← (if (0 <=? ch) && (ch <? 4) then get_at channel_stat ch else mret (-10));
       go Idle;; respond (Status st))
    (fun _ v' => v' = (if c' =? c then with_helper (view c s) None else view c s))).
  { apply lv_join. apply lv_keeps; [keep |]. intros _. apply lv_keeps; [keep |]. intros _.
    assert (Hkeep : ∀ v (m : DM unit), keeps (view c) m → leads_view (view c) v m (fun _ v' => v' = v)).
    { intros v m Hm s0 x s0' Hs0 Hx. rewrite (Hm _ _ _ Hx). exact Hs0. }
    apply Hkeep. unfold go. keep. }
  pose proof (Hleads s tt s' eq_refl H) as Hv. destruct (Z.eqb_spec c' c) as [-> | _]; [right | left; exact Hv].
  split; [exact Hv |]. apply orb_prop in He as [He | He]; [left; exact (bool_decide_eq_true_1 _ He) | right; exact He].
Qed.

Lemma handler_resume s s' : resume s = Ok (tt, s') → handler s' ≠ JoinStart.
Proof.
  intros H. unfold resume in H. apply bind_inv in H as (p & s1 & [= <- <-] & H).
  destruct (handler s) as [| | c' ch] eqn:E.
  - injection H as <-. rewrite E. discriminate.
  - repeat (apply bind_inv in H as (? & ? & ? & H)). unfold go, respond, modify in *.
    repeat match goal with X : Ok _ = Ok _ |- _ => injection X as ?; subst end. discriminate.
  - apply bind_inv in H as (? & ? & _ & H). apply bind_inv in H as (? & ? & _ & H).
    apply bind_inv in H as (? & ? & _ & H). destruct (c' <? 3).
    + apply bind_inv in H as (? & ? & _ & H). unfold go, modify in H. injection H as <-. discriminate.
    + apply bind_inv in H as (? & ? & _ & H). apply bind_inv in H as (? & ? & Hgo & H).
      unfold go, respond, modify in *. injection H as <-. injection Hgo as _ <-. discriminate.
Qed.

Lemma watched_resume base t s s' : enabled t Resume s = true → watched base s →
  resume s = Ok (tt, s') → watched base s'.
Proof.
  intros He [Hv Hh] H. split; [| exact (handler_resume s s' H)].
  destruct (resume_view t s s' He Hh H) as [-> | [-> Hj]]; [exact Hv | apply joined; [exact Hv | exact Hj]].
Qed.

Lemma watched_step base t c' s s' : enabled t (Step c') s = true → watched base s →
  wait_for_channel env c' t s = Ok (tt, s') → watched base s'.
Proof.
  intros He [Hv Hh] H. split.
  - destruct (decide (c' = c)) as [-> | Hne].
    + cbn [enabled] in He. destruct (helper_of s c) as [h |] eqn:Eh; [| discriminate].
      exact (step_collecting base (view c s) h t Eh Hv s tt s' eq_refl H).
    + rewrite (view_step env c c' t (not_eq_sym Hne) s tt s' H). exact Hv.
  - rewrite (handler_step env c' t s tt s' H). exact Hh.
Qed.

Lemma watched_exec base t s l s' : exec env undisturbed t s l s' → watched base s → watched base s'.
Proof.
  induction 1 as [| t s t' e s1 l s2 Ht He HD Hp _ IH]; [done |]. intros Hw. apply IH.
  destruct e as [q | | c']; cbn [perform] in Hp.
  - exact (watched_request base q s s1 HD Hw Hp).
  - exact (watched_resume base t' s s1 He Hw Hp).
  - exact (watched_step base t' c' s s1 He Hw Hp).
Qed.
End Collection.

(** ** The DMA engine *)

(** What the bridge is told: the descriptors in the memory of the card, its
    registers, and the chains it was started on, each with the thread that
    started it.  A chain is the address of its first descriptor and the three
    descriptors. *)
Definition descriptor : Type := Z * Z * Z * Z.

Record bridge := mk_bridge {
  b_mem : Z → Z;
  b_reg : Z → Z;
  b_started : list (who * (Z * list descriptor))
}.

Definition upd (f : Z → Z) (a v : Z) : Z → Z := fun x => if x =? a then v else f x.

Definition descriptor_at (m : Z → Z) (at_ : Z) : descriptor :=
  (m (GC314FS_PCI_ADD_0 + at_), m (GC314FS_LOC_ADD_0 + at_), m (GC314FS_TRANS_0 + at_),
   m (GC314FS_POINT_0 + at_)).

Definition bridge_step (b : bridge) (x : who * access) : bridge :=
  match x.2 with
  | Wr reg v => mk_bridge (upd (b_mem b) reg v) (b_reg b) (b_started b)
  | PWr reg v =>
      let r := upd (b_reg b) reg v in
      mk_bridge (b_mem b) r
        (if (reg =? PLX9656_DMACSR 1) && (v =? 3)
         then b_started b ++ [(x.1, (r (PLX9656_DMADPR 1), map (descriptor_at (b_mem b)) [48; 64; 80]))]
         else b_started b)
  | _ => b
  end.

Definition run_bridge (l : list (who * access)) (b : bridge) : bridge := fold_left bridge_step l b.

Definition bridge0 : bridge := mk_bridge (fun _ => 0) (fun _ => 0) [].

(** The writes to the bridge and to the descriptors, by any thread. *)
Definition dma (s : gc314) : list (who * access) := List.filter (fun x => dma_write x.2) (io s).

(** The chains the helper of [c] started. *)
Definition started_by (c : Z) (l : list (who * access)) : list (Z * list descriptor) :=
  map snd (List.filter (fun x => by_helper c x.1) (b_started (run_bridge l bridge0))).

Section Chains.
Context (env : gc314_env) (c : Z).

(** The chain that moves a block of channel [c]. *)
Definition chain_of (b : Z * Z) : Z * list descriptor :=
  let addr chip := u32 (elem_at (physical_addr env) (3 * c + chip) + 4 * b.1) in
  (8248, [(addr 0, fifo_offset c, u32 (b.2 <<c 2), 8264);
          (addr 1, fifo_offset c + 65536, u32 (b.2 <<c 2), 8280);
          (addr 2, fifo_offset c + 131072, u32 (b.2 <<c 2), 8298)]).

Definition tag (l : list access) : list (who * access) := map (fun a => (Helper c, a)) l.

(** The writes of a transfer start the engine once, at their end, on its chain. *)
Lemma program_starts b br : ∃ d last, transfer_program env c b.1 b.2 = (d ++ [last])%list ∧
  b_started (run_bridge (tag d) br) = b_started br ∧
  b_started (run_bridge (tag (d ++ [last])) br) = (b_started br ++ [(Helper c, chain_of b)])%list.
Proof.
  destruct b as [o z]. unfold transfer_program, chain_of. cbv zeta. cbn [fst snd].
  generalize (u32 (elem_at (physical_addr env) (3 * c + 0) + 4 * o)).
  generalize (u32 (elem_at (physical_addr env) (3 * c + 1) + 4 * o)).
  generalize (u32 (elem_at (physical_addr env) (3 * c + 2) + 4 * o)).
  intros a3 a2 a1. unfold _DMA_transfer_sg, sg_descriptor. cbv zeta.
  generalize (fifo_offset c) (fifo_offset c + 65536) (fifo_offset c + 131072) (u32 (z <<c 2)).
  intros f1 f2 f3 sz.
  match goal with |- context [?l = (_ ++ _)%list] => exists (removelast l), (PWr (PLX9656_DMACSR 1) 3) end.
  split_and!; [reflexivity | reflexivity | reflexivity].
Qed.
End Chains.

(** The main thread and the waits of the helpers leave the engine alone. *)
Section Dma.
Context (env : gc314_env).

Lemma dma_app s l : dma (s <| io := (io s ++ l)%list |>) =
  (dma s ++ List.filter (fun x => dma_write x.2) l)%list.
Proof. unfold dma. cbn. apply List.filter_app. Qed.

Lemma dma_log w a : dma_write a = false → keeps dma (log w a).
Proof.
  intros Ha s u s' ->%log_inv. rewrite dma_app. cbn. rewrite Ha. apply app_nil_r.
Qed.

Lemma dma_log_write w a s u s' : dma_write a = true → log w a s = Ok (u, s') → dma s' = (dma s ++ [(w, a)])%list.
Proof. intros Ha ->%log_inv. rewrite dma_app. cbn. rewrite Ha. reflexivity. Qed.

Lemma dma_answer : keeps dma (answer env).
Proof. unfold answer. keep. Qed.

Lemma dma_rd32 w reg : keeps dma (rd32 env w reg).
Proof. apply gc_keeps_bind; [apply dma_log; reflexivity | intros; apply dma_answer]. Qed.

Lemma dma_wr32 w reg v : reg < 8192 → keeps dma (wr32 w reg v).
Proof. intros H. apply dma_log. cbn. apply Z.leb_gt. done. Qed.

Lemma dma_or32 w reg m : reg < 8192 → keeps dma (or32 env w reg m).
Proof. intros H. apply gc_keeps_bind; [apply dma_rd32 | intros; apply dma_wr32; done]. Qed.

Lemma dma_and32 w reg m : reg < 8192 → keeps dma (and32 env w reg m).
Proof. intros H. apply gc_keeps_bind; [apply dma_rd32 | intros; apply dma_wr32; done]. Qed.

Lemma dma_write_reg w : write_reg w < 8192 → keeps dma (write env w).
Proof.
  intros H. destruct w; cbn [write]; try (apply dma_wr32; exact H).
  all: apply gc_keeps_bind; [apply dma_rd32 | intros; apply dma_wr32; exact H].
Qed.

Lemma dma_writes l : Forall (fun w => write_reg w < 8192) l → keeps dma (for_each l (write env)).
Proof.
  induction 1 as [| w l Hw _ IH]; cbn [for_each]; [apply keeps_ret |].
  apply gc_keeps_bind; [apply dma_write_reg, Hw | intros; exact IH].
Qed.

Lemma elem_bound l i B : Forall (fun x => x < B) l → 0 < B → elem_at l i < B.
Proof.
  intros Hl HB. unfold elem_at. destruct (nth_in_or_default (Z.to_nat i) l 0) as [Hi | ->]; [| done].
  rewrite Forall_forall in Hl. apply Hl, list_elem_of_In, Hi.
Qed.

Lemma write_reg_le w : match w with W8 reg _ | W16 reg _ | W32 reg _ => write_reg w ≤ reg end.
Proof. destruct w as [reg v | reg v | reg v]; cbn; try lia; pose proof (Z.mod_pos_bound reg 4); lia. Qed.

Lemma config_low g cf r : Forall (fun w => write_reg w < 8192) (_config_GC4016 g cf r).
Proof.
  unfold _config_GC4016. apply Forall_flat_map, Forall_true. intros k.
  unfold chip_writes. cbv zeta.
  assert (Hoff : elem_at GC314FS_GCoffset k < 6145).
  { apply elem_bound; [| lia]. unfold GC314FS_GCoffset. repeat apply Forall_cons_2; try apply Forall_nil_2; lia. }
  set (off := elem_at GC314FS_GCoffset k) in *. clearbody off.
  repeat apply Forall_app_2.
  - unfold general_writes. repeat apply Forall_cons_2; try apply Forall_nil_2.
    all: match goal with |- write_reg ?w < _ => eapply Z.le_lt_trans; [exact (write_reg_le w) |] end; lia.
  - unfold resamp_writes. apply Forall_map, Forall_seqZ. intros j Hj. cbn [write_reg]. lia.
  - apply Forall_concat, Forall_forall. intros l (i & r0 & -> & Hi)%elem_of_lookup_imap_1.
    assert (Hm : elem_at chan_control_map (Z.of_nat i) < 385).
    { apply elem_bound; [| lia]. unfold chan_control_map. repeat apply Forall_cons_2; try apply Forall_nil_2; lia. }
    unfold channel_writes. apply Forall_app_2; [apply Forall_map, Forall_seqZ; intros j Hj; cbn [write_reg]; lia |].
    apply Forall_cons_2; [| apply Forall_nil_2].
    pose proof (write_reg_le (W8 (off + elem_at chan_control_map (Z.of_nat i) + 123) (k |c 16))) as H.
    cbv iota beta in H. lia.
Qed.

Lemma rda_low n sk lv ch : 0 ≤ ch < 4 → Forall (fun w => write_reg w < 8192) (_set_RDA n sk lv ch).
Proof.
  intros Hch. unfold _set_RDA, chips, CSR, LVL, DWS, SKIP, FS, ID, SM, rda. cbn [map app].
  repeat apply Forall_cons_2; try apply Forall_nil_2.
  all: match goal with |- write_reg ?w < _ => eapply Z.le_lt_trans; [exact (write_reg_le w) |] end; lia.
Qed.
#[local] Hint Resolve dma_answer dma_rd32 dma_or32 dma_and32 dma_writes config_low GCSR_low GSM_low : gcview.

Lemma reset_low off v : off ∈ GC314FS_GCoffset → write_reg (W8 (off + GC4016_GLOBAL_RESET) v) < 8192.
Proof.
  unfold GC314FS_GCoffset, GC4016_GLOBAL_RESET. rewrite !elem_of_cons.
  intros [-> | [-> | [-> | []%elem_of_nil]]]; reflexivity.
Qed.

Lemma keeps_per_channel {B} (f : gc314 → B) ch (m : DM unit) :
  (0 ≤ ch < 4 → keeps f m) → keeps f (per_channel ch m).
Proof.
  intros Hm. unfold per_channel. destruct (_ && _) eqn:E; [| apply keeps_ret].
  apply andb_prop in E as [E1 E2]. apply Hm. lia.
Qed.

Lemma keeps_each_in {B I} (f : gc314 → B) (l : list I) (body : I → DM unit) :
  (∀ x, x ∈ l → keeps f (body x)) → keeps f (for_each l body).
Proof.
  induction l as [| x l IH]; intros H; cbn; [apply keeps_ret |].
  apply gc_keeps_bind; [apply H; left | intros; apply IH; intros y Hy; apply H; right; done].
Qed.

Lemma chip_CSR_low k ch : k ∈ chips → 0 ≤ ch < 4 → CSR k ch < 8192.
Proof.
  unfold chips, CSR, rda. rewrite !elem_of_cons. intros [-> | [-> | [-> | []%elem_of_nil]]]; lia.
Qed.

Lemma dma_command x : keeps dma (command env x).
Proof.
  destruct x; cbn [command].
  - apply keeps_per_channel. intros Hch. apply gc_keeps_bind; [keep |]. intros _.
    apply keeps_each_in. intros k Hk. apply dma_or32, chip_CSR_low; done.
  - keep.
  - keep.
  - keep.
  - keep.
  - keep.
  - destruct (_ =? _); [| apply keeps_when].
    all: apply keeps_each_in; intros off Hoff; apply dma_write_reg, reset_low, Hoff.
  - keep.
  - apply keeps_per_channel. intros Hch. apply gc_keeps_bind; [keep | intros p].
    apply gc_keeps_bind; [keep | intros k]. apply gc_keeps_bind; [keep | intros lv].
    apply dma_writes, rda_low, Hch.
  - keep.
  - keep.
  - keep.
  - keep.
  - keep.
  - keep.
Qed.

Lemma dma_rest : keeps dma start_rest.
Proof. unfold start_rest. keep. Qed.

#[local] Hint Resolve dma_command dma_rest : gcview.

Lemma dma_devctl q : keeps dma (io_devctl env q).
Proof.
  destruct q as [x | ch chip |]; cbn [io_devctl]; [| unfold respond; keep ..].
  destruct x; unfold go, respond; keep.
Qed.

Lemma dma_resume : keeps dma resume.
Proof.
  unfold resume. apply gc_keeps_bind; [keep | intros p]. destruct p as [| | c' ch]; unfold go, respond; keep.
Qed.

(** The steps of a helper that do not write to the engine. *)
Definition writing (p : phase) : bool :=
  match p with Program _ (_ :: _) | Abandon (_ :: _) => true | _ => false end.

Lemma finish_regs_dma c h todo : Forall (fun reg => reg < 8192) todo →
  keeps dma (match todo with
             | [] => set_on_off c 0;; go_helper c h Exited
             | reg :: todo => or32 env (Helper c) reg 4;; go_helper c h (Finish todo)
             end).
Proof.
  intros H. destruct todo as [| reg todo]; [keep |]. inversion_clear H.
  apply gc_keeps_bind; [apply dma_or32; done | intros; keep].
Qed.
End Dma.

(** ** Steps of a helper, seen from the engine *)

(** What is still to be written is what it should be: the engine's registers, or
    registers below the descriptors. *)
Definition todo_ok (p : phase) : Prop :=
  match p with
  | Program _ todo | Abandon todo => Forall (fun a => dma_write a = true) todo
  | Finish todo => Forall (fun reg => reg < 8192) todo
  | _ => True
  end.

(** A transfer is under way. *)
Definition in_transfer (p : phase) : bool :=
  match p with Program _ _ | AwaitDone _ _ | Abandon _ => true | _ => false end.

Definition moving (o : option helper) : bool :=
  match o with Some h => in_transfer (ph h) | None => false end.

(** What a step of a helper does to the engine and to its phase. *)
Definition engine_step (c : Z) (p p' : phase) (l l' : list (who * access)) : Prop :=
  match p with
  | Program st (a :: todo) => p' = Program st todo ∧ l' = (l ++ [(Helper c, a)])%list
  | Abandon (a :: todo) => p' = Abandon todo ∧ l' = (l ++ [(Helper c, a)])%list
  | Program st [] => in_transfer p' = true ∧ (∀ st' todo, p' ≠ Program st' todo) ∧ l' = l
  | AwaitDone _ _ => (∀ st' todo, p' ≠ Program st' todo) ∧ l' = l
  | EnterTransfer => (∀ st todo, p' = Program st todo → zlen todo = 18) ∧ l' = l
  | _ => in_transfer p' = false ∧ l' = l
  end ∧ todo_ok p'.

Section Engine.
Context (env : gc314_env) (c : Z).
Context (Hc : c < 4).

Definition engine (s : gc314) : option helper * list (who * access) := (helper_of s c, dma s).

Lemma engine_keeps {A} (m : DM A) : keeps (fun s => helper_of s c) m → keeps dma m → keeps engine m.
Proof. intros H1 H2 s a s' H. unfold engine. rewrite (H1 s a s' H), (H2 s a s' H). reflexivity. Qed.

Lemma engine_rd32 w reg : keeps engine (rd32 env w reg).
Proof. apply engine_keeps; [keep | apply dma_rd32]. Qed.

Lemma engine_or32 w reg m : reg < 8192 → keeps engine (or32 env w reg m).
Proof. intros H. apply engine_keeps; [keep | apply dma_or32, H]. Qed.

Lemma engine_poll w reg : keeps engine (log w (PRd reg)).
Proof. apply engine_keeps; [keep | apply dma_log; reflexivity]. Qed.

#[local] Hint Resolve engine_rd32 engine_poll : gcview.

Lemma engine_go o l h p : leads_view engine (o, l) (go_helper c h p)
  (fun _ v' => v' = (Some (h <| ph := p |>), l)).
Proof.
  intros s [] s' Hs (l0 & Hl & ->)%set_at_inv. unfold engine in *. injection Hs as _ <-.
  unfold helper_of. cbn. rewrite (zget_zset_eq _ _ _ _ Hl). reflexivity.
Qed.

Definition steps_to (p : phase) (l : list (who * access)) : unit → option helper * list (who * access) → Prop :=
  fun _ v' => ∃ h', v'.1 = Some h' ∧ engine_step c p (ph h') l v'.2.

Lemma engine_goes o l h p p0 : engine_step c p0 p l l → leads_view engine (o, l) (go_helper c h p) (steps_to p0 l).
Proof. intros H s a s' Hs Hg. rewrite (engine_go o l h p s a s' Hs Hg). eexists. split; [reflexivity | exact H]. Qed.

Lemma next_phase_quiet h : in_transfer (next_phase c h) = false ∧ todo_ok (next_phase c h).
Proof.
  unfold next_phase. repeat case_match; (split; [reflexivity |]); try exact I.
  all: apply stop_registers_low, Hc.
Qed.

Lemma quiet_phase (p : phase) : in_transfer p = false → ∀ st todo, p ≠ Program st todo.
Proof. intros H st todo ->. discriminate. Qed.

Lemma engine_leave o l h st p0 : (∀ p, p = EnterTransfer ∨ (∃ r, p = Finish r ∧ todo_ok p) → engine_step c p0 p l l) →
  leads_view engine (o, l) (leave_wait c h st) (steps_to p0 l).
Proof.
  intros H. unfold leave_wait. apply lv_keeps; [keep |]. intros _. apply engine_goes.
  apply H. destruct (st =? 0); [left; done | right]. eexists. split; [done | apply stop_registers_low, Hc].
Qed.

Lemma engine_transferred o l h st p0 : (∀ p, in_transfer p = false → todo_ok p → engine_step c p0 p l l) →
  leads_view engine (o, l) (transferred c h st) (steps_to p0 l).
Proof.
  intros H. unfold transferred. apply lv_keeps; [keep |]. intros _. apply lv_keeps; [keep |]. intros _.
  apply lv_keeps; [keep |]. intros size. apply lv_int_op. cbv zeta. apply engine_goes.
  destruct (st =? 0).
  - destruct (next_phase_quiet ((h <| h_i ::= Z.succ |>) <| h_scount := h_scount h + size |>)). auto.
  - apply H; [reflexivity | apply stop_registers_low, Hc].
Qed.

Lemma engine_log o l h a p p0 : dma_write a = true → engine_step c p0 p l (l ++ [(Helper c, a)])%list →
  leads_view engine (o, l) (log (Helper c) a;; go_helper c h p) (steps_to p0 l).
Proof.
  intros Ha H. apply (lv_bind engine _ _ _ (fun _ v' => v' = (o, (l ++ [(Helper c, a)])%list))).
  - intros s [] s' Hs Hl. pose proof (dma_log_write _ _ _ _ _ Ha Hl) as Hd. apply log_inv in Hl as ->.
    unfold engine in *. injection Hs as <- <-. rewrite Hd. reflexivity.
  - intros [] v' -> s x s' Hs Hg. rewrite (engine_go _ _ h p s x s' Hs Hg). eexists. split; [reflexivity |]. exact H.
Qed.

Lemma engine_helper s h t s' : helper_of s c = Some h → todo_ok (ph h) →
  wait_for_channel env c t s = Ok (tt, s') →
  ∃ h', helper_of s' c = Some h' ∧ engine_step c (ph h) (ph h') (dma s) (dma s').
Proof.
  intros Hh Hlow H.
  assert (Hl : leads_view engine (Some h, dma s) (wait_for_channel env c t) (steps_to (ph h) (dma s))).
  2:{ destruct (Hl s tt s') as (h' & H1 & H2); [unfold engine; rewrite Hh; done | exact H |].
      exists h'. split; [exact H1 | exact H2]. }
  generalize (dma s). clear H s s' Hh. intros l.
  unfold wait_for_channel. apply (lv_bind engine _ _ _ (fun a v' => a = Some h ∧ v' = (Some h, l))).
  { intros s a s' Hs [-> Ha]%get_at_inv. split; [| exact Hs]. unfold engine, helper_of in Hs.
    rewrite Ha in Hs. congruence. }
  intros o v' [-> ->]. apply (lv_bind engine _ _ _ (fun a v' => a = h ∧ v' = (Some h, l))).
  { intros s a s' Hv Hd. injection Hd as -> ->. done. }
  intros h0 v' [-> ->].
  destruct (ph h) as [| | start wake e | | start wake | | start todo | start wake | todo | todo |] eqn:Eph.
  - apply lv_keeps; [keep |]. intros _. apply lv_keeps; [keep |]. intros p.
    apply lv_keeps; [keep |]. intros lv. apply lv_keeps; [keep |]. intros k.
    apply lv_keeps; [keep |]. intros r. cbv zeta. apply engine_goes.
    destruct (next_phase_quiet (mk_helper Begin 0 k r 0)). done.
  - apply engine_goes. done.
  - apply lv_keeps; [keep |]. intros status. cbv zeta.
    destruct (bits_set _ 131072); [apply engine_leave |].
    { intros p [-> | (r & -> & Hr)]; done. }
    destruct (DMA_NSEC_TIMEOUT <? _); [apply engine_leave |].
    { intros p [-> | (r & -> & Hr)]; done. }
    apply engine_goes. done.
  - apply engine_goes. done.
  - apply lv_keeps; [keep |]. intros r. cbv zeta. destruct (frame_count env <? _).
    + apply lv_keeps; [keep |]. intros status. apply engine_leave. intros p [-> | (q & -> & Hq)]; done.
    + destruct (DMA_NSEC_TIMEOUT <? _).
      * apply lv_keeps; [keep |]. intros _. apply engine_leave. intros p [-> | (q & -> & Hq)]; done.
      * apply engine_goes. done.
  - apply lv_keeps; [keep |]. intros _. apply lv_keeps; [keep |]. intros size. apply engine_goes.
    split; [| apply (program_dma env c (h_scount h, size))]. split; [| done].
    intros st todo [= _ <-]. reflexivity.
  - destruct todo as [| a todo].
    + apply engine_goes. done.
    + cbn in Hlow. inversion_clear Hlow. apply engine_log; done.
  - apply lv_keeps; [keep |]. intros _. apply lv_keeps; [keep |]. intros r.
    destruct (bits_set _ 16).
    + apply engine_transferred. intros p Hp Hf. split; [split; [apply quiet_phase, Hp | done] | done].
    + destruct (DMA_TIMEOUT <? _); apply engine_goes; (split; [done | repeat constructor]).
  - destruct todo as [| a todo].
    + apply engine_transferred. intros p Hp Hf. done.
    + cbn in Hlow. inversion_clear Hlow. apply engine_log; done.
  - destruct todo as [| reg todo].
    + apply lv_keeps; [keep |]. intros _. apply engine_goes. done.
    + cbn in Hlow. inversion_clear Hlow. apply lv_keeps; [apply engine_or32; done |]. intros _.
      apply engine_goes. done.
  - intros s a s' Hs [= _ <-]. rewrite Hs. exists h. rewrite Eph. done.
Qed.
End Engine.

(** ** One transfer at a time *)

Section Exclusive.
Context (env : gc314_env) (c n lvl : Z).
Context (Hc : 0 ≤ c < 4) (Hn : 0 ≤ n) (Hlvl : 0 < lvl).

(** A helper begins a transfer only when no other one is at it: what [DMA_in_use]
    is meant to ensure. *)
Definition one_at_a_time (s : gc314) (t : Z) (e : event) : Prop :=
  match e with
  | Step c1 => ∀ h, helper_of s c1 = Some h → ph h = EnterTransfer →
      ∀ c2, c2 ≠ c1 → moving (helper_of s c2) = false
  | _ => True
  end.

(** At most one transfer is under way, and the helpers are those of channels. *)
Definition exclusive (s : gc314) : Prop :=
  (∀ c1 c2, moving (helper_of s c1) = true → moving (helper_of s c2) = true → c1 = c2) ∧
  (∀ c1 h, helper_of s c1 = Some h → todo_ok (ph h)) ∧ zlen (helpers s) = 4.

Lemma helper_range s c1 h : zlen (helpers s) = 4 → helper_of s c1 = Some h → 0 ≤ c1 < 4.
Proof.
  intros Hlen Hh. unfold helper_of in Hh. destruct (zget (helpers s) c1) eqn:E; [| discriminate].
  apply zget_Some_range in E. lia.
Qed.

(** [calms m]: [m] only adds helpers at their beginning and removes helpers. *)
Definition fresh (o : option helper) : Prop := match o with Some h => ph h = Begin | None => True end.

Definition calmer (s s' : gc314) : Prop :=
  zlen (helpers s') = zlen (helpers s) ∧
  ∀ c1, helper_of s' c1 = helper_of s c1 ∨ fresh (helper_of s' c1).

Definition calms {A} (m : DM A) : Prop := ∀ s a s', m s = Ok (a, s') → calmer s s'.

Lemma calms_bind {A B} (m : DM A) (k : A → DM B) : calms m → (∀ a, calms (k a)) → calms (m ≫= k).
Proof.
  intros Hm Hk s b s' H. apply bind_inv in H as (a & s1 & H1 & H2).
  destruct (Hm _ _ _ H1) as [Hl1 Hh1], (Hk _ _ _ _ H2) as [Hl2 Hh2]. split; [congruence |].
  intros c1. destruct (Hh2 c1) as [-> | ?]; auto.
Qed.

Lemma calms_keeps {A} (m : DM A) : keeps helpers m → calms m.
Proof.
  intros Hm s a s' H. pose proof (Hm _ _ _ H) as Hh. unfold calmer, helper_of. rewrite Hh. auto.
Qed.

Lemma calms_set c1 o : fresh o → calms (set_helper c1 o).
Proof.
  intros Ho s [] s' (l & Hl & ->)%set_at_inv. split; [cbn; apply (zlen_zset _ _ _ _ Hl) |].
  intros c2. unfold helper_of. cbn. destruct (decide (c2 = c1)) as [-> | Hne].
  - right. rewrite (zget_zset_eq _ _ _ _ Hl). exact Ho.
  - left. rewrite (zget_zset_ne _ _ _ _ _ Hl) by done. reflexivity.
Qed.

Lemma calms_rest : calms start_rest.
Proof.
  unfold start_rest. cbn [for_each].
  repeat (apply calms_bind; [| intros ?]); try (apply calms_keeps; keep; fail).
  all: unfold when; destruct (_ && _); [apply calms_set; reflexivity | apply calms_keeps; keep].
Qed.

Lemma calms_devctl q : calms (io_devctl env q).
Proof.
  assert (Hcmd : ∀ x, keeps helpers (command env x)) by (intros x; destruct x; cbn [command]; keep).
  destruct q as [x | ch chip |]; cbn [io_devctl]; try (apply calms_keeps; unfold respond; keep; fail).
  destruct x; try (apply calms_keeps; apply gc_keeps_bind; [apply Hcmd | intros; unfold respond; keep]).
  - apply calms_bind; [apply calms_keeps; keep | intros _].
    apply calms_bind; [apply calms_keeps; keep | intros on].
    apply calms_bind; [apply calms_keeps; keep | intros h].
    destruct (on =? 0); [| destruct (bool_decide _)].
    + apply calms_bind; [apply calms_rest | intros; apply calms_keeps; unfold respond; keep].
    + apply calms_bind; [apply calms_set; reflexivity | intros _].
      apply calms_bind; [apply calms_rest | intros; apply calms_keeps; unfold respond; keep].
    + apply calms_keeps. unfold go. keep.
  - apply calms_keeps. unfold go. keep.
Qed.

Lemma calms_resume : calms resume.
Proof.
  unfold resume. apply calms_bind; [apply calms_keeps; keep | intros p].
  destruct p as [| | c1 ch]; [apply calms_keeps; keep | |].
  - apply calms_bind; [apply calms_set; reflexivity | intros _].
    apply calms_bind; [apply calms_set; reflexivity | intros _].
    apply calms_bind; [apply calms_rest | intros; apply calms_keeps; unfold go, respond; keep].
  - apply calms_bind; [apply calms_set; exact I | intros _].
    apply calms_keeps. unfold go, respond. keep.
Qed.

Lemma fresh_moving o : fresh o → moving o = false.
Proof. destruct o as [h |]; cbn; [intros ->; done | done]. Qed.

Lemma calmer_moving s s' c1 : calmer s s' → moving (helper_of s' c1) = true →
  helper_of s' c1 = helper_of s c1.
Proof.
  intros [_ H] Hm. destruct (H c1) as [-> | Hf]; [done |]. rewrite (fresh_moving _ Hf) in Hm. discriminate.
Qed.

Lemma exclusive_calmer s s' : calmer s s' → exclusive s → exclusive s'.
Proof.
  intros Hcalm (Hx & Ht & Hl). split_and!.
  - intros c1 c2 H1 H2. pose proof (calmer_moving s s' c1 Hcalm H1) as E1.
    pose proof (calmer_moving s s' c2 Hcalm H2) as E2. rewrite E1 in H1. rewrite E2 in H2. auto.
  - intros c1 h Hh. destruct Hcalm as [_ Hcalm]. destruct (Hcalm c1) as [E | Hf].
    + rewrite E in Hh. eauto.
    + rewrite Hh in Hf. cbn in Hf. rewrite Hf. exact I.
  - destruct Hcalm. congruence.
Qed.

(** A step of helper [c1]: the others stay where they are. *)
Lemma step_others c1 t s s' : wait_for_channel env c1 t s = Ok (tt, s') →
  (∀ c2, c2 ≠ c1 → helper_of s' c2 = helper_of s c2) ∧ zlen (helpers s') = zlen (helpers s).
Proof.
  intros H. split.
  - intros c2 Hne. exact (f_equal v_helper (view_step env c2 c1 t Hne s tt s' H)).
  - assert (Hk : keeps (fun s => zlen (helpers s)) (wait_for_channel env c1 t)); [| exact (Hk s tt s' H)].
    assert (Hset : ∀ o, keeps (fun s => zlen (helpers s)) (set_helper c1 o)).
    { intros o s0 [] s0' (l & Hl & ->)%set_at_inv. cbn. apply (zlen_zset _ _ _ _ Hl). }
    assert (Hgo : ∀ h p, keeps (fun s => zlen (helpers s)) (go_helper c1 h p)) by (intros; apply Hset).
    unfold wait_for_channel, leave_wait, transferred. clear -Hgo.
    repeat first [solve [auto 2] | keep_step].
Qed.

Lemma exclusive_step c1 t s s' h : helper_of s c1 = Some h → one_at_a_time s t (Step c1) →
  exclusive s → wait_for_channel env c1 t s = Ok (tt, s') →
  exclusive s' ∧ ∃ h', helper_of s' c1 = Some h' ∧ engine_step c1 (ph h) (ph h') (dma s) (dma s').
Proof.
  intros Hh HD (Hx & Ht & Hl) H. pose proof (helper_range s c1 h Hl Hh) as Hr.
  destruct (engine_helper env c1 ltac:(lia) s h t s' Hh (Ht c1 h Hh) H) as (h' & Hh' & Hstep).
  destruct (step_others c1 t s s' H) as [Hoth Hlen]. split; [| eauto]. split_and!; [| | congruence].
  - assert (Hm : ∀ c2, c2 ≠ c1 → moving (helper_of s' c1) = true → moving (helper_of s' c2) = false).
    { intros c2 Hne Hm. rewrite Hoth by done. rewrite Hh' in Hm. cbn in Hm.
      assert (Hin : in_transfer (ph h) = true ∨ ph h = EnterTransfer).
      { destruct Hstep as [Hs _]. destruct (ph h); cbn in *; auto; destruct Hs; congruence. }
      destruct Hin as [Hin | Hin]; [| exact (HD h Hh Hin c2 Hne)].
      destruct (moving (helper_of s c2)) eqn:E; [| done]. exfalso. apply Hne, Hx; [done |]. rewrite Hh. exact Hin. }
    intros c2 c3 H2 H3. destruct (decide (c2 = c1)) as [-> | N2], (decide (c3 = c1)) as [-> | N3]; [done | | |].
    + rewrite (Hm c3 N3 H2) in H3. discriminate.
    + rewrite (Hm c2 N2 H3) in H2. discriminate.
    + rewrite Hoth in H2, H3 by done. auto.
  - intros c2 h2 H2. destruct (decide (c2 = c1)) as [-> | N2].
    + rewrite Hh' in H2. injection H2 as <-. apply Hstep.
    + rewrite Hoth in H2 by done. eauto.
Qed.
(** ** The chains of a collection *)

Lemma started_app l1 l2 : started_by c (l1 ++ l2) =
  map snd (List.filter (fun x => by_helper c x.1) (b_started (run_bridge l2 (run_bridge l1 bridge0)))).
Proof. unfold started_by, run_bridge. rewrite fold_left_app. reflexivity. Qed.

(** A write of another helper starts nothing for [c]. *)
Lemma started_other c1 a l : c1 ≠ c → started_by c (l ++ [(Helper c1, a)]) = started_by c l.
Proof.
  intros Hne. rewrite started_app. unfold started_by. cbn [run_bridge fold_left].
  fold (run_bridge l bridge0). unfold bridge_step. destruct a as [| | | reg v]; try reflexivity.
  cbn [snd fst b_started]. destruct ((reg =? PLX9656_DMACSR 1) && (v =? 3)); [| reflexivity].
  rewrite List.filter_app, map_app. cbn.
  rewrite (proj2 (Z.eqb_neq c1 c)) by done. cbn. apply app_nil_r.
Qed.

(** A write that does not start the engine. *)
Lemma started_quiet a l : a ≠ PWr (PLX9656_DMACSR 1) 3 → started_by c (l ++ [(Helper c, a)]) = started_by c l.
Proof.
  intros Ha. rewrite started_app. unfold started_by. cbn [run_bridge fold_left].
  fold (run_bridge l bridge0). unfold bridge_step. destruct a as [| | | reg v]; try reflexivity.
  cbn [snd fst b_started]. destruct (Z.eqb_spec reg (PLX9656_DMACSR 1)) as [-> |]; [| reflexivity].
  destruct (Z.eqb_spec v 3) as [-> |]; [congruence | reflexivity].
Qed.

(** The writes of a program from any state of the engine. *)
Lemma started_program b pre : started_by c (pre ++ tag c (transfer_program env c b.1 b.2)) =
  (started_by c pre ++ [chain_of env c b])%list.
Proof.
  destruct (program_starts env c b (run_bridge pre bridge0)) as (d & x & -> & _ & Hs).
  rewrite started_app, Hs, List.filter_app, map_app. cbn. rewrite Z.eqb_refl. reflexivity.
Qed.

Lemma started_part b pre d todo : transfer_program env c b.1 b.2 = (d ++ todo)%list → todo ≠ [] →
  started_by c (pre ++ tag c d) = started_by c pre.
Proof.
  intros Hd Ht. assert (Hq : Forall (fun a => a ≠ PWr (PLX9656_DMACSR 1) 3) d).
  { assert (Hall : ∃ d', transfer_program env c b.1 b.2 = (d' ++ [PWr (PLX9656_DMACSR 1) 3])%list ∧
                         Forall (fun a => a ≠ PWr (PLX9656_DMACSR 1) 3) d').
    { exists (removelast (transfer_program env c b.1 b.2)). split; [reflexivity |].
      repeat constructor; discriminate. }
    destruct Hall as (d' & Hd' & Hf). rewrite Hd' in Hd.
    destruct (exists_last Ht) as (todo' & y & ->). rewrite app_assoc in Hd.
    apply app_inj_tail in Hd as [-> _]. rewrite Forall_app in Hf. tauto. }
  clear Hd Ht. induction d as [| a d IH] using rev_ind; [unfold tag; cbn; rewrite app_nil_r; done |].
  rewrite Forall_app, Forall_cons in Hq. destruct Hq as (Hq & Ha & _).
  unfold tag. rewrite map_app, app_assoc. cbn [map]. rewrite started_quiet by done. apply IH, Hq.
Qed.

Lemma program_length b : zlen (transfer_program env c b.1 b.2) = 18.
Proof. reflexivity. Qed.

Lemma programs_length l : zlen (programs env c l) = 18 * zlen l.
Proof.
  induction l as [| b l IH]; [reflexivity |]. cbn [programs flat_map].
  fold (programs env c l). unfold programs in *. cbn [flat_map]. rewrite zlen_app, program_length, IH, zlen_cons. lia.
Qed.

Lemma first_blocks_length k : 0 ≤ k ≤ zlen (blocks n lvl) → zlen (first_blocks n lvl k) = k.
Proof. intros Hk. unfold first_blocks, zlen in *. rewrite length_take. lia. Qed.

(** The chains started are those of the programs written in full. *)
Definition chained (own0 : list access) (started0 : list (Z * list descriptor)) (s : gc314) : Prop :=
  ∃ w, own c s = (own0 ++ w)%list ∧
  started_by c (dma s) = (started0 ++ map (chain_of env c) (first_blocks n lvl (zlen w / 18)))%list ∧
  ∀ h st todo, helper_of s c = Some h → ph h = Program st todo → ∃ pre d b,
    zget (blocks n lvl) (h_i h) = Some b ∧ transfer_program env c b.1 b.2 = (d ++ todo)%list ∧
    dma s = (pre ++ tag c d)%list.

(** Steps that change neither the engine nor the channel. *)
Lemma chained_same own0 started0 s s' : own c s' = own c s → dma s' = dma s →
  (∀ h st todo, helper_of s' c = Some h → ph h = Program st todo → helper_of s c = Some h) →
  chained own0 started0 s → chained own0 started0 s'.
Proof.
  intros Ho Hd Hh (w & Hw & Hs & Hp). exists w. rewrite Ho, Hd. split_and!; eauto.
Qed.

Lemma chained_calmer own0 started0 s s' : own c s' = own c s → dma s' = dma s → calmer s s' →
  chained own0 started0 s → chained own0 started0 s'.
Proof.
  intros Ho Hd Hcalm. apply chained_same; [done | done |]. intros h st todo Hh Hp.
  rewrite <- Hh. symmetry. apply (calmer_moving s s' c Hcalm). rewrite Hh. cbn. rewrite Hp. reflexivity.
Qed.

(** A step of another helper. *)
Lemma chained_other own0 started0 c1 t s s' h : c1 ≠ c → helper_of s c1 = Some h →
  one_at_a_time s t (Step c1) → exclusive s → wait_for_channel env c1 t s = Ok (tt, s') →
  chained own0 started0 s → chained own0 started0 s'.
Proof.
  intros Hne Hh HD Hx H Hch. pose proof (view_step env c c1 t (not_eq_sym Hne) s tt s' H) as Hv.
  pose proof (f_equal v_own Hv) as Ho. pose proof (f_equal v_helper Hv) as Hhc. cbn in Ho, Hhc.
  destruct (exclusive_step c1 t s s' h Hh HD Hx H) as (_ & h' & _ & Hstep & _).
  assert (Hd : dma s' = dma s ∨ in_transfer (ph h) = true ∧ ∃ a, dma s' = (dma s ++ [(Helper c1, a)])%list).
  { destruct (ph h) as [| | | | | | st [| a todo] | | [| a todo] | |]; intuition eauto. }
  destruct Hd as [Hd | (Hin & a & Hd)].
  - apply (chained_same own0 started0 s); [done | done | intros; congruence | done].
  - destruct Hch as (w & Hw & Hs & _). exists w. rewrite Ho, Hd, started_other by done. split_and!; [done | done |].
    intros h2 st todo H2 Hp. exfalso. apply Hne, (proj1 Hx); [rewrite Hh; exact Hin |].
    rewrite <- Hhc, H2. cbn. rewrite Hp. reflexivity.
Qed.
Lemma own_dma s : own c s = map snd (List.filter (fun x => by_helper c x.1) (dma s)).
Proof.
  unfold own, dma. f_equal. induction (io s) as [| x l IH]; [reflexivity |]. cbn [List.filter].
  unfold own_write at 1. destruct (dma_write x.2); cbn [List.filter].
  - rewrite andb_true_r. destruct (by_helper c x.1); rewrite IH; reflexivity.
  - rewrite andb_false_r. exact IH.
Qed.

Lemma own_snoc s s' a : dma s' = (dma s ++ [(Helper c, a)])%list → own c s' = (own c s ++ [a])%list.
Proof.
  intros Hd. rewrite !own_dma, Hd, List.filter_app, map_app. cbn. rewrite Z.eqb_refl. reflexivity.
Qed.

(** The writes of a helper in the middle of a program. *)
Lemma program_position w h st todo stat : progress env c n lvl w h stat → ph h = Program st todo →
  zlen todo ≤ 18 ∧ ∃ b d, zget (blocks n lvl) (h_i h) = Some b ∧ transfer_program env c b.1 b.2 = (d ++ todo)%list ∧
    w = (programs env c (first_blocks n lvl (h_i h)) ++ d)%list ∧
    zlen w = 18 * h_i h + (18 - zlen todo).
Proof.
  intros Hp Eph. unfold progress in Hp. rewrite Eph in Hp.
  destruct Hp as ((_ & _ & H0 & _) & Hi & b & d & Hb & Hd & Hw).
  pose proof (program_length b) as Hlen. rewrite Hd, zlen_app in Hlen.
  pose proof (zlen_nonneg d). split; [lia |]. exists b, d. split_and!; try done.
  rewrite Hw, zlen_app, programs_length, first_blocks_length by lia. lia.
Qed.

(** One more write of a program. *)
Lemma chained_write own0 started0 s s' h h' st a todo :
  collecting env c n lvl own0 (view c s) → collecting env c n lvl own0 (view c s') →
  helper_of s c = Some h → helper_of s' c = Some h' → ph h = Program st (a :: todo) →
  ph h' = Program st todo → dma s' = (dma s ++ [(Helper c, a)])%list →
  chained own0 started0 s → chained own0 started0 s'.
Proof.
  intros (_ & _ & w & Hw & Hp) (_ & _ & w' & Hw' & Hp') Hh Hh' Eph Eph' Hd (w1 & Hw1 & Hs & Hpre).
  cbn in Hw, Hw', Hp, Hp'. rewrite Hh in Hp. rewrite Hh' in Hp'.
  assert (w1 = w) as -> by (rewrite Hw in Hw1; apply app_inv_head in Hw1; done).
  assert (w' = (w ++ [a])%list) as ->.
  { rewrite (own_snoc s s' a Hd), Hw, <- app_assoc in Hw'. apply app_inv_head in Hw'. done. }
  destruct (program_position w h st (a :: todo) _ Hp Eph) as (Hle & b & d & Hb & Hbd & Hwd & Hlen).
  destruct (program_position _ h' st todo _ Hp' Eph') as (_ & b' & d' & Hb' & Hbd' & _ & Hlen').
  rewrite zlen_app in Hlen'. rewrite zlen_cons in Hle, Hlen. change (zlen [a]) with 1 in Hlen'.
  assert (Hi : h_i h' = h_i h) by lia. rewrite Hi, Hb in Hb'. injection Hb' as <-.
  destruct (Hpre h st (a :: todo) Hh Eph) as (pre & d2 & b2 & Hb2 & Hbd2 & Hdma).
  rewrite Hb in Hb2. injection Hb2 as <-.
  assert (d2 = d) as -> by (rewrite Hbd in Hbd2; apply app_inv_tail in Hbd2; done).
  assert (Htag : dma s' = (pre ++ tag c (d ++ [a]))%list).
  { rewrite Hd, Hdma, <- app_assoc. unfold tag. rewrite map_app. reflexivity. }
  exists (w ++ [a])%list. split_and!; [done | | ].
  - assert (Hold : started_by c (dma s) = started_by c pre) by (rewrite Hdma; eapply started_part; [exact Hbd | done]).
    rewrite Hold in Hs. pose proof (zlen_nonneg todo). rewrite zlen_app. change (zlen [a]) with 1.
    replace (zlen w / 18) with (h_i h) in Hs by (Z.div_mod_to_equations; lia).
    destruct todo as [| a' todo].
    + replace ((zlen w + 1) / 18) with (h_i h + 1) by (change (zlen []) with 0 in *; Z.div_mod_to_equations; lia).
      rewrite (first_blocks_S n lvl (h_i h) b Hb), map_app, app_assoc, <- Hs, Htag, <- Hbd. apply started_program.
    + rewrite zlen_cons in *. pose proof (zlen_nonneg todo).
      replace ((zlen w + 1) / 18) with (h_i h) by (Z.div_mod_to_equations; lia).
      rewrite <- Hs, Htag. eapply (started_part b pre (d ++ [a]) (a' :: todo)); [| done].
      rewrite <- app_assoc. exact Hbd.
  - intros h2 st2 todo2 H2 Hp2. rewrite Hh' in H2. injection H2 as <-. rewrite Eph' in Hp2. injection Hp2 as <- <-.
    exists pre, (d ++ [a])%list, b. rewrite Hi. split_and!; [done | | done]. rewrite <- app_assoc. exact Hbd.
Qed.
(** The two writes that give up a transfer. *)
Lemma chained_abandon own0 started0 s s' h h' a todo :
  collecting env c n lvl own0 (view c s) → helper_of s c = Some h → helper_of s' c = Some h' →
  ph h = Abandon (a :: todo) → ph h' = Abandon todo → dma s' = (dma s ++ [(Helper c, a)])%list →
  chained own0 started0 s → chained own0 started0 s'.
Proof.
  intros (_ & _ & w & Hw & Hp) Hh Hh' Eph Eph' Hd (w1 & Hw1 & Hs & _).
  cbn in Hw, Hp. rewrite Hh in Hp.
  assert (w1 = w) as -> by (rewrite Hw in Hw1; apply app_inv_head in Hw1; done).
  unfold progress in Hp. rewrite Eph in Hp. destruct Hp as ((_ & _ & H0 & _) & Hi & d & Hab & Hwd).
  assert (Hlen : zlen w = 18 * (h_i h + 1) + zlen d).
  { rewrite Hwd, zlen_app, programs_length, first_blocks_length by lia. lia. }
  assert (Hd2 : zlen d + 1 + zlen todo = 2).
  { pose proof (f_equal zlen Hab) as Hl. rewrite zlen_app, zlen_cons in Hl. change (zlen abandon) with 2 in Hl. lia. }
  pose proof (zlen_nonneg d). pose proof (zlen_nonneg todo).
  exists (w ++ [a])%list. split_and!.
  - rewrite (own_snoc s s' a Hd), Hw, <- app_assoc. done.
  - rewrite Hd, started_quiet, Hs.
    + rewrite zlen_app. change (zlen [a]) with 1. do 3 f_equal. Z.div_mod_to_equations; lia.
    + intros ->. assert (Hin : PWr (PLX9656_DMACSR 1) 3 ∈ abandon) by (rewrite Hab; apply elem_of_app; right; left).
      unfold abandon in Hin. rewrite !elem_of_cons in Hin.
      destruct Hin as [Hin | [Hin | Hin%elem_of_nil]]; [discriminate | discriminate | done].
  - intros h2 st2 todo2 H2 Hp2. rewrite Hh' in H2. injection H2 as <-. congruence.
Qed.

(** A step that begins a program. *)
Lemma chained_begin own0 started0 s s' h h' :
  collecting env c n lvl own0 (view c s') → helper_of s c = Some h → helper_of s' c = Some h' →
  (∀ st todo, ph h' = Program st todo → zlen todo = 18) → dma s' = dma s →
  chained own0 started0 s → chained own0 started0 s'.
Proof.
  intros (_ & _ & w' & Hw' & Hp') Hh Hh' H18 Hd (w & Hw & Hs & _). cbn in Hw', Hp'. rewrite Hh' in Hp'.
  exists w. split_and!.
  - rewrite own_dma, Hd, <- own_dma. exact Hw.
  - rewrite Hd. exact Hs.
  - intros h2 st todo H2 Eph. rewrite Hh' in H2. injection H2 as <-.
    destruct (program_position _ h' st todo _ Hp' Eph) as (_ & b & d & Hb & Hbd & _).
    exists (dma s), d, b. split_and!; [done | done |]. rewrite Hd.
    pose proof (program_length b) as Hlen. rewrite Hbd, zlen_app, (H18 st todo Eph) in Hlen.
    destruct d as [| x d]; [unfold tag; cbn; rewrite app_nil_r; done |].
    rewrite zlen_cons in Hlen. pose proof (zlen_nonneg d). lia.
Qed.

Lemma chained_step own0 started0 t s s' h : helper_of s c = Some h → one_at_a_time s t (Step c) →
  exclusive s → wait_for_channel env c t s = Ok (tt, s') →
  watched env c n lvl own0 s → watched env c n lvl own0 s' →
  chained own0 started0 s → chained own0 started0 s'.
Proof.
  intros Hh HD Hx H [Hv _] [Hv' _] Hch.
  destruct (exclusive_step c t s s' h Hh HD Hx H) as (_ & h' & Hh' & Hstep & _).
  assert (Hquiet : (∀ st todo, ph h' ≠ Program st todo) ∧ dma s' = dma s → chained own0 started0 s').
  { intros [Hq Hd]. apply (chained_begin own0 started0 s s' h h'); try assumption.
    intros st todo E. destruct (Hq st todo E). }
  assert (Hin : in_transfer (ph h') = false ∧ dma s' = dma s → chained own0 started0 s').
  { intros [Hq Hd]. apply Hquiet. split; [intros st todo E; rewrite E in Hq; discriminate | done]. }
  destruct (ph h) as [| | | | | | st [| a todo] | | [| a todo] | |] eqn:Eph; auto.
  - destruct Hstep as [H18 Hd]. apply (chained_begin own0 started0 s s' h h'); assumption.
  - destruct Hstep as (_ & Hq & Hd). auto.
  - destruct Hstep as [Ep Hd]. apply (chained_write own0 started0 s s' h h' st a todo); assumption.
  - destruct Hstep as [Ep Hd]. apply (chained_abandon own0 started0 s s' h h' a todo); assumption.
Qed.

Definition careful (s : gc314) (t : Z) (e : event) : Prop := undisturbed c s t e ∧ one_at_a_time s t e.

Lemma chained_exec own0 started0 t s l s' : exec env careful t s l s' →
  watched env c n lvl own0 s → exclusive s → chained own0 started0 s →
  watched env c n lvl own0 s' ∧ exclusive s' ∧ chained own0 started0 s'.
Proof.
  induction 1 as [| t s t' e s1 l s2 Ht He [HD1 HD2] Hp _ IH]; [done |]. intros Hw Hx Hch.
  destruct e as [q | | c1]; cbn [perform] in Hp.
  - pose proof (calms_devctl q s tt s1 Hp) as Hcalm. apply IH.
    + eapply watched_request; eassumption.
    + exact (exclusive_calmer s s1 Hcalm Hx).
    + apply (chained_calmer own0 started0 s); [| exact (dma_devctl env q s tt s1 Hp) | exact Hcalm | exact Hch].
      exact (f_equal v_own (view_devctl env c q HD1 s tt s1 Hp)).
  - pose proof (calms_resume s tt s1 Hp) as Hcalm. pose proof (dma_resume s tt s1 Hp) as Hd. apply IH.
    + eapply watched_resume; eassumption.
    + exact (exclusive_calmer s s1 Hcalm Hx).
    + apply (chained_calmer own0 started0 s); [| exact Hd | exact Hcalm | exact Hch].
      rewrite !own_dma, Hd. reflexivity.
  - cbn [enabled] in He. destruct (helper_of s c1) as [h |] eqn:Hh; [| discriminate].
    assert (Hw1 : watched env c n lvl own0 s1).
    { assert (He' : enabled t' (Step c1) s = true) by (cbn [enabled]; rewrite Hh; exact He).
      eapply watched_step; first [exact He' | eassumption | lia]. }
    apply IH; [exact Hw1 | exact (proj1 (exclusive_step c1 t' s s1 h Hh HD2 Hx Hp)) |].
    destruct (decide (c1 = c)) as [-> | Hne].
    + exact (chained_step own0 started0 t' s s1 h Hh HD2 Hx Hp Hw Hw1 Hch).
    + exact (chained_other own0 started0 c1 t' s s1 h Hne Hh HD2 Hx Hp Hch).
Qed.
End Exclusive.

(** ** Every helper ends *)

Section Ending.
Context (env : gc314_env) (c n lvl : Z).
Context (Hc : 0 ≤ c < 4) (Hn : 0 ≤ n) (Hlvl : 0 < lvl).

(** A helper that sleeps is not kept from running for two seconds longer. *)
Definition prompt (s : gc314) (t : Z) (e : event) : Prop :=
  match e with
  | Step c1 => c1 = c → ∀ h, helper_of s c = Some h →
      match ph h with
      | AwaitLevel _ wake _ | AwaitFrame _ wake => t ≤ wake + 2000000000
      | _ => True
      end
  | _ => True
  end.

(** The polls left of a wait for the fifo and of a wait for the engine. *)
Definition polls (start wake : Z) : Z := (DMA_NSEC_TIMEOUT + 50000 - (wake - start)) / 50000 + 1.
Definition dma_polls (start wake : Z) : Z := Z.max 0 (3000000001 - (wake - start)) + 1.

(** The steps left of a transfer, at most. *)
Definition transfer_steps : Z := 20002 + 19 + 3000000002 + 5.

Definition steps_in (p : phase) : Z :=
  match p with
  | EnterLevel | EnterFrame => transfer_steps
  | AwaitLevel start wake _ | AwaitFrame start wake => polls start wake + 19 + 3000000002 + 4
  | EnterTransfer => 19 + 3000000002 + 4
  | Program _ todo => zlen todo + 1 + 3000000002 + 3
  | AwaitDone start wake => dma_polls start wake + 3
  | Abandon todo => zlen todo + 1
  | _ => 0
  end.

(** The steps left of a helper in phase [p] of transfer [i], at most. *)
Definition steps_at (i : Z) (p : phase) : Z :=
  match p with
  | Begin => zlen (blocks n lvl) * transfer_steps + 6
  | Finish todo => zlen todo + 1
  | Exited => 0
  | p => (zlen (blocks n lvl) - i - 1) * transfer_steps + steps_in p + 5
  end.

Definition steps_left (h : helper) : Z := steps_at (h_i h) (ph h).

(** The times of a wait. *)
Definition timed (t : Z) (p : phase) : Prop :=
  match p with
  | AwaitLevel start wake _ | AwaitFrame start wake => 0 ≤ wake - start ≤ DMA_NSEC_TIMEOUT + 50000
  | Program start _ => start ≤ t
  | _ => True
  end.

Definition max_steps : Z := zlen (blocks n lvl) * transfer_steps + 6.

Lemma polls_pos start wake : wake - start ≤ DMA_NSEC_TIMEOUT + 50000 → 1 ≤ polls start wake.
Proof.
  intros H. unfold polls. pose proof (Z.div_pos (DMA_NSEC_TIMEOUT + 50000 - (wake - start)) 50000 ltac:(lia) ltac:(lia)). lia.
Qed.

Lemma polls_less start wake t : wake ≤ t → polls start (t + 50000) < polls start wake.
Proof.
  intros H. unfold polls, DMA_NSEC_TIMEOUT. Z.div_mod_to_equations. lia.
Qed.

Lemma elapsed_small start wake t : 0 ≤ wake - start ≤ DMA_NSEC_TIMEOUT + 50000 → wake ≤ t ≤ wake + 2000000000 →
  elapsed start t = t - start.
Proof. unfold elapsed, DMA_NSEC_TIMEOUT. intros H1 H2. apply u32_id. lia. Qed.

Lemma transfer_steps_value : transfer_steps = 3000020028.
Proof. reflexivity. Qed.

Lemma steps_next t h : h_i h ≤ zlen (blocks n lvl) →
  steps_at (h_i h) (next_phase c h) ≤ (zlen (blocks n lvl) - h_i h) * transfer_steps + 5 ∧ timed t (next_phase c h).
Proof.
  intros Hi. pose proof transfer_steps_value as HT. unfold next_phase.
  destruct (h_i h <? h_loops h); [| destruct ((h_i h =? h_loops h) && (0 <? h_remaining h))].
  all: split; [| exact I]; cbn [steps_at steps_in]; rewrite HT.
  - lia.
  - lia.
  - change (zlen (stop_registers c)) with 3. lia.
Qed.

(** What a step leaves: fewer steps, and a timed wait. *)
Definition fewer (t : Z) (h : helper) : unit → chan_view → Prop :=
  fun _ v => ∃ h', v_helper v = Some h' ∧ steps_left h' < steps_left h ∧ timed t (ph h').

Lemma fewer_go t v h0 h p : steps_at (h_i h) p < steps_left h0 → timed t p →
  leads_view (view c) v (go_helper c h p) (fewer t h0).
Proof. intros Hs Ht. apply lv_go. eexists. split; [reflexivity |]. split; [exact Hs | exact Ht]. Qed.

Lemma fewer_leave t v h st : h_i h < zlen (blocks n lvl) →
  (∃ start wake e, (ph h = AwaitLevel start wake e ∨ ph h = AwaitFrame start wake) ∧ 1 ≤ polls start wake) →
  leads_view (view c) v (leave_wait c h st) (fewer t h).
Proof.
  intros Hi (start & wake & e & Hp & Hpolls). unfold leave_wait. apply lv_set_stat.
  pose proof transfer_steps_value as HT.
  assert (Hleft : steps_left h = (zlen (blocks n lvl) - h_i h - 1) * transfer_steps +
                    (polls start wake + 19 + 3000000002 + 4) + 5).
  { unfold steps_left. destruct Hp as [-> | ->]; reflexivity. }
  apply fewer_go; [| destruct (st =? 0); exact I]. rewrite Hleft, HT.
  destruct (st =? 0); cbn [steps_at steps_in]; [rewrite HT; lia |].
  change (zlen (stop_registers c)) with 3. lia.
Qed.

Lemma fewer_transferred t v h st : h_i h < zlen (blocks n lvl) →
  (zlen (blocks n lvl) - h_i h - 1) * transfer_steps + 6 ≤ steps_left h →
  leads_view (view c) v (transferred c h st) (fewer t h).
Proof.
  intros Hi Hleft. unfold transferred. apply lv_set_stat. apply lv_keeps; [keep |]. intros _.
  apply lv_keeps; [keep |]. intros size. apply lv_int_op. cbv zeta.
  set (h' := (h <| h_i ::= Z.succ |>) <| h_scount := h_scount h + size |>).
  pose proof transfer_steps_value as HT.
  assert (Hi' : h_i h' = h_i h + 1) by reflexivity.
  destruct (st =? 0).
  - destruct (steps_next t h') as [Hn1 Ht1]; [lia |]. apply fewer_go; [| exact Ht1]. rewrite Hi' in *. lia.
  - apply fewer_go; [| exact I]. cbn [steps_at]. change (zlen (stop_registers c)) with 3. lia.
Qed.

(** A poll of a wait of at most a second. *)
Lemma fewer_poll v h start wake st t p : h_i h < zlen (blocks n lvl) →
  (∃ e, ph h = AwaitLevel start wake e ∧ p = AwaitLevel start (t + 50000) st ∨
        ph h = AwaitFrame start wake ∧ p = AwaitFrame start (t + 50000)) →
  0 ≤ wake - start ≤ DMA_NSEC_TIMEOUT + 50000 → wake ≤ t ≤ wake + 2000000000 →
  (DMA_NSEC_TIMEOUT <? elapsed start t) = false →
  leads_view (view c) v (go_helper c h p) (fewer t h).
Proof.
  intros Hi (e & Hp) Hw Ht He. rewrite (elapsed_small start wake t Hw Ht) in He. apply Z.ltb_ge in He.
  pose proof (polls_less start wake t ltac:(lia)) as Hless.
  apply fewer_go.
  - unfold steps_left. destruct Hp as [[-> ->] | [-> ->]]; cbn [steps_at steps_in]; lia.
  - destruct Hp as [[_ ->] | [_ ->]]; cbn [timed]; lia.
Qed.

Lemma step_fewer base v h t : v_helper v = Some h → collecting env c n lvl base v → timed t (ph h) →
  awake t (ph h) = true →
  match ph h with AwaitLevel _ wake _ | AwaitFrame _ wake => t ≤ wake + 2000000000 | _ => True end →
  leads_view (view c) v (wait_for_channel env c t) (fewer t h).
Proof.
  intros Hh (Hs & Hl & w & Ho & Hp) Htm Haw Hpr. rewrite Hh in Hp.
  unfold wait_for_channel. apply (lv_get c v helpers _ (Some h)).
  { intros s Hv. assert (Hhs : helper_of s c = Some h) by (rewrite <- Hv in Hh; exact Hh).
    unfold helper_of in Hhs. destruct (zget (helpers s) c); [left; congruence | discriminate]. }
  apply (lv_bind (view c) _ _ _ (fun a v' => a = h ∧ v' = v)).
  { intros s a s' Hv Hd. injection Hd as -> ->. done. }
  intros h0 v' [-> ->]. unfold progress in Hp. pose proof transfer_steps_value as HT.
  pose proof (blocks_length n lvl Hlvl Hn) as Hlen.
  destruct (ph h) as [| | start wake e | | start wake | | start todo | start wake | todo | todo |] eqn:Eph;
    cbn [awake] in Haw; cbn [timed] in Htm.
  - apply lv_set_stat. apply lv_keeps; [keep |]. intros p. apply lv_keeps; [keep |]. intros lv.
    apply lv_keeps; [keep |]. intros k. apply lv_keeps; [keep |]. intros r. cbv zeta.
    set (h' := mk_helper Begin 0 k r 0). destruct (steps_next t h') as [Hn1 Ht1]; [apply zlen_nonneg |].
    apply fewer_go; [| exact Ht1]. unfold steps_left. rewrite Eph. cbn [steps_at]. change (h_i h') with 0 in *. lia.
  - apply fewer_go; [| cbn [timed]; unfold DMA_NSEC_TIMEOUT; lia]. unfold steps_left. rewrite Eph.
    cbn [steps_at steps_in]. rewrite HT. unfold polls, DMA_NSEC_TIMEOUT. rewrite Z.sub_diag.
    change ((1000000000 + 50000 - 0) / 50000) with 20001. lia.
  - destruct Hp as (Hct & Hi & _). assert (Hib : h_i h < zlen (blocks n lvl)) by (rewrite Hlen; case_match; lia).
    assert (Hleave : ∃ start0 wake0 e0, (ph h = AwaitLevel start0 wake0 e0 ∨ ph h = AwaitFrame start0 wake0) ∧
              1 ≤ polls start0 wake0) by (exists start, wake, e; split; [auto | apply polls_pos; lia]).
    apply lv_keeps; [apply view_rd32 |]. intros status. cbv zeta.
    destruct (bits_set status 131072); [apply fewer_leave; done |].
    destruct (DMA_NSEC_TIMEOUT <? elapsed start t) eqn:Et; [apply fewer_leave; done |].
    eapply fewer_poll; [exact Hib | exists e; left; split; [exact Eph | reflexivity] | lia | lia | exact Et].
  - apply fewer_go; [| cbn [timed]; unfold DMA_NSEC_TIMEOUT; lia]. unfold steps_left. rewrite Eph.
    cbn [steps_at steps_in]. rewrite HT. unfold polls, DMA_NSEC_TIMEOUT. rewrite Z.sub_diag.
    change ((1000000000 + 50000 - 0) / 50000) with 20001. lia.
  - destruct Hp as (Hct & Hi & Hm & _).
    assert (Hib : h_i h < zlen (blocks n lvl)) by (rewrite Hlen, (proj2 (Z.ltb_lt _ _)) by done; lia).
    assert (Hleave : ∃ start0 wake0 e0, (ph h = AwaitLevel start0 wake0 e0 ∨ ph h = AwaitFrame start0 wake0) ∧
              1 ≤ polls start0 wake0) by (exists start, wake, 0; split; [auto | apply polls_pos; lia]).
    apply lv_keeps; [apply view_rd32 |]. intros r. cbv zeta.
    destruct (frame_count env <? (if c =? 0 then i32 r else u16 r)).
    + apply lv_keeps; [apply view_rd32 |]. intros status. apply fewer_leave; done.
    + destruct (DMA_NSEC_TIMEOUT <? elapsed start t) eqn:Et.
      * apply lv_keeps; [apply view_rd32 |]. intros _. apply fewer_leave; done.
      * eapply (fewer_poll _ _ _ _ 0); [exact Hib | exists 0; right; split; [exact Eph | reflexivity] | lia | lia | exact Et].
  - apply lv_int_op. apply lv_keeps; [keep |]. intros size. apply fewer_go; [| cbn [timed]; lia].
    unfold steps_left. rewrite Eph. cbn [steps_at steps_in]. change (zlen (transfer_program _ _ _ _)) with 18. lia.
  - destruct todo as [| a todo].
    + apply fewer_go; [| exact I]. unfold steps_left. rewrite Eph. cbn [steps_at steps_in].
      change (zlen []) with 0. unfold dma_polls. lia.
    + destruct Hp as (_ & _ & b & d & _ & Hd & _).
      pose proof (program_dma env c b) as Hall. rewrite Hd, Forall_app, Forall_cons in Hall.
      apply lv_log; [tauto |]. apply fewer_go; [| exact Htm].
      unfold steps_left. rewrite Eph. cbn [steps_at steps_in]. rewrite zlen_cons. lia.
  - apply lv_keeps; [apply view_log; unfold own_write; cbn; apply andb_false_r |]. intros _.
    apply lv_keeps; [apply view_answer |]. intros r. destruct Hp as (_ & Hi & _).
    destruct (bits_set (u8 r) 16).
    + apply fewer_transferred; [done |]. unfold steps_left. rewrite Eph. cbn [steps_at steps_in]. unfold dma_polls. lia.
    + destruct (DMA_TIMEOUT <? t / 1000000000 - start / 1000000000) eqn:Et.
      * apply fewer_go; [| exact I]. unfold steps_left. rewrite Eph. cbn [steps_at steps_in].
        change (zlen [_; _]) with 2. unfold dma_polls. lia.
      * apply fewer_go; [| exact I]. unfold steps_left. rewrite Eph. cbn [steps_at steps_in].
        apply Z.ltb_ge in Et. unfold DMA_TIMEOUT in Et. unfold dma_polls. Z.div_mod_to_equations. lia.
  - destruct Hp as (_ & Hi & d & Hab). destruct todo as [| a todo].
    + apply fewer_transferred; [done |]. unfold steps_left. rewrite Eph. cbn [steps_at steps_in].
      change (zlen []) with 0. lia.
    + assert (Hall : Forall (fun a => dma_write a = true) abandon) by repeat constructor.
      rewrite (proj1 Hab), Forall_app, Forall_cons in Hall.
      apply lv_log; [tauto |]. apply fewer_go; [| exact I]. unfold steps_left. rewrite Eph.
      cbn [steps_at steps_in]. rewrite zlen_cons. lia.
  - destruct todo as [| reg todo].
    + apply lv_keeps; [keep |]. intros _. apply fewer_go; [| exact I]. unfold steps_left. rewrite Eph.
      cbn [steps_at]. change (zlen []) with 0. lia.
    + destruct Hp as [_ Hlow]. inversion_clear Hlow. apply lv_keeps; [apply view_or32; done |]. intros _. apply fewer_go; [| exact I]. unfold steps_left.
      rewrite Eph. cbn [steps_at]. rewrite zlen_cons. lia.
  - discriminate.
Qed.

(** ** How many steps a helper takes *)

Definition steps_of (l : list (Z * event)) : Z :=
  countb (fun x => match x.2 with Step c1 => c1 =? c | _ => false end) l.

(** The steps of the helper are bounded by what its state says is left. *)
Definition left_in (s : gc314) : Z :=
  match helper_of s c with Some h => steps_left h | None => 0 end.

Definition on_time (t : Z) (s : gc314) : Prop :=
  match helper_of s c with Some h => timed t (ph h) ∧ 0 ≤ steps_left h | None => True end.

Definition unhurried (s : gc314) (t : Z) (e : event) : Prop := undisturbed c s t e ∧ prompt s t e.

Lemma in_block w h st : progress env c n lvl w h st →
  match ph h with Begin | Finish _ | Exited => True | _ => h_i h < zlen (blocks n lvl) end.
Proof.
  pose proof (blocks_length n lvl Hlvl Hn) as Hlen. unfold progress.
  destruct (ph h); try done; try (intros (_ & Hi & _); exact Hi).
  - intros (_ & Hi & _). rewrite Hlen. destruct (0 <? n mod lvl); lia.
  - intros (_ & Hi & _). rewrite Hlen. destruct (0 <? n mod lvl); lia.
  - intros (_ & Hi & Hm & _). rewrite Hlen, (proj2 (Z.ltb_lt _ _)) by done. lia.
  - intros (_ & Hi & Hm & _). rewrite Hlen, (proj2 (Z.ltb_lt _ _)) by done. lia.
Qed.

Lemma steps_nonneg w h st t : progress env c n lvl w h st → timed t (ph h) →
  0 ≤ steps_left h ∧ (ph h ≠ Exited → 0 < steps_left h).
Proof.
  intros Hp Ht. pose proof transfer_steps_value as HT. pose proof (in_block w h st Hp) as Hi.
  pose proof (zlen_nonneg (blocks n lvl)) as Hz. unfold steps_left.
  destruct (ph h) as [| | start wake e | | start wake | | start todo | start wake | todo | todo |];
    cbn [steps_at steps_in]; try rewrite HT; try pose proof (zlen_nonneg todo); try (split; [lia | done || lia]).
  - pose proof (polls_pos start wake ltac:(cbn in Ht; lia)). split; [| intros _]; lia.
  - pose proof (polls_pos start wake ltac:(cbn in Ht; lia)). split; [| intros _]; lia.
  - unfold dma_polls. split; [| intros _]; lia.
Qed.

Lemma timed_later t t' p : t ≤ t' → timed t p → timed t' p.
Proof. destruct p; cbn; lia. Qed.

Definition timely (t : Z) (s : gc314) : Prop := ∀ h, helper_of s c = Some h → timed t (ph h).

(** What is left decreases with every step of the helper and never grows. *)
Lemma left_step base t t' s s' e : t ≤ t' → enabled t' e s = true → unhurried s t' e →
  perform env t' e s = Ok (tt, s') → watched env c n lvl base s → timely t s →
  timely t' s' ∧ left_in s' + (match e with Step c1 => if c1 =? c then 1 else 0 | _ => 0 end) ≤ left_in s.
Proof.
  intros Ht He [HD Hpr] Hp Hw Htm. pose proof Hw as [Hv Hh].
  assert (Hsame : helper_of s' c = helper_of s c → timely t' s' ∧ left_in s' ≤ left_in s).
  { intros E. unfold timely, left_in. rewrite E. split; [| lia].
    intros h Hs. apply (timed_later t t' _ Ht), Htm, Hs. }
  destruct e as [q | | c1]; cbn [perform] in Hp.
  - rewrite Z.add_0_r. apply Hsame. exact (f_equal v_helper (view_devctl env c q HD s tt s' Hp)).
  - rewrite Z.add_0_r. destruct (resume_view c t' s s' He Hh Hp) as [E | [E _]].
    + apply Hsame. exact (f_equal v_helper E).
    + pose proof (f_equal v_helper E) as E'. cbn in E'. unfold timely, left_in. rewrite E'. split; [discriminate |].
      destruct (helper_of s c) as [h |] eqn:Hs; [| lia]. destruct Hv as (_ & _ & w & _ & Hpg). cbn in Hpg.
      rewrite Hs in Hpg. exact (proj1 (steps_nonneg w h _ t Hpg (Htm h Hs))).
  - destruct (Z.eqb_spec c1 c) as [-> | Hne].
    + cbn [enabled] in He. destruct (helper_of s c) as [h |] eqn:Hs; [| discriminate].
      destruct (step_fewer base (view c s) h t' Hs Hv (timed_later t t' _ Ht (Htm h Hs)) He) with (s := s) (a := tt) (s' := s')
        as (h' & Hh' & Hless & Htm'); [| done | exact Hp |].
      { specialize (Hpr eq_refl h Hs). destruct (ph h); try exact I; exact Hpr. }
      cbn in Hh'. unfold timely, left_in. rewrite Hs, Hh'. split; [intros h2 [= <-]; exact Htm' | lia].
    + rewrite Z.add_0_r. apply Hsame.
      exact (f_equal v_helper (view_step env c c1 t' (not_eq_sym Hne) s tt s' Hp)).
Qed.

Lemma left_exec base t s l s' : exec env unhurried t s l s' → watched env c n lvl base s → timely t s →
  watched env c n lvl base s' ∧ (∃ t', timely t' s') ∧ left_in s' + steps_of l ≤ left_in s.
Proof.
  induction 1 as [| t s t' e s1 l s2 Ht He HD Hp _ IH]; intros Hw Htm.
  - split_and!; [exact Hw | exists t; exact Htm |]. unfold steps_of. cbn. lia.
  - destruct (left_step base t t' s s1 e Ht He HD Hp Hw Htm) as [Htm1 Hleft].
    assert (Hw1 : watched env c n lvl base s1).
    { destruct HD as [HD _]. destruct e as [q | | c1]; cbn [perform] in Hp.
      - eapply watched_request; eassumption.
      - eapply watched_resume; eassumption.
      - eapply watched_step; first [exact He | eassumption | lia]. }
    destruct (IH Hw1 Htm1) as (Hw2 & Htm2 & Hle). split_and!; [exact Hw2 | exact Htm2 |]. unfold steps_of in *. cbn [countb].
    assert (Heq : (if match e with Step c1 => c1 =? c | _ => false end then 1 else 0) =
                  match e with Step c1 => if c1 =? c then 1 else 0 | _ => 0 end) by (destruct e; reflexivity).
    cbn [snd]. rewrite Heq. lia.
Qed.
End Ending.

(** ** No step of a helper faults *)

Section Total.
Context (env : gc314_env) (c n lvl : Z).
Context (Hc : 0 ≤ c < 4) (Hn : 0 ≤ n < 2 ^ 29) (Hlvl : 0 < lvl).

(** The lengths of the arrays of main.c. *)
Definition lens (s : gc314) : list Z :=
  [zlen (chan s); zlen (channel_on_off s); zlen (channel_waiting s); zlen (channel_stat s);
   zlen (fifo_lvl s); zlen (skip s); zlen (GC4016 s); zlen (resampratios s); zlen (helpers s)].

Definition sized (s : gc314) : Prop := lens s = [4; 4; 4; 4; 4; 4; 4; 4; 4].

Lemma lens_set {A} (g : gc314 → list A) upd c' v :
  (∀ s l, zlen l = zlen (g s) → lens (upd l s) = lens s) → keeps lens (set_at g upd c' v).
Proof. intros H s [] s' (l & Hl & ->)%set_at_inv. apply H, (zlen_zset _ _ _ _ Hl). Qed.

Ltac lens_tac := apply lens_set; intros s l Hl; unfold lens; cbn; rewrite Hl; reflexivity.

Lemma lens_chan c' v : keeps lens (set_chan c' v). Proof. lens_tac. Qed.
Lemma lens_on_off c' v : keeps lens (set_on_off c' v). Proof. lens_tac. Qed.
Lemma lens_waiting c' v : keeps lens (set_waiting c' v). Proof. lens_tac. Qed.
Lemma lens_stat c' v : keeps lens (set_stat c' v). Proof. lens_tac. Qed.
Lemma lens_fifo c' v : keeps lens (set_fifo_lvl c' v). Proof. lens_tac. Qed.
Lemma lens_skip c' v : keeps lens (set_skip c' v). Proof. lens_tac. Qed.
Lemma lens_helper c' v : keeps lens (set_helper c' v). Proof. lens_tac. Qed.
Lemma lens_go c' h p : keeps lens (go_helper c' h p). Proof. lens_tac. Qed.
Lemma lens_create c' : keeps lens (create c'). Proof. lens_tac. Qed.

#[local] Hint Resolve lens_chan lens_on_off lens_waiting lens_stat lens_fifo lens_skip lens_helper lens_go
  lens_create : gcview.

Lemma lens_update c' : keeps lens (update_channel env c').
Proof.
  unfold update_channel. apply keeps_when. apply gc_keeps_bind; [keep | intros p]. cbv zeta.
  intros s a s' H.
  apply bind_inv in H as (l & s1 & [= <- <-] & H). apply bind_inv in H as (l2 & s2 & Hd & H).
  unfold deref in Hd. destruct (zset (GC4016 s) c' _) as [l3 |] eqn:E; [| discriminate]. injection Hd as <- <-.
  apply bind_inv in H as (? & s3 & [= <- <-] & H). apply bind_inv in H as (? & s4 & [= <- <-] & H).
  apply bind_inv in H as (r & s5 & [= <- <-] & H). apply bind_inv in H as (r2 & s6 & Hd & H).
  unfold deref in Hd. cbn [resampratios] in Hd.
  destruct (zset _ (ch_channel p) _) as [r3 |] eqn:E2 in Hd; [| discriminate]. injection Hd as <- <-.
  apply bind_inv in H as (? & s7 & [= <- <-] & H). rewrite (lens_skip _ _ _ _ _ H).
  apply zlen_zset in E, E2. cbn in E2. unfold lens. cbn. rewrite E, E2. reflexivity.
Qed.

#[local] Hint Resolve lens_update : gcview.

Lemma lens_command x : keeps lens (command env x).
Proof. destruct x; cbn [command]; keep. Qed.

#[local] Hint Resolve lens_command : gcview.

Lemma lens_perform t e : keeps lens (perform env t e).
Proof.
  destruct e as [q | | c1]; cbn [perform].
  - destruct q as [x | ch chip |]; cbn [io_devctl]; [| unfold respond; keep ..].
    destruct x; unfold go, respond, start_rest; keep.
  - unfold resume. apply gc_keeps_bind; [keep | intros p]. destruct p; unfold go, respond, start_rest; keep.
  - unfold wait_for_channel, leave_wait, transferred. keep.
Qed.

Lemma sized_exec D t s l s' : exec env D t s l s' → sized s → sized s'.
Proof. induction 1; [done |]. intros Hs. apply IHexec. unfold sized. erewrite lens_perform by eassumption. exact Hs. Qed.

(** What a step of a helper needs: the arrays, and the settings of its channel. *)
Definition shape (s : gc314) : list Z * option Z * option Z :=
  (lens s, ch_samples <$> zget (chan s) c, zget (fifo_lvl s) c).

Definition shaped : list Z * option Z * option Z := ([4; 4; 4; 4; 4; 4; 4; 4; 4], Some n, Some lvl).

(** [goes m R]: from such a state [m] ends, with a result of [R] and such a state. *)
Definition goes {A} (m : DM A) (R : A → Prop) : Prop :=
  ∀ s, shape s = shaped → ∃ a s', m s = Ok (a, s') ∧ R a ∧ shape s' = shaped.

Lemma goes_bind {A B} (m : DM A) (k : A → DM B) R Q :
  goes m R → (∀ a, R a → goes (k a) Q) → goes (m ≫= k) Q.
Proof.
  intros Hm Hk s Hs. destruct (Hm s Hs) as (a & s1 & E & Ha & Hs1).
  destruct (Hk a Ha s1 Hs1) as (b & s2 & E2 & Hb & Hs2). exists b, s2.
  rewrite (bind_ok m k s a s1 E). done.
Qed.

Lemma goes_then {A B} (m : DM A) (k : A → DM B) Q :
  goes m (fun _ => True) → (∀ a, goes (k a) Q) → goes (m ≫= k) Q.
Proof. intros Hm Hk. apply (goes_bind m k (fun _ => True)); auto. Qed.

Lemma goes_ret {A} (a : A) (R : A → Prop) : R a → goes (mret a) R.
Proof. intros Ha s Hs. exists a, s. done. Qed.

Lemma goes_int_op z (R : Z → Prop) : is_int z → R z → goes (int_op z) R.
Proof. intros Hz HR s Hs. exists z, s. unfold int_op. rewrite bool_decide_true by exact Hz. done. Qed.

Lemma goes_answer : goes (answer env) (fun _ => True).
Proof. intros s Hs. eexists _, s. split; [reflexivity | done]. Qed.

Lemma goes_log w a : goes (log w a) (fun _ => True).
Proof. intros s Hs. eexists _, _. split; [reflexivity |]. split; [done | exact Hs]. Qed.

Lemma goes_rd32 w reg : goes (rd32 env w reg) (fun _ => True).
Proof. apply goes_then; [apply goes_log | intros; apply goes_answer]. Qed.

Lemma goes_or32 w reg m : goes (or32 env w reg m) (fun _ => True).
Proof. apply goes_then; [apply goes_rd32 | intros; apply goes_log]. Qed.

(** An array of four elements. *)
Lemma goes_set {A} (g : gc314 → list A) upd v :
  (∀ s, shape s = shaped → zlen (g s) = 4) → (∀ s l, zlen l = zlen (g s) → shape (upd l s) = shape s) →
  goes (set_at g upd c v) (fun _ => True).
Proof.
  intros H4 Hupd s Hs. pose proof (zset_Some (g s) c v ltac:(rewrite (H4 s Hs); exact Hc)) as Hl.
  eexists tt, (upd _ s). split_and!; [| done |].
  - unfold set_at. rewrite gets_then, Hl, deref_then. reflexivity.
  - rewrite Hupd; [exact Hs | exact (zlen_zset _ _ _ _ Hl)].
Qed.

Lemma shape_lens s : shape s = shaped → lens s = [4; 4; 4; 4; 4; 4; 4; 4; 4].
Proof. intros [= ?]. unfold lens. congruence. Qed.

Ltac goes_set_tac :=
  apply goes_set;
  [ intros s Hs; pose proof (shape_lens s Hs) as Hl; unfold lens in Hl; congruence
  | intros s l Hl; unfold shape, lens; cbn; rewrite Hl; reflexivity ].

Lemma goes_stat st : goes (set_stat c st) (fun _ => True). Proof. goes_set_tac. Qed.
Lemma goes_on_off v : goes (set_on_off c v) (fun _ => True). Proof. goes_set_tac. Qed.
Lemma goes_go h p : goes (go_helper c h p) (fun _ => True). Proof. goes_set_tac. Qed.

Lemma goes_lvl : goes (get_at fifo_lvl c) (fun a => a = lvl).
Proof.
  intros s Hs. assert (Hl : zget (fifo_lvl s) c = Some lvl) by (injection Hs; auto). exists lvl, s.
  unfold get_at. rewrite gets_then, Hl. done.
Qed.

Lemma goes_chan : goes (get_at chan c) (fun p => ch_samples p = n).
Proof.
  intros s Hs. assert (Hp : ch_samples <$> zget (chan s) c = Some n) by (injection Hs; auto).
  destruct (zget (chan s) c) as [p |] eqn:E; [| discriminate]. exists p, s.
  unfold get_at. rewrite gets_then, E. injection Hp as Hp. done.
Qed.

(** The size of a transfer. *)
Lemma goes_size h : goes (if h_i h <? h_loops h then get_at fifo_lvl c else mret (h_remaining h))
  (fun a => a = if h_i h <? h_loops h then lvl else h_remaining h).
Proof. destruct (h_i h <? h_loops h); [apply goes_lvl | apply goes_ret; done]. Qed.

Lemma goes_leave h st : goes (leave_wait c h st) (fun _ => True).
Proof. apply goes_then; [apply goes_stat | intros; apply goes_go]. Qed.

(** The samples before the transfer of [h] and after it. *)
Definition within (h : helper) : Prop :=
  0 ≤ h_scount h ∧ 0 ≤ (if h_i h <? h_loops h then lvl else h_remaining h) ∧
  h_scount h + (if h_i h <? h_loops h then lvl else h_remaining h) ≤ n.

Lemma counted_within h : counted n lvl h → h_i h < zlen (blocks n lvl) → within h.
Proof.
  intros (Hl & Hr & H0 & Hs) Hi. rewrite (blocks_length n lvl Hlvl ltac:(lia)) in Hi. unfold within.
  rewrite Hl, Hr. pose proof (Z.mod_pos_bound n lvl Hlvl). pose proof (Z.div_mod n lvl ltac:(lia)) as Hdm.
  rewrite Hs by (destruct (0 <? n mod lvl); lia).
  assert (Hle : h_i h ≤ n / lvl) by (destruct (0 <? n mod lvl) in Hi; lia).
  assert (Hm : 0 ≤ h_i h * lvl) by (apply Z.mul_nonneg_nonneg; lia).
  destruct (Z.ltb_spec (h_i h) (n / lvl)) as [Hlt | Hge].
  - assert ((h_i h + 1) * lvl ≤ n / lvl * lvl) by (apply Z.mul_le_mono_nonneg_r; lia). lia.
  - assert (Heq : h_i h = n / lvl) by lia. rewrite Heq in *. lia.
Qed.

Lemma goes_transferred h st : within h → goes (transferred c h st) (fun _ => True).
Proof.
  intros (H0 & H1 & H2). apply goes_then; [apply goes_stat |]. intros _.
  apply goes_then; [intros s Hs; eexists tt, _; split; [reflexivity | done] |]. intros _.
  eapply goes_bind; [apply goes_size |]. cbv beta. intros size ->.
  apply (goes_bind _ _ (fun _ => True)); [apply goes_int_op; [unfold is_int, int_min, int_max; lia | done] |].
  intros n' _. cbv zeta. apply goes_go.
Qed.

Lemma goes_log_go a h p : goes (log (Helper c) a;; go_helper c h p) (fun _ => True).
Proof. apply goes_then; [apply goes_log | intros; apply goes_go]. Qed.

Lemma goes_begin : goes (
    set_stat c 0;;
    p ← get_at chan c; lvl ← get_at fifo_lvl c;
    loops ← int_div (ch_samples p) lvl;
    remaining ← int_rem (ch_samples p) lvl;
    let h := mk_helper Begin 0 loops remaining 0 in
    go_helper c h (next_phase c h)) (fun _ => True).
Proof.
  apply goes_then; [apply goes_stat |]. intros _. eapply goes_bind; [apply goes_chan |]. intros p Hp.
  eapply goes_bind; [apply goes_lvl |]. cbv beta. intros l ->. cbv beta in Hp. rewrite Hp.
  pose proof (Z.div_le_upper_bound n lvl n Hlvl ltac:(nia)). pose proof (Z.mod_le n lvl ltac:(lia) Hlvl).
  pose proof (Z.mod_pos_bound n lvl Hlvl). pose proof (Z.div_pos n lvl ltac:(lia) Hlvl).
  unfold int_div, int_rem. rewrite (proj2 (Z.eqb_neq lvl 0)) by lia.
  rewrite Z.quot_div_nonneg, Z.rem_mod_nonneg by lia.
  apply (goes_bind _ _ (fun _ => True)).
  { apply goes_int_op; [unfold is_int, int_min, int_max; lia | done]. }
  intros k _. apply (goes_bind _ _ (fun _ => True)).
  { apply goes_int_op; [unfold is_int, int_min, int_max; lia | done]. }
  intros r _. cbv zeta. apply goes_go.
Qed.

(** A step of the helper. *)
Lemma helper_goes h w st t : progress env c n lvl w h st →
  ∀ s, helper_of s c = Some h → shape s = shaped →
  ∃ s', wait_for_channel env c t s = Ok (tt, s').
Proof.
  intros Hp s Hh Hs.
  assert (Hg : zget (helpers s) c = Some (Some h)).
  { unfold helper_of in Hh. destruct (zget (helpers s) c); [congruence | discriminate]. }
  assert (Hrun : get_at helpers c s = Ok (Some h, s)) by (unfold get_at; rewrite gets_then, Hg; reflexivity).
  unfold wait_for_channel. rewrite (bind_ok _ _ _ _ _ Hrun), deref_then.
  match goal with |- ∃ s', ?m s = _ => cut (goes m (fun _ => True)) end.
  { intros H. destruct (H s Hs) as ([] & s' & E & _). exists s'. exact E. }
  clear s Hh Hs Hg Hrun. unfold progress in Hp.
  destruct (ph h) as [| | start wake e | | start wake | | start todo | start wake | todo | todo |].
  - apply goes_begin.
  - apply goes_go.
  - apply goes_then; [apply goes_rd32 | intros r]. cbv zeta.
    destruct (bits_set r 131072); [apply goes_leave |]. destruct (DMA_NSEC_TIMEOUT <? _); [apply goes_leave | apply goes_go].
  - apply goes_go.
  - apply goes_then; [apply goes_rd32 | intros r]. cbv zeta. destruct (frame_count env <? _).
    + apply goes_then; [apply goes_rd32 | intros q]. apply goes_leave.
    + destruct (DMA_NSEC_TIMEOUT <? _); [| apply goes_go]. apply goes_then; [apply goes_rd32 | intros _; apply goes_leave].
  - destruct Hp as (Hct & Hi & _). destruct (counted_within h Hct Hi) as (H0 & H1 & H2).
    apply (goes_bind _ _ (fun _ => True)); [apply goes_int_op; [unfold is_int, int_min, int_max; lia | done] |].
    intros _ _. eapply goes_bind; [apply goes_size |]. intros size _. apply goes_go.
  - destruct todo; [apply goes_go | apply goes_log_go].
  - destruct Hp as (Hct & Hi & _). apply goes_then; [apply goes_log | intros _].
    apply goes_then; [apply goes_answer | intros r]. destruct (bits_set _ 16).
    + apply goes_transferred, counted_within; assumption.
    + destruct (DMA_TIMEOUT <? _); apply goes_go.
  - destruct Hp as (Hct & Hi & _). destruct todo; [| apply goes_log_go].
    apply goes_transferred, counted_within; assumption.
  - destruct todo as [| reg todo].
    + apply goes_then; [apply goes_on_off | intros _; apply goes_go].
    + apply goes_then; [apply goes_or32 | intros _; apply goes_go].
  - apply goes_ret. done.
Qed.

(** When a helper wakes. *)
Lemma wakes t p : p ≠ Exited → ∃ t1, t ≤ t1 ∧ awake t1 p = true.
Proof.
  intros Hp. destruct p as [| | start wake e | | start wake | | start todo | start wake | todo | todo |];
    try (exists t; split; [lia | reflexivity]); try done.
  all: exists (Z.max t wake); split; [lia |]; cbn; apply Z.leb_le; lia.
Qed.
End Total.

(** ** Properties *)

(** The helper of channel [c] was just started, for [n] samples in blocks of [lvl]. *)
Definition started (c n lvl : Z) (s : gc314) : Prop :=
  helper_of s c = Some (mk_helper Begin 0 0 0 0) ∧ ch_samples <$> zget (chan s) c = Some n ∧
  zget (fifo_lvl s) c = Some lvl ∧ handler s ≠ JoinStart.

(** ... and it ended, joined or not. *)
Definition ended (c : Z) (s : gc314) : Prop := helper_of s c = None ∨ exited (helper_of s c) = true.

Lemma started_watched env c n lvl s : started c n lvl s → watched env c n lvl (own c s) s.
Proof.
  intros (Hh & Hs & Hl & Hj). split; [| exact Hj]. eapply progress_begin; [exact Hs | exact Hl | done | exact Hh | done | done].
Qed.

Lemma ended_collected env c n lvl base s : watched env c n lvl base s → ended c s →
  ∃ w, own c s = (base ++ w)%list ∧ collected env c n lvl w (zget (channel_stat s) c).
Proof.
  intros [(_ & _ & w & Ho & Hp) _] He. exists w. split; [exact Ho |]. cbn in Hp. destruct He as [He | He].
  - rewrite He in Hp. exact Hp.
  - destruct (helper_of s c) as [h |]; [| exact Hp]. cbn in He. unfold progress in Hp.
    destruct (ph h); try discriminate He. exact Hp.
Qed.

Lemma started_chained env c n lvl s : started c n lvl s → chained env c n lvl (own c s) (started_by c (dma s)) s.
Proof.
  intros (Hs & _). exists []. split_and!; [rewrite app_nil_r; done | cbn; rewrite app_nil_r; done |].
  intros h st todo Hh Hp. rewrite Hs in Hh. injection Hh as <-. discriminate.
Qed.

(** The chains of a collection that ended. *)
Lemma chained_ended env c n lvl own0 started0 s :
  watched env c n lvl own0 s → chained env c n lvl own0 started0 s → ended c s →
  ∃ k, 0 ≤ k ≤ zlen (blocks n lvl) ∧
    started_by c (dma s) = (started0 ++ map (chain_of env c) (first_blocks n lvl k))%list ∧
    (zget (channel_stat s) c = Some 0 ∧ k = zlen (blocks n lvl) ∨ zget (channel_stat s) c = Some (-1)).
Proof.
  intros Hw' (w & Hw & Hst & _) He.
  destruct (ended_collected env c n lvl _ s Hw' He) as (w2 & Hw2 & Hcol).
  rewrite Hw in Hw2. apply app_inv_head in Hw2 as ->.
  pose proof (zlen_nonneg (blocks n lvl)) as Hz.
  destruct Hcol as [[Hst0 ->] | [Hst1 (k & Hk & Hwk)]].
  - exists (zlen (blocks n lvl)). rewrite Hst, programs_length. split_and!; [lia | lia | | left; done].
    do 3 f_equal. Z.div_mod_to_equations; lia.
  - exists k. split_and!; [lia | lia | | right; done]. rewrite Hst. do 3 f_equal.
    pose proof (programs_length env c (first_blocks n lvl k)) as Hlen.
    rewrite first_blocks_length in Hlen by done. change (zlen abandon) with 2 in *.
    destruct Hwk as [-> | ->]; rewrite ?zlen_app, Hlen; change (zlen abandon) with 2; Z.div_mod_to_equations; lia.
Qed.

(** C22: as long as nobody sets the samples of its channel or starts a collection
    (GC314_SET_SAMPLES on the channel and GC314_START_COLLECTION), and however the
    other requests and the helpers of the other channels are interleaved with it,
    the helper of a channel writes the programs of its transfers one after the
    other, in order and each of them once, and to nobody else's blocks: all of
    them, which cover the samples from the first to the last, when the status is 0;
    only the first ones, perhaps followed by the two writes that give one up, when
    it is -1.  There is no other status. *)
Theorem collection_writes env c n lvl t s l s' : c < 4 → 0 ≤ n → 0 < lvl → started c n lvl s →
  exec env (undisturbed c) t s l s' → ended c s' →
  flat_map (fun b => seqZ b.1 b.2) (blocks n lvl) = seqZ 0 n ∧
  ∃ w, own c s' = (own c s ++ w)%list ∧ collected env c n lvl w (zget (channel_stat s') c).
Proof.
  intros Hc Hn Hlvl Hs Hex He. split; [apply blocks_cover; done |].
  apply ended_collected; [| exact He]. eapply watched_exec; [exact Hc | exact Hn | exact Hlvl | exact Hex |].
  apply started_watched, Hs.
Qed.

(** C6: when at most one transfer is under way at a time, and nobody sets the
    samples of the channel or starts a collection while its helper runs, the bridge
    is started by the helper exactly on the chains of the first blocks of its
    channel, each chain a descriptor per chip with the addresses of that block: on
    all of them when the collection succeeds. *)
Theorem chains_started env c n lvl t s l s' : 0 ≤ c < 4 → 0 ≤ n → 0 < lvl → started c n lvl s →
  exclusive s → exec env (careful c) t s l s' → ended c s' →
  ∃ k, 0 ≤ k ≤ zlen (blocks n lvl) ∧
    started_by c (dma s') = (started_by c (dma s) ++ map (chain_of env c) (first_blocks n lvl k))%list ∧
    (zget (channel_stat s') c = Some 0 ∧ k = zlen (blocks n lvl) ∨ zget (channel_stat s') c = Some (-1)).
Proof.
  intros Hc Hn Hlvl Hs Hx Hex He.
  pose proof (started_chained env c n lvl s Hs) as Hch.
  destruct (chained_exec env c n lvl Hc Hn Hlvl _ _ t s l s' Hex (started_watched env c n lvl s Hs) Hx Hch)
    as (Hw' & _ & Hch').
  exact (chained_ended env c n lvl _ _ s' Hw' Hch' He).
Qed.

(** A descriptor of a chain within the DMA buffer at [a]. *)
Definition in_buffer (a : Z) (d : descriptor) : Prop :=
  match d with (pci, _, bytes, _) => a ≤ pci ∧ pci + bytes ≤ a + DMA_BUF_SIZE end.

Lemma shift2 z : 0 ≤ z < 2 ^ 30 → u32 (z <<c 2) = 4 * z.
Proof. intros H. rewrite Z.shiftl_mul_pow2 by lia. rewrite u32_id by lia. lia. Qed.

Lemma block_bound n lvl b : 0 < lvl → 0 ≤ n → b ∈ blocks n lvl → 0 ≤ b.1 ∧ 0 < b.2 ∧ b.1 + b.2 ≤ n.
Proof.
  intros Hl Hn Hb. pose proof (Z.div_mod n lvl ltac:(lia)) as Hdm. pose proof (Z.mod_pos_bound n lvl Hl).
  unfold blocks in Hb. apply elem_of_app in Hb as [Hb | Hb].
  - apply list_elem_of_fmap in Hb as (k & -> & Hk). apply elem_of_seqZ in Hk. cbn.
    assert ((k + 1) * lvl ≤ n / lvl * lvl) by (apply Z.mul_le_mono_nonneg_r; lia).
    assert (0 ≤ k * lvl) by (apply Z.mul_nonneg_nonneg; lia). lia.
  - destruct (Z.ltb_spec 0 (n mod lvl)); [| apply elem_of_nil in Hb; done]. apply list_elem_of_singleton in Hb as ->. cbn.
    pose proof (Z.div_pos n lvl Hn Hl). assert (0 ≤ n / lvl * lvl) by (apply Z.mul_nonneg_nonneg; lia). lia.
Qed.

Lemma last_block n lvl : 0 < lvl → 0 < n → ∃ b, b ∈ blocks n lvl ∧ b.1 + b.2 = n.
Proof.
  intros Hl Hn. pose proof (Z.div_mod n lvl ltac:(lia)) as Hdm. pose proof (Z.mod_pos_bound n lvl Hl).
  unfold blocks. destruct (Z.ltb_spec 0 (n mod lvl)) as [Hm | Hm].
  - exists (n - n mod lvl, n mod lvl). split; [apply elem_of_app; right; left | cbn; lia].
  - pose proof (Z.div_pos n lvl ltac:(lia) Hl). assert (n / lvl ≠ 0) by nia.
    exists ((n / lvl - 1) * lvl, lvl). split; [| cbn; lia].
    apply elem_of_app. left. apply list_elem_of_fmap. exists (n / lvl - 1). split; [done |]. apply elem_of_seqZ. lia.
Qed.

(** The three DMA buffers of channel [c], and a chain that stays in them. *)
Definition buffers (env : gc314_env) (c : Z) : list Z :=
  map (fun k => elem_at (physical_addr env) (3 * c + k)) chips.

Definition in_buffers (env : gc314_env) (c : Z) (x : Z * list descriptor) : Prop :=
  Forall2 in_buffer (buffers env c) x.2.

(** Buffers that end below 2^32. *)
Definition buffers_low (env : gc314_env) (c : Z) : Prop :=
  Forall (fun a => 0 ≤ a ≤ 2 ^ 32 - DMA_BUF_SIZE) (buffers env c).

(** The chain of a block stays in the buffers when the block ends at 2^18 samples. *)
Lemma chain_in_buffers env c b : buffers_low env c → 0 ≤ b.1 → 0 < b.2 → b.1 + b.2 < 2 ^ 30 →
  in_buffers env c (chain_of env c b) ↔ b.1 + b.2 ≤ 262144.
Proof.
  unfold buffers_low, in_buffers, buffers, chips, chain_of. cbn [map snd]. intros Hlow H1 H2 Hn.
  apply Forall_cons in Hlow as [Ha0 [Ha1 [Ha2 _]%Forall_cons]%Forall_cons].
  assert (Hone : ∀ a x y, 0 ≤ a ≤ 2 ^ 32 - DMA_BUF_SIZE →
            in_buffer a (u32 (a + 4 * b.1), x, u32 (b.2 <<c 2), y) ↔ b.1 + b.2 ≤ 262144).
  { intros a x y Ha. unfold in_buffer, DMA_BUF_SIZE in *. rewrite shift2 by lia. split.
    - intros [Hlo Hhi]. unfold u32 in Hlo, Hhi.
      destruct (Z.lt_ge_cases (a + 4 * b.1) (2 ^ 32)) as [Hs | Hb]; [rewrite Z.mod_small in Hhi by lia; lia |].
      exfalso. revert Hlo. Z.div_mod_to_equations. lia.
    - intros Hmax. rewrite u32_id by lia. lia. }
  split.
  - intros [H _]%Forall2_cons. apply (Hone _ _ _ Ha0) in H. exact H.
  - intros Hmax. repeat apply Forall2_cons_2; try apply Forall2_nil_2; apply Hone; assumption.
Qed.

(** C29: what a helper makes the bridge transfer, from its start to its end, when
    at most one transfer is under way at a time and nobody sets the samples of its
    channel or starts it again: with at most 2^18 samples every chain it starts
    stays within the three DMA buffers of the channel; with more of them, a
    collection that ends with status 0 has started a chain that leaves them.  No
    command compares the number of samples with that. *)
Theorem transfers_in_buffer env c n lvl t s l s' : 0 ≤ c < 4 → 0 ≤ n < 2 ^ 30 → 0 < lvl → buffers_low env c →
  started c n lvl s → exclusive s → exec env (careful c) t s l s' → ended c s' →
  ∃ new, started_by c (dma s') = (started_by c (dma s) ++ new)%list ∧
    (n ≤ 262144 → Forall (in_buffers env c) new) ∧
    (262144 < n → zget (channel_stat s') c = Some 0 → ∃ x, x ∈ new ∧ ¬ in_buffers env c x).
Proof.
  intros Hc Hn Hlvl Hlow Hs Hx Hex He.
  destruct (chained_exec env c n lvl Hc ltac:(lia) Hlvl _ _ t s l s' Hex (started_watched env c n lvl s Hs) Hx
              (started_chained env c n lvl s Hs)) as (Hw' & _ & Hch').
  destruct (chained_ended env c n lvl _ _ s' Hw' Hch' He) as (k & Hk & Hst & Hres).
  eexists. split; [exact Hst |]. split.
  - intros Hmax. apply Forall_map, Forall_forall. intros b Hb.
    destruct (block_bound n lvl b Hlvl ltac:(lia)) as (Hb1 & Hb2 & Hb3); [by apply elem_of_take in Hb as (i & Hi%list_elem_of_lookup_2 & _) |].
    apply chain_in_buffers; try assumption; lia.
  - intros Hbig H0. assert (k = zlen (blocks n lvl)) as -> by (destruct Hres as [[_ ->] | E]; [done | congruence]).
    destruct (last_block n lvl Hlvl ltac:(lia)) as (b & Hb & Hlast).
    destruct (block_bound n lvl b Hlvl ltac:(lia) Hb) as (Hb1 & Hb2 & _).
    exists (chain_of env c b). rewrite first_blocks_all by lia. split; [apply list_elem_of_fmap; by exists b |].
    rewrite chain_in_buffers by (assumption || lia). lia.
Qed.

(** C23: a helper started for fewer than 2^29 samples, with a positive fifo level,
    takes a bounded number of steps, whatever the card answers and the other
    helpers do, when it is woken within two seconds of the end of each sleep and
    nobody sets the samples of its channel or starts a collection meanwhile; as
    long as it has not ended it has steps left, its sleep ends, and its next step
    succeeds whenever it is taken. *)
Theorem helper_ends env c n lvl t s l s' : 0 ≤ c < 4 → 0 ≤ n < 2 ^ 29 → 0 < lvl → started c n lvl s →
  sized s → exec env (unhurried c) t s l s' →
  steps_of c l ≤ max_steps n lvl ∧
  ∀ h, helper_of s' c = Some h → exited (Some h) = false →
    steps_of c l < max_steps n lvl ∧
    ∀ t', (∃ t1, t' ≤ t1 ∧ enabled t1 (Step c) s' = true) ∧
          (enabled t' (Step c) s' = true → ∃ s1, perform env t' (Step c) s' = Ok (tt, s1)).
Proof.
  intros Hc Hn Hlvl Hs Hsz Hex.
  assert (Htm : timely c t s) by (intros h0 Hh0; rewrite (proj1 Hs) in Hh0; injection Hh0 as <-; exact I).
  assert (Hmax : left_in c n lvl s = max_steps n lvl) by (unfold left_in; rewrite (proj1 Hs); reflexivity).
  destruct (left_exec env c n lvl Hc ltac:(lia) Hlvl _ t s l s' Hex (started_watched env c n lvl s Hs) Htm)
    as ([Hv _] & (t2 & Htm2) & Hle). rewrite Hmax in Hle.
  pose proof (sized_exec env _ t s l s' Hex Hsz) as Hsz'. destruct Hv as (Hsn & Hsl & w & _ & Hp). cbn in Hp.
  unfold left_in in Hle. destruct (helper_of s' c) as [h |] eqn:Hh; [| split; [lia | discriminate]].
  edestruct (steps_nonneg env c n lvl) as [H0 Hpos];
    [lia | exact Hlvl | exact Hp | exact (Htm2 h Hh) |].
  split; [lia |]. intros h1 [= <-] Hex1.
  assert (Hne : ph h ≠ Exited) by (intros E; cbn in Hex1; rewrite E in Hex1; discriminate).
  split; [specialize (Hpos Hne); lia |]. intros t'. split.
  - destruct (wakes t' (ph h) Hne) as (t1 & Ht1 & Haw). exists t1. cbn. rewrite Hh. done.
  - intros _. eapply (helper_goes env c n lvl); [exact Hc | exact Hn | exact Hlvl | exact Hp | exact Hh |].
    unfold shape, shaped. cbn in Hsn, Hsl. rewrite Hsz', Hsn, Hsl. reflexivity.
Qed.

(** ** GC314_WAIT_FOR_DATA *)

Section Waiting.
Context (env : gc314_env).

(** No request is taken before the answer; these are the steps until then. *)
Definition no_request (s : gc314) (t : Z) (e : event) : Prop :=
  match e with Request _ => False | _ => True end.

(** A channel without a helper, on which nothing is collected. *)
Definition quiet (j : Z) (s : gc314) : Prop :=
  helper_of s j = None ∧ zget (channel_on_off s) j = Some 0 ∧ zget (channel_waiting s) j = Some 0.

(** The status a client gets for [channel]. *)
Definition status_of (channel : Z) (s : gc314) : option Z :=
  if (0 <=? channel) && (channel <? 4) then zget (channel_stat s) channel else Some (-10).

(** What the wait left to do. *)
Definition joining (channel : Z) (r0 : list reply) (s : gc314) : Prop :=
  match handler s with
  | JoinStart => False
  | JoinWait k ch => ch = channel ∧ 0 ≤ k < 4 ∧ (∀ j, 0 ≤ j < k → quiet j s) ∧ replies s = r0
  | Idle => (∀ j, 0 ≤ j < 4 → quiet j s) ∧
      ∃ st, status_of channel s = Some st ∧ replies s = (r0 ++ [Status st])%list
  end.

(** A step of the helper of another channel. *)
Definition corner (j : Z) (s : gc314) : option (option helper) * option Z * option Z * option Z :=
  (zget (helpers s) j, zget (channel_on_off s) j, zget (channel_waiting s) j, zget (channel_stat s) j).

Lemma corner_set {A} j (g : gc314 → list A) upd c v : c ≠ j →
  (∀ s l, zget l j = zget (g s) j → corner j (upd l s) = corner j s) → keeps (corner j) (set_at g upd c v).
Proof.
  intros Hne H s [] s' (l & Hl & ->)%set_at_inv. apply H, (zget_zset_ne _ _ _ _ _ Hl). congruence.
Qed.

Ltac corner_tac := intros; apply corner_set; [done | intros s l Hl; unfold corner; cbn; rewrite Hl; reflexivity].

Lemma corner_step j c t : c ≠ j → keeps (corner j) (wait_for_channel env c t).
Proof.
  intros Hne.
  assert (Hgo : ∀ h p, keeps (corner j) (go_helper c h p)) by corner_tac.
  assert (Hstat : ∀ v, keeps (corner j) (set_stat c v)) by corner_tac.
  assert (Hon : ∀ v, keeps (corner j) (set_on_off c v)) by corner_tac.
  unfold wait_for_channel, leave_wait, transferred. repeat first [solve [auto 2] | keep_step].
Qed.

Lemma replies_step c t : keeps replies (wait_for_channel env c t).
Proof. unfold wait_for_channel, leave_wait, transferred. keep. Qed.

Lemma quiet_corner j s s' : corner j s' = corner j s → quiet j s → quiet j s'.
Proof.
  unfold corner, quiet, helper_of. intros H (H1 & H2 & H3).
  injection H as E1 E2 E3 _. rewrite E1, E2, E3. done.
Qed.

Lemma joining_step channel r0 c t s s' : enabled t (Step c) s = true →
  wait_for_channel env c t s = Ok (tt, s') → joining channel r0 s → joining channel r0 s'.
Proof.
  intros He H Hj. cbn [enabled] in He. destruct (helper_of s c) as [h |] eqn:Hh; [| discriminate].
  assert (Hq : ∀ j, quiet j s → quiet j s').
  { intros j Hj0. apply (quiet_corner j s); [| exact Hj0]. apply (corner_step j c t) with (a := tt); [| exact H].
    intros ->. destruct Hj0 as [E _]. congruence. }
  unfold joining in *. rewrite (handler_step env c t s tt s' H), (replies_step c t s tt s' H).
  destruct (handler s) as [| | k ch]; [| done |].
  - destruct Hj as (Hall & st & Hst & Hr). split; [auto |]. exists st. split; [| done].
    unfold status_of in *. destruct ((0 <=? channel) && (channel <? 4)) eqn:E; [| done].
    apply andb_prop in E as [E1 E2]. assert (Hne : c ≠ channel).
    { intros ->. destruct (Hall channel ltac:(lia)) as [E _]. congruence. }
    pose proof (corner_step channel c t Hne s tt s' H) as Hc. injection Hc as _ _ _ ->. exact Hst.
  - destruct Hj as (-> & Hk & Hall & Hr). split_and!; [done | lia | lia | auto | done].
Qed.

Lemma joining_resume channel r0 s s' : handler s ≠ Idle → resume s = Ok (tt, s') →
  joining channel r0 s → joining channel r0 s'.
Proof.
  intros Hi H Hj. unfold resume in H. apply bind_inv in H as (p & s1 & [= <- <-] & H).
  unfold joining in Hj. destruct (handler s) as [| | k ch]; [done | done |]. destruct Hj as (-> & Hk & Hall & Hr).
  apply bind_inv in H as ([] & s1 & (l1 & Hl1 & ->)%set_at_inv & H).
  apply bind_inv in H as ([] & s2 & (l2 & Hl2 & ->)%set_at_inv & H).
  apply bind_inv in H as ([] & s3 & (l3 & Hl3 & ->)%set_at_inv & H).
  cbn [channel_waiting channel_on_off helpers] in *.
  match type of H with _ ?x = _ => set (s3 := x) in H end.
  assert (Hq : ∀ j, 0 ≤ j < k + 1 → quiet j s3).
  { intros j Hj. unfold quiet, helper_of. subst s3. cbn. destruct (decide (j = k)) as [-> | Hne].
    - rewrite (zget_zset_eq _ _ _ _ Hl1), (zget_zset_eq _ _ _ _ Hl2), (zget_zset_eq _ _ _ _ Hl3). done.
    - rewrite (zget_zset_ne _ _ _ _ _ Hl1), (zget_zset_ne _ _ _ _ _ Hl2), (zget_zset_ne _ _ _ _ _ Hl3) by done.
      exact (Hall j ltac:(lia)). }
  assert (Hr3 : replies s3 = r0) by exact Hr. clearbody s3. clear Hl1 Hl2 Hl3 Hall Hr.
  destruct (Z.ltb_spec k 3) as [Hk3 | Hk3].
  - apply bind_inv in H as ([] & s4 & (l4 & Hl4 & ->)%set_at_inv & H). unfold go, modify in H. injection H as <-.
    unfold joining. cbn. split_and!; [done | lia | lia | | exact Hr3]. intros j Hj.
    apply (quiet_corner j s3); [| apply Hq; lia]. unfold corner. cbn.
    rewrite (zget_zset_ne _ _ _ _ _ Hl4) by lia. reflexivity.
  - apply bind_inv in H as (st & s4 & Hst & H). apply bind_inv in H as ([] & s5 & Hgo & H).
    assert (Hs4 : s4 = s3 ∧ status_of channel s3 = Some st).
    { unfold status_of. destruct ((0 <=? channel) && (channel <? 4)).
      - apply get_at_inv in Hst. exact Hst.
      - injection Hst as <- <-. done. }
    destruct Hs4 as [-> Hst']. unfold go, respond, modify in *. injection Hgo as <-. injection H as <-.
    unfold joining. cbn. split; [| exists st; rewrite <- Hr3; done].
    intros j Hj. apply (quiet_corner j s3); [reflexivity | apply Hq; lia].
Qed.

Lemma joining_exec channel r0 t s l s' : exec env no_request t s l s' →
  joining channel r0 s → joining channel r0 s'.
Proof.
  induction 1 as [| t s t' e s1 l s2 Ht He HD Hp _ IH]; [done |]. intros Hj. apply IH.
  destruct e as [q | | c1]; cbn [perform] in Hp; [done | |].
  - apply (joining_resume channel r0 s); [| exact Hp | exact Hj]. cbn in He. destruct (handler s); discriminate.
  - exact (joining_step channel r0 c1 t' s s1 He Hp Hj).
Qed.

(** The join of a helper that ended succeeds. *)
Lemma resume_succeeds s k channel : sized s → handler s = JoinWait k channel → 0 ≤ k < 4 →
  ∃ s1, resume s = Ok (tt, s1).
Proof.
  intros Hs Hh Hk.
  assert (Hset : ∀ A (g : gc314 → list A) upd c v s0, zlen (g s0) = 4 → 0 ≤ c < 4 →
            set_at g upd c v s0 = Ok (tt, upd (<[Z.to_nat c := v]> (g s0)) s0)).
  { intros A g upd c v s0 Hl Hc. unfold set_at. rewrite gets_then, zset_Some, deref_then by lia. reflexivity. }
  assert (Hins : ∀ A (l : list A) i v, zlen (<[i := v]> l) = zlen l).
  { intros. unfold zlen. rewrite length_insert. reflexivity. }
  pose proof Hs as Hs'. unfold sized, lens in Hs'. injection Hs' as H1 H2 H3 H4 H5 H6 H7 H8 H9.
  unfold resume, set_helper, set_waiting, set_on_off. rewrite gets_then, Hh.
  rewrite (bind_ok _ _ _ _ _ (Hset _ _ _ k _ s H9 Hk)).
  erewrite bind_ok by (apply Hset; [exact H3 | exact Hk]).
  erewrite bind_ok by (apply Hset; [exact H2 | exact Hk]).
  destruct (Z.ltb_spec k 3).
  - erewrite bind_ok by (apply Hset; [cbn; rewrite Hins; exact H3 | lia]). eexists. reflexivity.
  - destruct ((0 <=? channel) && (channel <? 4)) eqn:E; [| eexists; reflexivity].
    apply andb_prop in E as [E1 E2]. unfold get_at. rewrite bind_assoc, gets_then.
    destruct (zget_range (channel_stat s) channel ltac:(lia)) as [st Hst]. cbn. rewrite Hst. eexists. reflexivity.
Qed.
End Waiting.

(** C24: GC314_WAIT_FOR_DATA joins the helpers of the four channels in order: it is
    answered only when none of them is left and no channel is on or waiting, with
    one status, that of the channel asked for ([-10] for a channel that does not
    exist); and while it waits for a helper, it goes on as soon as that helper
    ended. *)
Theorem wait_joins env channel t s l s' : sized s → handler s = JoinWait 0 channel →
  exec env no_request t s l s' →
  (handler s' = Idle → (∀ j, 0 ≤ j < 4 → quiet j s') ∧
     ∃ st, status_of channel s' = Some st ∧ replies s' = (replies s ++ [Status st])%list) ∧
  (handler s' ≠ Idle → ∃ k, handler s' = JoinWait k channel ∧ 0 ≤ k < 4 ∧ replies s' = replies s ∧
     (ended k s' → ∀ t', enabled t' Resume s' = true ∧ ∃ s1, perform env t' Resume s' = Ok (tt, s1))).
Proof.
  intros Hsz Hh Hex. pose proof (sized_exec env _ t s l s' Hex Hsz) as Hsz'.
  assert (Hj : joining channel (replies s) s) by (unfold joining; rewrite Hh; split_and!; [done | lia | lia | intros; lia | done]).
  pose proof (joining_exec env channel _ t s l s' Hex Hj) as Hj'. unfold joining in Hj'.
  destruct (handler s') as [| | k ch] eqn:E; [split; [intros _; exact Hj' | done] | done |].
  split; [discriminate |]. intros _. destruct Hj' as (-> & Hk & Hq & Hr). exists k. split_and!; [done | lia | lia | done |].
  intros He t'. split; [| exact (resume_succeeds s' k channel Hsz' E Hk)].
  cbn. rewrite E. destruct He as [He | He]; [rewrite bool_decide_true by exact He | rewrite He, orb_true_r]; reflexivity.
Qed.

(** ** Runs on a concrete card *)

(** Executes the events, as long as [chk] allows each of them. *)
Fixpoint run (env : gc314_env) (chk : gc314 → Z → event → bool) (t : Z) (s : gc314) (l : list (Z * event)) :
    option gc314 :=
  match l with
  | [] => Some s
  | (t', e) :: l =>
      if (t <=? t') && enabled t' e s && chk s t' e then
        match perform env t' e s with Ok (_, s1) => run env chk t' s1 l | Fault _ => None end
      else None
  end.

Lemma run_exec env chk (D : gc314 → Z → event → Prop) t s l s' :
  (∀ s t e, chk s t e = true → D s t e) → run env chk t s l = Some s' → exec env D t s l s'.
Proof.
  intros HD. revert t s. induction l as [| [t' e] l IH]; intros t s H; cbn [run] in H.
  - injection H as <-. apply exec_nil.
  - destruct ((t <=? t') && enabled t' e s && chk s t' e) eqn:E; [| discriminate].
    apply andb_prop in E as [[Et Ee]%andb_prop Ec].
    destruct (perform env t' e s) as [[[] s1] |] eqn:Ep; [| discriminate].
    apply (exec_cons env D t s t' e s1); [lia | done | auto | done | auto].
Qed.

(** Only the helper of [c] runs, woken in time, the main thread joins helpers. *)
Definition only (c : Z) (s : gc314) (t : Z) (e : event) : bool :=
  match e with
  | Request _ => false
  | Resume => true
  | Step c1 => (c1 =? c) && (zlen (helpers s) =? 4) &&
      forallb (fun c2 => (c2 =? c) || negb (moving (helper_of s c2))) [0; 1; 2; 3] &&
      match helper_of s c with
      | Some h => match ph h with
                  | AwaitLevel _ wake _ | AwaitFrame _ wake => t <=? wake + 2000000000
                  | _ => true
                  end
      | None => true
      end
  end.

Lemma only_undisturbed c s t e : only c s t e = true → undisturbed c s t e.
Proof. destruct e; done. Qed.

Lemma only_no_request c s t e : only c s t e = true → no_request s t e.
Proof. destruct e; done. Qed.

Lemma only_careful c s t e : only c s t e = true → careful c s t e.
Proof.
  intros H. split; [exact (only_undisturbed c s t e H) |]. destruct e as [q | | c1]; [done | done |].
  cbn [only] in H. apply andb_prop in H as [[[H1 H2]%andb_prop H3]%andb_prop _].
  intros h _ _ c2 Hne. assert (c1 = c) as -> by lia. unfold helper_of.
  destruct (zget (helpers s) c2) as [o |] eqn:E; [| reflexivity].
  pose proof (zget_Some_range _ _ _ E) as Hr.
  rewrite forallb_forall in H3. assert (Hin : In c2 [0; 1; 2; 3]) by (cbn; lia).
  specialize (H3 c2 Hin). unfold helper_of in H3. rewrite E in H3.
  rewrite (proj2 (Z.eqb_neq c2 c)) in H3 by done. cbn in H3. destruct (moving o); done.
Qed.

Lemma only_unhurried c s t e : only c s t e = true → unhurried c s t e.
Proof.
  intros H. split; [exact (only_undisturbed c s t e H) |]. destruct e as [q | | c1]; [done | done |].
  intros -> h Hh. cbn [only] in H. apply andb_prop in H as [_ H]. rewrite Hh in H.
  destruct (ph h); try exact I; lia.
Qed.

(** A card whose fifos are full, with frames to read and an engine that is done at
    once. *)
Definition demo_env : gc314_env :=
  mk_gc314_env demo_libm
    (fun l => match last l with
              | Some (Rd reg) => if reg =? ID 0 1 then 5 else 131072
              | Some (PRd _) => 16
              | _ => 0
              end)
    (map (fun k => 1048576 * k) (seqZ 16 12)) 1.

(** [n] samples of channels A and B, in blocks of two. *)
Definition demo_state (n : Z) (hs : list (option helper)) (h : handler_pc) : gc314 :=
  let p c := mk_channel_params c 12000000 n (d_of_int 10000) 10000 1 in
  mk_gc314 (map p [0; 1; 2; 3]) [1; 1; 0; 0] [0; 0; 0; 0] [0; 0; 0; 0] [2; 2; 2; 2] [0; 0; 0; 0]
    (replicate 4 (mk_channel_regs [] [] 0 0 0 0 0 0 0 0 0 0 0 0 0 0 0 0 0 0)) [] [0; 0; 0; 0] [0; 0] hs h [] [].

Definition begun : option helper := Some (mk_helper Begin 0 0 0 0).

(** A collection of three samples on channel B alone. *)
Definition demo_start : gc314 := demo_state 3 [None; begun; None; None] Idle.
Definition demo_steps : list (Z * event) := replicate 51 (0, Step 1).

Definition demo_end : gc314 := default demo_start (run demo_env (only 1) 0 demo_start demo_steps).

Lemma demo_runs : run demo_env (only 1) 0 demo_start demo_steps = Some demo_end ∧ ended 1 demo_end ∧
  zget (channel_stat demo_end) 1 = Some 0.
Proof. split_and!; [vm_compute; reflexivity | right; vm_compute; reflexivity | vm_compute; reflexivity]. Qed.

Lemma demo_started : started 1 3 2 demo_start.
Proof. split_and!; done. Qed.

Lemma demo_exclusive : exclusive demo_start.
Proof.
  assert (Hm : ∀ c1, moving (helper_of demo_start c1) = false ∧
            ∀ h, helper_of demo_start c1 = Some h → todo_ok (ph h)).
  { intros c1. unfold helper_of. destruct (zget (helpers demo_start) c1) as [o |] eqn:E; [| done].
    unfold zget in E. case_decide; [| discriminate]. apply list_elem_of_lookup_2 in E. cbn in E.
    rewrite !elem_of_cons in E. destruct E as [-> | [-> | [-> | [-> | []%elem_of_nil]]]]; split; try done.
    all: intros h [= <-]; exact I. }
  split_and!; [| apply Hm | reflexivity]. intros c1 c2 H. destruct (Hm c1) as [E _]. congruence.
Qed.

Lemma collection_writes_witness :
  flat_map (fun b => seqZ b.1 b.2) (blocks 3 2) = seqZ 0 3 ∧
  ∃ w, own 1 demo_end = (own 1 demo_start ++ w)%list ∧ collected demo_env 1 3 2 w (zget (channel_stat demo_end) 1).
Proof.
  destruct demo_runs as (Hrun & Hend & _).
  apply (collection_writes demo_env 1 3 2 0 demo_start demo_steps demo_end); [lia | lia | lia | apply demo_started | | exact Hend].
  apply (run_exec demo_env (only 1)); [apply only_undisturbed | exact Hrun].
Defined.

Lemma chains_started_witness : ∃ k, 0 ≤ k ≤ 2 ∧
  started_by 1 (dma demo_end) = (started_by 1 (dma demo_start) ++ map (chain_of demo_env 1) (first_blocks 3 2 k))%list ∧
  (zget (channel_stat demo_end) 1 = Some 0 ∧ k = 2 ∨ zget (channel_stat demo_end) 1 = Some (-1)).
Proof.
  destruct demo_runs as (Hrun & Hend & _).
  apply (chains_started demo_env 1 3 2 0 demo_start demo_steps demo_end);
    [lia | lia | lia | apply demo_started | apply demo_exclusive | | exact Hend].
  apply (run_exec demo_env (only 1)); [apply only_careful | exact Hrun].
Defined.

Lemma demo_buffers_low : buffers_low demo_env 1.
Proof. repeat apply Forall_cons_2; try apply Forall_nil_2; vm_compute; split; discriminate. Qed.

Lemma transfers_in_buffer_witness : ∃ new,
  started_by 1 (dma demo_end) = (started_by 1 (dma demo_start) ++ new)%list ∧ Forall (in_buffers demo_env 1) new ∧
  zlen new = 2.
Proof.
  destruct demo_runs as (Hrun & Hend & _).
  destruct (transfers_in_buffer demo_env 1 3 2 0 demo_start demo_steps demo_end) as (new & Hnew & Hin & _);
    [lia | lia | lia | apply demo_buffers_low | apply demo_started | apply demo_exclusive | | exact Hend |].
  - apply (run_exec demo_env (only 1)); [apply only_careful | exact Hrun].
  - exists new. split_and!; [exact Hnew | apply Hin; lia |].
    apply (f_equal zlen) in Hnew. rewrite zlen_app in Hnew. revert Hnew.
    replace (zlen (started_by 1 (dma demo_end))) with 2 by (vm_compute; reflexivity).
    replace (zlen (started_by 1 (dma demo_start))) with 0 by (vm_compute; reflexivity). lia.
Defined.

Lemma helper_ends_witness : steps_of 1 demo_steps ≤ max_steps 3 2.
Proof.
  destruct demo_runs as (Hrun & _).
  apply (helper_ends demo_env 1 3 2 0 demo_start demo_steps demo_end); [lia | lia | lia | apply demo_started | done |].
  apply (run_exec demo_env (only 1)); [apply only_unhurried | exact Hrun].
Defined.

(** A client that waits for channel B. *)
Definition demo_waiting : gc314 :=
  demo_state 3 [None; Some (mk_helper Exited 2 1 1 3); None; None] (JoinWait 0 1).
Definition demo_joins : list (Z * event) := replicate 4 (0, Resume).
Definition demo_joined : gc314 := default demo_waiting (run demo_env (only 1) 0 demo_waiting demo_joins).

Lemma wait_joins_witness : (∀ j, 0 ≤ j < 4 → quiet j demo_joined) ∧
  ∃ st, status_of 1 demo_joined = Some st ∧ replies demo_joined = (replies demo_waiting ++ [Status st])%list.
Proof.
  assert (Hrun : run demo_env (only 1) 0 demo_waiting demo_joins = Some demo_joined) by (vm_compute; reflexivity).
  apply (wait_joins demo_env 1 0 demo_waiting demo_joins demo_joined); [done | done | | vm_compute; reflexivity].
  apply (run_exec demo_env (only 1)); [apply only_no_request | exact Hrun].
Defined.

(** ** Two helpers on the one DMA channel *)

(** [get_available_DMA_channel] always gives channel 1.  When the helper of channel
    B programs its transfer before that of channel A has started its own, both
    collections succeed, and A has started the chain of B. *)
Definition collision_start : gc314 := demo_state 2 [begun; begun; None; None] Idle.
Definition collision_steps : list (Z * event) :=
  replicate 21 (0, Step 0) ++ replicate 28 (0, Step 1) ++ replicate 7 (0, Step 0).

Lemma shared_dma_channel : ∃ s', exec demo_env (fun _ _ _ => True) 0 collision_start collision_steps s' ∧
  ended 0 s' ∧ ended 1 s' ∧ channel_stat s' = [0; 0; 0; 0] ∧
  started_by 0 (dma s') = [chain_of demo_env 1 (0, 2)] ∧ chain_of demo_env 1 (0, 2) ≠ chain_of demo_env 0 (0, 2).
Proof.
  eexists. split; [eapply (run_exec demo_env (fun _ _ _ => true)); [done | vm_compute; reflexivity] |].
  split_and!; [right; reflexivity | right; reflexivity | reflexivity | vm_compute; reflexivity | vm_compute; discriminate].
Qed.

(** ** A number of samples that changes while the helper runs *)

(** GC314_SET_SAMPLES does not look whether a helper works on the channel.  Three
    samples were asked for; one, set after the first step of the helper, ends the
    collection with status 0 when two were moved ... *)
Definition midway_steps : list (Z * event) :=
  (0, Step 1) :: (0, Request (Cmd (SetSamples 0 1 1))) :: replicate 50 (0, Step 1).

Lemma samples_changed_midway : ∃ s', exec demo_env (fun _ _ _ => True) 0 demo_start midway_steps s' ∧
  ended 1 s' ∧ zget (channel_stat s') 1 = Some 0 ∧ started_by 1 (dma s') = map (chain_of demo_env 1) [(0, 1); (1, 1)] ∧
  flat_map (fun b => seqZ b.1 b.2) (blocks 3 2) = [0; 1; 2].
Proof.
  eexists. split; [eapply (run_exec demo_env (fun _ _ _ => true)); [done | vm_compute; reflexivity] |].
  split_and!; [right; reflexivity | reflexivity | vm_compute; reflexivity | reflexivity].
Qed.

(** ... and none, set before it, makes the helper divide by its fifo level of 0. *)
Lemma samples_zero_faults : ∃ s1, perform demo_env 0 (Request (Cmd (SetSamples 0 0 1))) demo_start = Ok (tt, s1) ∧
  enabled 0 (Step 1) s1 = true ∧ perform demo_env 0 (Step 1) s1 = Fault BadArith.
Proof. eexists. split_and!; [vm_compute; reflexivity | reflexivity | vm_compute; reflexivity]. Qed.
