(* ===== verification/CardSetup.v ===== *)
(** * CardSetup: from the clients' settings to the receiver chips

    A pre-trigger of the receiver driver (Receiver) is a list of commands for the
    cards; each card has a driver process (Gc314) that keeps settings, computes
    register values (Gc4016) and writes them to the three chips of the card.  This
    file follows the settings of a ready client through the three: what an
    execution of the driver of a card does with the commands it gets, whatever its
    helpers do in between, and what the chips hold after the load. *)

From Stdlib Require Import Ascii ZArith Lia SpecFloat.
From stdpp Require Import base list.
From S2P Require Import Prelude Types Binary64 Receiver Gc4016 Gc314.
Open Scope Z_scope.
Open Scope cvr_scope.

(** ** Settings *)

(** The commands among the requests of an execution. *)
Definition cmds (l : list (Z * event)) : list gc_cmd :=
  flat_map (fun x => match x.2 with Request (Cmd c) => [c] | _ => [] end) l.

(** The parameters of a channel after a tuning of it. *)
Definition tuned (t : tuning) (p : channel_params) : channel_params :=
  mk_channel_params (ch_channel p) (default (ch_freq p) (t_freq t)) (default (ch_samples p) (t_samples t))
    (default (ch_rate p) (t_rate t))
    (match t_filter t with Some (bw, _) => d_to_int bw | None => ch_BW p end)
    (match t_filter t with Some (_, m) => m | None => ch_matched p end).

(** The tuning of channel [c] of card [k], and what it was at its last update. *)
Definition update_step (k c : Z) (u : tuning * option tuning) (x : gc_cmd) : tuning * option tuning :=
  (tuning_step k c u.1 x,
   match x with
   | UpdateChannel k' c' => if (k' =? k) && (c' =? c) then Some u.1 else u.2
   | _ => u.2
   end).

Definition updated (k c : Z) (u : tuning * option tuning) (l : list gc_cmd) : tuning * option tuning :=
  fold_left (update_step k c) l u.

(** What the driver keeps of a channel for the chips: the registers and the
    samples to skip. *)
Definition programmed (c : Z) (s : gc314) : option channel_regs * option Z :=
  (zget (GC4016 s) c, zget (skip s) c).

Definition values (m : libm) (p : channel_params) : option channel_regs * option Z :=
  (Some (v_regs (_set_GC4016_vals m p)), Some (v_skip (_set_GC4016_vals m p))).

(** ** Every execution of the driver follows the settings *)

Section Follow.
Context (env : gc314_env) (k c : Z).
Context (Hc : 0 ≤ c < 4).

Definition kept (s : gc314) : list channel_params * list channel_regs * list Z := (chan s, GC4016 s, skip s).

Lemma kept_step c1 t : keeps kept (wait_for_channel env c1 t).
Proof. unfold wait_for_channel, leave_wait, transferred. keep. Qed.

Lemma kept_resume : keeps kept resume.
Proof. unfold resume. apply gc_keeps_bind; [keep | intros p]. destruct p; unfold go, respond, start_rest; keep. Qed.

(** A request that is not a command for the settings. *)
Definition sets (x : gc_cmd) : bool :=
  match x with
  | SetFilters _ _ _ _ | SetFrequency _ _ _ | SetOutputRate _ _ _ | SetSamples _ _ _ | UpdateChannel _ _ => true
  | _ => false
  end.

Lemma kept_command x : sets x = false → keeps kept (command env x).
Proof. destruct x; cbn [command sets]; intros H; try discriminate H; keep. Qed.

Lemma kept_devctl x : sets x = false → keeps kept (io_devctl env (Cmd x)).
Proof.
  intros H. pose proof (kept_command x H) as Hk. cbn [io_devctl].
  destruct x; cbn [sets] in H; try discriminate H;
    try (apply gc_keeps_bind; [exact Hk | intros; unfold respond; keep]); unfold go, respond, start_rest; keep.
Qed.

(** The settings after the commands so far: tuning [t] of [p0], and registers for
    the tuning [u]. *)
Definition follows (p0 : channel_params) (v0 : option channel_regs * option Z)
    (u : tuning * option tuning) (s : gc314) : Prop :=
  zget (chan s) c = Some (tuned u.1 p0) ∧
  programmed c s = match u.2 with Some t => values (math env) (tuned t p0) | None => v0 end.

Lemma follows_kept p0 v0 u s s' : kept s' = kept s → follows p0 v0 u s → follows p0 v0 u s'.
Proof. unfold follows, programmed, kept. intros [= -> -> ->]. done. Qed.

(** A command that changes the parameters of one channel. *)
Lemma upd_chan_inv c' f s s' : upd_chan c' f s = Ok (tt, s') →
  (0 ≤ c' < 4 ∧ ∃ p l, zget (chan s) c' = Some p ∧ zset (chan s) c' (f p) = Some l ∧ s' = s <| chan := l |>) ∨
  (¬ 0 ≤ c' < 4 ∧ s' = s).
Proof.
  unfold upd_chan, per_channel, when. destruct (_ && _) eqn:E.
  - apply andb_prop in E as [E1 E2]. intros H. left. split; [lia |].
    apply bind_inv in H as (p & s1 & [-> Hp]%get_at_inv & H). apply set_at_inv in H as (l & Hl & ->). eauto.
  - intros [= ->]. right. split; [| done]. intros H. rewrite !(proj2 (Z.leb_le _ _)), !(proj2 (Z.ltb_lt _ _)) in E by lia.
    discriminate.
Qed.

Lemma follows_upd c' f p0 v0 t t' u s s' : upd_chan c' f s = Ok (tt, s') → follows p0 v0 (t, u) s →
  (c' = c → f (tuned t p0) = tuned t' p0) → (c' ≠ c → t' = t) → follows p0 v0 (t', u) s'.
Proof.
  intros H [Hp Hv] Heq Hne. cbn [fst snd] in *. apply upd_chan_inv in H as [(Hr & p & l & Hp' & Hl & ->) | [Hr ->]].
  - split; [| exact Hv]. cbn. destruct (decide (c' = c)) as [-> | Hd].
    + rewrite (zget_zset_eq _ _ _ _ Hl). rewrite Hp in Hp'. injection Hp' as <-. rewrite Heq by done. reflexivity.
    + rewrite (zget_zset_ne _ _ _ _ _ Hl) by congruence. rewrite Hne by done. exact Hp.
  - rewrite Hne by (intros ->; tauto). split; done.
Qed.

Lemma per_channel_inv c' (m : DM unit) s s' : per_channel c' m s = Ok (tt, s') →
  (0 ≤ c' < 4 ∧ m s = Ok (tt, s')) ∨ (¬ 0 ≤ c' < 4 ∧ s' = s).
Proof.
  unfold per_channel, when. destruct (Z.leb_spec 0 c'), (Z.ltb_spec c' 4); cbn [andb]; intros H1;
    [left; split; [lia | exact H1] | | |]; right; (split; [lia |]); injection H1 as ->; done.
Qed.

Lemma follows_samples c' n p0 v0 t u s s' : set_samples c' n s = Ok (tt, s') → follows p0 v0 (t, u) s →
  follows p0 v0 (if c' =? c then t <| t_samples := Some n |> else t, u) s'.
Proof.
  intros H [Hp Hv]. cbn [fst snd] in *. apply per_channel_inv in H as [[Hr H] | [Hr ->]].
  - apply bind_inv in H as (p & s1 & [-> Hp']%get_at_inv & H).
    apply bind_inv in H as ([] & s2 & (l & Hl & ->)%set_at_inv & H).
    apply bind_inv in H as (q & s3 & [-> Hq]%get_at_inv & H). apply set_at_inv in H as (l2 & Hl2 & ->).
    split; [| exact Hv]. cbn. destruct (Z.eqb_spec c' c) as [-> | Hne].
    + rewrite (zget_zset_eq _ _ _ _ Hl). rewrite Hp in Hp'. injection Hp' as <-. reflexivity.
    + rewrite (zget_zset_ne _ _ _ _ _ Hl) by congruence. exact Hp.
  - rewrite (proj2 (Z.eqb_neq c' c)) by lia. split; done.
Qed.

(** GC314_UPDATE_CHANNEL replaces the registers and the delay of its channel. *)
Lemma update_body_inv c' (p : channel_params) (v : gc4016_vals) (s s' : gc314) : (
    l ← gets GC4016; l ← deref OutOfBounds (zset l c' (v_regs v));
    modify (fun s => s <| GC4016 := l |>);;
    modify (fun s => s <| resampcoeffs ::= put_coeffs (ch_channel p) (v_resamp v) |>);;
    r ← gets resampratios; r ← deref OutOfBounds (zset r (ch_channel p) (v_ratio v));
    modify (fun s => s <| resampratios := r |>);;
    set_skip c' (v_skip v)) s = Ok (tt, s') →
  ∃ l l4, zset (GC4016 s) c' (v_regs v) = Some l ∧ zset (skip s) c' (v_skip v) = Some l4 ∧
    kept s' = (chan s, l, l4).
Proof.
  intros H. apply bind_inv in H as (l & s1 & [= <- <-] & H). apply bind_inv in H as (l2 & s2 & Hd & H).
  unfold deref in Hd. destruct (zset (GC4016 s) c' _) as [l3 |]; [| discriminate Hd]. injection Hd as <- <-.
  apply bind_inv in H as (? & s3 & [= <- <-] & H). apply bind_inv in H as (? & s4 & [= <- <-] & H).
  apply bind_inv in H as (r & s5 & [= <- <-] & H). apply bind_inv in H as (r2 & s6 & Hd & H).
  unfold deref in Hd. destruct (zset _ (ch_channel p) _) as [r3 |] in Hd; [| discriminate Hd]. injection Hd as <- <-.
  apply bind_inv in H as (? & s7 & [= <- <-] & H). apply set_at_inv in H as (l4 & Hl4 & ->).
  exists l3, l4. done.
Qed.

Lemma update_channel_inv c' s s' : update_channel env c' s = Ok (tt, s') → 0 ≤ c' < 4 →
  ∃ p l l4, zget (chan s) c' = Some p ∧ zset (GC4016 s) c' (v_regs (_set_GC4016_vals (math env) p)) = Some l ∧
    zset (skip s) c' (v_skip (_set_GC4016_vals (math env) p)) = Some l4 ∧ kept s' = (chan s, l, l4).
Proof.
  intros H Hr. apply per_channel_inv in H as [[_ H] | [Hn _]]; [| lia].
  apply bind_inv in H as (p & s1 & [-> Hp']%get_at_inv & H). exists p.
  destruct (update_body_inv c' p _ s s' H) as (l & l4 & H1 & H2 & H3). exists l, l4. done.
Qed.

Lemma follows_update c' p0 v0 t u s s' : update_channel env c' s = Ok (tt, s') → follows p0 v0 (t, u) s →
  follows p0 v0 (t, if c' =? c then Some t else u) s'.
Proof.
  intros H [Hp Hv]. cbn [fst snd] in *. pose proof H as H0. apply per_channel_inv in H0 as [[Hr _] | [Hr ->]].
  2:{ rewrite (proj2 (Z.eqb_neq c' c)) by lia. split; done. }
  destruct (update_channel_inv c' s s' H Hr) as (p & l & l4 & Hp' & El & Hl4 & Hk).
  unfold kept in Hk. injection Hk as Hk1 Hk2 Hk3.
  split; [cbn; rewrite Hk1; exact Hp |]. unfold programmed in *. rewrite Hk2, Hk3. cbn. destruct (Z.eqb_spec c' c) as [-> | Hne].
  - rewrite (zget_zset_eq _ _ _ _ El), (zget_zset_eq _ _ _ _ Hl4). rewrite Hp in Hp'. injection Hp' as <-. reflexivity.
  - rewrite (zget_zset_ne _ _ _ _ _ El), (zget_zset_ne _ _ _ _ _ Hl4) by congruence. exact Hv.
Qed.

(** A command of this card. *)
Lemma follows_command x p0 v0 u s s' : card_of x = k → command env x s = Ok (tt, s') →
  follows p0 v0 u s → follows p0 v0 (update_step k c u x) s'.
Proof.
  intros Hk H Hf. destruct u as [t u].
  assert (Hsame : sets x = false → update_step k c (t, u) x = (tuning_step k c t x, u) ∧
    tuned (tuning_step k c t x) p0 = tuned t p0).
  { destruct x; cbn [sets update_step tuning_step fst snd]; intros Hs; try discriminate Hs;
      (split; [reflexivity |]); try destruct (_ && _); reflexivity. }
  destruct (sets x) eqn:Hs.
  - destruct x; cbn [sets command card_of] in *; try discriminate Hs; subst;
      unfold update_step; cbn [tuning_step fst snd]; rewrite ?Z.eqb_refl; cbn [andb].
    1-3: eapply follows_upd; [exact H | exact Hf | |];
      [intros ->; rewrite Z.eqb_refl; reflexivity | intros Hne; rewrite (proj2 (Z.eqb_neq _ _)) by done; reflexivity].
    + eapply follows_samples; eassumption.
    + eapply follows_update; eassumption.
  - destruct (Hsame eq_refl) as [-> Ht]. apply (follows_kept p0 v0 _ s); [exact (kept_command x Hs s tt s' H) |].
    destruct Hf as [Hp Hv]. split; [| exact Hv]. cbn [fst snd] in *. rewrite Ht. exact Hp.
Qed.

Lemma follows_devctl q p0 v0 u s s' : (∀ x, q = Cmd x → card_of x = k) → io_devctl env q s = Ok (tt, s') →
  follows p0 v0 u s → follows p0 v0 (updated k c u (match q with Cmd x => [x] | _ => [] end)) s'.
Proof.
  intros Hk H Hf. destruct q as [x | ch chip |]; cbn [updated fold_left].
  2,3: cbn [io_devctl] in H; unfold respond, modify in H; injection H as <-; exact Hf.
  specialize (Hk x eq_refl).
  assert (Hcmd : (command env x;; respond Done) s = Ok (tt, s') → follows p0 v0 (update_step k c u x) s').
  { intros H1. apply bind_inv in H1 as ([] & s1 & H1 & H2). unfold respond, modify in H2. injection H2 as <-.
    apply (follows_kept p0 v0 _ s1); [reflexivity |]. exact (follows_command x p0 v0 u s s1 Hk H1 Hf). }
  assert (Hx : io_devctl env (Cmd x) = (command env x;; respond Done) ∨
               (sets x = false ∧ update_step k c u x = u)).
  { destruct u. destruct x; first [left; reflexivity | right; split; reflexivity]. }
  destruct Hx as [Hx | [Hs ->]]; [apply Hcmd; rewrite <- Hx; exact H |].
  apply (follows_kept p0 v0 _ s); [exact (kept_devctl x Hs s tt s' H) | exact Hf].
Qed.

Lemma follows_exec D t s l s' p0 v0 u : exec env D t s l s' → Forall (fun x => card_of x = k) (cmds l) →
  follows p0 v0 u s → follows p0 v0 (updated k c u (cmds l)) s'.
Proof.
  intros Hex. revert u. induction Hex as [| t s t' e s1 l s2 Ht He HD Hp _ IH]; intros u Hall Hf; [exact Hf |].
  unfold cmds in Hall |- *. cbn [flat_map snd] in Hall |- *. fold (cmds l) in Hall |- *. apply Forall_app in Hall as [Hk Hall].
  unfold updated. rewrite fold_left_app. apply IH; [exact Hall |].
  destruct e as [q | | c1]; cbn [perform] in Hp.
  - assert (Hq : ∀ x, q = Cmd x → card_of x = k).
    { intros x ->. inversion_clear Hk. done. }
    pose proof (follows_devctl q p0 v0 u s s1 Hq Hp Hf) as Hf1. destruct q; exact Hf1.
  - apply (follows_kept p0 v0 _ s); [exact (kept_resume s tt s1 Hp) | exact Hf].
  - apply (follows_kept p0 v0 _ s); [exact (kept_step c1 t' s tt s1 Hp) | exact Hf].
Qed.
End Follow.

Lemma tuned_untuned p : tuned untuned p = p.
Proof. destruct p. reflexivity. Qed.

Lemma updated_fst k c u L : (updated k c u L).1 = fold_left (tuning_step k c) L u.1.
Proof.
  revert u. induction L as [| x L IH]; intros u; [reflexivity |]. exact (IH (update_step k c u x)).
Qed.

(** ** A pre-trigger, end to end *)

(** The parameters a ready client asks for. *)
Definition params_for (c : Z) (p : ControlPRM) : channel_params :=
  mk_channel_params c (rfreq p * 1000) (number_of_samples p + RECV_SAMPLE_HEADER)
    (of_float (baseband_samplerate p)) (d_to_int (f_of_int (filter_bandwidth p))) (match_filter p).

(** The commands of a list for a card. *)
Definition for_card (k : Z) (L : list gc_cmd) : list gc_cmd := List.filter (fun x => card_of x =? k) L.

Lemma for_card_all k L : Forall (fun x => card_of x = k) (for_card k L).
Proof. apply Forall_forall. intros x Hx. apply list_elem_of_In, List.filter_In in Hx as [_ Hx]. lia. Qed.

Lemma updated_app k c u L1 L2 : updated k c u (L1 ++ L2) = updated k c (updated k c u L1) L2.
Proof. apply fold_left_app. Qed.

Lemma updated_for_card k c u L : updated k c u (for_card k L) = updated k c u L.
Proof.
  revert u. induction L as [| x L IH]; intros u; [reflexivity |]. unfold for_card in *. cbn [List.filter].
  unfold updated. cbn [fold_left].
  assert (Hx : card_of x ≠ k → update_step k c u x = u).
  { intros Hne%Z.eqb_neq. destruct u as [t u]. destruct x; unfold update_step; cbn [card_of] in Hne;
      cbn [tuning_step fst snd]; rewrite ?Hne; reflexivity. }
  destruct (Z.eqb_spec (card_of x) k) as [E | E]; cbn [fold_left]; [| rewrite (Hx E)]; apply IH.
Qed.

(** Commands that leave the channel as it is. *)
Definition aside (k c : Z) (x : gc_cmd) : bool :=
  match x with
  | UpdateChannel k' c' => negb ((k' =? k) && (c' =? c))
  | x => negb (touches k c x) || match x with ChannelOn _ _ | ChannelAbort _ _ => true | _ => false end
  end.

(** What the values of a channel depend on. *)
Definition same_values (t t' : tuning) : Prop :=
  t_filter t = t_filter t' ∧ t_rate t = t_rate t' ∧ t_freq t = t_freq t'.

Lemma aside_step k c t u x : aside k c x = true →
  same_values (update_step k c (t, u) x).1 t ∧ t_samples (update_step k c (t, u) x).1 = t_samples t ∧
  (update_step k c (t, u) x).2 = u.
Proof.
  unfold same_values. destruct x as [k' c' | k' c' | | | k' bw c' m | k' f c' | | k' r c' | | k' n c' | | | | k' c' |];
    unfold update_step; cbn [aside touches tuning_step fst snd]; try (intros _; split_and!; reflexivity).
  all: destruct ((k' =? k) && (c' =? c)); intros H; split_and!; first [reflexivity | discriminate H].
Qed.

Lemma updated_aside k c u L : forallb (aside k c) L = true →
  same_values (updated k c u L).1 u.1 ∧ t_samples (updated k c u L).1 = t_samples u.1 ∧
  (updated k c u L).2 = u.2.
Proof.
  revert u. induction L as [| x L IH]; intros u H; [done |]. cbn [forallb] in H.
  apply andb_prop in H as [Hx H]. destruct u as [t u].
  destruct (IH (update_step k c (t, u) x) H) as ((H1 & H2 & H3) & H4 & H5).
  destruct (aside_step k c t u x Hx) as ((K1 & K2 & K3) & K4 & K5).
  change (updated k c (t, u) (x :: L)) with (updated k c (update_step k c (t, u) x) L).
  unfold same_values. split_and!; etransitivity; eassumption.
Qed.

(** The values do not depend on the number of samples. *)
Lemma values_params m p q : ch_freq p = ch_freq q → ch_rate p = ch_rate q → ch_BW p = ch_BW q →
  ch_matched p = ch_matched q → values m p = values m q.
Proof.
  intros Hf Hr Hb Hm. assert (H : _set_GC4016_vals m p = _set_GC4016_vals m q).
  { assert (Hd : decimation p = decimation q) by (unfold decimation; rewrite Hr; reflexivity).
    assert (Hs : sample_delay p = sample_delay q) by (unfold sample_delay; rewrite ?Hd, ?Hr, ?Hm; reflexivity).
    assert (Ho : resamp_ratio p = resamp_ratio q) by (unfold resamp_ratio; rewrite ?Hd, ?Hr; reflexivity).
    unfold _set_GC4016_vals. rewrite Hf, Hb, Hm, Hd, Hs, Ho. reflexivity. }
  unfold values. rewrite H. reflexivity.
Qed.

Lemma values_same m t t' p : same_values t t' → values m (tuned t p) = values m (tuned t' p).
Proof. intros (H1 & H2 & H3). apply values_params; cbn; rewrite ?H1, ?H2, ?H3; reflexivity. Qed.

(** The tuning of a ready client among the commands of a set-up. *)
Lemma tuned_in_setup k c p p0 u A B : radar p - 1 = k → channel p - 1 = c → forallb (aside k c) B = true →
  tuned (updated k c u (A ++ tune_commands p ++ B)).1 p0 = params_for (ch_channel p0) p ∧
  ∃ t, (updated k c u (A ++ tune_commands p ++ B)).2 = Some t ∧
       ∀ m, values m (tuned t p0) = values m (params_for (ch_channel p0) p).
Proof.
  intros <- <- HB. rewrite !updated_app. destruct (updated _ _ u A) as [t0 u0].
  assert (Ht : ∃ t1, updated (radar p - 1) (channel p - 1) (t0, u0) (tune_commands p) = (t1 <| t_samples := Some (number_of_samples p + RECV_SAMPLE_HEADER) |>, Some t1) ∧
     t1 = mk_tuning (Some (f_of_int (filter_bandwidth p), match_filter p)) (Some (of_float (baseband_samplerate p)))
            (Some (rfreq p * 1000)) (t_samples t0) (t_on t0)).
  { eexists. split; [| reflexivity]. unfold tune_commands, updated. cbv zeta. cbn [fold_left]. unfold update_step. cbn [tuning_step fst snd].
    rewrite !Z.eqb_refl. reflexivity. }
  destruct Ht as (t1 & -> & ->).
  match goal with |- context [updated _ _ ?u B] => destruct (updated_aside _ _ u B HB) as ((H1 & H2 & H3) & H4 & H5) end.
  cbn [fst snd] in *. split.
  - unfold tuned. rewrite H1, H2, H3, H4. reflexivity.
  - eexists. split; [exact H5 |]. intros m. apply values_params; reflexivity.
Qed.

(** *** The channel is on *)

Definition on_step (k c : Z) (v : Z) (x : gc_cmd) : Z :=
  match x with
  | ChannelOn k' c' => if (k' =? k) && (c' =? c) then 1 else v
  | ChannelAbort k' c' => if (k' =? k) && (c' =? c) then 0 else v
  | _ => v
  end.

(** Commands that neither start nor wait for helpers. *)
Definition starts (x : gc_cmd) : bool :=
  match x with StartCollection _ | WaitForData _ _ => true | _ => false end.

Section On.
Context (env : gc314_env) (k c : Z).
Context (Hc : 0 ≤ c < 4).

Definition idle (v : Z) (s : gc314) : Prop :=
  helper_of s c = None ∧ handler s = Idle ∧ zget (channel_on_off s) c = Some v.

Definition on_view (s : gc314) : list (option helper) * handler_pc * list Z := (helpers s, handler s, channel_on_off s).

Lemma idle_kept v s s' : on_view s' = on_view s → idle v s → idle v s'.
Proof. unfold idle, on_view, helper_of. intros [= -> -> ->]. done. Qed.

Lemma idle_set_on c' w v s s' : set_on_off c' w s = Ok (tt, s') → idle v s → idle (if c' =? c then w else v) s'.
Proof.
  intros (l & Hl & ->)%set_at_inv (H1 & H2 & H3). split_and!; [exact H1 | exact H2 |]. cbn.
  destruct (Z.eqb_spec c' c) as [-> | Hne]; [exact (zget_zset_eq _ _ _ _ Hl) |].
  rewrite (zget_zset_ne _ _ _ _ _ Hl) by congruence. exact H3.
Qed.

Lemma idle_command x v s s' : starts x = false → card_of x = k → command env x s = Ok (tt, s') →
  idle v s → idle (on_step k c v x) s'.
Proof.
  intros Hs Hk H Hi.
  assert (Hsame : keeps on_view (command env x) → on_step k c v x = v → idle (on_step k c v x) s').
  { intros Hkeep ->. exact (idle_kept v s s' (Hkeep s tt s' H) Hi). }
  destruct x; cbn [starts card_of] in *; try discriminate Hs;
    try (apply Hsame; [cbn [command]; keep | reflexivity]); clear Hsame; subst; cbn [command on_step] in *;
    rewrite Z.eqb_refl; cbn [andb].
  - apply per_channel_inv in H as [[Hr H] | [Hr ->]].
    + apply bind_inv in H as ([] & s1 & H1 & H2). pose proof (idle_set_on _ _ v s s1 H1 Hi) as Hi1.
      apply (idle_kept _ s1); [| exact Hi1].
      assert (Hkeep : keeps on_view (for_each chips (fun i => or32 env Main (CSR i channel) 4))) by keep.
      exact (Hkeep s1 tt s' H2).
    + rewrite (proj2 (Z.eqb_neq _ _)) by lia. exact Hi.
  - apply per_channel_inv in H as [[Hr H] | [Hr ->]]; [exact (idle_set_on _ _ v s s' H Hi) |].
    rewrite (proj2 (Z.eqb_neq _ _)) by lia. exact Hi.
Qed.

Lemma idle_exec D t s l s' v : exec env D t s l s' → Forall (fun x => card_of x = k ∧ starts x = false) (cmds l) →
  idle v s → idle (fold_left (on_step k c) (cmds l) v) s'.
Proof.
  intros Hex. revert v. induction Hex as [| t s t' e s1 l s2 Ht He HD Hp _ IH]; intros v Hall Hi; [exact Hi |].
  unfold cmds in Hall |- *. cbn [flat_map snd] in Hall |- *. fold (cmds l) in Hall |- *.
  apply Forall_app in Hall as [Hk Hall]. rewrite fold_left_app. apply IH; [exact Hall |].
  destruct e as [q | | c1]; cbn [perform enabled fold_left] in *.
  - destruct q as [x | ch chip |]; cbn [fold_left].
    2,3: cbn [io_devctl] in Hp; unfold respond, modify in Hp; injection Hp as <-; exact Hi.
    apply Forall_cons in Hk as [[Hk Hs] _].
    assert (Hx : io_devctl env (Cmd x) = (command env x;; respond Done)) by (destruct x; done).
    rewrite Hx in Hp. apply bind_inv in Hp as ([] & s0 & H1 & H2). unfold respond, modify in H2. injection H2 as <-.
    apply (idle_kept _ s0); [reflexivity |]. exact (idle_command x v s s0 Hs Hk H1 Hi).
  - destruct Hi as (_ & Hi & _). rewrite Hi in He. discriminate He.
  - assert (Hne : c1 ≠ c) by (intros ->; destruct Hi as [Hi _]; rewrite Hi in He; discriminate He).
    destruct Hi as (H1 & H2 & H3). split_and!.
    + rewrite <- H1. exact (f_equal v_helper (view_step env c c1 t' (not_eq_sym Hne) s tt s1 Hp)).
    + rewrite <- H2. exact (handler_step env c1 t' s tt s1 Hp).
    + rewrite <- H3. pose proof (corner_step env c c1 t' Hne s tt s1 Hp) as Hcor. injection Hcor as _ E _ _. exact E.
Qed.
End On.

(** *** The clients of a card *)

(** The setup before the chips are loaded. *)
Definition load_prefix (ps : list ControlPRM) : list gc_cmd :=
  cards (fun k => SetExternalTrigger k GC314_OFF) ++ flat_map tune_commands ps ++
  cards (fun k => SetSyncMask k SYNC1_SIA_HOLD) ++ cards (fun k => SetGlobalReset k GC314_ON).

Lemma forallb_flat {A} (f : gc_cmd → bool) (g : A → list gc_cmd) l :
  Forall (fun x => forallb f (g x) = true) l → forallb f (flat_map g l) = true.
Proof. induction 1 as [| x l Hx _ IH]; [done |]. rewrite flat_map_cons, forallb_app, Hx. exact IH. Qed.

Lemma tune_aside k c q : at_channel k c q = false → forallb (aside k c) (tune_commands q) = true.
Proof.
  unfold at_channel. intros H. unfold tune_commands. cbn [forallb aside touches]. rewrite H. reflexivity.
Qed.

Lemma others_aside (g : ControlPRM → list gc_cmd) k c l :
  (∀ q, at_channel k c q = false → forallb (aside k c) (g q) = true) →
  Forall (fun q => at_channel k c q = false) l → forallb (aside k c) (flat_map g l) = true.
Proof. intros Hg Hl. apply forallb_flat. eapply Forall_impl; [exact Hl | exact Hg]. Qed.

Lemma rda_aside k c ps : forallb (aside k c) (flat_map rda_command ps) = true.
Proof. apply forallb_flat, Forall_true. reflexivity. Qed.

Lemma on_aside k c ps : forallb (aside k c) (flat_map on_command ps) = true.
Proof. apply forallb_flat, Forall_true. intros q. cbn. rewrite orb_true_r. reflexivity. Qed.

(** The commands after those of a client leave its channel. *)
Lemma prefix_split l1 p l2 : Forall (fun q => at_channel (radar p - 1) (channel p - 1) q = false) l2 →
  ∃ A B, load_prefix (l1 ++ p :: l2) = (A ++ tune_commands p ++ B)%list ∧
    forallb (aside (radar p - 1) (channel p - 1)) B = true.
Proof.
  intros H2. unfold load_prefix. rewrite flat_map_app, flat_map_cons, <- !app_assoc.
  eexists (_ ++ _)%list, _. split; [rewrite <- app_assoc; reflexivity |].
  rewrite forallb_app, (others_aside tune_commands) by (exact H2 || apply tune_aside). reflexivity.
Qed.

Lemma setup_split l1 p l2 : Forall (fun q => at_channel (radar p - 1) (channel p - 1) q = false) l2 →
  ∃ A B, setup_commands (l1 ++ p :: l2) = (A ++ tune_commands p ++ B)%list ∧
    forallb (aside (radar p - 1) (channel p - 1)) B = true.
Proof.
  intros H2. unfold setup_commands. rewrite (flat_map_app tune_commands), (flat_map_cons tune_commands), <- !app_assoc.
  eexists (_ ++ _)%list, _. split; [rewrite <- app_assoc; reflexivity |].
  rewrite !forallb_app, (others_aside tune_commands) by (exact H2 || apply tune_aside).
  rewrite rda_aside, on_aside. reflexivity.
Qed.

(** What a driver has set for the client after commands that tune it. *)
Definition holds (m : libm) (c : Z) (p : ControlPRM) (s : gc314) : Prop :=
  zget (chan s) c = Some (params_for c p) ∧ programmed c s = values m (params_for c p).

Lemma driver_tuned env k c D t s l s' p p0 A B : 0 ≤ c < 4 → exec env D t s l s' →
  cmds l = for_card k (A ++ tune_commands p ++ B) → radar p - 1 = k → channel p - 1 = c →
  forallb (aside k c) B = true → zget (chan s) c = Some p0 → ch_channel p0 = c → holds (math env) c p s'.
Proof.
  intros Hc Hex Hl Hr Hch HB Hp0 Hc0.
  assert (Hall : Forall (fun x => card_of x = k) (cmds l)) by (rewrite Hl; apply for_card_all).
  destruct (follows_exec env k c Hc D t s l s' p0 (programmed c s) (untuned, None) Hex Hall) as [H1 H2].
  { split; cbn; [rewrite tuned_untuned; exact Hp0 | reflexivity]. }
  rewrite Hl, updated_for_card in H1, H2.
  destruct (tuned_in_setup k c p p0 (untuned, None) A B Hr Hch HB) as (E1 & u & E2 & E3).
  rewrite E1 in H1. rewrite E2 in H2. rewrite Hc0 in *. split; [exact H1 |]. rewrite H2. apply E3.
Qed.

(** *** The channel of a client is on *)

Lemma on_for_card k c v L : fold_left (on_step k c) (for_card k L) v = fold_left (on_step k c) L v.
Proof.
  revert v. induction L as [| x L IH]; intros v; [reflexivity |]. unfold for_card in *. cbn [List.filter].
  assert (Hx : card_of x ≠ k → on_step k c v x = v).
  { intros Hne%Z.eqb_neq. destruct x; cbn [card_of] in Hne; cbn [on_step]; rewrite ?Hne; reflexivity. }
  destruct (Z.eqb_spec (card_of x) k) as [E | E]; cbn [fold_left]; [| rewrite (Hx E)]; apply IH.
Qed.

Lemma on_skips k c L v : Forall (fun x => touches k c x = false) L → fold_left (on_step k c) L v = v.
Proof.
  intros H. revert v. induction H as [| x L Hx _ IH]; intros v; [done |]. cbn [fold_left].
  assert (E : on_step k c v x = v) by (destruct x; cbn [touches] in Hx; cbn [on_step]; rewrite ?Hx; reflexivity).
  rewrite E. apply IH.
Qed.

Lemma setup_on l1 p l2 v : Forall (fun q => at_channel (radar p - 1) (channel p - 1) q = false) l2 →
  fold_left (on_step (radar p - 1) (channel p - 1)) (setup_commands (l1 ++ p :: l2)) v = 1.
Proof.
  intros H2. unfold setup_commands. rewrite (flat_map_app on_command), (flat_map_cons on_command), !app_assoc.
  rewrite fold_left_app, (on_skips _ _ (flat_map on_command l2)) by (apply others_skip; [apply on_skip | exact H2]).
  rewrite fold_left_app. cbn [on_command fold_left on_step]. rewrite !Z.eqb_refl. reflexivity.
Qed.

Lemma setup_starts ps : Forall (fun x => starts x = false) (setup_commands ps).
Proof.
  unfold setup_commands. repeat apply Forall_app_2; try (repeat constructor; fail).
  all: apply Forall_flat_map, Forall_true; intros q; repeat constructor.
Qed.

Lemma prefix_starts ps : Forall (fun x => starts x = false) (load_prefix ps).
Proof.
  unfold load_prefix. repeat apply Forall_app_2; try (repeat constructor; fail).
  apply Forall_flat_map, Forall_true; intros q; repeat constructor.
Qed.

(** *** What the chips hold *)

(** The words of the card after some accesses, from [m0]. *)
Definition mem_step (m : Z → Z) (a : access) : Z → Z :=
  match a with Wr reg v => upd m reg (u32 v) | _ => m end.

Definition mem_of (m0 : Z → Z) (l : list access) : Z → Z := fold_left mem_step l m0.

(** The registers of the chips read back what was written to them. *)
Definition reads_back (env : gc314_env) (m0 : Z → Z) : Prop :=
  ∀ l reg, 2048 ≤ reg < 8192 → u32 (card env (l ++ [Rd reg])) = mem_of m0 l reg.

Definition card_mem (m0 : Z → Z) (s : gc314) : Z → Z := mem_of m0 (map snd (io s)).

Section Memory.
Context (env : gc314_env) (m0 : Z → Z).
Context (Hback : reads_back env m0).

Lemma log_mem w a s : card_mem m0 (s <| io := (io s ++ [(w, a)])%list |>) = mem_step (card_mem m0 s) a.
Proof.
  unfold card_mem. change (io (s <| io := (io s ++ [(w, a)])%list |>)) with (io s ++ [(w, a)])%list.
  rewrite map_app. unfold mem_of. rewrite fold_left_app. reflexivity.
Qed.

Lemma wr_mem w reg v s s' : wr32 w reg v s = Ok (tt, s') → card_mem m0 s' = upd (card_mem m0 s) reg (u32 v).
Proof.
  intros ->%log_inv. rewrite log_mem. cbn [mem_step]. f_equal. unfold u32. apply Z.mod_mod. lia.
Qed.

Lemma rd_mem w reg v s s' : 2048 ≤ reg < 8192 → rd32 env w reg s = Ok (v, s') →
  v = card_mem m0 s reg ∧ card_mem m0 s' = card_mem m0 s.
Proof.
  intros Hr H. apply bind_inv in H as ([] & s1 & ->%log_inv & H).
  apply bind_inv in H as (l & s1 & [= <- <-] & H). injection H as <- <-.
  split; [| apply log_mem]. rewrite map_app. apply Hback, Hr.
Qed.

Lemma word_u32 w m : match w with W32 _ _ => True | _ => 0 ≤ m < 2 ^ 32 end → u32 (write_word w m) = write_word w m.
Proof.
  assert (Hor : ∀ a b n, 0 ≤ a < 2 ^ 32 → u32 ((a &c n) |c u32 b) = (a &c n) |c u32 b).
  { intros a b n Ha. unfold u32. rewrite <- !Z.land_ones by lia.
    rewrite Z.land_lor_distr_l, <- !Z.land_assoc, Z.land_diag. f_equal.
    rewrite (Z.land_comm n), Z.land_assoc. rewrite (Z.land_ones a 32), Z.mod_small by lia. reflexivity. }
  intros Hm. destruct w as [reg v | reg v | reg v]; cbn [write_word]; [apply Hor, Hm | apply Hor, Hm |].
  unfold u32. rewrite Z.mod_mod by lia. reflexivity.
Qed.

Lemma write_mems w s s' : 2048 ≤ write_reg w < 8192 → write env w s = Ok (tt, s') →
  ∀ a, card_mem m0 s' a = write_mem (card_mem m0 s) w a.
Proof.
  intros Hw H a. unfold write_mem.
  assert (Hrm : (∀ v s1, rd32 env Main (write_reg w) s = Ok (v, s1) →
                  wr32 Main (write_reg w) (write_word w v) s1 = Ok (tt, s') →
                  card_mem m0 s' a = if a =? write_reg w then write_word w (card_mem m0 s a) else card_mem m0 s a)).
  { intros v s1 H1 H2. destruct (rd_mem _ _ _ _ _ Hw H1) as [-> Hm]. rewrite (wr_mem _ _ _ _ _ H2), Hm. unfold upd.
    destruct (Z.eqb_spec a (write_reg w)) as [-> | _]; [| reflexivity]. apply word_u32. destruct w; [| | exact I].
    all: unfold card_mem; rewrite <- (Hback _ _ Hw); apply u32_range. }
  destruct w as [reg v | reg v | reg v]; cbn [write] in H.
  1,2: apply bind_inv in H as (x & s1 & H1 & H2); eapply Hrm; eassumption.
  rewrite (wr_mem _ _ _ _ _ H). unfold upd. cbn [write_reg write_word]. unfold u32. destruct (a =? reg); [| reflexivity].
  reflexivity.
Qed.

Lemma writes_mem ws s s' : Forall (fun w => 2048 ≤ write_reg w < 8192) ws → for_each ws (write env) s = Ok (tt, s') →
  ∀ a, card_mem m0 s' a = writes ws (card_mem m0 s) a.
Proof.
  intros Hws. revert s. induction Hws as [| w ws Hw _ IH]; intros s H a; cbn [for_each] in H.
  - injection H as ->. reflexivity.
  - apply bind_inv in H as ([] & s1 & H1 & H2). rewrite (IH s1 H2 a). cbn.
    pose proof (write_mems w s s1 Hw H1) as Hm.
    assert (Hext : ∀ l (m1 m2 : Z → Z), (∀ x, m1 x = m2 x) → ∀ x, writes l m1 x = writes l m2 x).
    { clear. induction l as [| w l IH]; intros m1 m2 H x; cbn; [apply H |]. apply IH. intros y. unfold write_mem.
      rewrite H. reflexivity. }
    apply Hext, Hm.
Qed.
End Memory.

Lemma write_reg_ge w : match w with W8 reg _ | W16 reg _ | W32 reg _ => reg - 3 ≤ write_reg w end.
Proof. destruct w as [reg v | reg v | reg v]; cbn; try lia; pose proof (Z.mod_pos_bound reg 4); lia. Qed.

Lemma elem_nonneg l i : Forall (fun x => 0 ≤ x) l → 0 ≤ elem_at l i.
Proof.
  intros Hl. unfold elem_at. destruct (nth_in_or_default (Z.to_nat i) l 0) as [Hi | ->]; [| lia].
  rewrite Forall_forall in Hl. apply Hl, list_elem_of_In, Hi.
Qed.

(** The registers of the configuration are those of the chips. *)
Lemma config_range g cf r : Forall (fun w => 2048 ≤ write_reg w < 8192) (_config_GC4016 g cf r).
Proof.
  assert (Hlow : Forall (fun w => 2048 ≤ write_reg w) (_config_GC4016 g cf r)).
  2:{ pose proof (config_low g cf r) as H. rewrite Forall_forall in H, Hlow. apply Forall_forall. auto. }
  unfold _config_GC4016. apply Forall_flat_map, Forall_seqZ. intros k Hk. unfold chip_writes. cbv zeta.
  assert (Hoff : 2048 ≤ elem_at GC314FS_GCoffset k).
  { assert (H : k = 0 ∨ k = 1 ∨ k = 2) by lia. destruct H as [-> | [-> | ->]]; vm_compute; discriminate. }
  set (off := elem_at GC314FS_GCoffset k) in *. clearbody off.
  repeat apply Forall_app_2.
  - unfold general_writes. repeat apply Forall_cons_2; try apply Forall_nil_2.
    all: match goal with |- _ ≤ write_reg ?w => eapply Z.le_trans; [| exact (write_reg_ge w)] end; lia.
  - unfold resamp_writes. apply Forall_map, Forall_seqZ. intros j Hj. cbn [write_reg]. lia.
  - apply Forall_concat, Forall_forall. intros l (i & r0 & -> & Hi)%elem_of_lookup_imap_1.
    assert (Hm : 0 ≤ elem_at chan_control_map (Z.of_nat i)).
    { apply elem_nonneg. unfold chan_control_map. repeat apply Forall_cons_2; try apply Forall_nil_2; lia. }
    unfold channel_writes. apply Forall_app_2; [apply Forall_map, Forall_seqZ; intros j Hj; cbn [write_reg]; lia |].
    apply Forall_cons_2; [| apply Forall_nil_2].
    pose proof (write_reg_ge (W8 (off + elem_at chan_control_map (Z.of_nat i) + 123) (k |c 16))) as H.
    cbv iota beta in H. lia.
Qed.

(** Registers that fit their fields, for four channels. *)
Definition encodable (s : gc314) : Prop := length (GC4016 s) = 4%nat ∧ Forall regs_ok (GC4016 s).

Section Encodable.
Context (env : gc314_env).

Lemma encodable_kept s s' : kept s' = kept s → encodable s → encodable s'.
Proof. unfold kept, encodable. intros [= _ -> _]. done. Qed.

Lemma encodable_command x s s' : command env x s = Ok (tt, s') → encodable s → encodable s'.
Proof.
  intros H He. destruct (sets x) eqn:Hs.
  2:{ exact (encodable_kept s s' (kept_command env x Hs s tt s' H) He). }
  assert (Hregs : keeps GC4016 (command env x) → encodable s').
  { intros Hk. unfold encodable. rewrite (Hk s tt s' H). exact He. }
  destruct x as [| | | | | | | | | | | | | kk ch |]; cbn [sets] in Hs; try discriminate Hs;
    try (apply Hregs; cbn [command]; keep; fail).
  clear Hregs. cbn [command] in H. pose proof H as H0. apply per_channel_inv in H0 as [[Hr _] | [Hr ->]]; [| exact He].
  destruct (update_channel_inv env ch s s' H Hr) as (p & l & l4 & _ & El & _ & Hk).
  unfold kept in Hk. injection Hk as _ Hk _. destruct He as [He1 He2]. unfold encodable. rewrite Hk.
  apply zset_inv in El as [_ ->]. rewrite length_insert. split; [exact He1 |].
  apply Forall_insert; [exact He2 | apply values_regs_ok].
Qed.

Lemma encodable_exec D t s l s' : exec env D t s l s' → encodable s → encodable s'.
Proof.
  induction 1 as [| t s t' e s1 l s2 Ht He HD Hp _ IH]; [done |]. intros H. apply IH.
  destruct e as [q | | c1]; cbn [perform] in Hp.
  - destruct q as [x | ch chip |].
    2,3: cbn [io_devctl] in Hp; unfold respond, modify in Hp; injection Hp as <-; exact H.
    assert (Hx : io_devctl env (Cmd x) = (command env x;; respond Done) ∨ sets x = false).
    { destruct x; first [left; reflexivity | right; reflexivity]. }
    destruct Hx as [Hx | Hs].
    + rewrite Hx in Hp. apply bind_inv in Hp as ([] & s0 & H1 & H2). unfold respond, modify in H2. injection H2 as <-.
      exact (encodable_command x s s0 H1 H).
    + exact (encodable_kept s s1 (kept_devctl env x Hs s tt s1 Hp) H).
  - exact (encodable_kept s s1 (kept_resume s tt s1 Hp) H).
  - exact (encodable_kept s s1 (kept_step env c1 t' s tt s1 Hp) H).
Qed.
End Encodable.

Lemma bytes_same m m' a : (∀ x, m x = m' x) → byte_of m a = byte_of m' a.
Proof. intros H. unfold byte_of. rewrite H. reflexivity. Qed.

(** The load. *)
Lemma command_load env k : command env (LoadGC4016s k) =
  (g ← gets GC4016; cf ← gets resampcoeffs; r ← gets resampratios; for_each (_config_GC4016 g cf r) (write env)).
Proof. reflexivity. Qed.

Lemma load_run env k s : command env (LoadGC4016s k) s =
  for_each (_config_GC4016 (GC4016 s) (resampcoeffs s) (resampratios s)) (write env) s.
Proof. rewrite command_load, !gets_then. reflexivity. Qed.

Lemma load_mem env m0 k s s' : reads_back env m0 → command env (LoadGC4016s k) s = Ok (tt, s') →
  ∀ a, card_mem m0 s' a = writes (_config_GC4016 (GC4016 s) (resampcoeffs s) (resampratios s)) (card_mem m0 s) a.
Proof.
  intros Hback H. rewrite load_run in H. revert H.
  pose proof (config_range (GC4016 s) (resampcoeffs s) (resampratios s)) as Hr. revert Hr.
  generalize (_config_GC4016 (GC4016 s) (resampcoeffs s) (resampratios s)). intros ws Hr H.
  exact (writes_mem env m0 Hback ws s s' Hr H).
Qed.

(** *** No command fails *)

Section Commands.
Context (env : gc314_env).

(** The arrays of a card, and the channels of its parameters. *)
Definition arrays (s : gc314) : Prop := sized s ∧ map ch_channel (chan s) = [0; 1; 2; 3].

(** [ends_well m R]: from such a state [m] ends, with a result of [R] and such a state. *)
Definition ends_well {A} (m : DM A) (R : A → Prop) : Prop :=
  ∀ s, arrays s → ∃ a s', m s = Ok (a, s') ∧ R a ∧ arrays s'.

Lemma ew_bind {A B} (m : DM A) (f : A → DM B) R Q :
  ends_well m R → (∀ a, R a → ends_well (f a) Q) → ends_well (m ≫= f) Q.
Proof.
  intros Hm Hk s Hs. destruct (Hm s Hs) as (a & s1 & E & Ha & Hs1).
  destruct (Hk a Ha s1 Hs1) as (b & s2 & E2 & Hb & Hs2). exists b, s2. rewrite (bind_ok m f s a s1 E). done.
Qed.

Lemma ew_then {A B} (m : DM A) (f : A → DM B) Q :
  ends_well m (fun _ => True) → (∀ a, ends_well (f a) Q) → ends_well (m ≫= f) Q.
Proof. intros Hm Hk. apply (ew_bind m f (fun _ => True)); auto. Qed.

Lemma ew_ret {A} (a : A) : ends_well (mret a) (fun _ => True).
Proof. intros s Hs. exists a, s. done. Qed.

Lemma ew_gets {A} (f : gc314 → A) : ends_well (gets f) (fun _ => True).
Proof. intros s Hs. eexists _, s. split; [reflexivity | done]. Qed.

Lemma ew_log w a : ends_well (log w a) (fun _ => True).
Proof. intros s Hs. eexists _, _. split; [reflexivity |]. split; [done | exact Hs]. Qed.

Lemma ew_rd32 w reg : ends_well (rd32 env w reg) (fun _ => True).
Proof. apply ew_then; [apply ew_log | intros _ s Hs; eexists _, s; split; [reflexivity | done]]. Qed.

Lemma ew_or32 w reg m : ends_well (or32 env w reg m) (fun _ => True).
Proof. apply ew_then; [apply ew_rd32 | intros; apply ew_log]. Qed.

Lemma ew_and32 w reg m : ends_well (and32 env w reg m) (fun _ => True).
Proof. apply ew_then; [apply ew_rd32 | intros; apply ew_log]. Qed.

Lemma ew_write w : ends_well (write env w) (fun _ => True).
Proof. destruct w; cbn [write]; try apply ew_log; (apply ew_then; [apply ew_rd32 | intros; apply ew_log]). Qed.

Lemma ew_each {I} (l : list I) (body : I → DM unit) :
  (∀ x, ends_well (body x) (fun _ => True)) → ends_well (for_each l body) (fun _ => True).
Proof. intros H. induction l as [| x l IH]; cbn; [apply ew_ret |]. apply ew_then; auto. Qed.

Lemma ew_channel c (m : DM unit) : (0 ≤ c < 4 → ends_well m (fun _ => True)) → ends_well (per_channel c m) (fun _ => True).
Proof.
  intros H. unfold per_channel, when. destruct (Z.leb_spec 0 c), (Z.ltb_spec c 4); cbn [andb];
    [apply H; lia | apply ew_ret ..].
Qed.

Lemma ew_set {A} (g : gc314 → list A) upd c v : 0 ≤ c < 4 → (∀ s, sized s → zlen (g s) = 4) →
  (∀ s l, zlen l = zlen (g s) → lens (upd l s) = lens s) →
  (∀ s, arrays s → map ch_channel (chan (upd (<[Z.to_nat c := v]> (g s)) s)) = [0; 1; 2; 3]) →
  ends_well (set_at g upd c v) (fun _ => True).
Proof.
  intros Hc H4 Hupd Hch s Hs. pose proof (zset_Some (g s) c v ltac:(rewrite (H4 s (proj1 Hs)); exact Hc)) as Hl.
  eexists tt, _. split_and!; [unfold set_at; rewrite gets_then, Hl, deref_then; reflexivity | done |].
  split; [| exact (Hch s Hs)]. unfold sized. rewrite Hupd; [exact (proj1 Hs) | exact (zlen_zset _ _ _ _ Hl)].
Qed.

Lemma ew_get {A} (g : gc314 → list A) c : 0 ≤ c < 4 → (∀ s, sized s → zlen (g s) = 4) →
  ends_well (get_at g c) (fun _ => True).
Proof.
  intros Hc H4 s Hs. destruct (zget_range (g s) c) as [x Hx].
  { rewrite (H4 s (proj1 Hs)). exact Hc. }
  exists x, s. unfold get_at. rewrite gets_then, Hx. done.
Qed.

Ltac four := intros s Hs; unfold sized, lens in Hs; congruence.
Ltac ew_set_tac :=
  intros; apply ew_set; [done | four | intros s l Hl; unfold lens; cbn; rewrite Hl; reflexivity | intros s [_ Hs]; exact Hs].

Lemma ew_on_off c v : 0 ≤ c < 4 → ends_well (set_on_off c v) (fun _ => True). Proof. ew_set_tac. Qed.
Lemma ew_fifo c v : 0 ≤ c < 4 → ends_well (set_fifo_lvl c v) (fun _ => True). Proof. ew_set_tac. Qed.
Lemma ew_skip c v : 0 ≤ c < 4 → ends_well (set_skip c v) (fun _ => True). Proof. ew_set_tac. Qed.

(** The parameters keep their channel. *)
Lemma ew_chan c : 0 ≤ c < 4 → ends_well (get_at chan c) (fun p => ch_channel p = c).
Proof.
  intros Hc s Hs. pose proof Hs as [_ Hm].
  assert (Hx : zget (map ch_channel (chan s)) c = Some c).
  { rewrite Hm. assert (Hcase : c = 0 ∨ c = 1 ∨ c = 2 ∨ c = 3) by lia.
    destruct Hcase as [-> | [-> | [-> | ->]]]; reflexivity. }
  rewrite zget_map in Hx. destruct (zget (chan s) c) as [p |] eqn:E; [| discriminate]. injection Hx as Hx.
  exists p, s. unfold get_at. rewrite gets_then, E. done.
Qed.

Lemma ew_set_chan c p : 0 ≤ c < 4 → ch_channel p = c → ends_well (set_chan c p) (fun _ => True).
Proof.
  intros Hc Hp. apply ew_set; [done | four | intros s l Hl; unfold lens; cbn; rewrite Hl; reflexivity |].
  intros s [_ Hs]. cbn. rewrite list_fmap_insert. unfold fmap, list_fmap in *. cbn. rewrite Hp.
  change (<[Z.to_nat c := c]> (map ch_channel (chan s)) = [0; 1; 2; 3]). rewrite Hs.
  assert (Hcase : c = 0 ∨ c = 1 ∨ c = 2 ∨ c = 3) by lia. destruct Hcase as [-> | [-> | [-> | ->]]]; reflexivity.
Qed.

Lemma ew_upd_chan c f : (∀ p, ch_channel (f p) = ch_channel p) → ends_well (upd_chan c f) (fun _ => True).
Proof.
  intros Hf. apply ew_channel. intros Hc. eapply ew_bind; [apply ew_chan, Hc |]. intros p Hp.
  apply ew_set_chan; [exact Hc |]. rewrite Hf. exact Hp.
Qed.

Lemma ew_samples c n : ends_well (set_samples c n) (fun _ => True).
Proof.
  apply ew_channel. intros Hc. eapply ew_bind; [apply ew_chan, Hc |]. intros p Hp.
  apply ew_then; [apply ew_set_chan; [exact Hc | exact Hp] | intros _].
  eapply ew_bind; [apply ew_chan; destruct (c =? 3); lia |]. intros q _. apply ew_fifo, Hc.
Qed.

Lemma ew_update c : ends_well (update_channel env c) (fun _ => True).
Proof.
  apply ew_channel. intros Hc. eapply ew_bind; [apply ew_chan, Hc |]. intros p Hp.
  generalize (_set_GC4016_vals (math env) p). intros v. cbv zeta. intros s [Hs Hm].
  pose proof Hs as Hs'. unfold sized, lens in Hs'. injection Hs' as H1 H2 H3 H4 H5 H6 H7 H8 H9.
  rewrite gets_then, (zset_Some (GC4016 s)), deref_then by lia. rewrite modify_then, modify_then, gets_then.
  cbn [resampratios]. rewrite (zset_Some (resampratios s)), deref_then, modify_then by (rewrite Hp; lia).
  apply ew_skip; [exact Hc |]. split; [| exact Hm]. unfold sized, lens in *. cbn.
  unfold zlen in *. rewrite !length_insert. congruence.
Qed.

Ltac ew_if :=
  repeat lazymatch goal with
  | |- ends_well (if ?b then _ else _) _ => destruct b
  | |- ends_well (when ?b _) _ => destruct b; cbn [when]
  | |- ends_well (mret _) _ => apply ew_ret
  | |- ends_well (or32 _ _ _ _) _ => apply ew_or32
  | |- ends_well (and32 _ _ _ _) _ => apply ew_and32
  end.

Lemma command_runs x : ends_well (command env x) (fun _ => True).
Proof.
  destruct x; cbn [command]; lazymatch goal with |- ends_well (mret _) _ => apply ew_ret | _ => idtac end.
  - apply ew_channel. intros Hc. apply ew_then; [apply ew_on_off, Hc | intros _]. apply ew_each. intros. apply ew_or32.
  - apply ew_channel, ew_on_off.
  - do 3 (apply ew_then; [apply ew_gets | intros ?]). apply ew_each, ew_write.
  - ew_if.
  - apply ew_upd_chan. reflexivity.
  - apply ew_upd_chan. reflexivity.
  - ew_if; apply ew_each; intros; apply ew_write.
  - apply ew_upd_chan. reflexivity.
  - apply ew_channel. intros Hc. apply ew_then; [apply ew_get; [exact Hc | four] | intros p].
    apply ew_then; [apply ew_get; [exact Hc | four] | intros q].
    apply ew_then; [apply ew_get; [exact Hc | four] | intros lv]. apply ew_each, ew_write.
  - apply ew_samples.
  - ew_if.
  - ew_if.
  - apply ew_update.
Qed.

(** The main thread at rest takes any list of commands. *)
Lemma commands_run t L s : Forall (fun x => starts x = false) L → arrays s → handler s = Idle →
  ∃ l s', cmds l = L ∧ exec env (fun _ _ _ => True) t s l s' ∧ arrays s'.
Proof.
  intros HL. revert s. induction HL as [| x L Hx _ IH]; intros s Hs Hi.
  - exists [], s. split; [reflexivity |]. split; [apply exec_nil | exact Hs].
  - destruct (command_runs x s Hs) as ([] & s1 & E & _ & Hs1).
    set (s2 := s1 <| replies ::= fun l => (l ++ [Done])%list |>).
    assert (Hrun : io_devctl env (Cmd x) s = Ok (tt, s2)).
    { assert (Hd : io_devctl env (Cmd x) = (command env x;; respond Done)) by (destruct x; done).
      rewrite Hd, (bind_ok _ _ _ _ _ E). reflexivity. }
    destruct (IH s2 Hs1) as (l & s' & Hl & Hex & Hs').
    { change (handler s1 = Idle). rewrite (handler_command env x s tt s1 E). exact Hi. }
    exists ((t, Request (Cmd x)) :: l), s'. split; [unfold cmds in *; cbn; rewrite Hl; reflexivity |]. split; [| exact Hs'].
    apply (exec_cons env _ t s t _ s2); [lia | cbn; rewrite Hi; reflexivity | exact I | exact Hrun | exact Hex].
Qed.
End Commands.

(** ** Properties *)

(** After any execution of the driver of card [k], with its helpers, joins and
    requests in any order, the parameters of a channel are those it had with the
    changes that Receiver takes its commands to make; and its registers and the
    samples to skip are the values computed from the parameters at the last
    update, or those it had when there was none. *)
Theorem settings_followed env k c D t s l s' p0 : 0 ≤ c < 4 →
  exec env D t s l s' → Forall (fun x => card_of x = k) (cmds l) → zget (chan s) c = Some p0 →
  zget (chan s') c = Some (tuned (tuning_of (cmds l) k c) p0) ∧
  programmed c s' = match (updated k c (untuned, None) (cmds l)).2 with
                    | Some u => values (math env) (tuned u p0)
                    | None => programmed c s
                    end.
Proof.
  intros Hc Hex Hall Hp.
  destruct (follows_exec env k c Hc D t s l s' p0 (programmed c s) (untuned, None) Hex Hall) as [H1 H2].
  { split; cbn; [rewrite tuned_untuned; exact Hp | reflexivity]. }
  split; [| exact H2]. rewrite H1. rewrite updated_fst. reflexivity.
Qed.

(** A card at rest: every channel has its parameters and no helper. *)
Definition at_rest (s : gc314) : Prop :=
  handler s = Idle ∧ ∀ c, 0 ≤ c < 4 → helper_of s c = None ∧ (∃ v, zget (channel_on_off s) c = Some v) ∧
    ∃ p, zget (chan s) c = Some p ∧ ch_channel p = c.

Lemma ready_client rx p : rx_ok rx → p ∈ ready_list rx →
  0 ≤ channel p - 1 < 4 ∧ ∃ l1 l2, ready_list rx = (l1 ++ p :: l2)%list ∧
    Forall (fun q => at_channel (radar p - 1) (channel p - 1) q = false) l2.
Proof.
  intros Hok Hp. pose proof Hok as (_ & _ & _ & _ & H5). split.
  - apply elem_ready in Hp as (i & Hi & Ep). destruct (H5 i p) as [[_ Hch] _]; [lia | done |].
    unfold MAX_CHANNELS in Hch. lia.
  - apply list_elem_of_split in Hp as (l1 & l2 & E). exists l1, l2. split; [exact E |].
    pose proof (rx_ready_distinct rx l1 p l2 Hok E) as H. apply Forall_app in H. tauto.
Qed.

(** C27: the driver of a card at rest that gets the commands of a pre-trigger for
    its card, up to the start of the collection, with anything else in between,
    has the parameters of every ready client on the client's channel, the
    registers and the delay computed from these parameters, and the channel on. *)
Theorem pretrigger_sets_channels dev t st rx rx' r env k D t0 s l s' :
  (∀ h x, accepts dev h x = true) → rx_ok rx → Forall tunable (ready_list rx) →
  rx_pretrigger dev t st rx = Ok (r, rx') → at_rest s → exec env D t0 s l s' →
  cmds l = for_card k (setup_commands (ready_list rx)) →
  gc rx' = (gc rx ++ setup_commands (ready_list rx) ++ start_commands)%list ∧
  ∀ p, p ∈ ready_list rx → radar p - 1 = k →
    holds (math env) (channel p - 1) p s' ∧ zget (channel_on_off s') (channel p - 1) = Some 1.
Proof.
  intros Hacc Hok Ht Hpre [Hidle Hrest] Hex Hl. split.
  { rewrite (pretrigger_run dev Hacc t st rx Hok Ht) in Hpre. injection Hpre as _ <-. reflexivity. }
  intros p Hp Hk. destruct (ready_client rx p Hok Hp) as (Hc & l1 & l2 & E & H2).
  destruct (Hrest (channel p - 1) Hc) as (Hh & (v & Hv) & p0 & Hp0 & Hc0). rewrite E in Hl. split.
  - destruct (setup_split l1 p l2 H2) as (A & B & EAB & HB). rewrite EAB, <- Hk in Hl. rewrite Hk in *.
    eapply driver_tuned; [exact Hc | exact Hex | exact Hl | exact Hk | reflexivity | exact HB | exact Hp0 | exact Hc0].
  - assert (Hall : Forall (fun x => card_of x = k ∧ starts x = false) (cmds l)).
    { rewrite Hl. apply Forall_forall. intros x Hx. apply list_elem_of_In, List.filter_In in Hx as [Hin Hx].
      split; [lia |]. pose proof (setup_starts (l1 ++ p :: l2)) as Hs. rewrite Forall_forall in Hs.
      apply Hs, list_elem_of_In, Hin. }
    destruct (idle_exec env k (channel p - 1) Hc D t0 s l s' v Hex Hall (conj Hh (conj Hidle Hv))) as (_ & _ & Hon).
    rewrite Hon, Hl, on_for_card, <- Hk, (setup_on l1 p l2 v H2). reflexivity.
Qed.

(** C4: when the chips are then loaded, in the same pre-trigger, each of the three
    chips of the card holds, byte for byte at the address of the client's channel,
    the registers computed from the client's parameters (the input register being
    the chip's own), provided that the chips read back what is written to them. *)
Theorem chips_hold_clients rx env m0 k D t0 s l s1 s2 : rx_ok rx → at_rest s → encodable s → reads_back env m0 →
  exec env D t0 s l s1 → cmds l = for_card k (load_prefix (ready_list rx)) →
  command env (LoadGC4016s k) s1 = Ok (tt, s2) →
  ∀ p chip j, p ∈ ready_list rx → radar p - 1 = k → 0 ≤ chip < 3 → 0 ≤ j < 128 →
    byte_of (card_mem m0 s2) (elem_at GC314FS_GCoffset chip + elem_at chan_control_map (channel p - 1) + j) =
    channel_byte chip (v_regs (_set_GC4016_vals (math env) (params_for (channel p - 1) p))) j.
Proof.
  intros Hok [_ Hrest] Henc Hback Hex Hl Hload p chip j Hp Hk Hchip Hj.
  destruct (ready_client rx p Hok Hp) as (Hc & l1 & l2 & E & H2).
  destruct (Hrest (channel p - 1) Hc) as (_ & _ & p0 & Hp0 & Hc0). rewrite E in Hl.
  destruct (prefix_split l1 p l2 H2) as (A & B & EAB & HB). rewrite EAB, <- Hk in Hl. rewrite Hk in *.
  assert (Hh : holds (math env) (channel p - 1) p s1).
  { eapply driver_tuned; [exact Hc | exact Hex | exact Hl | exact Hk | reflexivity | exact HB | exact Hp0 | exact Hc0]. }
  destruct (encodable_exec env D t0 s l s1 Hex Henc) as [Hlen Hregs].
  rewrite (bytes_same _ _ _ (load_mem env m0 k s1 s2 Hback Hload)).
  destruct (config_holds (GC4016 s1) (resampcoeffs s1) (resampratios s1) (card_mem m0 s1) chip Hlen Hregs Hchip)
    as (_ & _ & Hbyte).
  apply Hbyte; [exact (f_equal fst (proj2 Hh)) | exact Hj].
Qed.

(** ** The set-up of two clients *)

(** A card that remembers. *)
Definition memory_env : gc314_env :=
  mk_gc314_env demo_libm
    (fun l => match last l with Some (Rd reg) => mem_of (fun _ => 0) (removelast l) reg | _ => 0 end)
    (map (fun k => 1048576 * k) (seqZ 16 12)) 1.

Lemma memory_reads_back : reads_back memory_env (fun _ => 0).
Proof.
  intros l reg _. cbn [card memory_env]. rewrite last_snoc, removelast_last. apply u32_id.
  assert (H : ∀ m, (∀ a, 0 ≤ m a < 2 ^ 32) → ∀ a, 0 ≤ mem_of m l a < 2 ^ 32).
  { induction l as [| x l IH]; intros m Hm a; [apply Hm |]. apply (IH (mem_step m x)). intros b.
    destruct x as [| r v | |]; cbn [mem_step]; try apply Hm. unfold upd. destruct (b =? r); [apply u32_range | apply Hm]. }
  apply H. intros a. lia.
Qed.

Definition demo_rest : gc314 := demo_state 300 [None; None; None; None] Idle.

Lemma demo_at_rest : at_rest demo_rest.
Proof.
  split; [reflexivity |]. intros c Hc. assert (Hcase : c = 0 ∨ c = 1 ∨ c = 2 ∨ c = 3) by lia.
  destruct Hcase as [-> | [-> | [-> | ->]]]; (split; [reflexivity |]); split; eexists; try reflexivity; split; reflexivity.
Qed.

Lemma demo_arrays : arrays demo_rest.
Proof. split; reflexivity. Qed.

Lemma demo_encodable : encodable demo_rest.
Proof.
  split; [reflexivity |]. unfold demo_rest, demo_state. cbn [GC4016]. apply Forall_replicate.
  unfold regs_ok, regs_bytes, is_byte. vm_compute. repeat constructor; discriminate.
Qed.

Lemma card_list_starts k L : Forall (fun x => starts x = false) L → Forall (fun x => starts x = false) (for_card k L).
Proof.
  intros H. apply Forall_forall. intros x Hx. apply list_elem_of_In, List.filter_In in Hx as [Hx _].
  rewrite Forall_forall in H. apply H, list_elem_of_In, Hx.
Qed.

Lemma settings_followed_witness : ∃ l s', exec memory_env (fun _ _ _ => True) 0 demo_rest l s' ∧
  cmds l = for_card 1 (setup_commands (ready_list demo_ready)) ∧
  zget (chan s') 2 = Some (tuned (tuning_of (cmds l) 1 2) (mk_channel_params 2 12000000 300 (d_of_int 10000) 10000 1)).
Proof.
  destruct (commands_run memory_env 0 (for_card 1 (setup_commands (ready_list demo_ready))) demo_rest) as (l & s' & Hl & Hex & _);
    [apply card_list_starts, setup_starts | exact demo_arrays | reflexivity |].
  exists l, s'. split; [exact Hex |]. split; [exact Hl |].
  apply (settings_followed memory_env 1 2 (fun _ _ _ => True) 0 demo_rest l s'); [lia | exact Hex | | reflexivity].
  rewrite Hl. apply for_card_all.
Defined.

Definition demo_client : ControlPRM := demo_rx_client 2 3 12000.

Lemma demo_client_ready : demo_client ∈ ready_list demo_ready.
Proof. rewrite demo_ready_list. right. left. Qed.

Lemma pretrigger_sets_channels_witness : ∃ rx' l s',
  rx_pretrigger demo_card "3"%char 1 demo_ready = Ok ([PDriver "3"%char 1], rx') ∧
  exec memory_env (fun _ _ _ => True) 0 demo_rest l s' ∧
  holds demo_libm 2 demo_client s' ∧ zget (channel_on_off s') 2 = Some 1.
Proof.
  destruct (commands_run memory_env 0 (for_card 1 (setup_commands (ready_list demo_ready))) demo_rest) as (l & s' & Hl & Hex & _);
    [apply card_list_starts, setup_starts | exact demo_arrays | reflexivity |].
  assert (Ht : Forall tunable (ready_list demo_ready)).
  { rewrite demo_ready_list. repeat constructor; vm_compute; discriminate. }
  pose proof (pretrigger_run demo_card (fun _ _ => eq_refl) "3"%char 1 demo_ready demo_ready_rx_ok Ht) as Hrun.
  eexists _, l, s'. split; [exact Hrun |]. split; [exact Hex |].
  destruct (pretrigger_sets_channels demo_card "3"%char 1 demo_ready _ _ memory_env 1 (fun _ _ _ => True) 0 demo_rest l s'
              (fun _ _ => eq_refl) demo_ready_rx_ok Ht Hrun demo_at_rest Hex Hl) as [_ H].
  exact (H demo_client demo_client_ready eq_refl).
Defined.

Lemma chips_hold_clients_witness : ∃ s2,
  byte_of (card_mem (fun _ => 0) s2) (2048 + 256 + 104) =
  channel_byte 0 (v_regs (_set_GC4016_vals demo_libm (params_for 2 demo_client))) 104.
Proof.
  destruct (commands_run memory_env 0 (for_card 1 (load_prefix (ready_list demo_ready))) demo_rest) as (l & s1 & Hl & Hex & Hs1).
  - apply card_list_starts, prefix_starts.
  - exact demo_arrays.
  - reflexivity.
  - destruct (command_runs memory_env (LoadGC4016s 1) s1 Hs1) as ([] & s2 & Hload & _).
    exists s2. apply (chips_hold_clients demo_ready memory_env (fun _ => 0) 1 (fun _ _ _ => True) 0 demo_rest l s1 s2 demo_ready_rx_ok
      demo_at_rest demo_encodable memory_reads_back Hex Hl Hload demo_client 0 104 demo_client_ready eq_refl); lia.
Defined.
