(* ===== verification/Collection.v ===== *)
(** * Collection: from the clients' settings to the samples in memory

    The collection of a trigger on one receiver card, end to end: the commands of
    a pre-trigger (Receiver) in the driver of the card (Gc314, CardSetup), the
    start of the helpers, the transfers of the helper of a client's channel, and
    the status the receiver driver gets for it. *)

From Stdlib Require Import Ascii ZArith Lia SpecFloat.
From stdpp Require Import base list.
From S2P Require Import Prelude Types Binary64 Receiver Gc4016 Gc314 CardSetup.
Open Scope Z_scope.
Open Scope cvr_scope.

(** ** The fifo level of a channel *)

(** Whether the last number of samples of a channel is positive. *)
Definition level_step (k c : Z) (b : bool) (x : gc_cmd) : bool :=
  match x with
  | SetSamples k' n c' => if (k' =? k) && (c' =? c) then 0 <? n else b
  | _ => b
  end.

Section Level.
Context (env : gc314_env) (k c : Z).
Context (Hc : 0 ≤ c < 4).

Definition level (s : gc314) : option Z := zget (fifo_lvl s) c.

Definition leveled (b : bool) (s : gc314) : Prop := b = true → ∃ lvl, level s = Some lvl ∧ 0 < lvl.

Lemma level_samples c' n s s' : set_samples c' n s = Ok (tt, s') →
  level s' = if c' =? c then level s' else level s.
Proof.
  intros H. destruct (Z.eqb_spec c' c) as [-> | Hne]; [done |].
  exact (f_equal v_lvl (view_set_samples c c' n ltac:(congruence) s tt s' H)).
Qed.

Lemma level_set n s s' : set_samples c n s = Ok (tt, s') → 0 < n → ∃ lvl, level s' = Some lvl ∧ 0 < lvl.
Proof.
  intros H Hn. apply per_channel_inv in H as [[_ H] | [Hr _]]; [| lia].
  apply bind_inv in H as (p & s1 & [-> _]%get_at_inv & H).
  apply bind_inv in H as ([] & s2 & _ & H). apply bind_inv in H as (q & s3 & _ & H).
  apply set_at_inv in H as (l & Hl & ->). unfold level. cbn. rewrite (zget_zset_eq _ _ _ _ Hl). unfold FIFO_LVL.
  destruct (ch_samples q <? 100); eexists; (split; [reflexivity | lia]).
Qed.

Lemma leveled_keep {A} (m : DM A) b s a s' : keeps level m → m s = Ok (a, s') → leveled b s → leveled b s'.
Proof. intros Hk H Hl Hb. rewrite (Hk s a s' H). exact (Hl Hb). Qed.

Lemma level_step_helper c1 t : keeps level (wait_for_channel env c1 t).
Proof. unfold wait_for_channel, leave_wait, transferred. keep. Qed.

Lemma level_resume : keeps level resume.
Proof. unfold resume. apply gc_keeps_bind; [keep | intros p]. destruct p; unfold go, respond, start_rest; keep. Qed.

Lemma level_command x b s s' : card_of x = k → command env x s = Ok (tt, s') → leveled b s →
  leveled (level_step k c b x) s'.
Proof.
  intros Hk H Hl.
  assert (Hkeep : keeps level (command env x) → level_step k c b x = b → leveled (level_step k c b x) s').
  { intros Hkp ->. exact (leveled_keep _ b s tt s' Hkp H Hl). }
  destruct x; try (apply Hkeep; [cbn [command]; keep | reflexivity]); clear Hkeep. cbn [command card_of level_step] in *.
  subst card. rewrite Z.eqb_refl. cbn [andb]. pose proof (level_samples channel samples s s' H) as Hs.
  destruct (Z.eqb_spec channel c) as [-> | Hne].
  - intros Hn%Z.ltb_lt. exact (level_set samples s s' H Hn).
  - intros Hb. rewrite Hs. exact (Hl Hb).
Qed.

Lemma level_devctl q b s s' : (∀ x, q = Cmd x → card_of x = k) → io_devctl env q s = Ok (tt, s') →
  leveled b s → leveled (fold_left (level_step k c) (match q with Cmd x => [x] | _ => [] end) b) s'.
Proof.
  intros Hk H Hl. destruct q as [x | ch chip |]; cbn [fold_left].
  2,3: cbn [io_devctl] in H; unfold respond, modify in H; injection H as <-; exact Hl.
  specialize (Hk x eq_refl).
  assert (Hx : io_devctl env (Cmd x) = (command env x;; respond Done) ∨ starts x = true).
  { destruct x; first [left; reflexivity | right; reflexivity]. }
  destruct Hx as [Hx | Hs].
  - rewrite Hx in H. apply bind_inv in H as ([] & s1 & H1 & H2). unfold respond, modify in H2. injection H2 as <-.
    exact (level_command x b s s1 Hk H1 Hl).
  - assert (Hkp : keeps level (io_devctl env (Cmd x))).
    { destruct x; try discriminate Hs; cbn [io_devctl]; unfold go, respond, start_rest; keep. }
    assert (Hb : level_step k c b x = b) by (destruct x; try discriminate Hs; reflexivity).
    rewrite Hb. exact (leveled_keep _ b s tt s' Hkp H Hl).
Qed.

Lemma level_exec D t s l s' b : exec env D t s l s' → Forall (fun x => card_of x = k) (cmds l) →
  leveled b s → leveled (fold_left (level_step k c) (cmds l) b) s'.
Proof.
  intros Hex. revert b. induction Hex as [| t s t' e s1 l s2 Ht He HD Hp _ IH]; intros b Hall Hf; [exact Hf |].
  unfold cmds in Hall |- *. cbn [flat_map snd] in Hall |- *. fold (cmds l) in Hall |- *. apply Forall_app in Hall as [Hk Hall].
  rewrite fold_left_app. apply IH; [exact Hall |].
  destruct e as [q | | c1]; cbn [perform] in Hp.
  - assert (Hq : ∀ x, q = Cmd x → card_of x = k) by (intros x ->; inversion_clear Hk; done).
    pose proof (level_devctl q b s s1 Hq Hp Hf) as Hf1. destruct q; exact Hf1.
  - exact (leveled_keep _ b s tt s1 level_resume Hp Hf).
  - exact (leveled_keep _ b s tt s1 (level_step_helper c1 t') Hp Hf).
Qed.

Lemma level_for_card L b : fold_left (level_step k c) (for_card k L) b = fold_left (level_step k c) L b.
Proof.
  revert b. induction L as [| x L IH]; intros b; [reflexivity |]. unfold for_card in *. cbn [List.filter].
  assert (Hx : card_of x ≠ k → level_step k c b x = b).
  { intros Hne%Z.eqb_neq. destruct x; cbn [card_of] in Hne; cbn [level_step]; rewrite ?Hne; reflexivity. }
  destruct (Z.eqb_spec (card_of x) k) as [E | E]; cbn [fold_left]; [| rewrite (Hx E)]; apply IH.
Qed.

Lemma level_aside L b : forallb (aside k c) L = true → fold_left (level_step k c) L b = b.
Proof.
  revert b. induction L as [| x L IH]; intros b H; [reflexivity |]. cbn [forallb] in H. apply andb_prop in H as [Hx H].
  cbn [fold_left]. assert (E : level_step k c b x = b).
  { destruct x as [| | | | | | | | | kk n ch | | | | |]; cbn [aside touches level_step] in *; try reflexivity.
    destruct ((kk =? k) && (ch =? c)); [discriminate Hx | reflexivity]. }
  rewrite E. apply IH, H.
Qed.
End Level.

(** ** The start of the helpers *)

Section Start.
Context (env : gc314_env) (k : Z).

Lemma create_inv c s s' : create c s = Ok (tt, s') → helper_of s' c = Some (mk_helper Begin 0 0 0 0).
Proof. intros (l & Hl & ->)%set_at_inv. unfold helper_of. cbn. rewrite (zget_zset_eq _ _ _ _ Hl). reflexivity. Qed.

(** What the start reads and changes of a channel. *)
Definition off_on (c : Z) (s : gc314) : option helper * option Z := (helper_of s c, zget (channel_on_off s) c).

Lemma off_on_create c c' : c' ≠ c → keeps (off_on c) (create c').
Proof.
  intros Hne s [] s' (l & Hl & ->)%set_at_inv. unfold off_on, helper_of. cbn.
  rewrite (zget_zset_ne _ _ _ _ _ Hl) by congruence. reflexivity.
Qed.

Lemma off_on_log c w a : keeps (off_on c) (log w a).
Proof. intros s u s' ->%log_inv. reflexivity. Qed.

Lemma off_on_rd32 c w reg : keeps (off_on c) (rd32 env w reg).
Proof. unfold rd32, answer. keep. Qed.

(** The start of one channel. *)
Definition start_one (c : Z) : DM unit :=
  on ← get_at channel_on_off c; h ← get_at helpers c;
  when (negb (on =? 0) && bool_decide (h = None)) (create c).

Lemma off_on_start c c' : c' ≠ c → keeps (off_on c) (start_one c').
Proof.
  intros Hne. unfold start_one. apply gc_keeps_bind; [keep | intros on]. apply gc_keeps_bind; [keep | intros h].
  apply keeps_when, off_on_create, Hne.
Qed.

Lemma start_one_on c s s' : off_on c s = (None, Some 1) → start_one c s = Ok (tt, s') →
  helper_of s' c = Some (mk_helper Begin 0 0 0 0).
Proof.
  intros [= Hh Hon] H. unfold start_one in H. apply bind_inv in H as (on & s1 & [-> E]%get_at_inv & H).
  apply bind_inv in H as (h & s1 & [-> Eh]%get_at_inv & H). rewrite Hon in E. injection E as <-.
  unfold helper_of in Hh. rewrite Eh in Hh. subst h. cbn in H. exact (create_inv c s s' H).
Qed.

(** The channels in order, each once. *)
Lemma start_list c l s s' : NoDup l → c ∈ l → for_each l start_one s = Ok (tt, s') → off_on c s = (None, Some 1) →
  helper_of s' c = Some (mk_helper Begin 0 0 0 0).
Proof.
  intros Hl Hc H. revert s H. induction l as [| c' l IH]; intros s H Ho; [apply elem_of_nil in Hc; done |].
  apply NoDup_cons in Hl as [Hn Hl]. cbn [for_each] in H. apply bind_inv in H as ([] & s1 & H1 & H2).
  apply elem_of_cons in Hc as [<- | Hc].
  - pose proof (start_one_on c s s1 Ho H1) as Hh.
    assert (Hk : keeps (off_on c) (for_each l start_one)).
    { apply keeps_each_in. intros x Hx. apply off_on_start. intros ->. exact (Hn Hx). }
    rewrite <- Hh. exact (f_equal fst (Hk s1 tt s' H2)).
  - assert (Hne : c' ≠ c) by (intros ->; exact (Hn Hc)).
    apply (IH Hl Hc s1 H2). rewrite (off_on_start c c' Hne s tt s1 H1). exact Ho.
Qed.

Lemma start_collection c s s' : 0 ≤ c < 4 → io_devctl env (Cmd (StartCollection k)) s = Ok (tt, s') →
  helper_of s 0 = None → off_on c s = (None, Some 1) →
  helper_of s' c = Some (mk_helper Begin 0 0 0 0) ∧ handler s' = handler s.
Proof.
  intros Hc H H0 Ho. cbn [io_devctl] in H. apply bind_inv in H as (v & s1 & Hrd & H).
  assert (Hrk : keeps (fun s => (off_on c s, helper_of s 0, handler s)) (rd32 env Main GC314FS_CPLL)) by (unfold rd32, answer; keep).
  pose proof (Hrk s v s1 Hrd) as E. pose proof (f_equal (fun x => x.1.1) E) as E1.
  pose proof (f_equal (fun x => x.1.2) E) as E2. pose proof (f_equal snd E) as E3. cbn [fst snd] in E1, E2, E3.
  rewrite Ho in E1. rewrite H0 in E2. clear E.
  apply bind_inv in H as (on & s2 & [-> Eon]%get_at_inv & H). apply bind_inv in H as (h & s2 & [-> Eh]%get_at_inv & H).
  assert (Hh : h = None) by (unfold helper_of in E2; rewrite Eh in E2; exact E2). subst h.
  assert (Hrest : ∀ s0, off_on c s0 = (None, Some 1) → c ≠ 0 → (start_rest;; respond Done) s0 = Ok (tt, s') →
            handler s0 = handler s → helper_of s' c = Some (mk_helper Begin 0 0 0 0) ∧ handler s' = handler s).
  { intros s0 Ho0 Hne Hr Hs0. apply bind_inv in Hr as ([] & s3 & Hr & Hd). unfold respond, modify in Hd. injection Hd as <-.
    split; [| cbn; rewrite (handler_rest s0 tt s3 Hr); exact Hs0].
    assert (Hin : c ∈ [1; 2; 3]) by (rewrite !elem_of_cons; lia).
    exact (start_list c [1; 2; 3] s0 s3 (ltac:(repeat constructor; rewrite ?elem_of_cons, ?elem_of_nil; lia)) Hin Hr Ho0). }
  destruct (Z.eq_dec c 0) as [-> | Hne].
  - pose proof E1 as E1'. unfold off_on in E1'. injection E1' as _ E1'. rewrite E1' in Eon. injection Eon as <-.
    change (1 =? 0) with false in H. cbv iota in H. rewrite bool_decide_true in H by done.
    apply bind_inv in H as ([] & s3 & Hcr & H). apply bind_inv in H as ([] & s4 & Hr & Hd).
    unfold respond, modify in Hd. injection Hd as <-. split.
    + assert (Hk : keeps (off_on 0) start_rest).
      { apply keeps_each_in. intros x Hx. apply off_on_start. rewrite !elem_of_cons, elem_of_nil in Hx. lia. }
      pose proof (Hk s3 tt s4 Hr) as Hkk. injection Hkk as Hkk _. change (helper_of s4 0 = Some (mk_helper Begin 0 0 0 0)).
      rewrite Hkk. exact (create_inv 0 s1 s3 Hcr).
    + change (handler s4 = handler s). rewrite (handler_rest s3 tt s4 Hr).
      assert (Hk : keeps handler (create 0)) by keep. rewrite (Hk s1 tt s3 Hcr). exact E3.
  - destruct (on =? 0); [exact (Hrest s1 E1 Hne H E3) |]. rewrite bool_decide_true in H by done.
    apply bind_inv in H as ([] & s3 & Hcr & H). apply (Hrest s3); [| exact Hne | exact H |].
    + rewrite (off_on_create c 0 (not_eq_sym Hne) s1 tt s3 Hcr). exact E1.
    + assert (Hk : keeps handler (create 0)) by keep. rewrite (Hk s1 tt s3 Hcr). exact E3.
Qed.
End Start.

(** ** A collection, end to end *)

Lemma exec_mono env (D D' : gc314 → Z → event → Prop) t s l s' :
  (∀ s t e, D s t e → D' s t e) → exec env D t s l s' → exec env D' t s l s'.
Proof. intros H. induction 1; [apply exec_nil | eapply exec_cons; eauto]. Qed.

Lemma fold_level_tune k c p b : radar p - 1 = k → channel p - 1 = c →
  fold_left (level_step k c) (tune_commands p) b = (0 <? number_of_samples p + RECV_SAMPLE_HEADER).
Proof.
  intros <- <-. unfold tune_commands. cbv zeta. cbn [fold_left level_step]. rewrite !Z.eqb_refl. reflexivity.
Qed.

Section Prepared.
Context (rx : receiver) (env : gc314_env) (k c n : Z) (p : ControlPRM).
Context (Hok : rx_ok rx) (Hp : p ∈ ready_list rx) (Hk : radar p - 1 = k) (Hcp : channel p - 1 = c).
Context (Hn : number_of_samples p + RECV_SAMPLE_HEADER = n) (Hpos : 0 < n).

(** The channel of the client when the set-up is over. *)
Lemma set_up D t0 s l s1 : at_rest s → exec env D t0 s l s1 → cmds l = for_card k (setup_commands (ready_list rx)) →
  handler s1 = Idle ∧ (∀ c1, 0 ≤ c1 < 4 → helper_of s1 c1 = None) ∧ zget (channel_on_off s1) c = Some 1 ∧
  ch_samples <$> zget (chan s1) c = Some n ∧ ∃ lvl, zget (fifo_lvl s1) c = Some lvl ∧ 0 < lvl.
Proof.
  intros [Hidle Hrest] Hex Hl. destruct (ready_client rx p Hok Hp) as (Hc & l1 & l2 & E & H2).
  rewrite Hcp in Hc. rewrite E in Hl.
  assert (Hall : Forall (fun x => card_of x = k ∧ starts x = false) (cmds l)).
  { rewrite Hl. apply Forall_forall. intros x Hx. apply list_elem_of_In, List.filter_In in Hx as [Hin Hx].
    split; [lia |]. pose proof (setup_starts (l1 ++ p :: l2)) as Hs. rewrite Forall_forall in Hs.
    apply Hs, list_elem_of_In, Hin. }
  assert (Hquiet : ∀ c1, 0 ≤ c1 < 4 → ∃ v, idle c1 (fold_left (on_step k c1) (cmds l) v) s1).
  { intros c1 Hc1. destruct (Hrest c1 Hc1) as (Hh & (v & Hv) & _). exists v.
    exact (idle_exec env k c1 Hc1 D t0 s l s1 v Hex Hall (conj Hh (conj Hidle Hv))). }
  destruct (setup_split l1 p l2 H2) as (A & B & EAB & HB). rewrite Hk, Hcp in HB.
  destruct (Hrest c Hc) as (_ & _ & p0 & Hp0 & Hc0).
  split_and!.
  - destruct (Hquiet c Hc) as (v & _ & Hi & _). exact Hi.
  - intros c1 Hc1. destruct (Hquiet c1 Hc1) as (v & Hh & _). exact Hh.
  - destruct (Hquiet c Hc) as (v & _ & _ & Hon). rewrite Hon, Hl, on_for_card, <- Hk, <- Hcp, (setup_on l1 p l2 v H2). reflexivity.
  - rewrite EAB in Hl. destruct (driver_tuned env k c D t0 s l s1 p p0 A B Hc Hex Hl Hk Hcp HB Hp0 Hc0) as [Hch _].
    rewrite Hch. cbn. rewrite Hn. reflexivity.
  - rewrite EAB in Hl. assert (Hk1 : Forall (fun x => card_of x = k) (cmds l)) by (rewrite Hl; apply for_card_all).
    apply (level_exec env k c Hc D t0 s l s1 false Hex Hk1); [intros Hf; discriminate Hf |].
    rewrite Hl, level_for_card, !fold_left_app, (level_aside k c B) by exact HB.
    rewrite fold_level_tune, Hn by done. apply Z.ltb_lt, Hpos.
Qed.

(** ... and when the helpers are started. *)
Lemma collection_started t1 s1 s2 : 0 ≤ c < 4 → sized s1 → handler s1 = Idle →
  (∀ c1, 0 ≤ c1 < 4 → helper_of s1 c1 = None) → zget (channel_on_off s1) c = Some 1 →
  ch_samples <$> zget (chan s1) c = Some n → (∃ lvl, zget (fifo_lvl s1) c = Some lvl ∧ 0 < lvl) →
  perform env t1 (Request (Cmd (StartCollection k))) s1 = Ok (tt, s2) →
  (∃ lvl, 0 < lvl ∧ started c n lvl s2) ∧ exclusive s2 ∧ dma s2 = dma s1.
Proof.
  intros Hc Hsz Hidle Hnone Hon Hsn (lvl & Hlvl & Hlpos) H. cbn [perform] in H.
  destruct (start_collection env k c s1 s2 Hc H (Hnone 0 ltac:(lia))) as [Hh2 Hhand].
  { unfold off_on. rewrite (Hnone c Hc), Hon. reflexivity. }
  assert (Hkept : kept s2 = kept s1) by exact (kept_devctl env (StartCollection k) eq_refl s1 tt s2 H).
  assert (Hlv : zget (fifo_lvl s2) c = Some lvl).
  { assert (Hkp : keeps (level c) (io_devctl env (Cmd (StartCollection k)))) by (cbn [io_devctl]; unfold go, respond, start_rest; keep).
    rewrite <- Hlvl. exact (Hkp s1 tt s2 H). }
  split_and!.
  - exists lvl. split; [exact Hlpos |]. split_and!; [exact Hh2 | | exact Hlv |].
    + unfold kept in Hkept. injection Hkept as -> _ _. exact Hsn.
    + rewrite Hhand, Hidle. discriminate.
  - pose proof (calms_devctl env (Cmd (StartCollection k)) s1 tt s2 H) as [Hlen Hcalm].
    assert (Hz : zlen (helpers s1) = 4) by (unfold sized, lens in Hsz; congruence).
    assert (Hall : ∀ c1, fresh (helper_of s2 c1)).
    { intros c1. destruct (Hcalm c1) as [E | Hf]; [| exact Hf]. rewrite E. unfold helper_of.
      destruct (zget (helpers s1) c1) as [o |] eqn:Eo; [| exact I].
      pose proof (zget_Some_range _ _ _ Eo) as Hr. pose proof (Hnone c1 ltac:(lia)) as Hnn. unfold helper_of in Hnn.
      rewrite Eo in Hnn. subst o. exact I. }
    split_and!; [| | congruence].
    + intros c1 c2 Hm. rewrite (fresh_moving _ (Hall c1)) in Hm. discriminate Hm.
    + intros c1 h Hh. pose proof (Hall c1) as Hf. rewrite Hh in Hf. cbn in Hf. rewrite Hf. exact I.
  - exact (dma_devctl env (Cmd (StartCollection k)) s1 tt s2 H).
Qed.
End Prepared.

(** C5: a collection on a card, end to end.  The driver of a card at rest gets the
    commands of a pre-trigger for its card and starts the collection; a client with
    at least one sample on channel [c] waits for its data.  While at most one
    transfer is under way at a time, and nobody sets the samples of the channel or
    starts another collection from the start to the answer ([careful]; a setting
    sent meanwhile spoils the collection, see [samples_changed_midway] in Gc314),
    the client is answered with 0 or -1, and with 0 only when the bridge was
    started exactly on the chains of all the blocks of the client's samples, header
    included, which cover them in order and once. *)
Theorem client_samples_moved rx env k c n D t0 s l s1 t1 s2 t2 l2 s3 t3 s4 l4 s5 p :
  rx_ok rx → sized s → at_rest s → exec env D t0 s l s1 → cmds l = for_card k (setup_commands (ready_list rx)) →
  perform env t1 (Request (Cmd (StartCollection k))) s1 = Ok (tt, s2) →
  p ∈ ready_list rx → radar p - 1 = k → channel p - 1 = c → number_of_samples p + RECV_SAMPLE_HEADER = n → 0 < n →
  exec env (careful c) t2 s2 l2 s3 → handler s3 = Idle →
  perform env t3 (Request (Cmd (WaitForData k c))) s3 = Ok (tt, s4) →
  exec env (fun s t e => careful c s t e ∧ no_request s t e) t3 s4 l4 s5 → handler s5 = Idle →
  ∃ lvl st i, 0 < lvl ∧ flat_map (fun b => seqZ b.1 b.2) (blocks n lvl) = seqZ 0 n ∧
    replies s5 = (replies s3 ++ [Status st])%list ∧ 0 ≤ i ≤ zlen (blocks n lvl) ∧
    started_by c (dma s5) = (started_by c (dma s1) ++ map (chain_of env c) (first_blocks n lvl i))%list ∧
    (st = 0 ∧ i = zlen (blocks n lvl) ∨ st = -1).
Proof.
  intros Hok Hsz Hrest Hex1 Hl Hstart Hp Hk Hcp Hn Hpos Hex2 Hi3 Hwait Hex3 Hi5.
  destruct (ready_client rx p Hok Hp) as (Hc & _). rewrite Hcp in Hc.
  destruct (set_up rx env k c n p Hok Hp Hk Hcp Hn Hpos D t0 s l s1 Hrest Hex1 Hl) as (Hi1 & Hnone & Hon & Hsn & Hlv).
  destruct (collection_started env k c n t1 s1 s2 Hc (sized_exec env D t0 s l s1 Hex1 Hsz) Hi1 Hnone Hon Hsn Hlv Hstart)
    as ((lvl & Hlvl & Hst) & Hxc & Hdma).
  assert (Hex4 : exec env (careful c) t3 s3 ((t3, Request (Cmd (WaitForData k c))) :: l4) s5).
  { apply (exec_cons env _ t3 s3 t3 _ s4); [lia | cbn; rewrite Hi3; reflexivity | split; [reflexivity | exact I] | exact Hwait |].
    exact (exec_mono env _ _ t3 s4 l4 s5 (fun _ _ _ H => proj1 H) Hex3). }
  destruct (chained_exec env c n lvl Hc ltac:(lia) Hlvl _ _ t2 s2 l2 s3 Hex2 (started_watched env c n lvl s2 Hst) Hxc
              (started_chained env c n lvl s2 Hst)) as (Hw3 & Hx3 & Hch3).
  destruct (chained_exec env c n lvl Hc ltac:(lia) Hlvl _ _ t3 s3 _ s5 Hex4 Hw3 Hx3 Hch3) as (Hw5 & _ & Hch5).
  assert (Hj : joining c (replies s3) s4).
  { cbn [perform io_devctl] in Hwait. apply bind_inv in Hwait as ([] & s6 & Hsw & Hgo).
    unfold go, modify in Hgo. injection Hgo as <-. unfold joining. cbn.
    assert (Hkr : keeps replies (set_waiting 0 1)) by keep. rewrite (Hkr s3 tt s6 Hsw).
    split_and!; [done | lia | lia | intros; lia | done]. }
  pose proof (joining_exec env c (replies s3) t3 s4 l4 s5
    (exec_mono env _ _ t3 s4 l4 s5 (fun _ _ _ H => proj2 H) Hex3) Hj) as Hj5.
  unfold joining in Hj5. rewrite Hi5 in Hj5. destruct Hj5 as (Hq & st & Hstat & Hrep).
  unfold status_of in Hstat. rewrite (proj2 (Z.leb_le 0 c)), (proj2 (Z.ltb_lt c 4)) in Hstat by lia. cbn in Hstat.
  destruct (chained_ended env c n lvl _ _ s5 Hw5 Hch5 (or_introl (proj1 (Hq c Hc)))) as (i & Hir & Hs & Hcase).
  exists lvl, st, i. rewrite <- Hdma. split_and!; [exact Hlvl | apply blocks_cover; lia | exact Hrep | lia | lia | exact Hs |].
  rewrite Hstat in Hcase. destruct Hcase as [[[= ->] ->] | [= ->]]; auto.
Qed.

(** ** One client with two samples *)

Definition small_client : ControlPRM :=
  prm0 <| radar := 1 |> <| channel := 2 |> <| rfreq := 12000 |> <| number_of_samples := 0 |>
       <| filter_bandwidth := 3333 |> <| baseband_samplerate := d_of_int 3333 |>.

Definition small_ready : receiver :=
  put_client (receiver0 prm0) [[-1; 0; -1; -1]; [-1; -1; -1; -1]] (small_client :: replicate 7 prm0) 1.

Lemma small_rx_ok : rx_ok small_ready.
Proof.
  split; [reflexivity |]. split; [split; [discriminate | reflexivity] |]. split; [reflexivity |].
  split; [by repeat constructor |]. intros i p Hi Hp. pose proof (zget_Some_range _ _ _ Hp) as Hr.
  change (i < 1) in Hi. assert (i = 0) as -> by lia. vm_compute in Hp. injection Hp as <-.
  split; [split; split; reflexivity || discriminate | reflexivity].
Qed.

Lemma small_ready_list : ready_list small_ready = [small_client].
Proof. reflexivity. Qed.

Definition small_rest : gc314 := demo_rest <| channel_on_off := [0; 0; 0; 0] |>.

Lemma small_at_rest : at_rest small_rest.
Proof.
  destruct demo_at_rest as [Hi Hr]. split; [exact Hi |]. intros c Hc. destruct (Hr c Hc) as (Hh & _ & Hp).
  split; [exact Hh |]. split; [| exact Hp].
  assert (Hcase : c = 0 ∨ c = 1 ∨ c = 2 ∨ c = 3) by lia. destruct Hcase as [-> | [-> | [-> | ->]]]; eexists; reflexivity.
Qed.

Definition requests (L : list gc_cmd) : list (Z * event) := map (fun x => (0, Request (Cmd x))) L.

Lemma cmds_requests L : cmds (requests L) = L.
Proof. induction L as [| x L IH]; [reflexivity |]. unfold cmds, requests in *. cbn. rewrite IH. reflexivity. Qed.

Definition small_setup : list (Z * event) := requests (for_card 0 (setup_commands [small_client])).
Definition small_steps : list (Z * event) := replicate 28 (0, Step 1).
Definition small_joins : list (Z * event) := replicate 4 (0, Resume).

Definition resting (s : gc314) : bool := match handler s with Idle => true | _ => false end.

(** The events one after the other. *)
Definition small_scenario : bool :=
  match run demo_env (fun _ _ _ => true) 0 small_rest small_setup with
  | Some s1 =>
      match perform demo_env 0 (Request (Cmd (StartCollection 0))) s1 with
      | Ok (_, s2) =>
          match run demo_env (only 1) 0 s2 small_steps with
          | Some s3 =>
              match perform demo_env 0 (Request (Cmd (WaitForData 0 1))) s3 with
              | Ok (_, s4) =>
                  match run demo_env (only 1) 0 s4 small_joins with
                  | Some s5 => resting s3 && resting s5
                  | None => false
                  end
              | Fault _ => false
              end
          | None => false
          end
      | Fault _ => false
      end
  | None => false
  end.

Lemma small_scenario_runs : small_scenario = true.
Proof. vm_compute. reflexivity. Qed.

Lemma small_scenario_states : ∃ s1 s2 s3 s4 s5,
  exec demo_env (fun _ _ _ => True) 0 small_rest small_setup s1 ∧
  perform demo_env 0 (Request (Cmd (StartCollection 0))) s1 = Ok (tt, s2) ∧
  exec demo_env (careful 1) 0 s2 small_steps s3 ∧ handler s3 = Idle ∧
  perform demo_env 0 (Request (Cmd (WaitForData 0 1))) s3 = Ok (tt, s4) ∧
  exec demo_env (fun s t e => careful 1 s t e ∧ no_request s t e) 0 s4 small_joins s5 ∧ handler s5 = Idle.
Proof.
  pose proof small_scenario_runs as H. unfold small_scenario in H.
  destruct (run demo_env (fun _ _ _ => true) 0 small_rest small_setup) as [s1 |] eqn:E1; [| discriminate H].
  destruct (perform demo_env 0 (Request (Cmd (StartCollection 0))) s1) as [[[] s2] | f] eqn:E2; [| discriminate H].
  destruct (run demo_env (only 1) 0 s2 small_steps) as [s3 |] eqn:E3; [| discriminate H].
  destruct (perform demo_env 0 (Request (Cmd (WaitForData 0 1))) s3) as [[[] s4] | f] eqn:E4; [| discriminate H].
  destruct (run demo_env (only 1) 0 s4 small_joins) as [s5 |] eqn:E5; [| discriminate H].
  apply andb_prop in H as [H3 H5]. unfold resting in H3, H5.
  exists s1, s2, s3, s4, s5. split_and!; [| exact E2 | | | exact E4 | |].
  - apply (run_exec demo_env (fun _ _ _ => true)); [done | exact E1].
  - apply (run_exec demo_env (only 1)); [apply only_careful | exact E3].
  - destruct (handler s3); [reflexivity | discriminate H3 ..].
  - apply (run_exec demo_env (only 1)); [| exact E5]. intros s t e He.
    split; [exact (only_careful 1 s t e He) | exact (only_no_request 1 s t e He)].
  - destruct (handler s5); [reflexivity | discriminate H5 ..].
Qed.

Lemma client_samples_moved_witness : ∃ s1 s3 s5 lvl st i,
  0 < lvl ∧ flat_map (fun b => seqZ b.1 b.2) (blocks 2 lvl) = seqZ 0 2 ∧
  replies s5 = (replies s3 ++ [Status st])%list ∧ 0 ≤ i ≤ zlen (blocks 2 lvl) ∧
  started_by 1 (dma s5) = (started_by 1 (dma s1) ++ map (chain_of demo_env 1) (first_blocks 2 lvl i))%list ∧
  (st = 0 ∧ i = zlen (blocks 2 lvl) ∨ st = -1).
Proof.
  destruct small_scenario_states as (s1 & s2 & s3 & s4 & s5 & H1 & H2 & H3 & Hi3 & H4 & H5 & Hi5).
  exists s1, s3, s5.
  apply (client_samples_moved small_ready demo_env 0 1 2 (fun _ _ _ => True) 0 small_rest small_setup s1 0 s2 0
           small_steps s3 0 s4 small_joins s5 small_client small_rx_ok (eq_refl : sized small_rest) small_at_rest H1
           (cmds_requests _) H2).
  - rewrite small_ready_list. left.
  - reflexivity.
  - reflexivity.
  - reflexivity.
  - lia.
  - exact H3.
  - exact Hi3.
  - exact H4.
  - exact H5.
  - exact Hi5.
Defined.
