(* ===== verification/Exchange.v ===== *)
(** * Exchange: a request of the server and the answer of a driver

    What a handler of the server can see and change while it talks to one
    driver: the heap of control programs, the stream of that driver, the trace
    and one more part [f] of the state.  The lemmas run the handler on that
    view; [view_step] applies them. *)

From Stdlib Require Import ZArith Lia.
From stdpp Require Import base list gmap.
From S2P Require Import Prelude Types ServerIO.
Open Scope Z_scope.
Open Scope cvr_scope.

(** A part of the state that talking and changing control programs leaves alone. *)
Class Apart {A} (f : server → A) : Prop := mk_Apart {
  apart_trace s t : f (s <| trace ::= t |>) = f s;
  apart_inbox s i : f (s <| inbox ::= i |>) = f s;
  apart_heap s h : f (s <| heap ::= h |>) = f s
}.

#[export] Instance apart_latest : Apart latest_clr_fft.
Proof. by split. Qed.

#[export] Instance apart_times : Apart bad_transmit_times.
Proof. by split. Qed.

Section View.
Context {A : Type} (k : sock) (f : server → A) `{Hf : !Apart f}.

(** The heap [h], the stream [I] of [k], the trace [T], and [L] in [f]. *)
Definition observed (s : server) (h : gmap Z ControlProgram) (I : list packet) (T : list event)
    (L : A) : Prop :=
  heap s = h ∧ inbox s !! k = Some I ∧ trace s = T ∧ f s = L.

Lemma view_emit e s h I T L (Q : unit → server → Prop) :
  observed s h I T L → (∀ s', observed s' h I (T ++ [e]) L → Q tt s') → wp (emit e) Q s.
Proof.
  intros (H1 & H2 & H3 & H4) HQ. apply HQ. split_and!; try done; [by rewrite <- H3|].
  etrans; [apply apart_trace|exact H4].
Qed.

Lemma view_recv p s h I T L (Q : packet → server → Prop) :
  observed s h (p :: I) T L → (∀ s', observed s' h I (T ++ [EvRecv k p]) L → Q p s') →
  wp (recv k) Q s.
Proof.
  intros (H1 & H2 & H3 & H4) HQ. unfold wp, recv. rewrite H2. apply HQ. split_and!; try done.
  - change (<[k := I]> (inbox s) !! k = Some I). apply lookup_insert_eq.
  - by rewrite <- H3.
  - etrans; [apply apart_trace|]. etrans; [apply apart_inbox|exact H4].
Qed.

Lemma view_heap s h I T L h' :
  observed s h I T L → observed (s <| heap := h' |>) h' I T L.
Proof. intros (H1 & H2 & H3 & H4). split_and!; try done. etrans; [apply apart_heap|exact H4]. Qed.

Lemma view_get_cp a cp s h I T L (Q : ControlProgram → server → Prop) :
  observed s h I T L → h !! a = Some cp → Q cp s → wp (get_cp a) Q s.
Proof. intros (H1 & _) Ha HQ. unfold wp, get_cp. by rewrite H1, Ha. Qed.

Lemma view_set_cp a cp s h I T L (Q : unit → server → Prop) :
  observed s h I T L → (∀ s', observed s' (<[a := cp]> h) I T L → Q tt s') →
  wp (set_cp a cp) Q s.
Proof.
  intros (H1 & H2 & H3 & H4) HQ. apply HQ. split_and!; try done; [by rewrite <- H1|].
  etrans; [apply apart_heap|exact H4].
Qed.

End View.

(** One operation of the server on its view. *)
Ltac view_step :=
  lazymatch goal with
  | |- wp (mbind _ _) _ _ => apply wp_bind
  | |- wp (mret _) _ _ => apply wp_ret
  | |- wp (deref _ (Some _)) _ _ => eapply wp_deref; [reflexivity|]
  | |- wp (send _ _) _ _ => unfold send
  | |- wp (lock _) _ _ => unfold lock
  | |- wp (unlock _) _ _ => unfold unlock
  | H : observed ?k ?f ?s _ _ _ _ |- wp (emit _) _ ?s => apply (view_emit _ _ _ _ _ _ _ _ _ H); clear s H; intros s H
  | H : observed ?k ?f ?s _ _ _ _ |- wp (recv _) _ ?s => apply (view_recv _ _ _ _ _ _ _ _ _ H); clear s H; intros s H
  | H : observed ?k ?f ?s _ _ _ _ |- wp (set_cp _ _) _ ?s => apply (view_set_cp _ _ _ _ _ _ _ _ _ _ H); clear s H; intros s H
  | H : observed ?k ?f ?s _ _ _ _ |- wp (get_cp _) _ ?s =>
      eapply (view_get_cp _ _ _ _ _ _ _ _ _ _ H); [first [eassumption|apply lookup_insert_eq]|]
  | |- wp (get_params _) _ _ => unfold get_params
  | |- wp (get_state _) _ _ => unfold get_state
  | |- wp (upd_cp _ _) _ _ => unfold upd_cp
  | |- wp (upd_state _ _) _ _ => unfold upd_state
  | |- wp (recv_int _) _ _ => unfold recv_int
  | |- wp (recv_msg _) _ _ => unfold recv_msg, recv_driver
  end.
