(* ===== verification/ClrSearch.v ===== *)
(** * ClrSearch: the clear-frequency search from the client to the antennas

    The server's [receiver_clrfreq] (FreqAssign.v) against the answer of the
    receiver driver (Receiver.v): which measured power the server stores with
    which frequency, for the client that asked. *)

From Stdlib Require Import ZArith Lia Ascii String SpecFloat.
From stdpp Require Import base list gmap.
From S2P Require Import Prelude Binary64 Rounding Types Threads ServerIO TimingDriver FreqAssign Receiver Exchange.
Open Scope Z_scope.
Open Scope cvr_scope.

(** ** Specification *)

(** What the server keeps of an answer of [n] powers [l] around [centre]: element
    [i] is labelled [centre - n/2 + i] kHz, and has the [i]th power if that is a
    frequency of the full range. *)
Definition labelled (centre n : Z) (l : list double) (i : Z) : t_fft_index :=
  let f := centre - n /c 2 + i in
  mk_fft (if in_full_range (f - FULL_CLR_FREQ_START) then default dE6 (zget l i) else dE6)
    dzero f dzero i.

(** The events of a search in the trace of the server. *)
Definition search_events (clr : CLRFreqPRM) (p : ControlPRM) (reply : list packet) : list event :=
  ([EvLock recv_comm_lock; EvSend SRecv (PDriver RECV_CLRFREQ 1); EvSend SRecv (PClr clr);
    EvSend SRecv (PParams p)] ++ map (EvRecv SRecv) reply ++ [EvUnlock recv_comm_lock])%list.

(** The table of the latest powers has a full row for the radar. *)
Definition has_row (L : list (list ClrPwr)) (r : Z) : Prop :=
  ∃ row, zget L r = Some row ∧ zlen row = max_freqs.

(** The spectrum a client gets of the powers [P] of the bins: one element per kHz
    of the usable width, labelled from the centre; the power of a frequency of
    the full range is that of its bin if the width is even, of the bin one kHz
    below if it is odd. *)
Definition labels_powers (N centre : Z) (P : list double) (arr : list t_fft_index) : Prop :=
  let n := usable_bandwidth N in
  zlen arr = n ∧
  ∀ i e, zget arr i = Some e →
    freq e = centre - n / 2 + i ∧
    (in_full_range (freq e - FULL_CLR_FREQ_START) = true →
     Some (pwr e) = power_at N P (freq e - centre - n mod 2)).

(** ** Theorems: the server's side *)

(** With [MAX_CLR_WAIT] 0 no earlier search is recent enough. *)
Lemma always_needed clr t0 latest : clr_needed clr t0 latest = 1.
Proof.
  unfold clr_needed, MAX_CLR_WAIT. destruct (_ && _); [|done].
  destruct (Z.ltb_spec (u32 (u32 (tv_usec t0 - tv_usec latest) * 10 ^ 6 +
    (tv_sec t0 - tv_sec latest))) (0 * 10 ^ 6)) as [H|H]; [|done].
  pose proof (u32_range (u32 (tv_usec t0 - tv_usec latest) * 10 ^ 6 + (tv_sec t0 - tv_sec latest))).
  lia.
Qed.

(** What the search works on: the receiver's socket and the latest powers. *)
Abbreviation view := (observed SRecv latest_clr_fft).

(** The row of the radar after the powers of [is] have been stored: [l] holds the
    power of the frequency at the index [off + i]. *)
Definition stored_row (off : Z) (l : list double) (i1 : Z) (L : list (list ClrPwr)) (r : Z) : Prop :=
  ∃ row, zget L r = Some row ∧ zlen row = max_freqs ∧
    ∀ i, 0 ≤ i < i1 → in_full_range (off + i) = true → ∃ c, zget row (off + i) = Some c ∧
      zget l i = Some (clr_pwr c).

Lemma set_latest_view r i off x l s h I T L (Q : unit → server → Prop) :
  view s h I T L → stored_row off l i L r → in_full_range (off + i) = true →
  zget l i = Some x → 0 ≤ i →
  (∀ s' L', view s' h I T L' → stored_row off l (i + 1) L' r → Q tt s') →
  wp (set_latest r (off + i) x) Q s.
Proof.
  intros (H1 & H2 & H3 & H4) (row & Er & Hlen & Hrow) Hin Ex Hi HQ. unfold set_latest.
  pose proof Hin as Hr. unfold in_full_range in Hr. apply andb_true_iff in Hr as [R1%Z.leb_le R2%Z.ltb_lt].
  destruct (zget_range row (off + i)) as [c Ec]; [lia|].
  pose proof (zset_Some row (off + i) (c <| clr_pwr := x |>) ltac:(lia)) as Erow.
  set (row' := <[_ := _]> row) in Erow.
  pose proof (zset_Some L r row' ltac:(by eapply zget_Some_range)) as EL. set (L' := <[_ := _]> L) in EL.
  apply wp_bind, wp_gets. rewrite H4. apply wp_bind. eapply wp_deref; [exact Er|].
  apply wp_bind. eapply wp_deref; [exact Ec|]. apply wp_bind. eapply wp_deref; [exact Erow|].
  apply wp_bind. eapply wp_deref; [exact EL|]. apply wp_modify. apply (HQ _ L'); [done|].
  exists row'. split; [by rewrite (zget_zset_eq _ _ _ _ EL)|].
  split; [by rewrite (zlen_zset _ _ _ _ Erow)|]. intros j Hj Hjin.
  destruct (decide (j = i)) as [->|Hne].
  - rewrite (zget_zset_eq _ _ _ _ Erow). eexists. split; [done|]. by destruct c.
  - rewrite (zget_zset_ne _ _ _ _ _ Erow) by lia. apply Hrow; [lia|done].
Qed.

(** The loop that stores the powers of an answer. *)
Lemma store_loop r start l n s h I T L (Q : unit → server → Prop) :
  let off := start - FULL_CLR_FREQ_START in
  view s h I T L → stored_row off l 0 L r → zlen l = n →
  (∀ s' L', view s' h I T L' → stored_row off l n L' r → Q tt s') →
  wp (for_each (seqZ 0 n) (fun i =>
    let index := start + i - FULL_CLR_FREQ_START in
    when (in_full_range index) (x ← deref OutOfBounds (zget l i); set_latest r index x))) Q s.
Proof.
  intros off Hv Hrow Hl HQ. pose proof (zlen_nonneg l).
  apply (wp_for_each (fun rest s' => ∃ i L', rest = seqZ i (n - i) ∧ 0 ≤ i ≤ n ∧ view s' h I T L' ∧
    stored_row off l i L' r)).
  - exists 0, L. split; [by rewrite Z.sub_0_r|]. split; [lia|]. done.
  - intros i' rest s' (i & L' & Er & Hi & Hv' & Hs'). destruct (decide (i = n)) as [->|Hne].
    { by rewrite Z.sub_diag in Er. }
    rewrite seqZ_cons' in Er by lia. injection Er as -> ->.
    assert (∀ s1 L1, view s1 h I T L1 → stored_row off l (i + 1) L1 r →
      ∃ i1 L2, seqZ (i + 1) (n - i - 1) = seqZ i1 (n - i1) ∧ 0 ≤ i1 ≤ n ∧ view s1 h I T L2 ∧
        stored_row off l i1 L2 r) as Hnext.
    { intros s1 L1 Hv1 Hs1. exists (i + 1), L1. split; [f_equal; lia|]. split; [lia|]. done. }
    cbn zeta. replace (start + i - FULL_CLR_FREQ_START) with (off + i) by (unfold off; lia).
    apply wp_when.
    + intros Hin. destruct (zget_range l i) as [x Ex]; [lia|].
      apply wp_bind. eapply wp_deref; [exact Ex|].
      apply (set_latest_view r i off x l s' h I T L'); [done..|lia|done].
    + intros Hin. apply (Hnext _ L'); [done|]. destruct Hs' as (row & E1 & E2 & E3).
      exists row. split; [done|]. split; [done|]. intros j Hj Hjin.
      destruct (decide (j = i)) as [->|]; [congruence|]. apply E3; [lia|done].
  - intros s' (i & L' & Er & Hi & Hv' & Hs').
    assert (i = n) as ->; [|by apply (HQ s' L')]. destruct (decide (i = n)); [done|].
    rewrite seqZ_cons' in Er by lia. done.
Qed.

(** The server's request and the answer of the driver. *)
Lemma clrfreq_search_run a cp p st clr' l dt dst rest s h T L :
  view s h (PClr clr' :: PInt (zlen l) :: PDoubles l :: PDriver dt dst :: rest) T L →
  h !! a = Some cp → parameters cp = Some p → state cp = Some st → has_row L (radar p - 1) →
  let centre := (clr_end clr' + clr_start clr') /c 2 in
  let start := centre - zlen l /c 2 in
  wp (clrfreq_search a) (fun rs s' => rs = (radar p - 1, start) ∧ ∃ cp' L', 
    heap s' !! a = Some cp' ∧ parameters cp' = Some p ∧ state cp' = Some (st <| fft_N := zlen l |>) ∧
    clrfreqsearch cp' = clr' ∧
    view s' (<[a := cp']> h) rest
      (T ++ [EvSend SRecv (PDriver RECV_CLRFREQ 1); EvSend SRecv (PClr (clrfreqsearch cp));
             EvSend SRecv (PParams p); EvRecv SRecv (PClr clr'); EvRecv SRecv (PInt (zlen l));
             EvRecv SRecv (PDoubles l); EvRecv SRecv (PDriver dt dst)]) L' ∧
    stored_row (start - FULL_CLR_FREQ_START) l (zlen l) L' (radar p - 1)) s.
Proof.
  intros Hv Ha Hp Hst (row & Er & Hlen) centre start. unfold clrfreq_search.
  repeat (view_step; rewrite ?Hp).
  set (cp1 := cp <| clrfreqsearch := clr' |>) in *. change (state cp1) with (state cp). rewrite Hst.
  view_step. set (cp' := cp1 <| state := Some (st <| fft_N := zlen l |>) |>).
  repeat view_step. rewrite Z.eqb_refl. repeat view_step.
  change (clrfreqsearch cp') with clr'. fold centre. fold start. rewrite insert_insert_eq in Hv.
  apply (store_loop _ _ _ _ _ _ _ _ _ _ Hv); [exists row; split; [done|]; split; [done|]; lia|done|].
  clear s Hv. intros s L' Hv Hrow. repeat view_step. split; [done|]. exists cp', L'.
  split; [destruct Hv as (-> & _); apply lookup_insert_eq|].
  split; [done|]. split; [done|]. split; [done|]. split; [|done]. by rewrite <- !app_assoc in Hv.
Qed.

Lemma fft_element_run r start l n i s h I T L :
  view s h I T L → stored_row (start - FULL_CLR_FREQ_START) l n L r → zlen l = n → 0 ≤ i < n →
  fft_element r start i s =
    Ok (mk_fft (if in_full_range (start + i - FULL_CLR_FREQ_START) then default dE6 (zget l i) else dE6)
          dzero (start + i) dzero i, s).
Proof.
  intros (_ & _ & _ & HL) (row & Er & Hlen & Hrow) Hn Hi. unfold fft_element.
  destruct (in_full_range (start + i - FULL_CLR_FREQ_START)) eqn:E; [|by mrun].
  replace (start + i - FULL_CLR_FREQ_START) with (start - FULL_CLR_FREQ_START + i) in * by lia.
  destruct (Hrow i Hi E) as (c & Ec & El). unfold get_latest. mrun. rewrite HL, Er. mrun. rewrite Ec. mrun.
  by rewrite El.
Qed.

Lemma clrfreq_view r0 start0 now a cp p st clr' l dt dst rest s h T L :
  let reply := [PClr clr'; PInt (zlen l); PDoubles l; PDriver dt dst] in
  view s h (reply ++ rest) T L → h !! a = Some cp →
  parameters cp = Some p → state cp = Some st → has_row L (radar p - 1) →
  wp (receiver_clrfreq r0 start0 now a) (fun _ s' => ∃ cp' st' L', 
    parameters cp' = Some p ∧ clrfreqsearch cp' = clr' ∧ state cp' = Some st' ∧ fft_N st' = zlen l ∧
    fft_array st' = Some (map (labelled ((clr_end clr' + clr_start clr') /c 2) (zlen l) l)
      (seqZ 0 (zlen l))) ∧
    view s' (<[a := cp']> h) rest (T ++ search_events (clrfreqsearch cp) p reply) L') s.
Proof.
  intros reply Hv Ha Hp Hst Hrow. unfold receiver_clrfreq, locked. view_step. view_step. view_step.
  view_step. apply wp_bind, wp_gets. view_step. view_step. rewrite always_needed. cbn [Z.eqb Pos.eqb].
  view_step. eapply wp_mono; [by eapply (clrfreq_search_run a cp p st clr' l dt dst rest s h _ L)|].
  clear s Hv. intros rs s (-> & cp' & L' & _ & Hp' & Hst' & Hclr & Hv & Hrow').
  repeat view_step. rewrite Hst'. repeat view_step. rewrite Hst'. repeat view_step.
  change (fft_N (st <| fft_N := zlen l |>)) with (zlen l). set (centre := (clr_end clr' + clr_start clr') /c 2) in *.
  apply wp_run. exists (map (labelled centre (zlen l) l) (seqZ 0 (zlen l))), s. split.
  { apply (for_fold_map _ _ _ s []). intros i acc Hi%elem_of_seqZ.
    rewrite (bind_ok _ _ _ _ _ (fft_element_run _ _ _ _ i s _ _ _ _ Hv Hrow' eq_refl ltac:(lia))).
    reflexivity. }
  rewrite insert_insert_eq in Hv. set (cp2 := cp' <| state := _ |>) in *.
  set (st2 := st <| fft_N := zlen l |> <| fft_array := None |>) in *.
  repeat view_step. change (state cp2) with (Some st2). repeat view_step.
  rewrite insert_insert_eq in Hv.
  match type of Hv with view _ (<[_ := ?c]> _) _ _ _ => exists c end.
  eexists _, L'. split; [exact Hp'|]. split; [exact Hclr|].
  split; [reflexivity|]. split; [reflexivity|]. split; [reflexivity|].
  rewrite <- !app_assoc in Hv. exact Hv.
Qed.

(** [receiver_clrfreq] against any well-formed answer of the driver. *)
Lemma clrfreq_answered r0 start0 now a cp p st clr' l dt dst rest s :
  let reply := [PClr clr'; PInt (zlen l); PDoubles l; PDriver dt dst] in
  inbox s !! SRecv = Some (reply ++ rest)%list → heap s !! a = Some cp →
  parameters cp = Some p → state cp = Some st → has_row (latest_clr_fft s) (radar p - 1) →
  ∃ s' cp' st', receiver_clrfreq r0 start0 now a s = Ok (tt, s') ∧
    heap s' !! a = Some cp' ∧ parameters cp' = Some p ∧ clrfreqsearch cp' = clr' ∧
    state cp' = Some st' ∧ fft_N st' = zlen l ∧
    fft_array st' = Some (map (labelled ((clr_end clr' + clr_start clr') /c 2) (zlen l) l)
      (seqZ 0 (zlen l))) ∧
    inbox s' !! SRecv = Some rest ∧
    trace s' = (trace s ++ search_events (clrfreqsearch cp) p reply)%list.
Proof.
  intros reply Hin Ha Hp Hst Hrow.
  assert (view s (heap s) (reply ++ rest) (trace s) (latest_clr_fft s)) as Hv by done.
  pose proof (clrfreq_view r0 start0 now a cp p st clr' l dt dst rest s _ _ _ Hv Ha Hp Hst Hrow) as H.
  apply wp_run in H as ([] & s' & E & cp' & st' & L' & H1 & H2 & H3 & H4 & H5 & (H6 & H7 & H8 & _)).
  exists s', cp', st'. split; [exact E|]. split; [by rewrite H6, lookup_insert_eq|]. done.
Qed.

(** ** Theorems: the search end to end *)

(** Some of the ten tries ends well. *)
Lemma search_succeeds dev p centre N d j :
  (∀ l x, accepts dev l x = true) → armed d = 0 → valid_client p → is_int (centre * 1000) →
  (1 ≤ j ≤ 10)%nat → 0 ≤ wait_after dev (radar p - 1) centre N (gc d) j →
  ∃ t d1, search dev p centre N 4 d = Ok (1, d1) ∧ (t ≤ j)%nat ∧
    gc d1 = tried (radar p - 1) centre N (gc d) t ∧ rx_main d1 = Some (radar p - 1, main_input, 0).
Proof.
  intros Hacc Ha Hp Hi Hj Hw.
  destruct (search_run dev Hacc p centre N d Ha Hp Hi) as (t & (H1 & H2 & H3) & E).
  assert (t ≤ j)%nat as Htj by (destruct (decide (t ≤ j)%nat); [done|]; pose proof (H2 j); lia).
  assert (0 ≤ wait_after dev (radar p - 1) centre N (gc d) t) as Hwt.
  { destruct (Z.lt_ge_cases (wait_after dev (radar p - 1) centre N (gc d) t) 0) as [Hneg|]; [|lia].
    assert (t = j) as -> by (specialize (H3 Hneg); lia). lia. }
  rewrite (proj2 (Z.leb_le _ _) Hwt) in E. exists t. eexists. by split.
Qed.

Lemma labelled_powers centre N P l :
  answers_powers N P l →
  labels_powers N centre P (map (labelled centre (zlen l) l) (seqZ 0 (zlen l))).
Proof.
  intros (HP & Hl & Hpow). rewrite Hl. unfold labels_powers. set (n := usable_bandwidth N) in *.
  pose proof (zlen_nonneg l) as Hn. rewrite Hl in Hn. split.
  { unfold zlen. rewrite length_map, length_seqZ. lia. }
  intros i e He. pose proof (zget_Some_range _ _ _ He) as Hi. unfold zlen in Hi.
  rewrite length_map, length_seqZ in Hi.
  assert (zget (seqZ 0 n) i = Some i) as Ei.
  { unfold zget. rewrite decide_True by lia. apply lookup_seqZ. lia. }
  rewrite zget_map, Ei in He. injection He as <-. unfold labelled.
  rewrite Z.quot_div_nonneg by lia. cbn [freq pwr]. split; [done|]. intros Hin.
  rewrite Hin. destruct (zget_range l i) as [x Ex]; [lia|]. pose proof (Hpow i ltac:(lia)) as Hx.
  rewrite Ex in *. change (default dE6 (Some x)) with x. rewrite Hx. f_equal.
  pose proof (Z.div_mod n 2). pose proof (Z.mod_pos_bound n 2).
  assert ((n + 1) / 2 = n / 2 + n mod 2) as ->; [|lia].
  symmetry. apply (Z.div_unique _ _ _ (1 - n mod 2)); lia.
Qed.

Section EndToEnd.
Context (dev : gc_card) (fft : list (double * double) → list (double * double)).
Context (c_log10 : double → double) (c_pow : double → double → double).
Hypothesis Hfft : ∀ l, length (fft l) = length l.
(** The client [a] of the server [s], and the exponent of its transform. *)
Context (s : server) (a : Z) (cp : ControlProgram) (p : ControlPRM) (st : ControlState) (k : Z).
Context (r0 start0 : Z) (now : timeval) (rest : list packet).
Let clr := clrfreqsearch cp.
Let N := transform_size k.
Let centre := search_centre clr.
Hypothesis Hk : points_exponent c_log10 c_pow (search_width clr) k.
Hypothesis Hk2 : 2 ≤ k ≤ 30.
Hypothesis Hband : band_ok clr N.
Hypothesis Hp : valid_client p.
Hypothesis Hheap : heap s !! a = Some cp.
Hypothesis Hpar : parameters cp = Some p.
Hypothesis Hst : state cp = Some st.
Hypothesis Hrow : has_row (latest_clr_fft s) (radar p - 1).

(** Whatever the status [dst] of the driver's search, the server keeps the
    powers of the buffer [m] the driver read. *)
Lemma search_kept d dst d1 m :
  search dev p centre N 4 d = Ok (dst, d1) → dst ≠ 0 → rx_main d1 = Some m →
  ∃ l, let reply := [PClr (searched_band clr N); PInt (usable_bandwidth N); PDoubles l;
                     PDriver RECV_CLRFREQ dst] in
    let d' := d1 <| post_clr := [1; 1; 1; 1] |> in
    rx_clrfreq dev fft c_log10 c_pow RECV_CLRFREQ clr p d = Ok (reply, d') ∧
    (inbox s !! SRecv = Some (reply ++ rest)%list →
     ∃ s' cp' st' arr, receiver_clrfreq r0 start0 now a s = Ok (tt, s') ∧
       trace s' = (trace s ++ search_events clr p reply)%list ∧ inbox s' !! SRecv = Some rest ∧
       heap s' !! a = Some cp' ∧ clrfreqsearch cp' = searched_band clr N ∧ state cp' = Some st' ∧
       fft_array st' = Some arr ∧
       labels_powers N centre (mean_powers fft N (block_of dev (gc d1) m N)) arr).
Proof.
  intros Es Hdst Hm.
  destruct (clrfreq_run dev fft c_log10 c_pow Hfft RECV_CLRFREQ clr p k d dst d1 m Hk Hk2 Hband Es
    Hdst Hm) as (l & E & Hans).
  fold N in E, Hans. pose proof Hans as (_ & Hl & _).
  exists l. split; [exact E|]. intros Hin.
  destruct (clrfreq_answered r0 start0 now a cp p st (searched_band clr N) l RECV_CLRFREQ dst rest s)
    as (s' & cp' & st' & E' & H1 & H2 & H3 & H4 & H5 & H6 & H7 & H8); [by rewrite Hl|done..|].
  eexists s', cp', st', _. split; [exact E'|]. split; [rewrite H8, Hl; done|].
  split; [exact H7|]. split; [exact H1|]. split; [exact H3|]. split; [exact H4|]. split; [exact H6|].
  assert ((clr_end (searched_band clr N) + clr_start (searched_band clr N)) /c 2 = centre) as ->.
  { change (clr_end (searched_band clr N)) with (centre + N / 2).
    change (clr_start (searched_band clr N)) with (centre - N / 2).
    replace (centre + N / 2 + (centre - N / 2)) with (centre * 2) by lia. by apply Z.quot_mul. }
  by apply labelled_powers.
Qed.

(** C25: when a client asks for a search, the driver is not armed and one of its
    ten collections ends well, the server gets status 1 and keeps the spectrum
    of the usable part of the transform, labelled from the centre of the
    requested band, each power the mean of four transforms of the samples of the
    main antennas of the client's radar.  The requested band becomes the
    searched one. *)
Theorem search_labels d j :
  (∀ l x, accepts dev l x = true) → armed d = 0 → (1 ≤ j ≤ 10)%nat →
  0 ≤ wait_after dev (radar p - 1) centre N (gc d) j →
  ∃ l d', let reply := [PClr (searched_band clr N); PInt (usable_bandwidth N); PDoubles l;
                        PDriver RECV_CLRFREQ 1] in
    rx_clrfreq dev fft c_log10 c_pow RECV_CLRFREQ clr p d = Ok (reply, d') ∧
    (inbox s !! SRecv = Some (reply ++ rest)%list →
     ∃ s' cp' st' arr, receiver_clrfreq r0 start0 now a s = Ok (tt, s') ∧
       trace s' = (trace s ++ search_events clr p reply)%list ∧ inbox s' !! SRecv = Some rest ∧
       heap s' !! a = Some cp' ∧ clrfreqsearch cp' = searched_band clr N ∧ state cp' = Some st' ∧
       fft_array st' = Some arr ∧
       labels_powers N centre
         (mean_powers fft N (block_of dev (gc d') (radar p - 1, main_input, 0) N)) arr).
Proof.
  intros Hacc Ha Hj Hw. assert (is_int (centre * 1000)) as Hc.
  { destruct Hband as (_ & _ & H). fold centre in H.
    destruct (half_range N (proj2 (fft_points_size _ _ _ _ Hk Hk2))) as [HN _].
    unfold is_int, int_min, int_max. lia. }
  destruct (search_succeeds dev p centre N d j Hacc Ha Hp Hc Hj Hw) as (t & d1 & Es & _ & Egc & Hm).
  destruct (search_kept d 1 d1 _ Es ltac:(done) Hm) as (l & E & H).
  eexists l, _. split; [exact E|exact H].
Qed.

(** An armed driver refuses the search, answers status -1, and sends the powers
    of the buffer its last collection was read from; the server does not look at
    the status and keeps them. *)
Theorem refused_search_believed d m :
  armed d ≠ 0 → rx_main d = Some m →
  ∃ l, let reply := [PClr (searched_band clr N); PInt (usable_bandwidth N); PDoubles l;
                     PDriver RECV_CLRFREQ (-1)] in
    rx_clrfreq dev fft c_log10 c_pow RECV_CLRFREQ clr p d =
      Ok (reply, d <| post_clr := [1; 1; 1; 1] |>) ∧
    (inbox s !! SRecv = Some (reply ++ rest)%list →
     ∃ s' cp' st' arr, receiver_clrfreq r0 start0 now a s = Ok (tt, s') ∧
       heap s' !! a = Some cp' ∧ state cp' = Some st' ∧ fft_array st' = Some arr ∧
       labels_powers N centre (mean_powers fft N (block_of dev (gc d) m N)) arr).
Proof.
  intros Ha Hm. assert (search dev p centre N 4 d = Ok (-1, d)) as Es.
  { unfold search. rewrite gets_then. by rewrite (proj2 (Z.eqb_neq (armed d) 0) Ha). }
  destruct (search_kept d (-1) d m Es ltac:(done) Hm) as (l & E & H).
  exists l. split; [exact E|]. intros Hin.
  destruct (H Hin) as (s' & cp' & st' & arr & H1 & _ & _ & H2 & _ & H3 & H4 & H5).
  exists s', cp', st', arr. by split_and!.
Qed.

End EndToEnd.

(** ** Witnesses and examples *)

Definition demo_log10 (x : double) : double :=
  match d_ceil x with Some z => d_of_int (Z.log2_up z) | None => x end.

Definition demo_pow (_ y : double) : double :=
  match d_floor y with Some k => d_of_int (2 ^ k) | None => y end.

(** A client of radar 2 that asks for 10000 to 10006 kHz. *)
Definition demo_asking : ControlProgram :=
  cp0 <| parameters := Some (demo_rx_client 2 3 10000) |>
      <| clrfreqsearch := clr0 <| clr_start := 10000 |> <| clr_end := 10006 |> |>.

Definition demo_answer : list packet :=
  match rx_clrfreq demo_card (fun l => l) demo_log10 demo_pow RECV_CLRFREQ
          (clrfreqsearch demo_asking) (demo_rx_client 2 3 10000) (receiver0 prm0) with
  | Ok (r, _) => r
  | Fault _ => []
  end.

Definition demo_row : list ClrPwr := replicate (Z.to_nat max_freqs) (mk_ClrPwr 0 dzero).

Definition demo_search : server :=
  server0 <| heap := {[ 7 := demo_asking ]} |> <| latest_clr_fft := [demo_row; demo_row] |>
          <| inbox := {[ SRecv := demo_answer ]} |>.

Lemma demo_points : points_exponent demo_log10 demo_pow (search_width (clrfreqsearch demo_asking)) 3.
Proof. split; vm_compute; reflexivity. Defined.

Lemma demo_has_row : has_row (latest_clr_fft demo_search) (radar (demo_rx_client 2 3 10000) - 1).
Proof. exists demo_row. split; [reflexivity|]. unfold demo_row. by apply zlen_replicate. Defined.

(** The first collection of [demo_card] fails and the second ends well. *)
Lemma search_labels_witness : ∃ s' cp' st' arr d',
  receiver_clrfreq 0 0 (mk_timeval 0 0) 7 demo_search = Ok (tt, s') ∧
  heap s' !! 7 = Some cp' ∧ state cp' = Some st' ∧ fft_array st' = Some arr ∧
  labels_powers 8 10003 (mean_powers (fun l => l) 8 (block_of demo_card (gc d') (1, main_input, 0) 8)) arr.
Proof.
  destruct (search_labels demo_card (fun l => l) demo_log10 demo_pow (fun _ => eq_refl) demo_search 7
    demo_asking (demo_rx_client 2 3 10000) state0 3 0 0 (mk_timeval 0 0) [] demo_points) with
    (d := receiver0 prm0) (j := 2%nat) as (l & d' & E & H).
  - split; discriminate.
  - split; [split; discriminate|]. split; [split; discriminate|]. split; discriminate.
  - split; split; reflexivity || discriminate.
  - reflexivity.
  - reflexivity.
  - reflexivity.
  - exact demo_has_row.
  - reflexivity.
  - reflexivity.
  - split; repeat constructor.
  - vm_compute. discriminate.
  - destruct H as (s' & cp' & st' & arr & H1 & _ & _ & H2 & _ & H3 & H4 & H5).
    + change (inbox demo_search !! SRecv) with (Some demo_answer). unfold demo_answer. by rewrite E.
    + exists s', cp', st', arr, d'. split; [exact H1|]. split; [exact H2|]. split; [exact H3|].
      split; [exact H4|exact H5].
Defined.

(** A band of 300 kHz takes 512 points, of which 393 are usable: an odd number,
    so that every power is labelled one kHz too high; and the band becomes 512
    kHz wide, so that the server may assign a frequency the client did not ask
    for. *)
Example band_of_300 :
  let clr := clr0 <| clr_start := 10400 |> <| clr_end := 10700 |> in
  fft_points demo_log10 demo_pow (search_width clr) = 512 ∧ usable_bandwidth 512 mod 2 = 1 ∧
  clr_start (searched_band clr 512) = 10294 ∧ clr_end (searched_band clr 512) = 10806.
Proof. vm_compute. split_and!; reflexivity. Qed.

(** The usable width need not cover the band: 393 of 400 kHz, or of 1000. *)
Example band_not_covered :
  usable_bandwidth (fft_points demo_log10 demo_pow 400) = 393 ∧
  usable_bandwidth (fft_points demo_log10 demo_pow 1000) = 393.
Proof. vm_compute. split; reflexivity. Qed.
