(* ===== verification/Pulses.v ===== *)
(** * Pulses: the pulse times from the parameters of a client to the server

    A pulse sequence on its way through three programs: [TSGMake] in the client
    (Tsg.v), the timing handlers of the server (ServerIO.v) and the driver of the
    timing card (TimingDriver.v).  The driver reads the packets the server sends,
    answers, and the server keeps the times the transmitters are on; they are
    those of the pulse pattern.  The list of runs found in a line is unique,
    which is how the driver's scan is compared with the pattern. *)

From Stdlib Require Import ZArith Lia Ascii.
From stdpp Require Import base list gmap.
From S2P Require Import Prelude Tsg TimingDriver Types ServerIO Exchange.
Open Scope Z_scope.
Open Scope cvr_scope.

(** ** Specification *)

(** The pulses of [rf_wave]: from [n] pulses to go, the [k]th next, at tick [pos];
    the T/R line is on from the receiver protection before the transmission to
    the one after it. *)
Section Pattern.
Context (t : TSGprm) (tm : Timing) (pats : list Z).

Definition tr_time : Z := t3 tm + txp tm + t4 tm.

Fixpoint pulse_runs (n : nat) (k pos : Z) : list (Z * Z) :=
  match n with
  | O => []
  | S n => let s := pos + gap tm pats k + t2 tm in
           (s, tr_time) :: pulse_runs n (k + 1) (s + tr_time + t5 tm)
  end.

(** The tick of the sequence at which pulse [i] puts the T/R line on. *)
Definition pulse_time (i : Z) : Z :=
  1 + stdelay t + p_time0 tm + t2 tm + (pulse_at pats i - pulse_at pats 0) * mpnc tm.

(** The samples last longer than the pulses. *)
Definition all_sent : Prop :=
  ∀ i, 0 ≤ i < mppul t →
    pulse_time i + tr_time ≤ 1 + stdelay t + s_time0 tm + 2 * smsp tm * (N_sample tm - 1).

(** A run of the sequence on the card: a tick of the sequence is two of the card,
    after two of padding. *)
Definition card_run (r : Z * Z) : Z * Z := (2 + 2 * r.1, 2 * r.2).

(** The runs the driver should find. *)
Definition reported : list (Z * Z) :=
  map (fun i => card_run (pulse_time i, tr_time)) (seqZ 0 (mppul t)).

End Pattern.

(** Runs from [pos] on, separated, within [n] ticks. *)
Fixpoint ordered (pos : Z) (runs : list (Z * Z)) (n : Z) : Prop :=
  match runs with
  | [] => pos ≤ n + 1
  | (s, d) :: runs => pos ≤ s ∧ 1 ≤ d ∧ s + d ≤ n ∧ ordered (s + d + 1) runs n
  end.

(** The runs of a line. *)
Fixpoint find_runs (pos : Z) (since : option Z) (l : list bool) : list (Z * Z) :=
  match l, since with
  | [], None => []
  | [], Some s => [(s, pos - s)]
  | true :: l, _ => find_runs (pos + 1) (Some (default pos since)) l
  | false :: l, None => find_runs (pos + 1) None l
  | false :: l, Some s => (s, pos - s) :: find_runs (pos + 1) None l
  end.

(** ** Theorems: runs *)

Lemma ordered_weaken q pos runs n : q ≤ pos → ordered pos runs n → ordered q runs n.
Proof. destruct runs as [|[s d] runs]; simpl; [lia|]. intros ? (? & ?). split; [lia|done]. Qed.

Lemma ordered_snoc pos l m s d n :
  ordered pos l m → m + 1 ≤ s → 1 ≤ d → s + d ≤ n → ordered pos (l ++ [(s, d)]) n.
Proof.
  intros H Hs Hd Hn. revert pos H. induction l as [|[s0 d0] l IH]; intros pos H; simpl in *.
  - split_and!; lia.
  - destruct H as (H1 & H2 & H3 & H4). split_and!; try lia. by apply IH.
Qed.

Lemma runs_upto_ordered l n : runs_upto l n → ordered 0 l n.
Proof.
  induction 1 as [n Hn|l s d n _ IH Hs Hd Hn]; simpl; [lia|].
  apply (ordered_snoc _ _ (s - 1)); [done|lia..].
Qed.

Lemma find_quiet k pos l :
  find_runs pos None (replicate k false ++ l) = find_runs (pos + Z.of_nat k) None l.
Proof.
  revert pos. induction k as [|k IH]; intros pos; simpl; [by rewrite Z.add_0_r|].
  rewrite IH. f_equal. lia.
Qed.

Lemma find_on k pos s l :
  find_runs pos (Some s) (replicate k true ++ l) = find_runs (pos + Z.of_nat k) (Some s) l.
Proof.
  revert pos. induction k as [|k IH]; intros pos; simpl; [by rewrite Z.add_0_r|].
  rewrite IH. f_equal. lia.
Qed.

Lemma replicate_pos {A} (z : Z) (x : A) :
  0 < z → replicate (Z.to_nat z) x = x :: replicate (Z.to_nat (z - 1)) x.
Proof. intros. by replace (Z.to_nat z) with (S (Z.to_nat (z - 1))) by lia. Qed.

(** After a run the line is low. *)
Lemma find_close q s runs n :
  q ≤ n → ordered (q + 1) runs n →
  find_runs q (Some s) (paint q runs n) = (s, q - s) :: find_runs q None (paint q runs n).
Proof.
  intros Hq H. destruct runs as [|[s0 d0] runs]; simpl in *.
  - destruct (decide (q = n)) as [->|]; [by rewrite Z.sub_diag|].
    by rewrite replicate_pos by lia.
  - destruct H as [H _]. by rewrite (replicate_pos (s0 - q)) by lia.
Qed.

Lemma find_paint pos runs n : ordered pos runs n → find_runs pos None (paint pos runs n) = runs.
Proof.
  revert pos. induction runs as [|[s d] runs IH]; intros pos; simpl.
  - intros _. rewrite <- (app_nil_r (replicate _ _)). by rewrite find_quiet.
  - intros (H1 & H2 & H3 & H4). rewrite find_quiet.
    replace (pos + Z.of_nat (Z.to_nat (s - pos))) with s by lia.
    rewrite (replicate_pos d) by lia. simpl. rewrite find_on.
    replace (s + 1 + Z.of_nat (Z.to_nat (d - 1))) with (s + d) by lia.
    rewrite find_close by done. f_equal; [f_equal; lia|].
    apply IH. by eapply ordered_weaken; [|exact H4]; lia.
Qed.

(** Separated runs are determined by the line they paint. *)
Lemma runs_unique a b n :
  runs_upto a n → ordered 0 b n → paint 0 a n = paint 0 b n → a = b.
Proof.
  intros Ha%runs_upto_ordered Hb E. rewrite <- (find_paint 0 a n Ha), E. by apply find_paint.
Qed.

(** ** Theorems: painting *)

Lemma zlen_paint pos runs n : ordered pos runs n → pos ≤ n → zlen (paint pos runs n) = n - pos.
Proof.
  unfold zlen. revert pos. induction runs as [|[s d] runs IH]; intros pos; simpl.
  - rewrite length_replicate. lia.
  - intros (H1 & H2 & H3 & H4) Hn. rewrite !length_app, !length_replicate.
    pose proof (IH (s + d) ltac:(by eapply ordered_weaken; [|exact H4]; lia) H3). lia.
Qed.

Lemma paint_extend pos runs m n :
  ordered pos runs m → pos ≤ m → m ≤ n →
  paint pos runs n = (paint pos runs m ++ replicate (Z.to_nat (n - m)) false)%list.
Proof.
  revert pos. induction runs as [|[s d] runs IH]; intros pos; simpl.
  - intros _ H1 H2. rewrite <- replicate_add. f_equal. lia.
  - intros (H1 & H2 & H3 & H4) Hp Hn. rewrite (IH (s + d)); [|by eapply ordered_weaken; [|exact H4]; lia|done..].
    by rewrite !app_assoc.
Qed.

Lemma paint_lead a pos runs n :
  0 ≤ a → ordered pos runs n → pos ≤ n →
  paint (pos - a) runs n = (replicate (Z.to_nat a) false ++ paint pos runs n)%list.
Proof.
  intros Ha H Hn. destruct runs as [|[s d] runs]; simpl in *.
  - rewrite <- replicate_add. f_equal. lia.
  - destruct H as [H _].
    rewrite (app_assoc (replicate (Z.to_nat a) false)), <- replicate_add. do 2 f_equal. lia.
Qed.

Lemma paint_shift a pos runs n :
  paint (pos + a) (map (fun r => (r.1 + a, r.2)) runs) (n + a) = paint pos runs n.
Proof.
  revert pos. induction runs as [|[s d] runs IH]; intros pos; simpl; [f_equal; lia|].
  f_equal; [f_equal; lia|]. f_equal. rewrite <- IH. f_equal; lia.
Qed.

(** Every tick [k] times. *)
Definition stretch {A} (k : Z) (l : list A) : list A :=
  concat (map (fun b => replicate (Z.to_nat k) b) l).

Lemma stretch_app {A} k (l l' : list A) : stretch k (l ++ l') = (stretch k l ++ stretch k l')%list.
Proof. unfold stretch. by rewrite map_app, concat_app. Qed.

Lemma stretch_replicate {A} k n (x : A) :
  0 ≤ k → stretch k (replicate (Z.to_nat n) x) = replicate (Z.to_nat (k * n)) x.
Proof.
  intros Hk. destruct (Z.le_gt_cases n 0) as [Hn|Hn].
  - replace (Z.to_nat n) with O by lia. replace (Z.to_nat (k * n)) with O by nia. done.
  - rewrite Z2Nat.inj_mul by lia. unfold stretch.
    induction (Z.to_nat n) as [|m IH]; simpl; [by rewrite Nat.mul_0_r|].
    rewrite IH, Nat.mul_succ_r, Nat.add_comm. by rewrite replicate_add.
Qed.

Lemma paint_stretch k pos runs n :
  0 ≤ k →
  stretch k (paint pos runs n) = paint (k * pos) (map (fun r => (k * r.1, k * r.2)) runs) (k * n).
Proof.
  intros Hk. revert pos. induction runs as [|[s d] runs IH]; intros pos; simpl.
  - rewrite stretch_replicate by done. do 2 f_equal. lia.
  - rewrite !stretch_app, !stretch_replicate, IH by done.
    f_equal; [do 2 f_equal; lia|]. f_equal. f_equal; lia.
Qed.

Lemma card_ordered runs pos q n :
  ordered pos runs n → q ≤ 2 * pos + 2 → q ≤ 2 * n + 3 →
  ordered q (map card_run runs) (2 + 2 * n).
Proof.
  revert pos q. induction runs as [|[s d] runs IH]; intros pos q; simpl; [lia|].
  intros (H1 & H2 & H3 & H4) Hq _. split_and!; try lia. apply (IH (s + d + 1)); [done|lia..].
Qed.

(** The line of the card for the line of a sequence. *)
Lemma paint_card runs n :
  ordered 0 runs n → 0 ≤ n →
  paint 0 (map card_run runs) (2 + 2 * n) = ([false; false] ++ stretch 2 (paint 0 runs n))%list.
Proof.
  intros H Hn. rewrite paint_stretch by lia.
  match goal with |- context [paint (2 * 0) ?r ?m] => rewrite <- (paint_shift 2 (2 * 0) r m) end.
  rewrite map_map. replace (2 * n + 2) with (2 + 2 * n) by lia.
  cbn [fst snd]. rewrite (map_ext (fun r => (2 * r.1 + 2, 2 * r.2)) card_run) by (intros [s d]; unfold card_run; cbn [fst snd]; f_equal; lia).
  rewrite <- (paint_lead 2 2); [done|lia| |lia]. apply (card_ordered _ 0); [done|lia..].
Qed.

Lemma rising_quiet k l : rising false (replicate k false ++ l) = rising false l.
Proof. by induction k. Qed.

Lemma rising_weaken l : rising true l ≤ rising false l.
Proof. destruct l as [|[] l]; simpl; lia. Qed.

Lemma rising_on k l : rising false (replicate k true ++ l) ≤ 1 + rising false l.
Proof.
  assert (rising true (replicate k true ++ l) ≤ rising false l) as H
    by (induction k as [|k IH]; [apply rising_weaken|exact IH]).
  destruct k as [|k]; [simpl; lia|]. cbn [replicate app rising andb negb].
  assert (rising true (replicate k true ++ l) ≤ rising false l); [|lia].
  clear H. induction k as [|k IH]; [apply rising_weaken|exact IH].
Qed.

Lemma rising_paint pos runs n : rising false (paint pos runs n) ≤ zlen runs.
Proof.
  revert pos. induction runs as [|[s d] runs IH]; intros pos; simpl.
  - rewrite <- (app_nil_r (replicate _ _)), rising_quiet. done.
  - rewrite rising_quiet. pose proof (rising_on (Z.to_nat d) (paint (s + d) runs n)).
    pose proof (IH (s + d)). rewrite zlen_cons. lia.
Qed.

(** ** Theorems: the T/R line of a sequence *)

(** The T/R line of a code. *)
Definition r_line (c : Z) : bool := bits_any c R_bit.

Lemma r_line_bit c : r_line c = Z.testbit c 1.
Proof. exact (bits_any_true c 1 ltac:(lia)). Qed.

Lemma r_line_rf c : r_line (rf_lines c) = r_line c.
Proof.
  rewrite !r_line_bit. unfold rf_lines. rewrite Z.land_spec.
  change (Z.testbit (A_bit |c R_bit |c X_bit |c P_bit) 1) with true. apply andb_true_r.
Qed.

Lemma bit_high (b : bool) n :
  0 ≤ n → n ≠ 1 → Z.testbit (if b then 1 <<c n else 0) 1 = false.
Proof.
  intros Hn Hne. destruct b; [|done]. rewrite Z.shiftl_spec by lia.
  destruct (decide (n = 0)) as [->|]; [done|]. apply Z.testbit_neg_r. lia.
Qed.

(** The word of a code has the T/R line of the code, whatever the channel. *)
Lemma decodestate_tr r c x : 0 ≤ r → 0 ≤ c → tr_line (_decodestate r c x) = r_line x.
Proof.
  intros Hr Hc. unfold tr_line. rewrite (bits_set_testbit _ 1) by lia.
  unfold _decodestate, u32. rewrite Z.mod_pow2_bits_low by lia.
  rewrite !Z.lor_spec, !bit_high by nia. simpl.
  assert (r_line x = bits_set x 2) as -> by (rewrite r_line_bit; symmetry; apply (bits_set_testbit _ 1); lia).
  by destruct (bits_set x 2).
Qed.

(** The words READY makes of a sequence. *)
Lemma words_tr r c l :
  0 ≤ r → 0 ≤ c →
  map tr_line (concat (map (fun x => hold 2 (_decodestate r c x)) l)) = stretch 2 (map r_line l).
Proof.
  intros Hr Hc. induction l as [|x l IH]; [done|]. cbn [map concat]. rewrite map_app, IH.
  by rewrite map_hold, decodestate_tr.
Qed.

Lemma zlen_words r c l :
  zlen (hold 2 0 ++ concat (map (fun x => hold 2 (_decodestate r c x)) l))%list = 2 + 2 * zlen l.
Proof.
  rewrite zlen_app, zlen_hold by lia. f_equal. induction l as [|x l IH]; [done|].
  cbn [map concat]. rewrite zlen_app, zlen_hold, IH, zlen_cons by lia. lia.
Qed.

Section Wave.
Context (t : TSGprm) (tm : Timing) (pats codes : list Z).
Hypothesis Hwt : well_timed t tm pats codes.

Lemma tx_wave_line k : map r_line (tx_wave t tm codes k) = replicate (Z.to_nat (txp tm)) true.
Proof.
  unfold tx_wave. destruct (Z.ltb_spec 1 (nbaud t)) as [H|H]; [|by rewrite map_hold].
  destruct (wt_baud _ _ _ _ Hwt H) as [Hpd ->]. unfold baud_wave. rewrite Z.sub_0_r.
  rewrite concat_map, map_map.
  rewrite (map_ext _ (fun _ => replicate (Z.to_nat (phase_delay tm)) true)).
  - rewrite Z2Nat.inj_mul by lia. replace (Z.to_nat (nbaud t)) with (length (seqZ 0 (nbaud t)))
      by apply length_seqZ.
    generalize (seqZ 0 (nbaud t)) as l. intros l. induction l as [|j l IH]; simpl; [by rewrite Nat.mul_0_r|].
    rewrite IH, <- replicate_add. f_equal. lia.
  - intros j. rewrite map_hold. f_equal. unfold baud_code. by destruct (_ <? 0).
Qed.


(** The wave from pulse [k] on is the painting of its pulses. *)
Lemma rf_wave_line n k pos :
  (∀ i, k ≤ i < k + Z.of_nat n → 1 ≤ gap tm pats i) →
  let m := pos + zlen (rf_wave t tm pats codes n k) in
  let runs := pulse_runs tm pats n k pos in
  ordered pos runs m ∧ map r_line (rf_wave t tm pats codes n k) = paint pos runs m.
Proof.
  pose proof (wt_t2 _ _ _ _ Hwt) as H2. pose proof (wt_t3 _ _ _ _ Hwt) as H3.
  pose proof (wt_t4 _ _ _ _ Hwt) as H4. pose proof (wt_t5 _ _ _ _ Hwt) as H5.
  pose proof (wt_txp _ _ _ _ Hwt) as Hx.
  change A_to_R_min with 1 in H2. change R_to_X_min with 6 in H3.
  revert k pos. induction n as [|n IH]; intros k pos Hg m runs.
  - split.
    + pose proof (zlen_nonneg (rf_wave t tm pats codes 0 k)). simpl. lia.
    + unfold m, runs. cbn [rf_wave pulse_runs paint]. rewrite map_hold. f_equal.
      rewrite zlen_hold by lia. lia.
  - pose proof (Hg k ltac:(lia)) as Hk.
    set (s := pos + gap tm pats k + t2 tm). set (p := s + tr_time tm + t5 tm).
    destruct (IH (k + 1) p) as [IHo IHl]; [intros; apply Hg; lia|].
    assert (m = p + zlen (rf_wave t tm pats codes n (k + 1))) as Hm.
    { unfold m, p, s, tr_time. cbn [rf_wave]. unfold rf_pulse.
      pose proof (f_equal length (tx_wave_line k)) as Hl. rewrite length_map, length_replicate in Hl.
      rewrite !zlen_app, !zlen_hold by lia. unfold zlen at 1. lia. }
    rewrite <- Hm in IHo, IHl. pose proof (zlen_nonneg (rf_wave t tm pats codes n (k + 1))) as Hw.
    split.
    + unfold runs. cbn [pulse_runs ordered]. fold s p. unfold tr_time in *.
      split_and!; try lia. by eapply ordered_weaken; [|exact IHo]; lia.
    + unfold runs. cbn [rf_wave pulse_runs paint]. fold s p.
      rewrite !map_app, IHl. unfold rf_pulse. rewrite !map_app, !map_hold, tx_wave_line.
      change (r_line Null_code) with false. change (r_line A_code) with false.
      change (r_line AR_code) with true.
      replace (s + tr_time tm) with (p - t5 tm) by (unfold p; lia).
      rewrite paint_lead by (done || lia). rewrite <- !app_assoc.
      replace (Z.to_nat (s - pos)) with (Z.to_nat (gap tm pats k) + Z.to_nat (t2 tm))%nat by lia.
      replace (Z.to_nat (tr_time tm)) with
        (Z.to_nat (t3 tm) + (Z.to_nat (txp tm) + Z.to_nat (t4 tm)))%nat by (unfold tr_time; lia).
      rewrite !replicate_add, <- !app_assoc. done.
Qed.

(** The pulses in closed form. *)
Lemma pulse_runs_times n k pos :
  0 ≤ k → pulse_runs tm pats n k pos =
    map (fun i => (pos + gap tm pats k + t2 tm + (pulse_at pats i - pulse_at pats k) * mpnc tm,
                   tr_time tm)) (seqZ k (Z.of_nat n)).
Proof.
  revert k pos. induction n as [|n IH]; intros k pos Hk; [done|].
  rewrite seqZ_cons by lia. cbn [pulse_runs map]. f_equal; [f_equal; lia|].
  rewrite IH by lia. replace (Z.pred (Z.of_nat (S n))) with (Z.of_nat n) by lia.
  apply map_ext. intros i. f_equal. unfold gap at 2. rewrite (proj2 (Z.eqb_neq (k + 1) 0)) by lia.
  replace (k + 1 - 1) with k by lia. unfold tr_time. lia.
Qed.

Lemma pulse_runs_ordered n k pos q m :
  (∀ i, k ≤ i < k + Z.of_nat n → 1 ≤ gap tm pats i) →
  q ≤ pos + 1 → q ≤ m + 1 → Forall (fun r => r.1 + r.2 ≤ m) (pulse_runs tm pats n k pos) →
  ordered q (pulse_runs tm pats n k pos) m.
Proof.
  pose proof (wt_t2 _ _ _ _ Hwt) as H2. pose proof (wt_t3 _ _ _ _ Hwt) as H3.
  pose proof (wt_t4 _ _ _ _ Hwt) as H4. pose proof (wt_t5 _ _ _ _ Hwt) as H5.
  pose proof (wt_txp _ _ _ _ Hwt) as Hx.
  change A_to_R_min with 1 in H2. change R_to_X_min with 6 in H3.
  revert k pos q. induction n as [|n IH]; intros k pos q Hg Hq Hqm; cbn [pulse_runs]; [done|].
  intros [Hm Hf]%Forall_cons. cbn [fst snd] in Hm. pose proof (Hg k ltac:(lia)).
  cbn [ordered]. unfold tr_time in *. split_and!; try lia.
  apply IH; [intros; apply Hg; lia|lia|lia|done].
Qed.

(** ** Theorems: the T/R line on the card *)

Let pulses : list (Z * Z) := pulse_runs tm pats (Z.to_nat (mppul t)) 0 (1 + stdelay t).
Context (out : list Z).
Hypothesis Hn : 0 ≤ mppul t.
Hypothesis Hsent : all_sent t tm pats.
Hypothesis Hprefix : map rf_lines out `prefix_of` rf_wave t tm pats codes (Z.to_nat (mppul t)) 0.
Hypothesis Hlong : s_time0 tm + 2 * smsp tm * (N_sample tm - 1) < zlen out.

Lemma pulses_times : pulses = map (fun i => (pulse_time t tm pats i, tr_time tm)) (seqZ 0 (mppul t)).
Proof. unfold pulses. rewrite pulse_runs_times, Z2Nat.id by lia. done. Qed.

Lemma pulses_ordered m :
  1 + stdelay t + zlen out ≤ m → ordered (1 + stdelay t) pulses m.
Proof.
  intros Hm. pose proof (zlen_nonneg out). unfold pulses. apply pulse_runs_ordered.
  - intros i Hi. apply (wt_gaps _ _ _ _ Hwt). lia.
  - lia.
  - lia.
  - fold pulses. rewrite pulses_times, Forall_map. apply Forall_seqZ. intros i Hi.
    pose proof (Hsent i ltac:(lia)). cbn [fst snd]. lia.
Qed.

Lemma out_line : map r_line out = paint (1 + stdelay t) pulses (1 + stdelay t + zlen out).
Proof.
  destruct Hprefix as [rest E]. destruct (rf_wave_line (Z.to_nat (mppul t)) 0 (1 + stdelay t)) as [_ El].
  { intros i Hi. apply (wt_gaps _ _ _ _ Hwt). lia. }
  rewrite E, zlen_app, map_app, map_map in El. fold pulses in El.
  rewrite (map_ext _ r_line) in El by apply r_line_rf.
  assert (zlen (map rf_lines out) = zlen out) as Hz by (unfold zlen; by rewrite length_map).
  rewrite Hz in El. pose proof (zlen_nonneg rest). pose proof (zlen_nonneg out).
  pose proof (pulses_ordered (1 + stdelay t + zlen out) ltac:(lia)) as Ho.
  rewrite (paint_extend _ _ (1 + stdelay t + zlen out)) in El by (done || lia).
  apply app_inj_1 in El as [E1 _]; [exact E1|].
  pose proof (zlen_paint _ _ _ Ho ltac:(lia)) as Hp. rewrite length_map. unfold zlen in *. lia.
Qed.

Lemma whole_line :
  ordered 0 pulses (zlen (whole t out)) ∧
  map r_line (whole t out) = paint 0 pulses (zlen (whole t out)).
Proof.
  pose proof (wt_stdelay _ _ _ _ Hwt) as Hst. pose proof (zlen_nonneg out).
  assert (0 ≤ end_ticks t) as He by (unfold end_ticks; by destruct ((mppul t =? 0) || _)).
  assert (zlen (whole t out) = 1 + stdelay t + zlen out + end_ticks t) as Hz.
  { unfold whole. rewrite !zlen_app, !zlen_hold by lia. lia. }
  pose proof (pulses_ordered (1 + stdelay t + zlen out) ltac:(lia)) as Ho.
  split; [eapply ordered_weaken; [|apply pulses_ordered]; lia|].
  rewrite Hz. replace 0 with (1 + stdelay t - (1 + stdelay t)) at 1 by lia.
  rewrite paint_lead; [|lia|apply pulses_ordered; lia|lia].
  rewrite (paint_extend _ _ (1 + stdelay t + zlen out)) by (done || lia).
  rewrite <- out_line. unfold whole. rewrite !map_app, !map_hold.
  change (r_line 128) with false. change (r_line Null_code) with false.
  rewrite (Z2Nat.inj_add 1) by lia. rewrite replicate_add, <- app_assoc. do 4 f_equal. lia.
Qed.

(** The words the driver keeps of the sequence. *)
Lemma card_line r c :
  0 ≤ r → 0 ≤ c →
  let words := (hold 2 0 ++ concat (map (fun x => hold 2 (_decodestate r c x)) (whole t out)))%list in
  ordered 0 (reported t tm pats) (zlen words) ∧
  map tr_line words = paint 0 (reported t tm pats) (zlen words).
Proof.
  intros Hr Hc words. destruct whole_line as [Ho El].
  assert (reported t tm pats = map card_run pulses) as ->
    by (rewrite pulses_times, map_map; done).
  pose proof (zlen_nonneg (whole t out)) as Hw.
  pose proof (paint_card pulses _ Ho Hw) as E. rewrite <- El in E.
  rewrite <- (words_tr r c) in E by done.
  change ([false; false]) with (map tr_line (hold 2 0)) in E. rewrite <- map_app in E. fold words in E.
  pose proof (card_ordered pulses 0 0 _ Ho ltac:(lia) ltac:(lia)) as Ho'.
  assert (zlen words = 2 + 2 * zlen (whole t out)) as -> by apply zlen_words. done.
Qed.

End Wave.

(** ** The packets between the server and the driver

    What the switch of the driver's main.c reads from its socket for the messages
    of the server; a TIMING_WAIT takes its outcome from the card, not from the
    packets. *)

Fixpoint driver_reads (l : list packet) : option (list trequest) :=
  match l with
  | [] => Some []
  | PDriver t st :: l =>
      if decide (t = TIMING_REGISTER_SEQ) then
        match l with
        | PParams p :: PInt i :: PSeqHeader len step index :: PBytes rep :: PBytes code :: l =>
            r ← driver_reads l; Some (RegisterSeq t p i (mk_TSGbuf index len step code rep) :: r)
        | _ => None
        end
      else if decide (t = CtrlProg_READY) then
        match l with
        | PParams p :: l => r ← driver_reads l; Some (ClientReady t p :: r)
        | _ => None
        end
      else
        r ← driver_reads l;
        if decide (t = CtrlProg_END) then Some (ClientEnd :: r)
        else if decide (t = PRETRIGGER) then Some (Pretrigger t :: r)
        else if decide (t = TIMING_TRIGGER) then Some (Trigger t :: r)
        else if decide (t = TIMING_GPS_TRIGGER) then Some (Trigger t :: r)
        else if decide (t = POSTTRIGGER) then Some (Posttrigger t st :: r)
        else if decide (t = TIMING_WAIT) then None
        else Some (BadCode :: r)
  | _ => None
  end.

(** The packets sent to [k] in a trace. *)
Definition sent_to (k : sock) (T : list event) : list packet :=
  omap (fun e => match e with
                 | EvSend k' p => if decide (k' = k) then Some p else None
                 | _ => None
                 end) T.

(** The three exchanges that bring a sequence to the card: the timing part of
    REGISTER_SEQ, of SET_READY and of the pre-trigger. *)
Definition announce (a : Z) : SM unit :=
  timing_register_seq a;; timing_ready_controlprogram (Some a);; run_steps timing_pretrigger.

(** The requests of a client with parameters [p] and sequence [buf]. *)
Definition requests (p : ControlPRM) (buf : TSGbuf) : list trequest :=
  [RegisterSeq TIMING_REGISTER_SEQ p (current_pulseseq_index p) buf;
   ClientReady CtrlProg_READY p; Pretrigger PRETRIGGER].

(** The answers when the driver finds [runs]. *)
Definition answers (runs : list (Z * Z)) : list packet :=
  ([PDriver TIMING_REGISTER_SEQ 0; PDriver CtrlProg_READY 0; PInt (zlen runs)] ++
   words_packet (map fst runs) ++ words_packet (map snd runs) ++ [PDriver PRETRIGGER 0])%list.

(** What the server keeps of them. *)
Definition times_of (runs : list (Z * Z)) : TRTimes :=
  match runs with
  | [] => mk_TRTimes 0 None None
  | _ => mk_TRTimes (zlen runs) (Some (map fst runs)) (Some (map snd runs))
  end.

(** A driver between two triggers. *)
Record idle (d : tdriver) : Prop := mk_idle {
  id_numclients : numclients d = 0;
  id_clients : zlen (clients d) = maxclients;
  id_blocks : blocks_ok d;
  id_master : zlen (master_buf d) = MAX_TIME_SEQ_LEN;
  id_slots : ∀ r c, 0 ≤ r < MAX_RADARS → 0 ≤ c < MAX_CHANNELS →
    ∃ sl, slot_at d r c = Some sl ∧ ready_index sl = -1 ∧ zlen (sl_seqs sl) = MAX_SEQS
}.

(** The client [a] of the server has sequence [buf] as its current one. *)
Definition has_sequence (s : server) (a : Z) (p : ControlPRM) (buf : TSGbuf) : Prop :=
  ∃ cp st, heap s !! a = Some cp ∧ parameters cp = Some p ∧ state cp = Some st ∧
    zget (pulseseqs st) (current_pulseseq_index p) = Some (Some buf).

(** ** Theorems: the driver *)

Lemma overlay_first q m : (length q ≤ length m)%nat → take (length q) (overlay true q m) = q.
Proof.
  revert m. induction q as [|w q IH]; intros [|x m] H; simpl in *; try done; [lia|].
  by rewrite IH by lia.
Qed.

Section Driver.
Context (d : tdriver) (p : ControlPRM) (buf : TSGbuf).
Hypothesis Hidle : idle d.
Hypothesis Hp : valid_client p.
Hypothesis Hindex : 0 ≤ current_pulseseq_index p < MAX_SEQS.
Hypothesis Hcode : seq_len buf = zlen (seq_code buf).
Hypothesis Hrep : seq_len buf = zlen (seq_rep buf).
Hypothesis Hreps : Forall (fun n => 0 ≤ n) (seq_rep buf).
Hypothesis Hstep : ticks_per_step (seq_step buf) = 2.
Let r := radar p - 1.
Let c := channel p - 1.
Let words : list Z := (hold 2 0 ++ concat (map (fun x => hold 2 (_decodestate r c x))
  (ticks (seq_code buf) (seq_rep buf))))%list.
Hypothesis Hfit : zlen words ≤ MAX_TIME_SEQ_LEN.

(** REGISTER_SEQ. *)
Lemma register_seq_run : ∃ d1 sl,
  handle_register_seq TIMING_REGISTER_SEQ p (current_pulseseq_index p) buf d =
    Ok ([PDriver TIMING_REGISTER_SEQ 0], d1) ∧
  slot_at d1 r c = Some sl ∧ ready_index sl = -1 ∧
  zget (sl_seqs sl) (current_pulseseq_index p) = Some (Some buf) ∧
  numclients d1 = 0 ∧ clients d1 = clients d ∧ master_buf d1 = master_buf d ∧
  bt_start d1 = bt_start d ∧ bt_duration d1 = bt_duration d ∧ old_seq_id d1 = -10.
Proof.
  destruct Hp as [Hr Hc]. destruct (id_slots _ Hidle r c) as (sl & Es & Ei & El); [unfold r, c; lia..|].
  unfold handle_register_seq. fold r c. rewrite (bind_ok _ _ _ _ _ (get_dslot_run _ _ _ _ Es)).
  pose proof (zset_Some (sl_seqs sl) (current_pulseseq_index p) (Some buf) ltac:(lia)) as Ez.
  set (l := <[_ := _]> (sl_seqs sl)) in Ez. rewrite Ez. mrun.
  rewrite (bind_ok _ _ _ _ _ (set_dslot_run _ _ _ _ _ Es)). mrun.
  eexists _, (sl <| sl_seqs := l |>). split; [reflexivity|]. split.
  { match goal with |- slot_at ?s' r c = _ =>
      change (slot_at s' r c) with
        (slot_at (d <| slots_of ::= put_slot r c (sl <| sl_seqs := l |>) |>) r c) end.
    rewrite (slot_at_put _ _ _ _ _ _ _ Es). by rewrite bool_decide_true. }
  split; [exact Ei|]. split; [exact (zget_zset_eq _ _ _ _ Ez)|].
  split; [exact (id_numclients _ Hidle)|]. done.
Qed.

(** The three requests, when [runs] are the runs of the words. *)
Lemma serve_requests runs :
  ordered 0 runs (zlen words) → map tr_line words = paint 0 runs (zlen words) →
  zlen runs < MAX_PULSES →
  ∃ d', serve (requests p buf) d = Ok (answers runs, d').
Proof.
  intros Ho El Hlt. destruct Hp as [Hr Hc]. destruct (id_blocks _ Hidle) as (Hm & Ha & Hb).
  destruct register_seq_run as (d1 & sl & E1 & Es & Ei & Eq & En & Ecl & Em & Ebs & Ebd & Eold).
  destruct (handle_ready_run CtrlProg_READY p d1 sl buf Es Ei Eq Hcode Hrep Hreps)
    as (d2 & sl2 & E2 & En2 & Ec2 & Es2 & Eb2 & Em2 & Ebs2 & Ebd2 & Eold2).
  { rewrite Hstep. lia. }
  { rewrite Hstep. exact Hfit. }
  { rewrite Ecl. exact (id_clients _ Hidle). }
  { rewrite En. done. }
  rewrite Hstep in Eb2. fold r c in Es2, Eb2. fold words in Eb2.
  rewrite En in En2, Ec2. rewrite Ecl in Ec2.
  assert (zget (clients d2) 0 = Some p) as Ep.
  { rewrite Ec2. apply zget_Some; [done|]. apply list_lookup_insert_eq.
    pose proof (id_clients _ Hidle) as H. unfold zlen in H. assert (maxclients = 8) by done. lia. }
  assert (programmed d2 [words]) as Hprog.
  { split; [exact En2|]. intros [|k] q Eq'; [|by destruct k]. injection Eq' as <-.
    split; [|by rewrite Em2, Em, (id_master _ Hidle)]. exists p, sl2. by fold r c. }
  assert (longest [words] = zlen words) as Elong
    by (change (Z.max (zlen words) 0 = zlen words); pose proof (zlen_nonneg words); lia).
  assert (merged_tr d2 [words] = paint 0 runs (zlen words)) as Etr.
  { unfold merged_tr. rewrite Elong, <- El. f_equal.
    change (merged 0 [words] (master_buf d2)) with (overlay true words (master_buf d2)).
    unfold zlen at 1. rewrite Nat2Z.id. apply overlay_first.
    rewrite Em2, Em. pose proof (id_master _ Hidle). unfold zlen in *. lia. }
  destruct (handle_pretrigger_run PRETRIGGER d2 [words] Hprog) as (runs' & d3 & E3 & _ & Ho' & Ep' & _).
  { unfold blocks_ok. rewrite Em2, Em, Ebs2, Ebs, Ebd2, Ebd. done. }
  { rewrite Eold2, Eold. unfold ids. rewrite En2.
    destruct (clients d2) as [|p0 l] eqn:E; [discriminate Ep|]. injection Ep as ->.
    simpl. unfold client_id. lia. }
  { rewrite Etr. pose proof (rising_paint 0 runs (zlen words)). lia. }
  rewrite Etr, Elong in *.
  assert (runs' = runs) as -> by (eapply runs_unique; [exact Ho'|exact Ho|exact Ep']).
  exists d3. unfold requests. cbn [serve handle].
  rewrite (bind_ok _ _ _ _ _ E1), bind_assoc, (bind_ok _ _ _ _ _ E2). mrun.
  rewrite (bind_ok _ _ _ _ _ E3). mrun. unfold answers. by rewrite app_nil_r.
Qed.

End Driver.

(** ** Theorems: the server *)

Lemma view_times g s h I T B (Q : unit → server → Prop) :
  observed STiming bad_transmit_times s h I T B →
  (∀ s', observed STiming bad_transmit_times s' h I T (g B) → Q tt s') →
  wp (modify (fun s => s <| bad_transmit_times ::= g |>)) Q s.
Proof.
  intros (H1 & H2 & H3 & H4) HQ. apply wp_modify, HQ. split_and!; try done.
  by rewrite <- H4.
Qed.

Lemma view_gets_times s h I T B (Q : TRTimes → server → Prop) :
  observed STiming bad_transmit_times s h I T B → Q B s → wp (gets bad_transmit_times) Q s.
Proof. intros (_ & _ & _ & <-) HQ. by apply wp_gets. Qed.

Lemma view_words n l b s h I T B (Q : option (list Z) → server → Prop) :
  n ≠ 0 → observed STiming bad_transmit_times s h (PWords (Some l) :: I) T B →
  (∀ s', observed STiming bad_transmit_times s' h I (T ++ [EvRecv STiming (PWords (Some l))]) B →
    Q (Some l) s') →
  wp (recv_words STiming n (Some b)) Q s.
Proof.
  intros Hn Hv HQ. unfold recv_words. rewrite (proj2 (Z.eqb_neq n 0) Hn). repeat view_step.
  by apply HQ.
Qed.

(** One operation on the times. *)
Ltac times_step :=
  lazymatch goal with
  | H : observed _ _ ?s _ _ _ _ |- wp (modify _) _ ?s =>
      apply (view_times _ _ _ _ _ _ _ H); clear s H; intros s H;
      match type of H with observed _ _ _ _ _ _ ?b => let b' := eval cbv [set_field eta eta_TRTimes tr_length start_usec duration_usec] in b in
        change b with b' in H end; cbn [Z.ltb Z.compare] in H
  | H : observed _ _ ?s _ _ _ _ |- wp (gets bad_transmit_times) _ ?s =>
      apply (view_gets_times _ _ _ _ _ _ H); cbn [tr_length start_usec duration_usec]
  | H : observed _ _ ?s _ _ _ _ |- wp (recv_words _ _ (Some _)) _ ?s =>
      apply (view_words _ _ _ _ _ _ _ _ _ ltac:(done) H); clear s H; intros s H
  | _ => view_step
  end.

Section Server.
Context (a : Z) (p : ControlPRM) (buf : TSGbuf) (runs : list (Z * Z)).
Context (h : gmap Z ControlProgram) (cp : ControlProgram) (st : ControlState).
Hypothesis Hcp : h !! a = Some cp.
Hypothesis Hpar : parameters cp = Some p.
Hypothesis Hst : state cp = Some st.
Hypothesis Hseq : zget (pulseseqs st) (current_pulseseq_index p) = Some (Some buf).

Lemma register_view I s T B dt dst (Q : unit → server → Prop) :
  observed STiming bad_transmit_times s h (PDriver dt dst :: I) T B →
  (∀ s', observed STiming bad_transmit_times s' h I (T ++
     [EvLock timing_comm_lock; EvSend STiming (PDriver TIMING_REGISTER_SEQ 1);
      EvSend STiming (PParams p); EvSend STiming (PInt (current_pulseseq_index p));
      EvSend STiming (PSeqHeader (seq_len buf) (seq_step buf) (seq_index buf));
      EvSend STiming (PBytes (seq_rep buf)); EvSend STiming (PBytes (seq_code buf));
      EvRecv STiming (PDriver dt dst); EvUnlock timing_comm_lock]) B → Q tt s') →
  wp (timing_register_seq a) Q s.
Proof.
  intros Hv HQ. unfold timing_register_seq, driver_register_seq, locked.
  repeat (view_step; rewrite ?Hpar, ?Hst, ?Hseq).
  apply HQ. by rewrite <- !app_assoc in Hv.
Qed.

Lemma ready_view I s T B dt dst (Q : unit → server → Prop) :
  observed STiming bad_transmit_times s h (PDriver dt dst :: I) T B →
  (∀ s', observed STiming bad_transmit_times s' h I (T ++
     [EvLock timing_comm_lock; EvSend STiming (PDriver CtrlProg_READY 1);
      EvSend STiming (PParams p); EvRecv STiming (PDriver dt dst);
      EvUnlock timing_comm_lock]) B → Q tt s') →
  wp (timing_ready_controlprogram (Some a)) Q s.
Proof.
  intros Hv HQ. unfold timing_ready_controlprogram, driver_ready, current_seq, locked.
  repeat (view_step; rewrite ?Hpar, ?Hst, ?Hseq). cbn beta iota.
  repeat (view_step; rewrite ?Hpar).
  apply HQ. by rewrite <- !app_assoc in Hv.
Qed.

(** [timing_pretrigger] keeps the times it is sent. *)
Lemma pretrigger_view I s T B dt dst (Q : unit → server → Prop) :
  let reply := ([PInt (zlen runs)] ++ words_packet (map fst runs) ++
                words_packet (map snd runs) ++ [PDriver dt dst])%list in
  observed STiming bad_transmit_times s h (reply ++ I) T B →
  (∀ s', observed STiming bad_transmit_times s' h I (T ++
     [EvLock timing_comm_lock; EvSend STiming (PDriver PRETRIGGER 1)] ++
     map (EvRecv STiming) reply ++ [EvUnlock timing_comm_lock]) (times_of runs) → Q tt s') →
  wp (run_steps timing_pretrigger) Q s.
Proof.
  intros reply Hv HQ. unfold reply in *. clear reply.
  unfold run_steps, timing_pretrigger. cbn [for_each id].
  destruct B as [b1 b2 b3]. destruct runs as [|[s0 d0] l].
  - change (zlen []) with 0 in *. cbn [map words_packet app] in *. repeat times_step.
    change (recv_words STiming 0 None) with (mret None : SM (option (list Z))).
    repeat times_step. change (recv_words STiming 0 None) with (mret None : SM (option (list Z))).
    repeat times_step. apply HQ. rewrite <- !app_assoc in Hv. exact Hv.
  - unfold times_of in HQ. assert (0 < zlen ((s0, d0) :: l)) as Hn by (rewrite zlen_cons; pose proof (zlen_nonneg l); lia).
    revert Hn HQ Hv. generalize (zlen ((s0, d0) :: l)). intros n Hn HQ Hv.
    pose proof (proj2 (Z.ltb_lt 0 n) Hn) as Hn1. assert (n ≠ 0) as Hn0 by lia.
    cbn [map words_packet app] in *. repeat times_step.
    rewrite Hn1 in *. cbn [start_usec tr_length]. repeat times_step.
    apply HQ. rewrite <- !app_assoc in Hv. exact Hv.
Qed.

End Server.

Lemma sent_to_app k T1 T2 : sent_to k (T1 ++ T2) = (sent_to k T1 ++ sent_to k T2)%list.
Proof. apply omap_app. Qed.

Lemma sent_to_recv k k' l : sent_to k (map (EvRecv k') l) = [].
Proof. by induction l. Qed.

(** The exchanges with a driver that answers. *)
Lemma announce_run s a p buf runs rest :
  has_sequence s a p buf → inbox s !! STiming = Some (answers runs ++ rest)%list →
  ∃ s' T, announce a s = Ok (tt, s') ∧ trace s' = (trace s ++ T)%list ∧
    driver_reads (sent_to STiming T) = Some (requests p buf) ∧
    bad_transmit_times s' = times_of runs ∧ inbox s' !! STiming = Some rest ∧ heap s' = heap s.
Proof.
  intros (cp & st & Ha & Hp & Hs & Hq) Hin.
  enough (wp (announce a) (fun _ s' => ∃ T,
    observed STiming bad_transmit_times s' (heap s) rest (trace s ++ T) (times_of runs) ∧
    driver_reads (sent_to STiming T) = Some (requests p buf)) s) as H.
  { apply wp_run in H as ([] & s' & E & T & (H1 & H2 & H3 & H4) & HT).
    exists s', T. by split_and!. }
  assert (observed STiming bad_transmit_times s (heap s) (answers runs ++ rest) (trace s)
    (bad_transmit_times s)) as Hv by done.
  unfold answers in Hv. cbn [app] in Hv. rewrite <- !app_assoc in Hv.
  unfold announce. view_step.
  apply (register_view a p buf (heap s) cp st Ha Hp Hs Hq _ _ _ _ _ _ _ Hv). clear Hv. intros s1 Hv.
  view_step.
  apply (ready_view a p buf (heap s) cp st Ha Hp Hs Hq _ _ _ _ _ _ _ Hv). clear Hv. intros s2 Hv.
  eapply (pretrigger_view runs (heap s) rest _ _ _ PRETRIGGER 0).
  { rewrite <- !app_assoc. exact Hv. }
  intros s3 Hv3. rewrite <- !app_assoc in Hv3. eexists. split; [exact Hv3|].
  rewrite !sent_to_app, sent_to_recv. cbn. by destruct buf.
Qed.

(** ** Properties *)

(** C3: for parameters [TSGMake] accepts, whose pulses are over before the last
    sample, the sequence it makes is read by the driver as the server sends it,
    and after the pre-trigger the times the transmitters are on that the driver
    finds and the server keeps are those of the pulse pattern: pulse [i] puts the
    T/R line on at its place in the pattern, from the first receiver protection
    to the last, in ticks of the card (two to a tick of the sequence, after two
    of padding). *)
Theorem pulse_times alloc t t1 prm tm pats codes p :
  prepare alloc t = Ok (inr (prm, tm), t1) → feasible t1 tm pats codes →
  all_sent t1 tm pats → mppul t1 < MAX_PULSES →
  is_int (4 * buf_len t1 tm) → alloc 4 = true → alloc 5 = true →
  valid_client p → 0 ≤ current_pulseseq_index p < MAX_SEQS →
  let runs := reported t1 tm pats in
  ∃ buf t2, TSGMake alloc (current_pulseseq_index p) t = Ok ((TSG_OK, Some (buf, prm)), t2) ∧
  ∀ s a rest d, has_sequence s a p buf → idle d →
    inbox s !! STiming = Some (answers runs ++ rest)%list →
    ∃ s' T d', announce a s = Ok (tt, s') ∧ trace s' = (trace s ++ T)%list ∧
      driver_reads (sent_to STiming T) = Some (requests p buf) ∧
      serve (requests p buf) d = Ok (answers runs, d') ∧
      bad_transmit_times s' = times_of runs.
Proof.
  intros Hprep Hf Hsent Hmax Hint H4 H5 Hp Hidx runs.
  pose proof (prepare_well_timed _ _ _ _ _ _ _ Hprep Hf) as Hwt.
  pose proof (fe_mppul _ _ _ _ Hf) as Hn.
  destruct (TSGMake_run _ (current_pulseseq_index p) _ _ _ _ _ _ Hprep Hf Hint H4 H5)
    as (buf & out & E & Et & Elen & _ & Estep & Hok & Hrf & _ & Hout & Hout2).
  exists buf. eexists. split; [exact E|]. intros s a rest d Hs Hd Hin.
  destruct (announce_run s a p buf runs rest Hs Hin) as (s' & T & Ea & ETr & Er & Eb & _ & _).
  pose proof Hp as [Hr Hc].
  destruct (card_line t1 tm pats codes Hwt out Hn Hsent Hrf Hout (radar p - 1) (channel p - 1)
    ltac:(lia) ltac:(lia)) as [Ho El].
  destruct (serve_requests d p buf Hd Hp Hidx Elen) with (runs := runs) as (d' & Ed).
  - rewrite Elen. unfold zlen. f_equal. by eapply Forall2_length.
  - eapply Forall2_Forall_r; [exact Hok|]. apply Forall_true. intros x y (_ & ? & _). lia.
  - rewrite Estep. by vm_compute.
  - rewrite zlen_words, Et. unfold whole. pose proof (fe_total _ _ _ _ Hf). pose proof (fe_stdelay _ _ _ _ Hf).
    pose proof (fe_smsp _ _ _ _ Hf).
    assert (0 ≤ end_ticks t1 ≤ 1000) by (unfold end_ticks; by destruct ((mppul t1 =? 0) || _)).
    rewrite !zlen_app, !zlen_hold by lia. assert (MAX_TIME_SEQ_LEN = 1048576) by done. lia.
  - rewrite Et. exact Ho.
  - rewrite Et. exact El.
  - unfold runs, reported, zlen. rewrite length_map, length_seqZ. lia.
  - exists s', T, d'. by split_and!.
Qed.

(** ** Witness *)

(** The driver is idle when it starts to accept. *)
Lemma idle_start junk words pulses :
  zlen words = MAX_TIME_SEQ_LEN → zlen pulses = MAX_PULSES → idle (tdriver0 junk words pulses).
Proof.
  intros Hw Hp. constructor; try done.
  - unfold blocks_ok. cbn. lia.
  - intros r c Hr Hc. exists slot0. split; [|by split].
    unfold slot_at, tdriver0, MAX_RADARS, MAX_CHANNELS in *. cbn [slots_of].
    assert (r = 0 ∨ r = 1) as [-> | ->] by lia;
      assert (c = 0 ∨ c = 1 ∨ c = 2 ∨ c = 3) as [-> | [-> | [-> | ->]]] by lia; reflexivity.
Qed.

Definition idle_driver : tdriver :=
  tdriver0 prm0 (replicate (Z.to_nat MAX_TIME_SEQ_LEN) 0) (replicate (Z.to_nat MAX_PULSES) 0).

(** Channel 2 of the first radar. *)
Definition pulse_client : ControlPRM := prm0 <| radar := 1 |> <| channel := 2 |>.

(** Two pulses of 800 microseconds, 9000 microseconds apart: 1800 ticks of the
    card. *)
Definition pulse_answers : list packet := answers [(12, 184); (1812, 184)].

Definition pulse_server (buf : TSGbuf) : server :=
  server0 <| heap := {[ 7 := cp0 <| parameters := Some pulse_client |>
                               <| state := Some (state0 <| pulseseqs := [Some buf] |>) |> ]} |>
          <| inbox := {[ STiming := pulse_answers ]} |>.

Lemma pulse_times_witness : ∃ buf t2 s' d',
  TSGMake all_memory 0 example_coded =
    Ok ((TSG_OK, Some (buf, (prepared example_coded).1.2)), t2) ∧
  announce 7 (pulse_server buf) = Ok (tt, s') ∧
  serve (requests pulse_client buf) idle_driver = Ok (pulse_answers, d') ∧
  bad_transmit_times s' = mk_TRTimes 2 (Some [12; 1812]) (Some [184; 184]).
Proof.
  assert (prepare all_memory example_coded =
    Ok (inr ((prepared example_coded).1.2, (prepared example_coded).2),
        (prepared example_coded).1.1)) as E by (vm_compute; reflexivity).
  destruct (pulse_times all_memory _ _ _ _ [0; 3] example_codes pulse_client E example_feasible)
    as (buf & t2 & Et & H); try reflexivity.
  - intros i Hi. change (mppul (prepared example_coded).1.1) with 2 in Hi.
    assert (i = 0 ∨ i = 1) as [-> | ->] by lia; vm_compute; discriminate.
  - split; vm_compute; discriminate.
  - split; split; (reflexivity || discriminate).
  - split; (reflexivity || discriminate).
  - assert (reported (prepared example_coded).1.1 (prepared example_coded).2 [0; 3] =
      [(12, 184); (1812, 184)]) as Er by (vm_compute; reflexivity).
    rewrite Er in H.
    destruct (H (pulse_server buf) 7 [] idle_driver) as (s' & T & d' & H1 & _ & _ & H2 & H3).
    + eexists _, _. split; [reflexivity|]. by split_and!.
    + apply idle_start; by rewrite zlen_replicate.
    + by rewrite app_nil_r.
    + exists buf, t2, s', d'. by split_and!.
Defined.
