(* ===== verification/Gps.v ===== *)
(** * Gps: the driver of the GPS clock card (src/ros6/gps_tcp_driver)

    The card keeps GPS time: it captures the time of an event in a set of
    registers, shows the current time in another and compares it with a third;
    the digits are BCD.  The driver answers the server with the time of the
    last event (the trigger of the radar) and keeps the system clock within
    [MAX_ERR] seconds of the card.

    What a register reads and what the system clock shows is the record
    [gps_env], a parameter: functions of the accesses made so far (the newest
    first), which the state keeps in [io].  [tz] is the offset of the local
    standard time from UTC in seconds, which [mktime] uses.  [time_t] and [int]
    have 32 bits as on the QNX target, and the QNX branches are modelled.  The
    calls [ctime], [system] and the messages on stderr have no effect on the
    state. *)

From Stdlib Require Import ZArith Lia Ascii String SpecFloat.
From stdpp Require Import base list gmap.
From S2P Require Import Prelude Binary64 Types Startup.
Open Scope Z_scope.
Open Scope cvr_scope.

Definition GPS_GET_SOFT_TIME : ascii := "t"%char.
Definition GPS_GET_HDW_STATUS : ascii := "S"%char.
Definition GPS_TRIGGER_NOW : ascii := "n"%char.
Definition TIME_INTERVAL : Z := 100000000.
Definition MAX_ERR : double := d_lit 1 2.
Definition MAX_SECDIFF : Z := 1000.

(** The literal 1e9. *)
Definition dE9 : double := d_of_int 1000000000.

(** ** State *)

(** One access of the driver to the card or to the system clock. *)
Inductive gps_io :=
  | Rd8 (off : Z)
  | Rd32 (off : Z)
  | Wr8 (off v : Z)
  | Wr32 (off v : Z)
  | ClockGet
  | ClockSet (sec nsec : Z).

Record gps_env := mk_gps_env {
  reg8 : list gps_io → Z → Z;
  reg32 : list gps_io → Z → Z;
  sysclock : list gps_io → Z * Z;
  tz : Z
}.

(** The variables of main.c; [mapped] says whether [BASE1] is not NULL. *)
Record gps := mk_gps {
  displaystat : GPSStatus;
  configured : Z;
  mapped : bool;
  locked : Z;
  first_gps_lock : Z;
  gps_event : Z * Z;
  eventupdate : Z;
  RateSynthInterrupt : Z;
  EventInterrupt : Z;
  TimeCompareInterrupt : Z;
  io : list gps_io
}.

#[export] Instance eta_gps : Eta gps := fun r =>
  mk_gps (displaystat r) (configured r) (mapped r) (locked r) (first_gps_lock r) (gps_event r)
    (eventupdate r) (RateSynthInterrupt r) (EventInterrupt r) (TimeCompareInterrupt r) (io r).

Abbreviation GM := (M gps).

Definition upd_stat (f : GPSStatus → GPSStatus) : GM unit :=
  modify (fun s => s <| displaystat ::= f |>).

(** ** Pure parts *)

(** The digit [(w & (0xf << n)) >> n]. *)
Definition nib (w n : Z) : Z := (w &c (15 <<c n)) >>c n.

(** Month (from 0) and day of the month of a day of the year, in a leap year and
    in the others: the tables of _get_event_time.c, _get_software_time.c and
    _get_compare_time.c.  No branch is taken for another day, and the month is
    then not assigned. *)
Definition leap_month (day : Z) : option (Z * Z) :=
  if (0 <=? day) && (day <=? 31) then Some (0, day - 0)
  else if (31 <? day) && (day <=? 60) then Some (1, day - 31)
  else if (60 <? day) && (day <=? 91) then Some (2, day - 60)
  else if (91 <? day) && (day <=? 121) then Some (3, day - 91)
  else if (121 <? day) && (day <=? 152) then Some (4, day - 121)
  else if (152 <? day) && (day <=? 182) then Some (5, day - 152)
  else if (182 <? day) && (day <=? 213) then Some (6, day - 182)
  else if (213 <? day) && (day <=? 244) then Some (7, day - 213)
  else if (244 <? day) && (day <=? 274) then Some (8, day - 244)
  else if (274 <? day) && (day <=? 305) then Some (9, day - 274)
  else if (305 <? day) && (day <=? 335) then Some (10, day - 305)
  else if (335 <? day) && (day <=? 366) then Some (11, day - 335)
  else None.

Definition common_month (day : Z) : option (Z * Z) :=
  if (0 <=? day) && (day <=? 31) then Some (0, day - 0)
  else if (31 <? day) && (day <=? 59) then Some (1, day - 31)
  else if (59 <? day) && (day <=? 90) then Some (2, day - 59)
  else if (90 <? day) && (day <=? 120) then Some (3, day - 90)
  else if (120 <? day) && (day <=? 151) then Some (4, day - 120)
  else if (151 <? day) && (day <=? 181) then Some (5, day - 151)
  else if (181 <? day) && (day <=? 212) then Some (6, day - 181)
  else if (212 <? day) && (day <=? 243) then Some (7, day - 212)
  else if (243 <? day) && (day <=? 273) then Some (8, day - 243)
  else if (273 <? day) && (day <=? 304) then Some (9, day - 273)
  else if (304 <? day) && (day <=? 334) then Some (10, day - 304)
  else if (334 <? day) && (day <=? 365) then Some (11, day - 334)
  else None.

Definition month_day (year day : Z) : option (Z * Z) :=
  if year %c 4 =? 0 then leap_month day else common_month day.

(** ** The C library's calendar *)

Definition leap (y : Z) : bool :=
  (y mod 4 =? 0) && (negb (y mod 100 =? 0) || (y mod 400 =? 0)).

(** Days from 1 January 1970 to 1 January of the year [y]. *)
Definition days_before (y : Z) : Z :=
  365 * (y - 1970) + (y - 1) / 4 - (y - 1) / 100 + (y - 1) / 400 - 477.

(** Days of the year before the month (from 0). *)
Definition month_start (y mon : Z) : Z :=
  default 0 (zget [0; 31; 59; 90; 120; 151; 181; 212; 243; 273; 304; 334] mon) +
  (if (2 <=? mon) && leap y then 1 else 0).

(** A broken-down time: [tm_year] counts from 1900, [tm_mon] from 0. *)
Record tm := mk_tm {
  tm_year : Z; tm_mon : Z; tm_mday : Z; tm_hour : Z; tm_min : Z; tm_sec : Z
}.

(** Seconds since the Epoch of a broken-down time in UTC; fields out of range
    are carried. *)
Definition timegm (t : tm) : Z :=
  let y := tm_year t + 1900 in
  86400 * (days_before y + month_start y (tm_mon t) + tm_mday t - 1) +
  3600 * tm_hour t + 60 * tm_min t + tm_sec t.

(** [mktime] with [tm_isdst] 0 in a zone [tz] seconds east of UTC: -1 when the
    time is not representable. *)
Definition mktime (tz : Z) (t : tm) : Z :=
  let s := timegm t - tz in if bool_decide (is_int s) then s else -1.

(** [gmtime]: the year and the seconds since its start. *)
Definition gm_year (sec : Z) : Z :=
  let d := sec / 86400 in
  let y := 1970 + 400 * d / 146097 in
  if d <? days_before y then y - 1 else if days_before (y + 1) <=? d then y + 1 else y.

(** [tm_yday], [tm_hour], [tm_min] and [tm_sec]. *)
Definition gm_yday (sec : Z) : Z := sec / 86400 - days_before (gm_year sec).
Definition gm_hour (sec : Z) : Z := sec mod 86400 / 3600.
Definition gm_min (sec : Z) : Z := sec mod 3600 / 60.
Definition gm_sec (sec : Z) : Z := sec mod 60.

(** ** Access to the card *)

Section Gps.
Context (env : gps_env).

(** One access: [f] of the accesses made before it. *)
Definition access {A} (f : list gps_io → A) (e : gps_io) : GM A :=
  s ← get_st;
  modify (fun s => s <| io ::= cons e |>);;
  mret (f (io s)).

Definition in8 (off : Z) : GM Z := access (fun h => u8 (reg8 env h off)) (Rd8 off).
Definition in32 (off : Z) : GM Z := access (fun h => u32 (reg32 env h off)) (Rd32 off).
Definition out8 (off v : Z) : GM unit := access (fun _ => tt) (Wr8 off (u8 v)).
Definition out32 (off v : Z) : GM unit := access (fun _ => tt) (Wr32 off (u32 v)).
Definition clock_gettime : GM (Z * Z) := access (sysclock env) ClockGet.
Definition clock_settime (sec nsec : Z) : GM unit := access (fun _ => tt) (ClockSet sec nsec).

(** [*reg |= v] on 8 and 32 bits. *)
Definition or8 (off v : Z) : GM unit := t ← in8 off; out8 off (t |c v).
Definition or32 (off v : Z) : GM unit := t ← in32 off; out32 off (t |c v).

(** ** Reading the time

    The result of the three functions is what they return, and the seconds and
    nanoseconds they store, if they store any. *)

(** The seconds since the Epoch of a year, a day of the year and a time; the
    month of a day that no branch takes is an uninitialised variable. *)
Definition calendar_time (year day hour minute second : Z) : GM Z :=
  '(month, mday) ← deref Uninit (month_day year day);
  mret (mktime (tz env) (mk_tm (year - 1900) month mday hour minute second)).

Definition get_event_time : GM (Z * option (Z * Z)) :=
  s ← get_st;
  if mapped s then
    flag ← in32 254;
    if negb ((flag &c 1) =? 1) then mret (-1, None) else
    temp174 ← in32 372;
    temp178 ← in32 376;
    temp17c ← in32 380;
    or32 248 1;;
    let year := 1000 * nib temp17c 12 + 100 * nib temp17c 8 + 10 * nib temp17c 4 + nib temp17c 0 in
    let day := 100 * nib temp178 24 + 10 * nib temp178 20 + nib temp178 16 in
    let hour := 10 * nib temp178 12 + nib temp178 8 in
    let minute := 10 * nib temp178 4 + nib temp178 0 in
    let second := 10 * nib temp174 28 + nib temp174 24 in
    let nsecond := 100 * nib temp17c 20 + 1000000 * nib temp174 12 + 100000 * nib temp174 8 +
                   10000 * nib temp174 4 + 1000 * nib temp174 0 in
    let nsecond := nsecond + (100000000 * nib temp174 20 + 10000000 * nib temp174 16) in
    calandertime ← calendar_time year day hour minute second;
    mret (calandertime, Some (calandertime, nsecond))
  else
    '(sec, nsec) ← clock_gettime;
    mret (sec, Some (sec, nsec)).

(** Never without a time. *)
Definition get_software_time : GM (Z * (Z * Z)) :=
  s ← get_st;
  if mapped s then
    out8 252 0;;
    temp ← in32 260;
    let year := 1000 * nib temp 28 + 100 * nib temp 24 + 10 * nib temp 20 + nib temp 16 in
    let day := 100 * nib temp 8 + 10 * nib temp 4 + nib temp 0 in
    temp ← in32 256;
    let hour := 10 * nib temp 28 + nib temp 24 in
    let minute := 10 * nib temp 20 + nib temp 16 in
    let second := 10 * nib temp 12 + nib temp 8 in
    temp ← in32 252;
    let nsecond := 100 * nib temp 28 + 1000000 * nib temp 12 + 100000 * nib temp 8 +
                   10000 * nib temp 4 + 1000 * nib temp 0 in
    temp ← in32 256;
    let nsecond := nsecond + (100000000 * nib temp 4 + 10000000 * nib temp 0) in
    calandertime ← calendar_time year day hour minute second;
    mret (calandertime, (calandertime, nsecond))
  else
    '(sec, nsec) ← clock_gettime;
    mret (sec, (sec, nsec)).

(** The year is that of the system clock, from 1900 as in [tm_year]. *)
Definition get_compare_time : GM (Z * (Z * Z)) :=
  '(sysec, sysnsec) ← clock_gettime;
  s ← get_st;
  if mapped s then
    temp138 ← in32 312;
    temp13c ← in32 316;
    let year := gm_year sysec - 1900 in
    let day := 100 * nib temp13c 24 + 10 * nib temp13c 20 + nib temp13c 16 in
    '(month, mday) ← deref Uninit (month_day year day);
    let hour := 10 * nib temp13c 12 + nib temp13c 8 in
    let minute := 10 * nib temp13c 4 + nib temp13c 0 in
    let second := 10 * nib temp138 28 + nib temp138 24 in
    let nsecond := 1000000 * nib temp138 12 + 100000 * nib temp138 8 + 10000 * nib temp138 4 +
                   1000 * nib temp138 0 in
    let nsecond := nsecond + (100000000 * nib temp138 20 + 10000000 * nib temp138 16) in
    let calandertime := mktime (tz env) (mk_tm year month mday hour minute second) in
    mret (calandertime, (calandertime, nsecond))
  else mret (sysec, (sysec, sysnsec)).

(** ** The compare register *)

(** The two words of set_time_compare_register: [int] sums. *)
Definition compare_seconds (sec nsec : Z) : Z :=
  let second := gm_sec sec in
  let tsec := second /c 10 in
  let sec := second - tsec * 10 in
  let hmsec := nsec /c 100000000 in
  let nextnsec := nsec - hmsec * 100000000 in
  let tmsec := nextnsec /c 10000000 in
  let nextnsec := nextnsec - tmsec * 10000000 in
  let msec := nextnsec /c 1000000 in
  let nextnsec := nextnsec - msec * 1000000 in
  let husec := nextnsec /c 100000 in
  let nextnsec := nextnsec - husec * 100000 in
  let tusec := nextnsec /c 10000 in
  let nextnsec := nextnsec - tusec * 10000 in
  let usec := nextnsec /c 1000 in
  ((tsec &c 15) <<c 28) + ((sec &c 15) <<c 24) + ((hmsec &c 15) <<c 20) +
  ((tmsec &c 15) <<c 16) + ((msec &c 15) <<c 12) + ((husec &c 15) <<c 8) +
  ((tusec &c 15) <<c 4) + (usec &c 15).

Definition compare_minutes (mask sec : Z) : Z :=
  let yday := gm_yday sec + 1 in
  let tmins := gm_min sec /c 10 in
  let mins := gm_min sec - tmins * 10 in
  let thours := gm_hour sec /c 10 in
  let hours := gm_hour sec - thours * 10 in
  let hdays := yday /c 100 in
  let yday := yday - hdays * 100 in
  let tdays := yday /c 10 in
  let days := yday - tdays * 10 in
  ((mask &c 15) <<c 28) + ((hdays &c 15) <<c 24) + ((tdays &c 15) <<c 20) +
  ((days &c 15) <<c 16) + ((thours &c 15) <<c 12) + ((hours &c 15) <<c 8) +
  ((tmins &c 15) <<c 4) + (mins &c 15).

Definition set_time_compare_register (mask : Z) (nexttime : Z * Z) : GM unit :=
  s ← get_st;
  when (mapped s)
    (w ← int_op (compare_seconds nexttime.1 nexttime.2);
     out32 312 w;;
     w ← int_op (compare_minutes mask nexttime.1);
     out32 316 w).

Definition set_time_compare (mask : Z) (nexttime : Z * Z) : GM unit :=
  set_time_compare_register mask nexttime;;
  upd_stat (fun d => d <| nextcomparesec := nexttime.1 |> <| nextcomparensec := nexttime.2 |>).

Definition increment_time (nexttime : Z * Z) (increment : Z) : Z * Z :=
  let nsec := nexttime.2 + increment in
  if 1000000000 <=? nsec then (nexttime.1 + 1, nsec - 1000000000) else (nexttime.1, nsec).

Definition time_greater (a b : Z * Z) : bool :=
  (b.1 <? a.1) || ((a.1 =? b.1) && (b.2 <? a.2)).

(** One pass of monitor_timecompare: a compare time that is not ahead of the
    card's time is moved on by [TIME_INTERVAL]. *)
Definition monitor_timecompare : GM unit :=
  s ← get_st;
  let d := displaystat s in
  if negb (intervalmode d =? 0) || negb (scheduledintervalmode d =? 0) || negb (oneshot d =? 0) then
    start ← clock_gettime;
    '(_, timeA) ← get_compare_time;
    '(_, timeB) ← get_software_time;
    (if time_greater timeA timeB then
       upd_stat (fun d => d <| timecompareupdateerror := 0 |>)
     else
       set_time_compare 0 (increment_time timeA TIME_INTERVAL);;
       upd_stat (fun d => d <| timecompareupdateerror := 1 |>));;
    stop ← clock_gettime;
    upd_stat (fun d => d <| settimecomparetime := to_float (dadd (d_of_int (stop.1 - start.1))
      (ddiv (d_of_int (stop.2 - start.2)) dE9)) |>)
  else mret tt.

(** ** The status of the card (_refresh_state.c) *)

(** A status word of the card; 0 without the card. *)
Definition status_bits (rd : GM Z) (f : Z → Z) : GM Z :=
  s ← get_st;
  if mapped s then t ← rd; mret (f t) else mret 0.

Definition get_hdw_stat : GM Z := status_bits (in8 284) (fun t => t &c 15).
Definition get_lock_stat : GM Z := status_bits (in32 260) (fun t => (t &c 28672) >>c 12).
Definition get_ant_stat : GM Z := status_bits (in32 252) (fun t => (t &c 3145728) >>c 20).

(** The digits of a signal level: tens and units are added as floats, the
    fractions as doubles. *)
Definition signal_level (t : Z) : double :=
  to_float (dadd (dadd (of_float (fadd (fmul (f_of_int 10) (f_of_int (nib t 28)))
                                       (fmul (f_of_int 1) (f_of_int (nib t 24)))))
                       (dmul (d_lit 1 1) (of_float (f_of_int (nib t 20)))))
                 (dmul (d_lit 1 2) (of_float (f_of_int (nib t 16))))).

Definition get_sat_stat : GM Z :=
  s ← get_st;
  when (mapped s)
    (for_each (seqZ 0 6) (fun i =>
       t ← in32 (408 + 4 * i);
       s ← get_st;
       l ← deref OutOfBounds (zset (sv (displaystat s)) i (10 * nib t 4 + nib t 0));
       m ← deref OutOfBounds (zset (signal (displaystat s)) i (signal_level t));
       upd_stat (fun d => d <| sv := l |> <| signal := m |>)));;
  t ← get_lock_stat;
  mret (if t &c 1 =? 0 then -1 else 1).

(** Degrees of an angle in degrees, minutes, seconds and tenths. *)
Definition degrees (deg min sec tenthsec : Z) : double :=
  to_float (dadd (of_float (fadd (f_of_int deg) (fdiv (f_of_int min) (f_of_int 60))))
    (ddiv (dadd (of_float (f_of_int sec)) (dmul (d_lit 1 1) (of_float (f_of_int tenthsec))))
          (d_of_int 3600))).

Definition get_lat : GM double :=
  s ← get_st;
  if mapped s then
    t ← in32 264;
    let deg := 100 * nib t 8 + 10 * nib t 4 + nib t 0 in
    let min := 10 * nib t 20 + nib t 16 in
    t ← in32 268;
    let sec := 10 * nib t 12 + nib t 8 in
    let tenthsec := nib t 0 in
    let degf := degrees deg min sec tenthsec in
    t ← in32 264;
    let t := (t &c 4278190080) >>c 24 in
    mret (if t =? 78 then degf else if t =? 83 then fsub (f_of_int 0) degf else degf)
  else mret dzero.

Definition get_lon : GM double :=
  s ← get_st;
  if mapped s then
    t ← in32 268;
    let deg := 100 * nib t 24 + 10 * nib t 20 + nib t 16 in
    t ← in32 272;
    let min := 10 * nib t 4 + nib t 0 in
    let sec := 10 * nib t 28 + nib t 24 in
    let tenthsec := nib t 16 in
    let degf := degrees deg min sec tenthsec in
    let t := (t &c 65280) >>c 8 in
    mret (if t =? 87 then degf else if t =? 69 then fsub (f_of_int 360) degf else degf)
  else mret dzero.

Definition get_alt : GM double :=
  s ← get_st;
  if mapped s then
    t ← in32 276;
    let alt := 10000 * nib t 4 + 1000 * nib t 0 + nib t 20 + 10 * nib t 24 + 100 * nib t 28 in
    let altf := to_float (dadd (of_float (f_of_int alt))
                  (dmul (d_lit 1 1) (of_float (f_of_int (nib t 16))))) in
    let t := (t &c 65280) >>c 8 in
    mret (if t =? 43 then altf else if t =? 45 then fsub (f_of_int 0) altf else altf)
  else mret dzero.

(** The running mean [(mean*n + x) / ((float)n+1)]. *)
Definition running_mean (mean x : double) (n : Z) : double :=
  fdiv (fadd (fmul mean (f_of_int n)) x) (fadd (f_of_int n) (f_of_int 1)).

(** The lock bits. *)
Definition set_locks (d : GPSStatus) (l : Z) : GPSStatus :=
  d <| gs_lock := l |>
    <| gps_lock := if (l &c 1) =? 1 then 1 else 0 |>
    <| reference_lock := if (l &c 2) =? 2 then 1 else 0 |>
    <| phase_lock := if (l &c 4) =? 4 then 1 else 0 |>.

(** The difference of the system clock and the card's time, in seconds; the
    [int] differences must not overflow. *)
Definition time_difference (sys gps_time : Z * Z) : GM double :=
  ds ← int_op (sys.1 - gps_time.1);
  dn ← int_op (sys.2 - gps_time.2);
  mret (to_float (dadd (of_float (f_of_int ds)) (ddiv (of_float (f_of_int dn)) dE9))).

(** Lines 386-395: the time of the card and the system clock in the status. *)
Definition read_clocks : GM double :=
  now ← clock_gettime;
  '(_, time) ← get_software_time;
  upd_stat (fun d => d <| gs_second := time.1 |> <| gs_nsecond := time.2 |>
                       <| syssecond := now.1 |> <| sysnsecond := now.2 |>);;
  time_difference now time.

Definition fabs (x : double) : double := SFabs x.

(** The system clock is off, and off by less than [MAX_SECDIFF] seconds. *)
Definition clock_off (timediff : double) (d : GPSStatus) : bool :=
  dltb MAX_ERR (fabs (of_float timediff)) && negb (reference_lock d =? 0) && negb (gps_lock d =? 0) &&
  negb (phase_lock d =? 0).

Definition clock_near (timediff : double) : bool := dltb (fabs (of_float timediff)) (d_of_int MAX_SECDIFF).

(** The first part of get_state: the status, the position and the clocks; the
    result is the difference of the clocks.  [oldtimediff] is a local variable
    that no statement has assigned when the drift is computed. *)
Definition poll_card (oldtimediff : double) : GM double :=
  t ← get_hdw_stat; upd_stat (fun d => d <| gs_hardware := t |>);;
  t ← get_ant_stat; upd_stat (fun d => d <| gs_antenna := t |>);;
  t ← get_lock_stat; upd_stat (fun d => set_locks d t);;
  _ ← get_sat_stat;
  x ← get_lat;
  upd_stat (fun d => d <| lat := x |> <| mlat := running_mean (mlat d) x (poscnt d) |>);;
  x ← get_lon;
  upd_stat (fun d => d <| lon := x |> <| mlon := running_mean (mlon d) x (poscnt d) |>);;
  x ← get_alt;
  upd_stat (fun d => d <| alt := x |> <| malt := running_mean (malt d) x (poscnt d) |>);;
  timediff ← read_clocks;
  let drift' := to_float (dmul (d_of_int 1000000) (of_float (fsub timediff oldtimediff))) in
  upd_stat (fun d => d <| drift := drift' |>
    <| mdrift := running_mean (mdrift d) drift' (poscnt d) |>);;
  s ← get_st;
  n ← int_op (poscnt (displaystat s) + 1);
  upd_stat (fun d => d <| poscnt := n |>);;
  mret timediff.

(** The second part: the system clock is set to the time of the card. *)
Definition adjust_clock (timediff : double) : GM unit :=
  s ← get_st;
  let d := displaystat s in
  when (clock_off timediff d)
    (when (clock_near timediff) (clock_settime (gs_second d) (gs_nsecond d));;
     upd_stat (fun d => d <| lastsetsec := gs_second d |> <| lastsetnsec := gs_nsecond d |>);;
     _ ← read_clocks;
     mret tt).

(** The third part: the news of the interrupt thread. *)
Definition note_events : GM unit :=
  s ← get_st;
  when (negb (timecompareupdate (displaystat s) =? 0))
    (upd_stat (fun d => d <| timecompareupdate := 0 |>));;
  when (negb (eventupdate s =? 0))
    (upd_stat (fun d => d <| lasttriggersecond := (gps_event s).1 |>
                          <| lasttriggernsecond := (gps_event s).2 |>);;
     modify (fun s => s <| eventupdate := 0 |>)).

Definition get_state (oldtimediff : double) : GM unit :=
  timediff ← poll_card oldtimediff;
  adjust_clock timediff;;
  note_events.

(** ** Interrupts (_isr_handler.c) *)

(** One of the three interrupts: bit [b] of the flags, cleared with [c]. *)
Definition isr_flag (b c : Z) (set : gps → gps) : GM unit :=
  t ← in8 254;
  when ((t &c b) =? b) (or8 248 c;; modify set).

(** Whether int_thread is woken. *)
Definition isr_handler : GM bool :=
  isr_flag 1 1 (fun s => s <| EventInterrupt := 1 |>);;
  isr_flag 8 64 (fun s => s <| RateSynthInterrupt := 1 |>);;
  isr_flag 2 2 (fun s => s <| TimeCompareInterrupt := 1 |>);;
  s ← get_st;
  mret (negb (TimeCompareInterrupt s =? 0) || negb (RateSynthInterrupt s =? 0) ||
        negb (EventInterrupt s =? 0)).

Definition next_compare (time : Z * Z) : GM unit :=
  upd_stat (fun d => d <| nextcomparesec := time.1 |> <| nextcomparensec := time.2 |>
                       <| timecompareupdate := 1 |>).

(** One pass of int_thread; [junk] is what the uninitialised gpssecond and
    gpsnsecond hold at its start, the result what they hold at its end. *)
Definition int_thread (junk : Z * Z) : GM (Z * Z) :=
  s ← get_st;
  t ← (if negb (RateSynthInterrupt s =? 0) then
         '(_, time) ← get_software_time;
         modify (fun s => s <| RateSynthInterrupt := 0 |>);;
         next_compare time;;
         mret time
       else mret junk);
  s ← get_st;
  t ← (if negb (EventInterrupt s =? 0) then
         modify (fun s => s <| EventInterrupt := 0 |>);;
         '(_, time) ← get_event_time;
         let time := default t time in
         modify (fun s => s <| gps_event := time |> <| eventupdate := 1 |>);;
         mret time
       else mret t);
  s ← get_st;
  if negb (TimeCompareInterrupt s =? 0) then
    modify (fun s => s <| TimeCompareInterrupt := 0 |>);;
    upd_stat (fun d => d <| oneshot := 0 |>);;
    '(_, time) ← get_compare_time;
    next_compare time;;
    mret time
  else mret t.

(** ** main.c *)

(** The initialisation of the card; [now] is an uninitialised variable whose
    nanoseconds are then set. *)
Definition gps_initialize (now : Z) : GM unit :=
  upd_stat (fun d => d <| mdrift := dzero |>);;
  s ← get_st;
  when (negb (configured s =? 0))
    (out32 280 2415919137;;
     set_time_compare 0 (now, 0);;
     or8 248 2;;
     out32 296 10;;
     out32 300 33619712);;
  modify (fun s => s <| RateSynthInterrupt := 0 |>);;
  modify (fun s => s <| EventInterrupt := 0 |>).

(** The head of the outer loop, before a connection is accepted: with
    [wait_for_lock] 0 the driver talks to the server without a lock. *)
Definition first_lock (oldtimediff : double) : GM unit :=
  s ← get_st;
  when ((first_gps_lock s =? 0) && negb (configured s =? 0))
    (get_state oldtimediff;;
     modify (fun s => s <| first_gps_lock := first_gps_lock s |c gps_lock (displaystat s) |>);;
     s ← get_st;
     if first_gps_lock s =? 0 then
       modify (fun s => s <| locked := 0 |>);;
       modify (fun s => s <| first_gps_lock := 1 |>);;
       modify (fun s => s <| locked := 1 |>)
     else modify (fun s => s <| locked := 1 |>)).

Inductive gps_request :=
  | GpsSoftTime (type : ascii)
  | GpsEventTime (type : ascii)
  | GpsTriggerRate (type : ascii) (status rate : Z)
  | GpsHdwStatus (type : ascii) (status : Z) (oldtimediff : double)
  | GpsTriggerNow
  | GpsBadCode.

(** [configured && locked] *)
Definition usable (s : gps) : bool := negb (configured s =? 0) && negb (locked s =? 0).

Definition time_answer (type : ascii) (status : Z) (time : Z * Z) : list packet :=
  [PInt time.1; PInt time.2; PDriver type status].

Definition gps_soft_time (type : ascii) : GM (list packet) :=
  s ← get_st;
  if usable s then
    '(st, time) ← get_software_time; mret (time_answer type st time)
  else mret (time_answer type (-1) (0, 0)).

(** Without a usable card the answer is the software time. *)
Definition gps_event_time (type : ascii) : GM (list packet) :=
  s ← get_st;
  if usable s then
    '(st, time) ← get_event_time; mret (time_answer type st (default (0, 0) time))
  else
    '(st, time) ← get_software_time; mret (time_answer type st time).

Definition gps_trigger_rate (type : ascii) (status rate : Z) : GM (list packet) :=
  upd_stat (fun d => d <| ratesynthrate := rate |>);;
  s ← get_st;
  when (usable s) (out32 296 rate);;
  mret [PDriver type status].

Definition gps_hdw_status (type : ascii) (status : Z) (oldtimediff : double) : GM (list packet) :=
  get_state oldtimediff;;
  s ← get_st;
  mret [PGps (displaystat s); PDriver type status].

(** The [switch] of main, after [locked |= displaystat.gps_lock]. *)
Definition gps_handle (q : gps_request) : GM (list packet) :=
  modify (fun s => s <| locked := locked s |c gps_lock (displaystat s) |>);;
  match q with
  | GpsSoftTime t => gps_soft_time t
  | GpsEventTime t => gps_event_time t
  | GpsTriggerRate t st rate => gps_trigger_rate t st rate
  | GpsHdwStatus t st old => gps_hdw_status t st old
  | GpsTriggerNow => mret [PInt 0]
  | GpsBadCode => mret []
  end.

End Gps.

Definition status0 : GPSStatus :=
  mk_GPSStatus 0 0 0 0 0 0 (replicate 6 0) (replicate 6 dzero) dzero dzero dzero dzero dzero dzero
    0 0 0 0 0 0 0 0 0 dzero dzero 0 0 0 0 0 0 0 0 0 0 dzero 0 0.

(** The variables before main runs: [configured] as _open_PLX9050 leaves it. *)
Definition gps0 (config : bool) : gps :=
  mk_gps status0 (if config then 1 else 0) config 0 0 (0, 0) 0 0 0 0 [].

(** ** Specification: the calendar and the registers *)

Definition year_days (y : Z) : Z := if leap y then 366 else 365.

(** A time on the card: [d_yday] counts the days of the year from 1. *)
Record date := mk_date {
  d_year : Z; d_yday : Z; d_hour : Z; d_min : Z; d_sec : Z; d_nsec : Z
}.

Definition valid_date (t : date) : Prop :=
  1970 ≤ d_year t < 2100 ∧ 1 ≤ d_yday t ≤ year_days (d_year t) ∧ 0 ≤ d_hour t < 24 ∧
  0 ≤ d_min t < 60 ∧ 0 ≤ d_sec t < 60 ∧ 0 ≤ d_nsec t < 10 ^ 9.

(** Seconds since the Epoch of a date in UTC: the years are summed one by one. *)
Definition date_seconds (t : date) : Z :=
  86400 * (foldr Z.add 0 (map year_days (seqZ 1970 (d_year t - 1970))) + d_yday t - 1) +
  3600 * d_hour t + 60 * d_min t + d_sec t.

(** The [n]th decimal digit, and a BCD digit at bit [b] of a word. *)
Definition digit (v n : Z) : Z := v / 10 ^ n mod 10.
Definition bcd (w b v n : Z) : Prop := nib w b = digit v n.

(** The words of the event registers for a date. *)
Record event_words (w174 w178 w17c : Z) (t : date) : Prop := mk_event_words {
  ew_sec : bcd w174 28 (d_sec t) 1 ∧ bcd w174 24 (d_sec t) 0;
  ew_msec : bcd w174 20 (d_nsec t) 8 ∧ bcd w174 16 (d_nsec t) 7 ∧ bcd w174 12 (d_nsec t) 6;
  ew_usec : bcd w174 8 (d_nsec t) 5 ∧ bcd w174 4 (d_nsec t) 4 ∧ bcd w174 0 (d_nsec t) 3;
  ew_nsec : bcd w17c 20 (d_nsec t) 2;
  ew_year : bcd w17c 12 (d_year t) 3 ∧ bcd w17c 8 (d_year t) 2 ∧ bcd w17c 4 (d_year t) 1 ∧
            bcd w17c 0 (d_year t) 0;
  ew_yday : bcd w178 24 (d_yday t) 2 ∧ bcd w178 20 (d_yday t) 1 ∧ bcd w178 16 (d_yday t) 0;
  ew_hour : bcd w178 12 (d_hour t) 1 ∧ bcd w178 8 (d_hour t) 0;
  ew_min : bcd w178 4 (d_min t) 1 ∧ bcd w178 0 (d_min t) 0
}.

(** The words of the software time registers for a date. *)
Record soft_words (wfc w100 w104 : Z) (t : date) : Prop := mk_soft_words {
  sw_year : bcd w104 28 (d_year t) 3 ∧ bcd w104 24 (d_year t) 2 ∧ bcd w104 20 (d_year t) 1 ∧
            bcd w104 16 (d_year t) 0;
  sw_yday : bcd w104 8 (d_yday t) 2 ∧ bcd w104 4 (d_yday t) 1 ∧ bcd w104 0 (d_yday t) 0;
  sw_hour : bcd w100 28 (d_hour t) 1 ∧ bcd w100 24 (d_hour t) 0;
  sw_min : bcd w100 20 (d_min t) 1 ∧ bcd w100 16 (d_min t) 0;
  sw_sec : bcd w100 12 (d_sec t) 1 ∧ bcd w100 8 (d_sec t) 0;
  sw_msec : bcd w100 4 (d_nsec t) 8 ∧ bcd w100 0 (d_nsec t) 7 ∧ bcd wfc 12 (d_nsec t) 6;
  sw_usec : bcd wfc 8 (d_nsec t) 5 ∧ bcd wfc 4 (d_nsec t) 4 ∧ bcd wfc 0 (d_nsec t) 3;
  sw_nsec : bcd wfc 28 (d_nsec t) 2
}.

(** A register keeps a word while the card is only read. *)
Definition is_read (e : gps_io) : Prop :=
  match e with Rd8 _ | Rd32 _ => True | _ => False end.

Definition latched (env : gps_env) (h : list gps_io) (off w : Z) : Prop :=
  ∀ rs, Forall is_read rs → u32 (reg32 env (rs ++ h) off) = w.

(** The event registers after the accesses [h]: an event was captured at [t] and
    not cleared since, or none was. *)
Definition captured (env : gps_env) (h : list gps_io) (t : date) : Prop :=
  ∃ w174 w178 w17c, Z.odd (u32 (reg32 env h 254)) = true ∧ latched env h 372 w174 ∧
    latched env h 376 w178 ∧ latched env h 380 w17c ∧ event_words w174 w178 w17c t.

Definition no_event (env : gps_env) (h : list gps_io) : Prop :=
  Z.odd (u32 (reg32 env h 254)) = false.

(** The card shows [t] once the software time has been latched. *)
Definition shows (env : gps_env) (h : list gps_io) (t : date) : Prop :=
  ∃ wfc w100 w104, latched env (Wr8 252 0 :: h) 252 wfc ∧ latched env (Wr8 252 0 :: h) 256 w100 ∧
    latched env (Wr8 252 0 :: h) 260 w104 ∧ soft_words wfc w100 w104 t.

(** ** Theorems: digits and the calendar *)

Lemma digit_step v n : 0 ≤ n → v / 10 ^ n = 10 * (v / 10 ^ (n + 1)) + digit v n.
Proof.
  intros Hn. unfold digit. rewrite Z.pow_add_r, Z.pow_1_r, <- Z.div_div by lia.
  apply Z.div_mod. lia.
Qed.

Lemma two_digits v : 0 ≤ v < 100 → 10 * digit v 1 + digit v 0 = v.
Proof.
  intros Hv. pose proof (digit_step v 0 ltac:(lia)). pose proof (digit_step v 1 ltac:(lia)).
  rewrite Z.pow_0_r, Z.div_1_r in *. change (0 + 1) with 1 in *. change (1 + 1) with 2 in *.
  rewrite (Z.div_small v (10 ^ 2)) in * by lia. lia.
Qed.

Lemma three_digits v : 0 ≤ v < 1000 → 100 * digit v 2 + 10 * digit v 1 + digit v 0 = v.
Proof.
  intros Hv. pose proof (digit_step v 0 ltac:(lia)). pose proof (digit_step v 1 ltac:(lia)).
  pose proof (digit_step v 2 ltac:(lia)).
  rewrite Z.pow_0_r, Z.div_1_r in *. change (0 + 1) with 1 in *. change (1 + 1) with 2 in *.
  change (2 + 1) with 3 in *. rewrite (Z.div_small v (10 ^ 3)) in * by lia. lia.
Qed.

Lemma four_digits v :
  0 ≤ v < 10000 → 1000 * digit v 3 + 100 * digit v 2 + 10 * digit v 1 + digit v 0 = v.
Proof.
  intros Hv. pose proof (digit_step v 0 ltac:(lia)). pose proof (digit_step v 1 ltac:(lia)).
  pose proof (digit_step v 2 ltac:(lia)). pose proof (digit_step v 3 ltac:(lia)).
  rewrite Z.pow_0_r, Z.div_1_r in *. change (0 + 1) with 1 in *. change (1 + 1) with 2 in *.
  change (2 + 1) with 3 in *. change (3 + 1) with 4 in *.
  rewrite (Z.div_small v (10 ^ 4)) in * by lia. lia.
Qed.

(** The digits of the nanoseconds from the [k]th up. *)
Lemma high_digits v k (Hk : 0 ≤ k ≤ 8) : 0 ≤ v < 10 ^ 9 →
  10 ^ k * (v / 10 ^ k) = foldr Z.add 0 (map (fun n => 10 ^ n * digit v n) (seqZ k (9 - k))).
Proof.
  intros Hv. assert (∀ n, 0 ≤ n ≤ 9 → 10 ^ (9 - n) * (v / 10 ^ (9 - n)) =
    foldr Z.add 0 (map (fun n => 10 ^ n * digit v n) (seqZ (9 - n) n))) as H.
  { intros n Hn. destruct Hn as [Hn Hn9]. revert Hn9. pattern n. apply natlike_ind; [| |done].
    - intros _. rewrite (Z.div_small v) by (simpl; lia). done.
    - intros m Hm IH Hn9. rewrite seqZ_cons' by lia. cbn [map foldr].
      replace (9 - Z.succ m + 1) with (9 - m) by lia. replace (Z.succ m - 1) with m by lia.
      rewrite <- IH by lia. rewrite (digit_step v (9 - Z.succ m)) by lia.
      replace (9 - Z.succ m + 1) with (9 - m) by lia.
      replace (10 ^ (9 - m)) with (10 * 10 ^ (9 - Z.succ m)); [ring|].
      rewrite <- Z.pow_succ_r by lia. f_equal. lia. }
  pose proof (H (9 - k) ltac:(lia)) as E. by replace (9 - (9 - k)) with k in E by lia.
Qed.

Lemma days_before_next y : days_before (y + 1) = days_before y + year_days y.
Proof.
  unfold days_before, year_days, leap. replace (y + 1 - 1) with y by lia.
  destruct (Z.eqb_spec (y mod 4) 0), (Z.eqb_spec (y mod 100) 0), (Z.eqb_spec (y mod 400) 0);
    cbn [andb orb negb]; Z.div_mod_to_equations; lia.
Qed.

Lemma days_before_sum y :
  1970 ≤ y → days_before y = foldr Z.add 0 (map year_days (seqZ 1970 (y - 1970))).
Proof.
  intros Hy. replace y with (1970 + (y - 1970)) at 1 by lia.
  assert (0 ≤ y - 1970) as Hn by lia. revert Hn. generalize (y - 1970). apply natlike_ind; [done|].
  intros n Hn IH. unfold Z.succ. rewrite seqZ_app, map_app, foldr_app by lia.
  replace (1970 + (n + 1)) with (1970 + n + 1) by lia. rewrite days_before_next, IH.
  change (seqZ (1970 + n) 1) with [1970 + n]. cbn [map foldr]. rewrite Z.add_0_r.
  generalize (map year_days (seqZ 1970 n)), (year_days (1970 + n)). clear.
  intros l x. induction l as [|z l IH]; cbn [foldr]; [lia|]. rewrite <- IH. lia.
Qed.

(** The tables of the driver against the calendar of the C library: a day of a
    year is the day of the month they give. *)
Lemma month_day_correct y d : 1970 ≤ y < 2100 → 1 ≤ d ≤ year_days y →
  ∃ mon mday, month_day y d = Some (mon, mday) ∧ month_start y mon + mday = d ∧
    0 ≤ mon < 12 ∧ 1 ≤ mday ≤ 31.
Proof.
  intros Hy Hd.
  assert (leap y = (y %c 4 =? 0)) as El.
  { apply Bool.eqb_prop. revert y Hy Hd.
    assert (∀ y, 1970 ≤ y < 1970 + 130 → Bool.eqb (leap y) (y %c 4 =? 0) = true) as H
      by (apply forallb_seqZ; vm_compute; reflexivity). intros y Hy _. apply H. lia. }
  unfold year_days, month_day, month_start in *. rewrite El in *. clear El.
  set (test m start d := match m d with
    | Some (mon, mday) => (start mon + mday =? d) && (0 <=? mon) && (mon <? 12) && (1 <=? mday) &&
                          (mday <=? 31)
    | None => false
    end).
  assert (∀ m start, test m start d = true → ∃ mon mday, m d = Some (mon, mday) ∧
    start mon + mday = d ∧ 0 ≤ mon < 12 ∧ 1 ≤ mday ≤ 31) as H.
  { unfold test. intros m start. destruct (m d) as [[mon mday]|]; [|done].
    rewrite !andb_true_iff, Z.eqb_eq, Z.ltb_lt, !Z.leb_le. intros H. exists mon, mday. split; [done|]. lia. }
  destruct (y %c 4 =? 0); apply H; revert d Hd H.
  - assert (∀ d, 1 ≤ d < 1 + 366 → test leap_month (fun mon =>
      default 0 (zget [0; 31; 59; 90; 120; 151; 181; 212; 243; 273; 304; 334] mon) +
      (if (2 <=? mon) && true then 1 else 0)) d = true) as H
      by (apply forallb_seqZ; vm_compute; reflexivity). intros d Hd _. apply H. lia.
  - assert (∀ d, 1 ≤ d < 1 + 365 → test common_month (fun mon =>
      default 0 (zget [0; 31; 59; 90; 120; 151; 181; 212; 243; 273; 304; 334] mon) +
      (if (2 <=? mon) && false then 1 else 0)) d = true) as H
      by (apply forallb_seqZ; vm_compute; reflexivity). intros d Hd _. apply H. lia.
Qed.

(** ** Theorems: the time of the card *)

(** The state after the accesses [es] (the newest first). *)
Definition accessed (es : list gps_io) (s : gps) : gps := s <| io ::= app es |>.

Lemma io_accessed es s : io (accessed es s) = (es ++ io s)%list.
Proof. done. Qed.

Lemma accessed_nil s : accessed [] s = s.
Proof. by destruct s. Qed.

Section Card.
Context (env : gps_env).

Lemma in32_then {A} off (k : Z → GM A) es s :
  (in32 env off ≫= k) (accessed es s) =
  k (u32 (reg32 env (es ++ io s) off)) (accessed (Rd32 off :: es) s).
Proof. done. Qed.

Lemma out32_then {A} off v (k : unit → GM A) es s :
  (out32 off v ≫= k) (accessed es s) = k tt (accessed (Wr32 off (u32 v) :: es) s).
Proof. done. Qed.

Lemma out8_then {A} off v (k : unit → GM A) es s :
  (out8 off v ≫= k) (accessed es s) = k tt (accessed (Wr8 off (u8 v) :: es) s).
Proof. done. Qed.

Lemma clock_then {A} (k : Z * Z → GM A) es s :
  (clock_gettime env ≫= k) (accessed es s) =
  k (sysclock env (es ++ io s)) (accessed (ClockGet :: es) s).
Proof. done. Qed.

(** The year, day and time of a date are its seconds. *)
Lemma calendar_time_run t s : valid_date t → is_int (date_seconds t - tz env) →
  calendar_time env (d_year t) (d_yday t) (d_hour t) (d_min t) (d_sec t) s =
    Ok (date_seconds t - tz env, s).
Proof.
  intros (Hy & Hd & _) Hi. destruct (month_day_correct _ _ Hy Hd) as (mon & mday & E & Es & _).
  unfold calendar_time. rewrite E. mrun. unfold mktime.
  assert (timegm (mk_tm (d_year t - 1900) mon mday (d_hour t) (d_min t) (d_sec t)) = date_seconds t)
    as ->; [|by rewrite bool_decide_true].
  unfold timegm, date_seconds. cbn [tm_year tm_mon tm_mday tm_hour tm_min tm_sec].
  replace (d_year t - 1900 + 1900) with (d_year t) by lia.
  rewrite <- days_before_sum by lia. rewrite <- Es. lia.
Qed.

(** The nanoseconds of the registers: hundreds of nanoseconds. *)
Lemma nsec_digits v : 0 ≤ v < 10 ^ 9 →
  100 * digit v 2 + 1000000 * digit v 6 + 100000 * digit v 5 + 10000 * digit v 4 + 1000 * digit v 3 +
  (100000000 * digit v 8 + 10000000 * digit v 7) = 100 * (v / 100).
Proof.
  intros Hv. pose proof (high_digits v 2 ltac:(lia) Hv) as E.
  change (seqZ 2 (9 - 2)) with [2; 3; 4; 5; 6; 7; 8] in E. cbn [map foldr] in E.
  change (10 ^ 2) with 100 in E. lia.
Qed.

Lemma usec_digits v : 0 ≤ v < 10 ^ 9 →
  1000000 * digit v 6 + 100000 * digit v 5 + 10000 * digit v 4 + 1000 * digit v 3 +
  (100000000 * digit v 8 + 10000000 * digit v 7) = 1000 * (v / 1000).
Proof.
  intros Hv. pose proof (high_digits v 3 ltac:(lia) Hv) as E.
  change (seqZ 3 (9 - 3)) with [3; 4; 5; 6; 7; 8] in E. cbn [map foldr] in E.
  change (10 ^ 3) with 1000 in E. lia.
Qed.

(** The seven sums of the decoding. *)
Lemma event_fields w174 w178 w17c t : valid_date t → event_words w174 w178 w17c t →
  1000 * nib w17c 12 + 100 * nib w17c 8 + 10 * nib w17c 4 + nib w17c 0 = d_year t ∧
  100 * nib w178 24 + 10 * nib w178 20 + nib w178 16 = d_yday t ∧
  10 * nib w178 12 + nib w178 8 = d_hour t ∧ 10 * nib w178 4 + nib w178 0 = d_min t ∧
  10 * nib w174 28 + nib w174 24 = d_sec t ∧
  100 * nib w17c 20 + 1000000 * nib w174 12 + 100000 * nib w174 8 + 10000 * nib w174 4 +
    1000 * nib w174 0 + (100000000 * nib w174 20 + 10000000 * nib w174 16) = 100 * (d_nsec t / 100).
Proof.
  intros (Hy & Hd & Hh & Hm & Hs & Hn)
    [(-> & ->) (-> & -> & ->) (-> & -> & ->) -> (-> & -> & -> & ->) (-> & -> & ->) (-> & ->) (-> & ->)].
  assert (year_days (d_year t) ≤ 366) by (unfold year_days; destruct (leap _); lia).
  rewrite four_digits, three_digits, !two_digits, nsec_digits by lia. done.
Qed.

Lemma soft_fields wfc w100 w104 t : valid_date t → soft_words wfc w100 w104 t →
  1000 * nib w104 28 + 100 * nib w104 24 + 10 * nib w104 20 + nib w104 16 = d_year t ∧
  100 * nib w104 8 + 10 * nib w104 4 + nib w104 0 = d_yday t ∧
  10 * nib w100 28 + nib w100 24 = d_hour t ∧ 10 * nib w100 20 + nib w100 16 = d_min t ∧
  10 * nib w100 12 + nib w100 8 = d_sec t ∧
  100 * nib wfc 28 + 1000000 * nib wfc 12 + 100000 * nib wfc 8 + 10000 * nib wfc 4 +
    1000 * nib wfc 0 + (100000000 * nib w100 4 + 10000000 * nib w100 0) = 100 * (d_nsec t / 100).
Proof.
  intros (Hy & Hd & Hh & Hm & Hs & Hn)
    [(-> & -> & -> & ->) (-> & -> & ->) (-> & ->) (-> & ->) (-> & ->) (-> & -> & ->) (-> & -> & ->) ->].
  assert (year_days (d_year t) ≤ 366) by (unfold year_days; destruct (leap _); lia).
  rewrite four_digits, three_digits, !two_digits, nsec_digits by lia. done.
Qed.

Lemma odd_land z : ((z &c 1) =? 1) = Z.odd z.
Proof. change 1 with (Z.ones 1). rewrite Z.land_ones, Zmod_odd by lia. by destruct (Z.odd z). Qed.

(** The time of a captured event, whose flag is then cleared. *)
Lemma event_time_run s t :
  mapped s = true → captured env (io s) t → valid_date t → is_int (date_seconds t - tz env) →
  let sec := date_seconds t - tz env in let nsec := 100 * (d_nsec t / 100) in
  ∃ v, Z.odd v = true ∧ get_event_time env s = Ok ((sec, Some (sec, nsec)),
    accessed [Wr32 248 v; Rd32 248; Rd32 380; Rd32 376; Rd32 372; Rd32 254] s).
Proof.
  intros Hm (w174 & w178 & w17c & Hf & L1 & L2 & L3 & Hw) Hv Hi sec nsec.
  destruct (event_fields _ _ _ _ Hv Hw) as (E1 & E2 & E3 & E4 & E5 & E6).
  replace (get_event_time env s) with (get_event_time env (accessed [] s)) by (by rewrite accessed_nil).
  unfold get_event_time. rewrite get_st_then.
  change (mapped (accessed [] s)) with (mapped s). rewrite Hm, in32_then, odd_land.
  change ([] ++ io s)%list with (io s). rewrite Hf. cbn [negb].
  rewrite in32_then, L1 by (repeat constructor). rewrite in32_then, L2 by (repeat constructor).
  rewrite in32_then, L3 by (repeat constructor). unfold or32. rewrite bind_assoc, in32_then.
  rewrite out32_then. cbn zeta. rewrite E1, E2, E3, E4, E5, E6.
  rewrite (bind_ok _ _ _ _ _ (calendar_time_run t _ Hv Hi)).
  eexists. split; [|reflexivity]. unfold u32. rewrite <- Z.bit0_odd.
  rewrite Z.mod_pow2_bits_low by lia. rewrite Z.lor_spec. apply orb_true_r.
Qed.

(** Without an event: -1, and nothing is stored or written. *)
Lemma no_event_run s :
  mapped s = true → no_event env (io s) →
  get_event_time env s = Ok ((-1, None), accessed [Rd32 254] s).
Proof.
  intros Hm Hf. replace (get_event_time env s) with (get_event_time env (accessed [] s)) by (by rewrite accessed_nil).
  unfold get_event_time. rewrite get_st_then.
  change (mapped (accessed [] s)) with (mapped s). rewrite Hm, in32_then, odd_land.
  change ([] ++ io s)%list with (io s). by rewrite Hf.
Qed.

Lemma software_time_run s t :
  mapped s = true → shows env (io s) t → valid_date t → is_int (date_seconds t - tz env) →
  let sec := date_seconds t - tz env in let nsec := 100 * (d_nsec t / 100) in
  get_software_time env s = Ok ((sec, (sec, nsec)),
    accessed [Rd32 256; Rd32 252; Rd32 256; Rd32 260; Wr8 252 0] s).
Proof.
  intros Hm (wfc & w100 & w104 & L1 & L2 & L3 & Hw) Hv Hi sec nsec.
  destruct (soft_fields _ _ _ _ Hv Hw) as (E1 & E2 & E3 & E4 & E5 & E6).
  replace (get_software_time env s) with (get_software_time env (accessed [] s)) by (by rewrite accessed_nil).
  unfold get_software_time. rewrite get_st_then.
  change (mapped (accessed [] s)) with (mapped s). rewrite Hm, out8_then. change (u8 0) with 0.
  pose proof (L3 [] ltac:(constructor)) as F1.
  pose proof (L2 [Rd32 260] ltac:(repeat constructor)) as F2.
  pose proof (L1 [Rd32 256; Rd32 260] ltac:(repeat constructor)) as F3.
  pose proof (L2 [Rd32 252; Rd32 256; Rd32 260] ltac:(repeat constructor)) as F4.
  cbn [app] in F1, F2, F3, F4. rewrite !in32_then. cbn [app]. rewrite F1, F2, F3, F4.
  cbn zeta. rewrite E1, E2, E3, E4, E5, E6.
  by rewrite (bind_ok _ _ _ _ _ (calendar_time_run t _ Hv Hi)).
Qed.

End Card.

(** ** Theorems: the answers of the driver *)

(** The state in which a request is handled. *)
Definition relocked (s : gps) : gps :=
  s <| locked := locked s |c gps_lock (displaystat s) |>.

(** The driver has the card and talks to the server. *)
Definition serving (s : gps) : Prop := mapped s = true ∧ usable (relocked s) = true.

Lemma event_time_answer env s type t :
  serving s → captured env (io s) t → valid_date t → is_int (date_seconds t - tz env) →
  let sec := date_seconds t - tz env in
  ∃ v, Z.odd v = true ∧ gps_handle env (GpsEventTime type) s =
    Ok (time_answer type sec (sec, 100 * (d_nsec t / 100)),
        accessed [Wr32 248 v; Rd32 248; Rd32 380; Rd32 376; Rd32 372; Rd32 254] (relocked s)).
Proof.
  intros (Hm & Hu) Hc Hv Hi sec.
  destruct (event_time_run env (relocked s) t Hm Hc Hv Hi) as (v & Hodd & E).
  exists v. split; [done|]. unfold gps_handle, gps_event_time. rewrite modify_then, get_st_then.
  fold (relocked s). rewrite Hu. by rewrite (bind_ok _ _ _ _ _ E).
Qed.

Lemma no_event_answer env s type :
  serving s → no_event env (io s) →
  gps_handle env (GpsEventTime type) s =
    Ok (time_answer type (-1) (0, 0), accessed [Rd32 254] (relocked s)).
Proof.
  intros (Hm & Hu) Hc. pose proof (no_event_run env (relocked s) Hm Hc) as E.
  unfold gps_handle, gps_event_time. rewrite modify_then, get_st_then.
  fold (relocked s). rewrite Hu. by rewrite (bind_ok _ _ _ _ _ E).
Qed.

(** ** Theorems: the compare register *)

Lemma nib_div w b : 0 ≤ b → nib w b = w / 2 ^ b mod 16.
Proof.
  intros Hb. unfold nib. rewrite Z.shiftr_land, Z.shiftr_shiftl_l, Z.sub_diag, Z.shiftl_0_r by lia.
  change 15 with (Z.ones 4). rewrite Z.land_ones by lia. by rewrite Z.shiftr_div_pow2.
Qed.

(** Eight BCD digits in a word. *)
Definition word8 (d : list Z) : Z := foldl (fun w x => w * 16 + x) 0 d.

Lemma nib_push w x b : 0 ≤ x < 16 → 0 ≤ b → nib (w * 16 + x) (b + 4) = nib w b.
Proof.
  intros Hx Hb. rewrite !nib_div by lia. rewrite (Z.add_comm b 4), Z.pow_add_r, <- Z.div_div by lia.
  change (2 ^ 4) with 16. rewrite Z.div_add_l, (Z.div_small x) by lia. by rewrite Z.add_0_r.
Qed.

Lemma nib_last w x : 0 ≤ x < 16 → nib (w * 16 + x) 0 = x.
Proof. intros Hx. rewrite nib_div, Z.pow_0_r, Z.div_1_r by lia. Z.div_mod_to_equations; lia. Qed.

Lemma nib_word8 a7 a6 a5 a4 a3 a2 a1 a0 :
  Forall (fun a => 0 ≤ a < 10) [a7; a6; a5; a4; a3; a2; a1; a0] →
  let w := word8 [a7; a6; a5; a4; a3; a2; a1; a0] in
  nib w 28 = a7 ∧ nib w 24 = a6 ∧ nib w 20 = a5 ∧ nib w 16 = a4 ∧ nib w 12 = a3 ∧ nib w 8 = a2 ∧
  nib w 4 = a1 ∧ nib w 0 = a0.
Proof.
  intros H w. repeat match goal with H : Forall _ (_ :: _) |- _ =>
    apply Forall_cons in H as [? H] end. clear H. unfold w, word8. cbn [foldl].
  change 28 with (0 + 4 + 4 + 4 + 4 + 4 + 4 + 4). change 24 with (0 + 4 + 4 + 4 + 4 + 4 + 4).
  change 20 with (0 + 4 + 4 + 4 + 4 + 4). change (nib _ 16) with (nib w (0 + 4 + 4 + 4 + 4)).
  change 12 with (0 + 4 + 4 + 4). change 8 with (0 + 4 + 4).
  change (nib _ 4) with (nib w (0 + 4)). unfold w, word8. cbn [foldl].
  rewrite !nib_push, !nib_last by lia. done.
Qed.

Lemma land15 a : 0 ≤ a < 10 → a &c 15 = a.
Proof. intros. change 15 with (Z.ones 4). rewrite Z.land_ones by lia. apply Z.mod_small. lia. Qed.

Lemma digit_range v n : 0 ≤ digit v n < 10.
Proof. apply Z.mod_pos_bound. lia. Qed.

(** The shifted digits of the C expression are those of the word. *)
Lemma word8_sum a7 a6 a5 a4 a3 a2 a1 a0 :
  Forall (fun a => 0 ≤ a < 10) [a7; a6; a5; a4; a3; a2; a1; a0] →
  ((a7 &c 15) <<c 28) + ((a6 &c 15) <<c 24) + ((a5 &c 15) <<c 20) + ((a4 &c 15) <<c 16) +
  ((a3 &c 15) <<c 12) + ((a2 &c 15) <<c 8) + ((a1 &c 15) <<c 4) + (a0 &c 15) =
  word8 [a7; a6; a5; a4; a3; a2; a1; a0].
Proof.
  intros H. repeat match goal with H : Forall _ (_ :: _) |- _ =>
    apply Forall_cons in H as [? H] end. clear H.
  rewrite !land15, !Z.shiftl_mul_pow2 by lia. unfold word8. cbn [foldl]. lia.
Qed.

(** The leading digit by division, and the rest. *)
Lemma quot_digit v n : 0 ≤ n → 0 ≤ v < 10 ^ (n + 1) →
  v /c 10 ^ n = digit v n ∧ v - digit v n * 10 ^ n = v mod 10 ^ n.
Proof.
  intros Hn Hv. rewrite Z.pow_add_r, Z.pow_1_r in Hv by lia.
  assert (digit v n = v / 10 ^ n) as E.
  { unfold digit. rewrite Z.mod_small; [done|]. split; [apply Z.div_pos; lia|].
    apply Z.div_lt_upper_bound; lia. }
  rewrite E, Z.quot_div_nonneg by lia. split; [done|]. pose proof (Z.div_mod v (10 ^ n)). lia.
Qed.

Lemma digit_mod v n m : 0 ≤ m < n → digit (v mod 10 ^ n) m = digit v m.
Proof.
  intros Hm. unfold digit. pose proof (Z.div_mod v (10 ^ n) ltac:(lia)) as E.
  set (r := v mod 10 ^ n) in *. set (q := v / 10 ^ n) in *. rewrite E.
  replace (10 ^ n * q) with (10 ^ (n - m - 1) * q * 10 * 10 ^ m).
  - rewrite Z.div_add_l, (Z.add_comm _ (r / 10 ^ m)), Z_mod_plus_full by lia. done.
  - replace n with (n - m - 1 + 1 + m) at 2 by lia. rewrite !Z.pow_add_r, Z.pow_1_r by lia. ring.
Qed.

(** Taking the leading digit off; [p] and [q] are the powers of ten. *)
Lemma next_digit v n p q : 0 ≤ n → 0 ≤ v → p = 10 ^ n → q = 10 ^ (n + 1) →
  v mod q /c p = digit v n ∧ v mod q - digit v n * p = v mod p.
Proof.
  intros Hn Hv -> ->. destruct (quot_digit (v mod 10 ^ (n + 1)) n Hn) as [E1 E2];
    [apply Z.mod_pos_bound; lia|].
  rewrite digit_mod in * by lia. split; [done|]. rewrite E2, Z.pow_add_r, Z.rem_mul_r by lia.
  rewrite Z.mul_comm, Z_mod_plus_full. apply Z.mod_mod. lia.
Qed.

Lemma digit_0 v : v mod 10 = digit v 0.
Proof. unfold digit. by rewrite Z.pow_0_r, Z.div_1_r. Qed.

Lemma next_two x : 0 ≤ x < 100 → x /c 10 = digit x 1 ∧ x - digit x 1 * 10 = digit x 0.
Proof.
  intros Hx. destruct (next_digit x 1 10 100) as [E R]; [lia..|done|done|].
  rewrite (Z.mod_small x 100), digit_0 in * by lia. done.
Qed.

(** The words of the compare registers as digits. *)
Lemma compare_seconds_digits sec nsec : 0 ≤ nsec < 10 ^ 9 →
  compare_seconds sec nsec = word8 [digit (gm_sec sec) 1; digit (gm_sec sec) 0; digit nsec 8;
    digit nsec 7; digit nsec 6; digit nsec 5; digit nsec 4; digit nsec 3].
Proof.
  intros Hn. assert (0 ≤ gm_sec sec < 60) as Hs by (apply Z.mod_pos_bound; lia).
  unfold compare_seconds. set (x := gm_sec sec) in *.
  rewrite <- (word8_sum (digit x 1) (digit x 0)) by (repeat constructor; apply digit_range).
  destruct (next_two x) as [E1 R1]; [lia|].
  assert (nsec mod 1000000000 = nsec) as Hmod by (apply Z.mod_small; lia).
  destruct (next_digit nsec 8 100000000 1000000000) as [F8 G8]; [lia..|done|done|].
  destruct (next_digit nsec 7 10000000 100000000) as [F7 G7]; [lia..|done|done|].
  destruct (next_digit nsec 6 1000000 10000000) as [F6 G6]; [lia..|done|done|].
  destruct (next_digit nsec 5 100000 1000000) as [F5 G5]; [lia..|done|done|].
  destruct (next_digit nsec 4 10000 100000) as [F4 G4]; [lia..|done|done|].
  destruct (next_digit nsec 3 1000 10000) as [F3 _]; [lia..|done|done|].
  rewrite Hmod in F8, G8. cbn zeta.
  rewrite E1, R1, F8, G8, F7, G7, F6, G6, F5, G5, F4, G4, F3. done.
Qed.

Lemma compare_minutes_digits sec : 0 ≤ gm_yday sec + 1 < 1000 →
  compare_minutes 0 sec = word8 [0; digit (gm_yday sec + 1) 2; digit (gm_yday sec + 1) 1;
    digit (gm_yday sec + 1) 0; digit (gm_hour sec) 1; digit (gm_hour sec) 0; digit (gm_min sec) 1;
    digit (gm_min sec) 0].
Proof.
  intros Hd. assert (0 ≤ gm_hour sec < 100) as Hh
    by (unfold gm_hour; Z.div_mod_to_equations; lia).
  assert (0 ≤ gm_min sec < 100) as Hm by (unfold gm_min; Z.div_mod_to_equations; lia).
  unfold compare_minutes. set (d := gm_yday sec + 1) in *.
  rewrite <- (word8_sum 0) by (repeat constructor; try apply digit_range; lia).
  destruct (next_two (gm_hour sec) Hh) as [E1 R1], (next_two (gm_min sec) Hm) as [E2 R2].
  assert (d mod 1000 = d) as Hmod by (by apply Z.mod_small).
  destruct (next_digit d 2 100 1000) as [F2 G2]; [lia..|done|done|].
  destruct (next_digit d 1 10 100) as [F1 G1]; [lia..|done|done|].
  rewrite Hmod in F2, G2. cbn zeta. rewrite digit_0 in G1.
  by rewrite E1, R1, E2, R2, F2, G2, F1, G1.
Qed.

(** The C library's year of a time, and the day of the year. *)
Lemma gm_year_spec sec : 0 ≤ sec ≤ int_max →
  days_before (gm_year sec) ≤ sec / 86400 < days_before (gm_year sec + 1) ∧
  1970 ≤ gm_year sec < 2100.
Proof.
  intros Hs. unfold gm_year. assert (0 ≤ sec / 86400 ≤ 24855) as Hd
    by (unfold int_max in Hs; Z.div_mod_to_equations; lia).
  set (d := sec / 86400) in *. clearbody d. clear Hs.
  set (y := 1970 + 400 * d / 146097).
  assert (1970 ≤ y ≤ 2038) by (unfold y; Z.div_mod_to_equations; lia).
  assert (days_before (y - 1) ≤ d < days_before (y + 1 + 1) ∧ (y = 1970 → days_before y ≤ d)).
  { unfold days_before, y. Z.div_mod_to_equations. lia. }
  cbn zeta. destruct (Z.ltb_spec d (days_before y)); [replace (y - 1 + 1) with y by lia; lia|].
  destruct (Z.leb_spec (days_before (y + 1)) d); lia.
Qed.

(** The broken-down time of the C library as a date of the card. *)
Definition date_of (sec nsec : Z) : date :=
  mk_date (gm_year sec) (gm_yday sec + 1) (gm_hour sec) (gm_min sec) (gm_sec sec) nsec.

Lemma date_of_valid sec nsec : 0 ≤ sec ≤ int_max → 0 ≤ nsec < 10 ^ 9 →
  valid_date (date_of sec nsec) ∧ date_seconds (date_of sec nsec) = sec.
Proof.
  intros Hs Hn. destruct (gm_year_spec sec Hs) as [Hd Hy]. rewrite days_before_next in Hd.
  unfold valid_date, date_seconds, date_of. cbn [d_year d_yday d_hour d_min d_sec d_nsec].
  rewrite <- days_before_sum by lia. unfold gm_yday, gm_hour, gm_min, gm_sec.
  split; [split_and!; try lia|]; Z.div_mod_to_equations; lia.
Qed.

(** A register that reads what was last written to it. *)
Definition keeps (env : gps_env) (off : Z) : Prop := ∀ es h v,
  Forall (fun e => match e with Wr8 o _ | Wr32 o _ => o ≠ off | _ => True end) es →
  u32 (reg32 env (es ++ Wr32 off v :: h) off) = u32 v.

Lemma word8_int a l : 0 ≤ a < 8 → Forall (fun x => 0 ≤ x < 10) l → length l = 7%nat →
  0 ≤ word8 (a :: l) ≤ int_max.
Proof.
  intros Ha Hl Hn. unfold word8, int_max. destruct l as [|a6 [|a5 [|a4 [|a3 [|a2 [|a1 [|a0 [|]]]]]]]]; try done.
  repeat match goal with H : Forall _ (_ :: _) |- _ => apply Forall_cons in H as [? H] end.
  cbn [foldl]. lia.
Qed.

Lemma int_op_ok {S} z (s : S) : is_int z → int_op z s = Ok (z, s).
Proof. intros H. unfold int_op. by rewrite bool_decide_true. Qed.

Section Compare.
Context (env : gps_env) (sec nsec : Z).
Hypothesis Hsec : 0 ≤ sec ≤ int_max.
Hypothesis Hnsec : 0 ≤ nsec < 10 ^ 9.
Let t := date_of sec nsec.

Lemma compare_words : let v := compare_seconds sec nsec in let w := compare_minutes 0 sec in
  0 ≤ v ≤ int_max ∧ 0 ≤ w ≤ int_max ∧
  (bcd v 28 (d_sec t) 1 ∧ bcd v 24 (d_sec t) 0) ∧
  (bcd v 20 nsec 8 ∧ bcd v 16 nsec 7 ∧ bcd v 12 nsec 6 ∧ bcd v 8 nsec 5 ∧ bcd v 4 nsec 4 ∧ bcd v 0 nsec 3) ∧
  (bcd w 24 (d_yday t) 2 ∧ bcd w 20 (d_yday t) 1 ∧ bcd w 16 (d_yday t) 0) ∧
  (bcd w 12 (d_hour t) 1 ∧ bcd w 8 (d_hour t) 0) ∧ bcd w 4 (d_min t) 1 ∧ bcd w 0 (d_min t) 0.
Proof.
  destruct (date_of_valid sec nsec Hsec Hnsec) as ((Hy & Hd & Hh & Hm & Hs & _) & _).
  fold t in Hy, Hd, Hh, Hm, Hs. assert (year_days (d_year t) ≤ 366)
    by (unfold year_days; destruct (leap _); lia).
  intros v w. unfold v, w. rewrite compare_seconds_digits by done.
  rewrite compare_minutes_digits by (change (gm_yday sec + 1) with (d_yday t); lia).
  change (gm_sec sec) with (d_sec t). change (gm_min sec) with (d_min t).
  change (gm_hour sec) with (d_hour t). change (gm_yday sec + 1) with (d_yday t).
  split. { apply word8_int; [|repeat constructor; apply digit_range|done].
           unfold digit. Z.div_mod_to_equations. lia. }
  split. { apply word8_int; [lia|repeat constructor; apply digit_range|done]. }
  unfold bcd. pose proof (nib_word8 (digit (d_sec t) 1) (digit (d_sec t) 0) (digit nsec 8) (digit nsec 7)
    (digit nsec 6) (digit nsec 5) (digit nsec 4) (digit nsec 3) ltac:(repeat constructor; apply digit_range)).
  pose proof (nib_word8 0 (digit (d_yday t) 2) (digit (d_yday t) 1) (digit (d_yday t) 0)
    (digit (d_hour t) 1) (digit (d_hour t) 0) (digit (d_min t) 1) (digit (d_min t) 0)
    ltac:(repeat constructor; try apply digit_range; lia)).
  cbv zeta in *. intuition.
Qed.

Lemma set_compare_run s : mapped s = true →
  set_time_compare_register 0 (sec, nsec) s =
    Ok (tt, accessed [Wr32 316 (compare_minutes 0 sec); Wr32 312 (compare_seconds sec nsec)] s).
Proof.
  intros Hm. destruct compare_words as (Hv & Hw & _).
  assert (∀ z, 0 ≤ z ≤ int_max → is_int z ∧ u32 z = z) as I
    by (intros z Hz; split; [unfold is_int, int_min, int_max in *; lia|apply u32_id; unfold int_max in *; lia]).
  destruct (I _ Hv) as [Iv Uv], (I _ Hw) as [Iw Uw].
  replace (set_time_compare_register 0 (sec, nsec) s) with
    (set_time_compare_register 0 (sec, nsec) (accessed [] s)) by (by rewrite accessed_nil).
  unfold set_time_compare_register. rewrite get_st_then. change (mapped (accessed [] s)) with (mapped s).
  rewrite Hm, when_true. cbn [fst snd]. rewrite (bind_ok _ _ _ _ _ (int_op_ok _ _ Iv)), out32_then.
  rewrite (bind_ok _ _ _ _ _ (int_op_ok _ _ Iw)), Uv.
  unfold out32, access. mrun. by rewrite Uw.
Qed.

Lemma get_compare_run s h v w :
  mapped s = true → io s = (Wr32 316 w :: Wr32 312 v :: h)%list → keeps env 312 → keeps env 316 →
  v = compare_seconds sec nsec → w = compare_minutes 0 sec →
  gm_year (sysclock env (io s)).1 = gm_year sec → is_int (sec - tz env) →
  get_compare_time env s = Ok ((sec - tz env, (sec - tz env, 1000 * (nsec / 1000))),
    accessed [Rd32 316; Rd32 312; ClockGet] s).
Proof.
  intros Hm Hio K1 K2 -> -> Hyear Hi.
  destruct compare_words as (Hv & Hw & (Es1 & Es0) & (E8 & E7 & E6 & E5 & E4 & E3) & (Ed2 & Ed1 & Ed0) &
    (Eh1 & Eh0) & Em1 & Em0).
  destruct (date_of_valid sec nsec Hsec Hnsec) as ((Hy & Hd & Hh & Hmi & Hs & _) & Et).
  fold t in Hy, Hd, Hh, Hmi, Hs, Et. assert (year_days (d_year t) ≤ 366)
    by (unfold year_days; destruct (leap _); lia).
  set (v := compare_seconds sec nsec) in *. set (w := compare_minutes 0 sec) in *.
  replace (get_compare_time env s) with (get_compare_time env (accessed [] s)) by (by rewrite accessed_nil).
  unfold get_compare_time. rewrite clock_then. change ([] ++ io s)%list with (io s).
  destruct (sysclock env (io s)) as [sysec sysnsec]. cbn [fst] in Hyear.
  rewrite get_st_then. change (mapped (accessed [ClockGet] s)) with (mapped s). rewrite Hm, !in32_then.
  pose proof (K1 [ClockGet; Wr32 316 w] h v ltac:(repeat constructor; done)) as R1.
  pose proof (K2 [Rd32 312; ClockGet] (Wr32 312 v :: h)%list w ltac:(repeat constructor)) as R2.
  cbn [app] in R1, R2. cbn [app]. rewrite Hio, R1, R2. clear R1 R2.
  rewrite !u32_id by (unfold int_max in *; lia). cbn zeta.
  rewrite Es1, Es0, E8, E7, E6, E5, E4, E3, Ed2, Ed1, Ed0, Eh1, Eh0, Em1, Em0, Hyear.
  rewrite three_digits, !two_digits, usec_digits by lia.
  destruct (month_day_correct (d_year t) (d_yday t) Hy Hd) as (mon & mday & E & Est & _).
  assert (month_day (gm_year sec - 1900) (d_yday t) = Some (mon, mday)) as ->.
  { rewrite <- E. unfold month_day. change (d_year t) with (gm_year sec) in *.
    replace ((gm_year sec - 1900) %c 4) with (gm_year sec %c 4); [done|].
    rewrite !Z.rem_mod_nonneg by lia. Z.div_mod_to_equations; lia. }
  rewrite deref_then. cbn beta iota.
  assert (mktime (tz env) (mk_tm (gm_year sec - 1900) mon mday (d_hour t) (d_min t) (d_sec t)) = sec - tz env)
    as ->; [|done].
  unfold mktime. assert (timegm (mk_tm (gm_year sec - 1900) mon mday (d_hour t) (d_min t) (d_sec t)) = sec)
    as ->; [|by rewrite bool_decide_true].
  rewrite <- Et at 2. unfold timegm, date_seconds. cbn [tm_year tm_mon tm_mday tm_hour tm_min tm_sec].
  replace (gm_year sec - 1900 + 1900) with (d_year t) by (change (d_year t) with (gm_year sec); lia).
  rewrite <- days_before_sum by lia. rewrite <- Est. lia.
Qed.

End Compare.

(** ** Theorems: the system clock *)

(** The settings of the system clock among the accesses, the newest first. *)
Definition clock_sets (l : list gps_io) : list (Z * Z) :=
  omap (fun e => match e with ClockSet sec nsec => Some (sec, nsec) | _ => None end) l.

(** The difference in seconds the driver computes. *)
Definition difference (sys time : Z * Z) : double :=
  to_float (dadd (of_float (f_of_int (sys.1 - time.1)))
    (ddiv (of_float (f_of_int (sys.2 - time.2))) dE9)).

(** Set the clock: all locks, and a difference between [MAX_ERR] and [MAX_SECDIFF]. *)
Definition must_set (l : Z) (x : double) : bool :=
  ((l &c 1) =? 1) && ((l &c 2) =? 2) && ((l &c 4) =? 4) &&
  dltb MAX_ERR (fabs (of_float x)) && dltb (fabs (of_float x)) (d_of_int MAX_SECDIFF).

(** What get_state relies on of the status. *)
Definition tracked (d : GPSStatus) : Z * Z * Z * Z * Z * Z :=
  (gps_lock d, reference_lock d, phase_lock d, poscnt d, zlen (sv d), zlen (signal d)).

Lemma tracked_signal d l m :
  zlen l = zlen (sv d) → zlen m = zlen (signal d) → tracked (d <| sv := l |> <| signal := m |>) = tracked d.
Proof. intros E1 E2. unfold tracked. rewrite <- E1, <- E2. done. Qed.

Section Clock.
Context (env : gps_env) (h : list gps_io) (t : date) (now : Z * Z) (locks : Z).
Let time : Z * Z := (date_seconds t - tz env, 100 * (d_nsec t / 100)).
Hypothesis Ht : valid_date t.
Hypothesis Hint : is_int (date_seconds t - tz env).
Hypothesis Hshows : ∀ es, shows env (es ++ h) t.
Hypothesis Hlocks : ∀ es, (u32 (reg32 env (es ++ h) 260) &c 28672) >>c 12 = locks.
Hypothesis Hnow : ∀ es, clock_sets es = [] → sysclock env (es ++ h) = now.
Hypothesis Hclose : ∀ es, let c := sysclock env (es ++ h) in
  is_int (c.1 - time.1) ∧ is_int (c.2 - time.2).

(** In the course of get_state: the clock was set to [S]. *)
Definition during (S : list (Z * Z)) (T : Z * Z * Z * Z * Z * Z) (s : gps) : Prop :=
  mapped s = true ∧ (∃ es, clock_sets es = S ∧ io s = (es ++ h)%list) ∧ tracked (displaystat s) = T.

Lemma during_access {A} (f : list gps_io → A) e S T s Q :
  during S T s → clock_sets [e] = [] →
  (∀ es s', clock_sets es = S → during S T s' → Q (f (es ++ h)%list) s') → wp (access f e) Q s.
Proof.
  intros (Hm & (es & Es & Eio) & Htr) He HQ. unfold wp, access, get_st, modify, mbind, m_bind, mret, m_ret.
  rewrite Eio. apply HQ; [exact Es|]. split; [exact Hm|]. split; [|exact Htr].
  exists (e :: es). split; [change (e :: es) with ([e] ++ es)%list; unfold clock_sets; rewrite omap_app;
    fold (clock_sets [e]) (clock_sets es); by rewrite He|].
  change (e :: io s = (e :: es) ++ h)%list. by rewrite Eio.
Qed.

Lemma during_upd f S T s (Q : unit → gps → Prop) :
  during S T s → (∀ s', during S (tracked (f (displaystat s))) s' → Q tt s') → wp (upd_stat f) Q s.
Proof. intros (Hm & Hio & Htr) HQ. apply HQ. split; [exact Hm|]. by split. Qed.

(** An update that leaves the tracked part alone. *)
Lemma during_keep f S T s (Q : unit → gps → Prop) :
  during S T s → (∀ d, tracked (f d) = tracked d) → (∀ s', during S T s' → Q tt s') →
  wp (upd_stat f) Q s.
Proof.
  intros Hd Hf HQ. eapply during_upd; [exact Hd|]. intros s' Hs. apply HQ. rewrite Hf in Hs.
  destruct Hd as (_ & _ & Htr). by rewrite Htr in Hs.
Qed.

Lemma during_get S T s (Q : gps → gps → Prop) :
  (mapped s = true → Q s s) → during S T s → wp get_st Q s.
Proof. intros HQ (Hm & _). by apply HQ. Qed.

(** The state is replaced by any other one in the course of the call. *)
Ltac during_step :=
  cbn beta iota zeta;
  lazymatch goal with
  | |- wp (mbind _ _) _ _ => apply wp_bind
  | |- wp (mret _) _ _ => apply wp_ret
  | |- wp (in8 _ _) _ _ => unfold in8
  | |- wp (in32 _ _) _ _ => unfold in32
  | |- wp (out8 _ _) _ _ => unfold out8
  | |- wp (clock_gettime _) _ _ => unfold clock_gettime
  | H : during _ _ ?s |- wp (access _ _) _ ?s =>
      eapply during_access; [exact H|reflexivity|]; clear s H; intros ?es s ?Hes H
  | H : during _ _ ?s |- wp (upd_stat _) _ ?s =>
      eapply during_keep; [exact H|intros ?; reflexivity|]; clear s H; intros s H
  | H : during _ _ ?s |- wp get_st _ ?s =>
      let E := fresh in eapply during_get; [intros E; cbn beta; rewrite ?E; clear E|exact H]
  end.

Lemma during_status rd f S T s (Q : Z → gps → Prop) :
  during S T s → wp rd (fun w s' => Q (f w) s') s → wp (status_bits rd f) Q s.
Proof.
  intros H HQ. unfold status_bits. do 2 during_step. apply wp_bind. eapply wp_mono; [exact HQ|].
  intros w s' H'. by apply wp_ret.
Qed.

Lemma during_lock S T s (Q : Z → gps → Prop) :
  during S T s → (∀ s', during S T s' → Q locks s') → wp (get_lock_stat env) Q s.
Proof.
  intros H HQ. apply (during_status _ _ S T); [done|]. do 2 during_step. rewrite Hlocks. by apply HQ.
Qed.

Lemma during_sat S a s (Q : Z → gps → Prop) :
  during S (a, 6, 6) s → (∀ x s', during S (a, 6, 6) s' → Q x s') → wp (get_sat_stat env) Q s.
Proof.
  intros H HQ. unfold get_sat_stat. do 2 during_step. rewrite when_true. apply wp_bind.
  apply (wp_for_each (fun l s' => Forall (fun i => 0 ≤ i < 6) l ∧ during S (a, 6, 6) s')).
  - split; [by apply Forall_seqZ|done].
  - intros i l s' [[Hi Hl]%Forall_cons H']. clear s H. do 2 during_step. during_step.
    pose proof H' as (_ & _ & Htr).
    assert (zlen (sv (displaystat s')) = 6 ∧ zlen (signal (displaystat s')) = 6) as [Z1 Z2]
      by (unfold tracked in Htr; split; congruence).
    during_step. during_step. apply wp_bind.
    eapply wp_deref; [apply zset_Some; lia|]. apply wp_bind.
    eapply wp_deref; [apply zset_Some; lia|].
    eapply during_upd; [exact H'|]. intros s1 H1. split; [done|].
    rewrite tracked_signal in H1 by (unfold zlen; by rewrite length_insert). by rewrite Htr in H1.
  - intros s' [_ H']. during_step. apply (during_lock S (a, 6, 6)); [done|]. intros s1 H1.
    apply wp_ret. by apply HQ.
Qed.

Lemma during_lat S T s (Q : double → gps → Prop) :
  during S T s → (∀ x s', during S T s' → Q x s') → wp (get_lat env) Q s.
Proof. intros H HQ. unfold get_lat. repeat during_step. by apply HQ. Qed.

Lemma during_lon S T s (Q : double → gps → Prop) :
  during S T s → (∀ x s', during S T s' → Q x s') → wp (get_lon env) Q s.
Proof. intros H HQ. unfold get_lon. repeat during_step. by apply HQ. Qed.

Lemma during_alt S T s (Q : double → gps → Prop) :
  during S T s → (∀ x s', during S T s' → Q x s') → wp (get_alt env) Q s.
Proof. intros H HQ. unfold get_alt. repeat during_step. by apply HQ. Qed.

Lemma during_software S T s (Q : Z * (Z * Z) → gps → Prop) :
  during S T s → (∀ s', during S T s' → Q (time.1, time) s') → wp (get_software_time env) Q s.
Proof.
  intros (Hm & (es & Es & Eio) & Htr) HQ. unfold wp.
  rewrite (software_time_run env s t Hm); [|rewrite Eio; apply Hshows|done|done].
  apply HQ. split; [exact Hm|]. split; [|exact Htr].
  exists ([Rd32 256; Rd32 252; Rd32 256; Rd32 260; Wr8 252 0] ++ es)%list.
  split; [exact Es|]. change (io (accessed ?l s)) with (l ++ io s)%list. by rewrite Eio, app_assoc.
Qed.

(** The clocks: the time of the card and the system clock of the moment. *)
Lemma during_clocks S T s (Q : double → gps → Prop) :
  during S T s → (∀ es s', clock_sets es = S → during S T s' →
    gs_second (displaystat s') = time.1 → gs_nsecond (displaystat s') = time.2 →
    Q (difference (sysclock env (es ++ h)) time) s') → wp (read_clocks env) Q s.
Proof.
  intros H HQ. unfold read_clocks. do 3 during_step.
  apply wp_bind. apply (during_software S T); [done|]. clear s H. intros s H. cbn beta iota.
  unfold upd_stat. apply wp_bind, wp_modify. set (s1 := s <| displaystat ::= _ |>).
  pose proof (Hclose es) as [C1 C2]. unfold wp, time_difference.
  rewrite (bind_ok _ _ _ _ _ (int_op_ok _ _ C1)), (bind_ok _ _ _ _ _ (int_op_ok _ _ C2)).
  apply HQ; [done| |done|done]. destruct H as (Hm & Hio & Htr). by split.
Qed.

(** The same, with the status that results. *)
Lemma during_kept f S T s (Q : unit → gps → Prop) :
  during S T s → (∀ d, tracked (f d) = tracked d) →
  (∀ s', during S T s' → displaystat s' = f (displaystat s) → Q tt s') → wp (upd_stat f) Q s.
Proof.
  intros (Hm & Hio & Htr) Hf HQ. apply HQ; [|done]. split; [done|]. split; [done|].
  etrans; [apply Hf|exact Htr].
Qed.

Lemma must_set_locks d x :
  clock_off x (set_locks d locks) && clock_near x = must_set locks x.
Proof.
  unfold clock_off, clock_near, must_set.
  change (gps_lock (set_locks d locks)) with (if (locks &c 1) =? 1 then 1 else 0).
  change (reference_lock (set_locks d locks)) with (if (locks &c 2) =? 2 then 1 else 0).
  change (phase_lock (set_locks d locks)) with (if (locks &c 4) =? 4 then 1 else 0).
  destruct ((locks &c 1) =? 1), ((locks &c 2) =? 2), ((locks &c 4) =? 4), (dltb MAX_ERR (fabs (of_float x))),
    (dltb (fabs (of_float x)) (d_of_int MAX_SECDIFF)); done.
Qed.

(** The flags of the lock bits of a word. *)
Definition lock_flags (l : Z) : Z * Z * Z :=
  (if (l &c 1) =? 1 then 1 else 0, if (l &c 2) =? 2 then 1 else 0, if (l &c 4) =? 4 then 1 else 0).

Lemma during_locks S x n a b s (Q : unit → gps → Prop) :
  during S (x, n, a, b) s → (∀ s', during S (lock_flags locks, n, a, b) s' → Q tt s') →
  wp (upd_stat (fun d => set_locks d locks)) Q s.
Proof.
  intros H HQ. eapply during_upd; [exact H|]. intros s' H'. apply HQ.
  destruct H as (_ & _ & Htr). unfold tracked in Htr.
  injection Htr as _ En Ea Eb. rewrite <- En, <- Ea, <- Eb. exact H'.
Qed.

Lemma during_poscnt S x m n a b s (Q : unit → gps → Prop) :
  during S (x, n, a, b) s →
  (∀ s', during S (x, m, a, b) s' → displaystat s' = (displaystat s) <| poscnt := m |> → Q tt s') →
  wp (upd_stat (fun d => d <| poscnt := m |>)) Q s.
Proof.
  intros (Hm & Hio & Htr) HQ. unfold tracked in Htr. injection Htr as <- _ <- <-.
  apply HQ; [by split|done].
Qed.

(** The status after the first part: the locks the card shows and the time. *)
Definition polled (n : Z) (s : gps) : Prop :=
  during [] (lock_flags locks, n + 1, 6, 6) s ∧
  gs_second (displaystat s) = time.1 ∧ gs_nsecond (displaystat s) = time.2.

Lemma poll_card_run old x n s :
  during [] (x, n, 6, 6) s → is_int (n + 1) →
  wp (poll_card env old) (fun d s' => d = difference now time ∧ polled n s') s.
Proof.
  intros H Hn. unfold poll_card, get_hdw_stat, get_ant_stat.
  during_step. apply (during_status _ _ _ _ _ _ H). do 4 during_step.
  during_step. apply (during_status _ _ _ _ _ _ H). do 4 during_step.
  during_step. apply (during_lock _ _ _ _ H). clear s H. intros s H.
  during_step. apply (during_locks _ _ _ _ _ _ _ H). clear s H. intros s H.
  during_step. apply (during_sat _ _ _ _ H). clear s H. intros _ s H.
  during_step. apply (during_lat _ _ _ _ H). clear s H. intros y s H. do 2 during_step.
  during_step. apply (during_lon _ _ _ _ H). clear s H. intros y' s H. do 2 during_step.
  during_step. apply (during_alt _ _ _ _ H). clear s H. intros y'' s H. do 2 during_step.
  during_step. apply (during_clocks _ _ _ _ H). clear s H. intros e s He H G1 G2. rewrite (Hnow _ He).
  cbn zeta. apply wp_bind. eapply during_kept; [exact H|intros ?; reflexivity|]. intros s' H' E.
  assert (gs_second (displaystat s') = time.1) as G1' by (rewrite E; exact G1).
  assert (gs_nsecond (displaystat s') = time.2) as G2' by (rewrite E; exact G2).
  clear s H E G1 G2. apply wp_bind. apply wp_get. apply wp_bind.
  assert (poscnt (displaystat s') = n) as -> by (destruct H' as (_ & _ & Htr);
    unfold tracked in Htr; by injection Htr).
  unfold wp at 1. rewrite int_op_ok by done. apply wp_bind.
  eapply during_poscnt; [exact H'|]. intros s H E. apply wp_ret. split; [done|].
  split; [exact H|]. rewrite E. split; [exact G1'|exact G2'].
Qed.

(** The second part sets the clock once if it must, else not at all. *)
Lemma adjust_clock_run n s :
  polled n s → wp (adjust_clock env (difference now time)) (fun _ s' =>
    during (if must_set locks (difference now time) then [time] else []) (lock_flags locks, n + 1, 6, 6) s') s.
Proof.
  intros (H & G1 & G2). unfold adjust_clock. apply wp_bind, wp_get. cbn zeta. rewrite G1, G2.
  assert (clock_off (difference now time) (displaystat s) && clock_near (difference now time) =
    must_set locks (difference now time)) as <-.
  { rewrite <- (must_set_locks (displaystat s)). destruct H as (_ & _ & Htr). unfold tracked in Htr.
    injection Htr as E1 E2 E3 _ _ _. unfold clock_off. rewrite E1, E2, E3. done. }
  apply wp_when; intros ->; [|exact H]. cbn [andb]. apply wp_bind.
  set (S := if clock_near _ then _ else _).
  assert (wp (when (clock_near (difference now time)) (clock_settime time.1 time.2))
    (fun _ s' => during S (lock_flags locks, n + 1, 6, 6) s') s) as Hset.
  { unfold S. apply wp_when; intros ->; [|exact H]. unfold wp, clock_settime, access.
    destruct H as (Hm & (es & Es & Eio) & Htr). split; [exact Hm|]. split; [|exact Htr].
    exists (ClockSet time.1 time.2 :: es). split.
    - change (clock_sets (ClockSet time.1 time.2 :: es)) with ((time.1, time.2) :: clock_sets es).
      rewrite Es. by destruct time.
    - change (ClockSet time.1 time.2 :: io s = ClockSet time.1 time.2 :: es ++ h)%list. by rewrite Eio. }
  eapply wp_mono; [exact Hset|]. clear s H G1 G2 Hset. intros [] s H. during_step. during_step.
  during_step. apply (during_clocks _ _ _ _ H). clear s H. intros e s He H _ _. by apply wp_ret.
Qed.

Lemma note_events_run S T s : during S T s → wp note_events (fun _ s' => during S T s') s.
Proof.
  intros H. unfold note_events. apply wp_bind, wp_get. apply wp_bind.
  apply wp_when; intros _; [eapply during_keep; [exact H|done|]; clear H; intros s' H|];
    (apply wp_when; intros _; [|exact H]); apply wp_bind;
    (eapply during_keep; [exact H|done|]; clear H; intros s'' H); apply wp_modify; exact H.
Qed.

End Clock.

(** ** Properties *)

(** C33: the driver keeps the system clock: while the card shows a time and its
    locks, one pass of get_state returns, copies the three lock bits, and sets
    the clock exactly when all three locks are on and the clock is off by more
    than 0.01 and less than 1000 seconds - once, to the time of the card. *)
Theorem clock_disciplined env s t now locks old :
  let time := (date_seconds t - tz env, 100 * (d_nsec t / 100)) in
  mapped s = true → zlen (sv (displaystat s)) = 6 → zlen (signal (displaystat s)) = 6 →
  is_int (poscnt (displaystat s) + 1) → valid_date t → is_int (date_seconds t - tz env) →
  (∀ es, shows env (es ++ io s) t) →
  (∀ es, (u32 (reg32 env (es ++ io s) 260) &c 28672) >>c 12 = locks) →
  (∀ es, clock_sets es = [] → sysclock env (es ++ io s) = now) →
  (∀ es, let c := sysclock env (es ++ io s) in is_int (c.1 - time.1) ∧ is_int (c.2 - time.2)) →
  ∃ s' es, get_state env old s = Ok (tt, s') ∧ io s' = (es ++ io s)%list ∧
    clock_sets es = (if must_set locks (difference now time) then [time] else []) ∧
    (gps_lock (displaystat s'), reference_lock (displaystat s'), phase_lock (displaystat s')) =
      lock_flags locks.
Proof.
  intros time Hm Hsv Hsig Hn Ht Hi Hsh Hl Hnow Hcl.
  assert (wp (get_state env old) (fun _ s' => during (io s)
    (if must_set locks (difference now time) then [time] else [])
    (lock_flags locks, poscnt (displaystat s) + 1, 6, 6) s') s) as H.
  { unfold get_state. apply wp_bind. eapply wp_mono.
    - eapply (poll_card_run env (io s) t now locks Ht Hi Hsh Hl Hnow Hcl); [|exact Hn].
      split; [done|]. split; [by exists []|]. unfold tracked. rewrite Hsv, Hsig. reflexivity.
    - intros x s' [Ex Hp]. rewrite Ex. apply wp_bind. eapply wp_mono.
      + apply (adjust_clock_run env (io s) t now locks Ht Hi Hsh Hcl _ _ Hp).
      + intros u s2 H2. eapply wp_mono; [apply (note_events_run _ _ _ _ H2)|done]. }
  apply wp_run in H as ([] & s' & E & _ & (es & Es & Eio) & Htr).
  exists s', es. split_and!; [done..|]. unfold tracked in Htr. injection Htr as -> -> -> _ _ _. done.
Qed.

(** C34: round trip of the compare register: what set_time_compare_register
    stores get_compare_time reads back, to the microsecond, as long as the
    system clock is in the same year; as [mktime] takes a local time, the
    seconds come back less the offset of the time zone. *)
Theorem compare_roundtrip env s sec nsec :
  mapped s = true → 0 ≤ sec ≤ int_max → 0 ≤ nsec < 10 ^ 9 → keeps env 312 → keeps env 316 →
  (∀ h, gm_year (sysclock env h).1 = gm_year sec) → is_int (sec - tz env) →
  ∃ s1 s2, set_time_compare_register 0 (sec, nsec) s = Ok (tt, s1) ∧
    get_compare_time env s1 = Ok ((sec - tz env, (sec - tz env, 1000 * (nsec / 1000))), s2).
Proof.
  intros Hm Hs Hn K1 K2 Hy Hi. eexists. eexists. split; [by apply set_compare_run|].
  eapply (get_compare_run env sec nsec Hs Hn); done.
Qed.

(** ** Witnesses *)

(** A card that captured an event at 14:03:59.1234567 on day 95 of 2007 and shows
    that time, with all locks; a system clock two seconds ahead; local time UTC. *)
Definition demo_date : date := mk_date 2007 95 14 3 59 123456700.

Fixpoint last_write (h : list gps_io) (off : Z) : Z :=
  match h with
  | [] => 0
  | Wr32 o v :: h => if o =? off then v else last_write h off
  | _ :: h => last_write h off
  end.

Definition demo_register (h : list gps_io) (off : Z) : Z :=
  if off =? 254 then 1
  else if off =? 372 then word8 [5; 9; 1; 2; 3; 4; 5; 6]
  else if off =? 376 then word8 [0; 0; 9; 5; 1; 4; 0; 3]
  else if off =? 380 then word8 [0; 0; 7; 0; 2; 0; 0; 7]
  else if off =? 252 then word8 [7; 0; 0; 0; 3; 4; 5; 6]
  else if off =? 256 then word8 [1; 4; 0; 3; 5; 9; 1; 2]
  else if off =? 260 then word8 [2; 0; 0; 7; 7; 0; 9; 5]
  else last_write h off.

Definition demo_env : gps_env :=
  mk_gps_env (fun _ _ => 0) demo_register (fun _ => (1175781841, 123456700)) 0.

Definition demo_gps : gps := (gps0 true) <| locked := 1 |> <| first_gps_lock := 1 |>.

Lemma demo_valid : valid_date demo_date ∧ is_int (date_seconds demo_date - tz demo_env).
Proof. vm_compute. repeat split; discriminate. Qed.

Lemma demo_shows h : shows demo_env h demo_date.
Proof.
  exists (word8 [7; 0; 0; 0; 3; 4; 5; 6]), (word8 [1; 4; 0; 3; 5; 9; 1; 2]),
    (word8 [2; 0; 0; 7; 7; 0; 9; 5]).
  do 3 (split; [intros rs _; reflexivity|]). split; vm_compute; repeat split.
Qed.

Lemma demo_captured h : captured demo_env h demo_date.
Proof.
  exists (word8 [5; 9; 1; 2; 3; 4; 5; 6]), (word8 [0; 0; 9; 5; 1; 4; 0; 3]),
    (word8 [0; 0; 7; 0; 2; 0; 0; 7]).
  split; [reflexivity|]. do 3 (split; [intros rs _; reflexivity|]). split; vm_compute; repeat split.
Qed.

Lemma last_write_keeps es h off v :
  Forall (fun e => match e with Wr8 o _ | Wr32 o _ => o ≠ off | _ => True end) es →
  last_write (es ++ Wr32 off v :: h) off = v.
Proof.
  induction 1 as [|e es He _ IH]; cbn [app last_write]; [by rewrite Z.eqb_refl|].
  destruct e; try done. by rewrite (proj2 (Z.eqb_neq off0 off) He).
Qed.

Lemma demo_keeps off : off = 312 ∨ off = 316 → keeps demo_env off.
Proof. intros Hoff es h v H. cbn [reg32 demo_env]. destruct Hoff as [-> | ->]; unfold demo_register; simpl;
  by rewrite last_write_keeps. Qed.

Lemma clock_disciplined_witness :
  ∃ s' es, get_state demo_env dzero demo_gps = Ok (tt, s') ∧ io s' = (es ++ io demo_gps)%list ∧
    clock_sets es = [(1175781839, 123456700)] ∧
    (gps_lock (displaystat s'), reference_lock (displaystat s'), phase_lock (displaystat s')) = (1, 1, 1).
Proof.
  destruct (clock_disciplined demo_env demo_gps demo_date (1175781841, 123456700) 7 dzero)
    as (s' & es & E); [done|done|done|..].
  - refine (bool_decide_unpack _ _). vm_compute. exact I.
  - apply demo_valid.
  - apply demo_valid.
  - intros es. apply demo_shows.
  - intros es. reflexivity.
  - done.
  - intros es. split; refine (bool_decide_unpack _ _); vm_compute; exact I.
  - exists s', es. assert (must_set 7 (difference (1175781841, 123456700)
      (date_seconds demo_date - tz demo_env, 100 * (d_nsec demo_date / 100))) = true) as Hset
      by (vm_compute; reflexivity).
    rewrite Hset in E. exact E.
Defined.

Lemma compare_roundtrip_witness :
  ∃ s1 s2, set_time_compare_register 0 (1175781900, 250000500) demo_gps = Ok (tt, s1) ∧
    get_compare_time demo_env s1 = Ok ((1175781900, (1175781900, 250000000)), s2).
Proof.
  refine (compare_roundtrip demo_env demo_gps 1175781900 250000500 _ _ _ _ _ _ _).
  - reflexivity.
  - vm_compute. split; discriminate.
  - vm_compute. split; [discriminate|reflexivity].
  - apply demo_keeps. by left.
  - apply demo_keeps. by right.
  - intros h. vm_compute. reflexivity.
  - refine (bool_decide_unpack _ _). vm_compute. exact I.
Defined.
