(* ===== verification/Stamp.v ===== *)
(** * Stamp: the time of a trigger, from the GPS card to the clients

    The trigger of the coordination (Coordination.v) asks the GPS driver (Gps.v)
    for the time of the event and stores it with the program whose thread fired
    the trigger.  Which time that is, and which programs get it. *)

From Stdlib Require Import ZArith Lia Ascii.
From stdpp Require Import base list gmap.
From S2P Require Import Gps.
From S2P Require Import Prelude Types Threads ServerIO Coordination Exchange.
Open Scope Z_scope.
Open Scope cvr_scope.

(** ** Specification *)

(** A computation that takes nothing from the stream of [k]. *)
Definition leaves {A} (k : sock) (m : SM A) : Prop :=
  ∀ s a s', m s = Ok (a, s') → inbox s' !! k = inbox s !! k.

(** The time stamp of a program. *)
Definition time_of (h : gmap Z ControlProgram) (c : Z) : option (Z * Z) :=
  cp ← h !! c; st ← state cp; Some (gpssecond st, gpsnsecond st).

(** The answer of the driver [g] to the server's request is next on its socket. *)
Definition gps_answers (env : gps_env) (g : gps) (s : server) : Prop :=
  ∃ l g' rest, gps_handle env (GpsEventTime GPS_GET_EVENT_TIME) g = Ok (l, g') ∧
    inbox s !! SGps = Some (l ++ rest)%list.

(** ** Theorems: the traffic of the trigger *)

Lemma leaves_bind {A B} k (m : SM A) (f : A → SM B) :
  leaves k m → (∀ a, leaves k (f a)) → leaves k (m ≫= f).
Proof.
  intros Hm Hf s b s'' (a & s' & E1 & E2)%bind_inv. etrans; [by eapply Hf|by eapply Hm].
Qed.

Lemma leaves_ret {A} k (a : A) : leaves k (mret a).
Proof. by intros s b s' [= _ <-]. Qed.

Lemma leaves_fail {A} k e : leaves k (fail e : SM A).
Proof. by intros s a s'. Qed.

Lemma leaves_gets {A} k (f : server → A) : leaves k (gets f).
Proof. by intros s b s' [= _ <-]. Qed.

Lemma leaves_deref {A} k e (o : option A) : leaves k (deref e o : SM A).
Proof. intros s b s'. unfold deref. destruct o; [|done]. by intros [= _ <-]. Qed.

Lemma leaves_modify k f : (∀ s, inbox (f s) = inbox s) → leaves k (modify f).
Proof. intros H s b s' [= _ <-]. by rewrite H. Qed.

Lemma leaves_recv k k' : k ≠ k' → leaves k (recv k').
Proof.
  intros Hne s a s'. unfold recv. destruct (inbox s !! k') as [[|p rest]|]; try done.
  intros [= _ <-]. change (<[k' := rest]> (inbox s) !! k = inbox s !! k). by apply lookup_insert_ne.
Qed.

(** The primitives of the handlers. *)
Ltac leaves_all :=
  repeat (cbn beta iota; lazymatch goal with
    | |- leaves _ (mret _) => apply leaves_ret
    | |- leaves _ (mbind _ _) => apply leaves_bind; [|intros ?]
    | |- leaves _ (recv _) => apply leaves_recv; first [assumption|discriminate]
    | |- leaves _ (gets _) => apply leaves_gets
    | |- leaves _ (deref _ _) => apply leaves_deref
    | |- leaves _ (fail _) => apply leaves_fail
    | |- leaves _ (modify _) => apply leaves_modify; reflexivity
    | |- leaves _ (match ?x with _ => _ end) => destruct x
    | |- leaves _ _ => progress unfold run_steps, driver_request, timing_pretrigger, timing_trigger,
        for_each, id, recv_msg, recv_driver, recv_int, send, emit, lock, unlock, recv_words, locked
    end).

Lemma leaves_request l k k' t : k ≠ k' → leaves k (run_steps (driver_request l k' t)).
Proof.
  intros Hne. leaves_all.
Qed.

(** Nothing before the request to the GPS takes from its stream. *)
Lemma leaves_pre t0 ty : leaves SGps
  (for_each pretrigger_threads run_steps;; emit (EvSleep 1000);; timing_trigger t0 ty).
Proof.
  unfold pretrigger_threads. cbn [for_each]. apply leaves_bind; [|intros _].
  - do 3 (apply leaves_bind; [by apply leaves_request|intros _]). leaves_all.
  - leaves_all.
Qed.

(** The result of the exchange with the GPS. *)
Lemma trigger_pre_time t0 ty s sec nsec dt dst rest x s' :
  inbox s !! SGps = Some (PInt sec :: PInt nsec :: PDriver dt dst :: rest) →
  trigger_pre t0 ty s = Ok (x, s') → x = (sec, nsec).
Proof.
  intros Hin E. unfold trigger_pre in E. apply bind_inv in E as ([] & s1 & E1 & E).
  apply bind_inv in E as ([] & s2 & E2 & E). apply bind_inv in E as ([] & s3 & E3 & E).
  assert (observed SGps latest_clr_fft s3 (heap s3) (PInt sec :: PInt nsec :: PDriver dt dst :: rest)
    (trace s3) (latest_clr_fft s3)) as H.
  { split_and!; try done. rewrite <- Hin. apply (leaves_pre t0 ty s tt s3).
    rewrite (bind_ok _ _ _ _ _ E1), (bind_ok _ _ _ _ _ E2). exact E3. }
  match type of E with ?m s3 = _ => assert (wp m (fun r _ => r = (sec, nsec)) s3) as Hwp end.
  { clear -H. generalize dependent s3. intros s3. generalize (heap s3), (trace s3), (latest_clr_fft s3).
    intros hp tr L H. repeat (view_step; cbn beta iota). done. }
  unfold wp in Hwp. by rewrite E in Hwp.
Qed.

(** ** Theorems: who is stamped *)

(** What the hand-over leaves of the time stamps. *)
Lemma time_of_handover h cs c : time_of (foldl handover h cs) c = time_of h c.
Proof.
  unfold time_of. rewrite handover_fold_lookup. case_match; [|done].
  destruct (h !! c) as [cp|]; [|done]. unfold on_state. simpl. by destruct (state cp).
Qed.

Lemma time_of_alter f a h c : (a = c → ∀ st, gpssecond (f st) = gpssecond st ∧ gpsnsecond (f st) = gpsnsecond st) →
  time_of (alter (on_state f) a h) c = time_of h c.
Proof.
  intros Hf. unfold time_of. destruct (decide (a = c)) as [->|Hne]; [|by rewrite lookup_alter_ne].
  rewrite lookup_alter_eq. destruct (h !! c) as [cp|]; [|done]. simpl.
  destruct (state cp) as [st|]; [|done]. simpl. by destruct (Hf eq_refl st) as [-> ->].
Qed.

Lemma time_of_mark h a c : time_of (mark_ready a h) c = time_of h c.
Proof. unfold mark_ready. case_match; [|done]. by apply time_of_alter. Qed.

Lemma is_active_mark h a c : is_active (mark_ready a h) c = is_active h c.
Proof. unfold mark_ready. case_match; [|done]. apply is_active_alter. Qed.

(** The program that fired has the time, the others keep theirs. *)
Lemma time_of_stamped h a sec nsec c st :
  is_active h a = true → h !! a ≫= state = Some st →
  time_of (stamped a sec nsec h) c = if decide (c = a) then Some (sec, nsec) else time_of h c.
Proof.
  intros Ha Hst. unfold stamped. rewrite Ha. destruct (decide (c = a)) as [->|Hne].
  - unfold time_of. rewrite lookup_alter_eq. destruct (h !! a) as [cp|]; [|done].
    simpl in *. by rewrite Hst.
  - apply time_of_alter. done.
Qed.

(** The time a trigger of [a] leaves in every program. *)
Lemma fires_time s l cs a t0 s' sec nsec dt dst rest :
  threads_are s l → programs_are s l cs → can_mark s a → trigger_state s < 2 →
  all_ready (heap (marked s a)) cs = true → is_active (heap s) a = true →
  inbox s !! SGps = Some (PInt sec :: PInt nsec :: PDriver dt dst :: rest) →
  coordination_handler t0 a s = Ok (tt, s') →
  ∀ c, time_of (heap s') c = if decide (c = a) then Some (sec, nsec) else time_of (heap s) c.
Proof.
  intros Hl Hc Hm Hts Hall Ha Hin E c. pose proof Hm as (cp & Ecp & Hst).
  destruct (coordination_fires_run s l cs a t0 s' Hl Hc Hm Hts Hall E)
    as (_ & _ & _ & (sec' & nsec' & s1 & s2 & Ein & Epre & ->) & _).
  rewrite <- Ein in Hin. pose proof (trigger_pre_time _ _ _ _ _ _ _ _ _ _ Hin Epre) as [= -> ->].
  rewrite time_of_handover. destruct Hst as [[st Est] _].
  { unfold is_active in Ha. rewrite Ecp in Ha. by apply Z.eqb_eq. }
  assert (∃ st', mark_ready a (heap s) !! a ≫= state = Some st') as [st' E'].
  { unfold mark_ready. rewrite Ha, lookup_alter_eq, Ecp. simpl. rewrite Est. by eexists. }
  rewrite (time_of_stamped _ _ _ _ _ st'), time_of_mark; [done| |exact E'].
  by rewrite is_active_mark.
Qed.

(** ** Properties *)

(** C31: the time stamp of a trigger is the time of its event: when the card
    captured an event at a date, the program whose thread fires the trigger is
    stamped with the seconds of that date (in the zone of the driver) and its
    nanoseconds to a tenth of a microsecond, and no other program is stamped:
    the clients that were ready before it keep the time of an earlier trigger. *)
Theorem trigger_stamp_is_event env g d s l cs a t0 s' :
  Gps.serving g → Gps.captured env (Gps.io g) d → Gps.valid_date d →
  is_int (Gps.date_seconds d - Gps.tz env) → gps_answers env g s →
  threads_are s l → programs_are s l cs → can_mark s a → trigger_state s < 2 →
  all_ready (heap (marked s a)) cs = true → is_active (heap s) a = true →
  coordination_handler t0 a s = Ok (tt, s') →
  time_of (heap s') a = Some (Gps.date_seconds d - Gps.tz env, 100 * (Gps.d_nsec d / 100)) ∧
  ∀ c, c ≠ a → time_of (heap s') c = time_of (heap s) c.
Proof.
  intros Hg Hcap Hd Hi (pk & g' & rest & Eg & Hin) Hl Hc Hm Hts Hall Ha E.
  destruct (Gps.event_time_answer env g GPS_GET_EVENT_TIME d Hg Hcap Hd Hi) as (v & _ & Eg').
  rewrite Eg' in Eg. injection Eg as <- _.
  pose proof (fires_time s l cs a t0 s' _ _ _ _ _ Hl Hc Hm Hts Hall Ha Hin E) as Ht.
  split; [by rewrite Ht, decide_True|]. intros c Hne. by rewrite Ht, decide_False.
Qed.

(** C32: an event that was not captured goes unnoticed: the driver answers with
    the status -1 and a time of zero, the server reads the status and ignores
    it, the trigger completes as ever (every program of the list is handed over)
    and the program that fired it is stamped with 1 January 1970. *)
Theorem missed_event_stamps_zero env g s l cs a t0 s' :
  Gps.serving g → Gps.no_event env (Gps.io g) → gps_answers env g s →
  threads_are s l → programs_are s l cs → can_mark s a → trigger_state s < 2 →
  all_ready (heap (marked s a)) cs = true → is_active (heap s) a = true →
  coordination_handler t0 a s = Ok (tt, s') →
  (∃ rest, inbox s !! SGps = Some ([PInt 0; PInt 0; PDriver GPS_GET_EVENT_TIME (-1)] ++ rest)%list) ∧
  time_of (heap s') a = Some (0, 0) ∧ trigger_state s' = 0 ∧
  ∀ c, c ∈ cs → is_ready (heap s') c = false.
Proof.
  intros Hg Hno (pk & g' & rest & Eg & Hin) Hl Hc Hm Hts Hall Ha E.
  rewrite (Gps.no_event_answer env g GPS_GET_EVENT_TIME Hg Hno) in Eg. injection Eg as <- _.
  pose proof (fires_time s l cs a t0 s' _ _ _ _ _ Hl Hc Hm Hts Hall Ha Hin E) as Ht.
  destruct (coordination_fires_run s l cs a t0 s' Hl Hc Hm Hts Hall E) as (_ & Hs & _ & _ & Hr & _).
  split; [by exists rest|]. split; [by rewrite Ht, decide_True|]. by split.
Qed.

(** ** Witnesses *)

(** Two active programs; program 8 became ready before, at time 77. *)
Definition stamp_server (answer : list packet) : server :=
  example_two <| heap ::= alter (on_state (fun st =>
      st <| ready := 1 |> <| gpssecond := 77 |> <| gpsnsecond := 5 |>)) 8 |>
    <| inbox ::= <[SGps := answer]> |>.

Definition event_answer : list packet :=
  [PInt 1175781839; PInt 123456700; PDriver GPS_GET_EVENT_TIME 1175781839].

Definition missed_answer : list packet := [PInt 0; PInt 0; PDriver GPS_GET_EVENT_TIME (-1)].

Lemma stamp_threads answer : threads_are (stamp_server answer) [4; 3].
Proof. exact example_two_threads. Qed.

Lemma stamp_programs answer : programs_are (stamp_server answer) [4; 3] [8; 7].
Proof.
  repeat constructor; (eexists; split; [vm_compute; reflexivity|]; intros _; by eexists).
Qed.

Lemma stamp_mark answer : can_mark (stamp_server answer) 7.
Proof.
  eexists. split; [vm_compute; reflexivity|]. intros _. split; [by eexists|].
  eexists. split; [reflexivity|]. vm_compute. split; discriminate.
Qed.

Definition after_trigger (answer : list packet) : option server :=
  match coordination_handler "0"%char 7 (stamp_server answer) with
  | Ok (_, s) => Some s | Fault _ => None
  end.

(** A card on which no event was captured. *)
Definition quiet_env : Gps.gps_env := Gps.mk_gps_env (fun _ _ => 0) (fun _ _ => 0) (fun _ => (0, 0)) 0.

Lemma trigger_stamp_is_event_witness : ∃ s', after_trigger event_answer = Some s' ∧
  time_of (heap s') 7 = Some (1175781839, 123456700) ∧
  ∀ c, c ≠ 7 → time_of (heap s') c = time_of (heap (stamp_server event_answer)) c.
Proof.
  destruct (coordination_handler "0"%char 7 (stamp_server event_answer)) as [[[] s']|e] eqn:E.
  2: { vm_compute in E. discriminate E. }
  exists s'. split; [unfold after_trigger; by rewrite E|].
  refine (trigger_stamp_is_event Gps.demo_env Gps.demo_gps Gps.demo_date (stamp_server event_answer)
    [4; 3] [8; 7] 7 "0"%char s' _ (Gps.demo_captured _) (proj1 Gps.demo_valid) (proj2 Gps.demo_valid)
    _ (stamp_threads _) (stamp_programs _) (stamp_mark _) _ _ _ E).
  - by split.
  - exists event_answer. eexists. exists []. split; [|by rewrite app_nil_r]. vm_compute. reflexivity.
  - vm_compute. reflexivity.
  - vm_compute. reflexivity.
  - vm_compute. reflexivity.
Defined.

Lemma missed_event_stamps_zero_witness : ∃ s', after_trigger missed_answer = Some s' ∧
  (∃ rest, inbox (stamp_server missed_answer) !! SGps =
     Some ([PInt 0; PInt 0; PDriver GPS_GET_EVENT_TIME (-1)] ++ rest)%list) ∧
  time_of (heap s') 7 = Some (0, 0) ∧ trigger_state s' = 0 ∧
  ∀ c, c ∈ [8; 7] → is_ready (heap s') c = false.
Proof.
  destruct (coordination_handler "0"%char 7 (stamp_server missed_answer)) as [[[] s']|e] eqn:E.
  2: { vm_compute in E. discriminate E. }
  exists s'. split; [unfold after_trigger; by rewrite E|].
  refine (missed_event_stamps_zero quiet_env Gps.demo_gps (stamp_server missed_answer)
    [4; 3] [8; 7] 7 "0"%char s' _ _ _ (stamp_threads _) (stamp_programs _) (stamp_mark _) _ _ _ E).
  - by split.
  - reflexivity.
  - exists missed_answer. eexists. exists []. split; [|by rewrite app_nil_r]. vm_compute. reflexivity.
  - vm_compute. reflexivity.
  - vm_compute. reflexivity.
  - vm_compute. reflexivity.
Defined.
